(* ===== verification/_CoqProject ===== *)
-Q . S2P
Prelude.v
Platform.v
Kdf.v
Ratchet.v
RatchetFacts.v
Conversation.v
Reorder.v
X3dh.v
X3dhFacts.v
VectorsCheck.v
Toy.v
CryptoBox.v
CryptoBoxFacts.v
PrekeyFacts.v
OpenerFacts.v
Persist.v
PersistFacts.v
FileCrypto.v
ListModel.v
LogBuffer.v
LogHandler.v
MessageModel.v
UserModel.v
HistoryStore.v
HistoryFacts.v
Localization.v
Texts.v
Accounts.v
AccountsFacts.v
Settings.v
AppLock.v
AppLockFacts.v
Bridge.v
Lock.v
LockFacts.v
Recovery.v
RecoveryFacts.v
Chat.v
ChatFacts.v
ChatSessions.v
ChatOutbox.v
Export.v
ExportFacts.v
Preferences.v
Messenger.v
Rekey.v
Sending.v
Verification.v
Tls.v
Inbound.v
Transfer.v
Receiving.v
Session.v
Notifier.v
Effects.v
GateFacts.v
GateSteps.v
GateSafety.v
VerifyFacts.v
FlushFacts.v
HeartbeatFacts.v
TypingFacts.v
ForgeryFacts.v
ReplayFacts.v
SeenFacts.v
TransferFacts.v
SessionFacts.v
HandshakeFacts.v
SwitchFacts.v
TalkFacts.v
MeetFacts.v
Samples.v
WitnessesCrypto.v
WitnessesClient.v
WitnessesStore.v
WitnessesLock.v
WitnessesMessenger.v
WitnessesSession.v
WitnessesShell.v
WitnessesTalk.v
