(* ===== verification/Prelude.v ===== *)
(** * A verification of the ChatE2EE desktop and Android client

    ** The program

    The client (client/src/) is an end-to-end encrypted messenger.  Its parts, and
    the files here that model them:

    - the Double Ratchet of one conversation (cryptobox.cpp): [Kdf.v] has the HKDF
      loop, [Ratchet.v] the [RatchetSession] and one definition per static function,
      with [encryptStep] and [decryptStep] for the parts of [encryptFor] and
      [decryptFrom] that act on the session;
    - X3DH (x3dh.cpp): [X3dh.v], Module [X3DH], every function of the namespace, and
      the tool that checks them against a file of vectors (tools/x3dh_vectors_check.cpp):
      [VectorsCheck.v];
    - [CryptoBox] (cryptobox.cpp): [CryptoBox.v] has the data members as a record
      and the member functions for the identity, the prekeys, sessions, the legacy
      bootstrap and messages; [Persist.v] those that write secrets to files and
      blobs and read them back;
    - [FileCrypto] (filecrypto.cpp): [FileCrypto.v];
    - the list models behind the views (logbuffer.cpp, messagemodel.cpp,
      usermodel.cpp): [ListModel.v] is the interface of a model and its view,
      [LogBuffer.v], [MessageModel.v] and [UserModel.v] the three instances;
    - the local database (historystore.cpp): [HistoryStore.v];
    - the language of the interface (localization.cpp): [Localization.v], and its
      three dictionaries in full: [Texts.v];
    - the message handler (main.cpp): [LogHandler.v], the interleaved steps of the
      threads that log;
    - [AppLock] (applock.cpp): [AppLock.v] the Windows side, over the variants of
      [Settings.v]; [Bridge.v], Module [AndroidLock], the Android side with the Java
      vault behind it (BiometricHelper.java);
    - notifications (desktopnotifier.cpp, androidnotifier.cpp): [Notifier.v], with
      what ChatClient announces and opens;
    - [ChatClient] (chatclient.cpp), which owns the others: [Accounts.v] has the
      identity files of an account, [Chat.v] the conversation on screen, deletion and
      reactions, sessions and prekeys at rest and the queue as it is stored,
      [Lock.v] the lock of the app, [Recovery.v] password recovery and biometric
      login, [Export.v] (Module [Transcript]) the export of a conversation,
      [Preferences.v] themes and remembered names;
    - the messaging core of [ChatClient]: [Messenger.v] has its members, the frames
      of both directions and the monad its operations are written in; [Rekey.v] the
      heartbeat of post-compromise security; [Sending.v] sending, files and the
      draining of the queue; [Verification.v] the gate that safety numbers put on a
      conversation; [Inbound.v] and [Transfer.v] the messages and files that come in;
      [Receiving.v] what each frame does, and [run_client_op], the entry points: the
      user, the relay and the timers;
    - the sessions of [ChatClient]: [Tls.v] has what a connection trusts, [Session.v]
      login, registration, the handshake with the relay, logout, and what connections,
      closes and timers do.  Its [run_session_op] contains every [run_client_op].

    ** Conventions

    A class is a record of its data members; a member function takes the record last
    and returns its result with the new record.  A function that returns [false] and
    changes nothing is an [option].  Octets are [list byte]; integers are [Z] with
    [u32] and the like written where the width matters; a QHash is a [gmap], and
    where the order of its iteration can be seen it comes from [QHashOrder], which
    says only that the items are some permutation.  What the code draws
    (randombytes_buf, uuids, the clock) and what it is told (does a write fit, does
    a statement run) are arguments, so a theorem holds for every such answer.  In the
    messaging core these are the values of an [Oracle], one after another, and an
    operation returns its result, the new state and the events it emits: frames
    handed to the socket and signals.

    ** What is a parameter

    [Platform.v] declares, as type classes, what the code takes from libsodium and
    Qt: [Sodium], [QtText], [QDataStream], [QStringOrder], [SqlOrder] and others.
    Their laws, also classes, state documented behaviour: opening what was sealed
    under the same key, nonce and associated data gives the plaintext, X25519 of two
    honest key pairs agrees, a signature made with a key verifies under it, what
    QDataStream writes it reads back.  No secrecy or unforgeability is assumed, and
    none is claimed.  [Toy.v] gives a small executable instance of every class and
    proves its laws, so every hypothesis can hold; [Samples.v] and the files
    [Witnesses...v] apply each property with hypotheses to concrete data there.

    ** The theorems

    - Ratchet ([RatchetFacts.v], [Reorder.v], [Conversation.v]): sessions stay
      well-formed whatever frame they accept (the width of a ratchet key that comes in
      is checked nowhere, and is a condition where it matters); the store of skipped keys and the work of a frame are bounded; at
      most two generations of keys are kept; any selection and order of the messages
      of a chain is read.  [Conversation.v] has the invariant of two linked sessions.
    - Key agreement and conversations ([X3dhFacts.v], [CryptoBoxFacts.v],
      [PrekeyFacts.v], [OpenerFacts.v], [VectorsCheck.v]): both sides derive one secret,
      and what the conformance check of the port shows when it passes; a conversation
      opened by X3DH or by the legacy bootstrap is read in every interleaving, and
      frames that are refused in between do it no harm;
      one-time prekeys are spent once; what refills and rotations do to bundles that
      were served before.
    - At rest ([PersistFacts.v], [AccountsFacts.v], [FileCrypto.v]): round trips of
      identities, prekeys, sessions and files; when an account can log in again, and
      three ways it cannot.
    - Views ([LogBuffer.v], [MessageModel.v], [UserModel.v]): the model's invariants,
      and that a view which follows the signals shows the model, with the exceptions.
    - Store ([HistoryFacts.v]): upgrades of old files, the queue, notes, reactions,
      marks, and which rows are replayed.
    - Client ([ChatFacts.v], [ChatSessions.v], [ChatOutbox.v]): what a reopened
      conversation shows; conversations and queued texts across a restart.

    - Lock and recovery ([AppLockFacts.v], [LockFacts.v], [RecoveryFacts.v]): what
      opens a locked app (the PIN set last, the password of the account, the prompt of the
      platform), that the lock only covers a session, the price and the rate of recovery,
      biometric login, and the states that lock a user out.
    - Messaging core.  [Effects.v] is a logic of operations: an effect relates the
      client before, the events and the client after, and is shown of the steps that
      matter.  [GateFacts.v] and [GateSteps.v] show it of every operation for any
      effect that allows their steps; the theorems are instances: [GateSafety.v] what
      crosses the gate of a contact and what opens it, [VerifyFacts.v] that two
      clients which confirm each other open it, [FlushFacts.v] that a flush of the
      queue accounts for every item, [SeenFacts.v] that a frame is read once in a session,
      [ReplayFacts.v] that the replay of stashed frames ends, [HeartbeatFacts.v],
      [ForgeryFacts.v] and [TypingFacts.v] what goes wrong with offline contacts, stated
      identities and a change of contact.  [TalkFacts.v] follows one client through
      writing and hearing a text, the bootstrap of the session and the heartbeat included;
      [MeetFacts.v] joins two of them through a relay that hands every frame on: whatever
      their users write, both screens show the same conversation.  [TransferFacts.v]
      follows a file from the sender's disk to the receiver's.
    - Sessions ([SessionFacts.v], [HandshakeFacts.v], [SwitchFacts.v], [Tls.v]): a logout
      leaves nothing of the user but named remains; a session that is over reaches out
      no more; every device derives the same verifier; how long a lost relay is waited
      for; what one user of the process leaves to the next; whom a connection trusts.
    - Around it ([ExportFacts.v], [Preferences.v], [Texts.v], [LogHandler.v],
      [Bridge.v], [Notifier.v]): an export shows what the screen shows and its HTML holds
      nothing but text; every text exists in every language; no log record is lost track
      of, and the race that strands one; what the vault of Android gives back, and when
      it cannot; what a click on a notification opens.

    ** Loops and fuel

    A loop over a list is a structural recursion on it.  The loop of [skipTo] has the
    fuel [kMaxSkip]: the guard before it bounds the number of steps by that, and the
    theorem [skipTo_dos_bound] says the claimed index is reached.  The HKDF loop has
    one step per output block; its equation is [hkdf_rfc5869].  [decryptStep] needs
    no fuel of its own.  The wait of [AppLock] has the fuel [await_fuel], shown never
    to run out; the chunks of a file are read with one unit of fuel per octet and one
    more, and every chunk but the last takes at least one octet.  [handleServerFrame]
    calls itself for stashed frames: [replay_settles] shows that the fuel
    [kReplayFuel] is more than enough.  The relay of [MeetFacts.v] carries a message and
    the answers to it, and [conversation_shown] shows that no answer is answered.

    ** Not modelled

    Sockets and the TLS handshake itself, the intervals of timers (a timer is a step
    that may come whenever it is armed; the idle timer of typing, whenever it likes),
    the QML pages, the icons and the layout of JNI calls, main() beyond its message
    handler, libsodium and Qt themselves (parameters), and the relay server, which is
    another program in Python.  A text is a sequence of Unicode characters: lone surrogates
    are left aside.  JSON is parsed by Qt: a frame is what it parses to.  The
    interface declarations by which applock.cpp reaches Windows are one answer each. *)

From stdpp Require Export base gmap strings list fin_maps sorting numbers.
From Stdlib Require Import Strings.Byte.
From stdpp Require Export list list_basics list_relations list_monad
  list_misc.

#[global] Set Default Goal Selector "!".

(** An equation between closed terms: both sides are evaluated, and compared once. *)
Ltac by_run := vm_compute; first [reflexivity | done].

(** ** Bytes

    A [QByteArray] and a [std::vector<unsigned char>] are both sequences of
    octets; both are modelled as [list byte]. *)

Abbreviation byte := Byte.byte.
Abbreviation bytes := (list Byte.byte).

#[export] Instance byte_eq_dec : EqDecision byte := Byte.byte_eq_dec.

#[export] Program Instance byte_countable : Countable byte :=
  {| encode b := encode (Byte.to_N b);
     decode p := n ← decode p; Byte.of_N n |}.
Next Obligation.
  intros b. cbn beta. rewrite (decode_encode (A:=N)). apply Byte.of_to_N.
Qed.

#[export] Instance byte_inhabited : Inhabited byte := populate Byte.x00.

(** The value of an octet, and [static_cast<unsigned char>] of an integer. *)
Definition byte_val (b : byte) : Z := Z.of_N (Byte.to_N b).

Definition byte_of_Z (z : Z) : byte :=
  default Byte.x00 (Byte.of_N (Z.to_N (z mod 256))).

Lemma byte_val_range b : (0 ≤ byte_val b < 256)%Z.
Proof.
  unfold byte_val. pose proof (Byte.to_N_bounded b). lia.
Qed.

Lemma byte_val_of_Z z : byte_val (byte_of_Z z) = (z mod 256)%Z.
Proof.
  unfold byte_val, byte_of_Z.
  pose proof (Z.mod_pos_bound z 256 ltac:(lia)) as Hr.
  destruct (Byte.of_N (Z.to_N (z mod 256))) as [b|] eqn:E; simpl.
  - apply Byte.to_of_N in E. rewrite E. lia.
  - apply Byte.of_N_None_iff in E. lia.
Qed.

Lemma byte_val_inj a b : byte_val a = byte_val b → a = b.
Proof.
  unfold byte_val. intros H%N2Z.inj.
  pose proof (Byte.of_to_N a) as Ha. pose proof (Byte.of_to_N b) as Hb.
  rewrite H in Ha. congruence.
Qed.

Lemma byte_of_Z_val b : byte_of_Z (byte_val b) = b.
Proof.
  apply byte_val_inj. rewrite byte_val_of_Z.
  apply Z.mod_small, byte_val_range.
Qed.

(** String literals used as byte strings (domain separators, cipher tags). *)
Definition lit (s : string) : bytes := String.list_byte_of_string s.

Definition zeros (n : nat) : bytes := replicate n Byte.x00.

(** ** Machine integers *)

Definition u32 (z : Z) : Z := (z mod 2 ^ 32)%Z.
Definition is_u32 (z : Z) : Prop := (0 ≤ z < 2 ^ 32)%Z.

Lemma u32_small z : is_u32 z → u32 z = z.
Proof. intros H. apply Z.mod_small, H. Qed.

Lemma u32_range z : is_u32 (u32 z).
Proof. apply Z.mod_pos_bound. lia. Qed.

(** [for (int s = 24; s >= 0; s -= 8) a.append(char((n >> s) & 0xff))] *)
Definition be32 (n : Z) : bytes :=
  (λ s, byte_of_Z (Z.land (Z.shiftr n s) 255)) <$> [24; 16; 8; 0]%Z.

Lemma be32_length n : length (be32 n) = 4.
Proof. reflexivity. Qed.

Lemma land_255 z : Z.land z 255 = (z mod 256)%Z.
Proof. change 255%Z with (Z.ones 8). rewrite Z.land_ones by lia. reflexivity. Qed.

Lemma be32_val n :
  is_u32 n →
  byte_val <$> be32 n
  = [n / 2 ^ 24; (n / 2 ^ 16) mod 256; (n / 2 ^ 8) mod 256; n mod 256]%Z.
Proof.
  intros [H0 H1]. unfold be32. simpl fmap.
  rewrite !byte_val_of_Z, !land_255, !Z.shiftr_div_pow2 by lia.
  rewrite !Z.mod_mod by lia. rewrite Z.pow_0_r, Z.div_1_r.
  rewrite (Z.mod_small (n / 2 ^ 24)); [done|].
  split; [apply Z.div_pos; lia | apply Z.div_lt_upper_bound; lia].
Qed.

Lemma be32_inj n m : is_u32 n → is_u32 m → be32 n = be32 m → n = m.
Proof.
  intros Hn Hm H. apply (f_equal (fmap byte_val)) in H.
  rewrite !be32_val in H by done.
  injection H as H1 H2 H3 H4.
  assert (Hd : ∀ k, (((k / 2 ^ 24 * 256 + (k / 2 ^ 16) mod 256) * 256
      + (k / 2 ^ 8) mod 256) * 256 + k mod 256)%Z = k).
  { intros k. change (2 ^ 24)%Z with (256 * 256 * 256)%Z.
    change (2 ^ 16)%Z with (256 * 256)%Z. change (2 ^ 8)%Z with 256%Z.
    rewrite <- !Z.div_div by lia.
    pose proof (Z.div_mod k 256). pose proof (Z.div_mod (k / 256) 256).
    pose proof (Z.div_mod (k / 256 / 256) 256). lia. }
  rewrite <- (Hd n), <- (Hd m). congruence.
Qed.

(** ** [memcmp]: the sign of the first difference over the first [n] octets *)

Fixpoint memcmp (a b : bytes) (n : nat) : Z :=
  match n, a, b with
  | S n', x :: a', y :: b' =>
      if (byte_val x <? byte_val y)%Z then -1
      else if (byte_val y <? byte_val x)%Z then 1
      else memcmp a' b' n'
  | _, _, _ => 0
  end.

Lemma memcmp_antisym a b n : memcmp b a n = (- memcmp a b n)%Z.
Proof.
  revert a b. induction n as [|n IH]; intros a b; [by destruct a, b|].
  destruct a as [|x a], b as [|y b]; [done..|]. simpl.
  destruct (Z.ltb_spec (byte_val x) (byte_val y)),
    (Z.ltb_spec (byte_val y) (byte_val x)); try lia. apply IH.
Qed.

Lemma memcmp_eq a b n :
  length a = n → length b = n → memcmp a b n = 0%Z ↔ a = b.
Proof.
  revert a b. induction n as [|n IH]; intros a b Ha Hb;
    [by destruct a, b|].
  destruct a as [|x a], b as [|y b]; simplify_eq/=.
  destruct (Z.ltb_spec (byte_val x) (byte_val y)).
  { split; [lia|]. intros [= -> ->]. lia. }
  destruct (Z.ltb_spec (byte_val y) (byte_val x)).
  { split; [lia|]. intros [= -> ->]. lia. }
  rewrite (IH a b) by congruence. split; [|naive_solver].
  intros ->. f_equal. apply byte_val_inj. lia.
Qed.

(** ** Lists *)

Lemma drop_app_exact {A} (l k : list A) n : length l = n → drop n (l ++ k) = k.
Proof. intros <-. apply drop_app_length. Qed.

Lemma take_app_exact {A} (l k : list A) n : length l = n → take n (l ++ k) = l.
Proof. intros <-. apply take_app_length. Qed.

Lemma map_Forall_subseteq `{Countable K} {A} (P : K → A → Prop) (m1 m2 : gmap K A) :
  m1 ⊆ m2 → map_Forall P m2 → map_Forall P m1.
Proof. intros Hsub HP k x Hk. apply HP. by eapply lookup_weaken. Qed.

(** A failing computation: [None] is the early [return false] / [return {}]. *)
Declare Scope code_scope.
Delimit Scope code_scope with code.
Notation "'let?' x ':=' e 'in' k" := (match e with Some x => k | None => None end)
  (at level 10, x pattern, e at level 100, k at level 200)
  : code_scope.
Notation "'guard?' b ';' k" := (if b then k else None)
  (at level 10, b at level 100, k at level 200) : code_scope.

(** ** Automation *)

Create HintDb chat.
Create Rewrite HintDb chat.
#[export] Hint Resolve u32_range byte_val_range : chat.
#[export] Hint Rewrite be32_length byte_val_of_Z : chat.

(** Split every conjunction and existential of the context. *)
Ltac deconj :=
  repeat match goal with
  | H : _ ∧ _ |- _ => destruct H
  | H : ∃ _, _ |- _ => destruct H
  end.

(** Split [Forall] of an explicit list into one hypothesis per element. *)
Ltac split_Forall :=
  repeat match goal with
  | H : Forall _ (_ :: _) |- _ => apply Forall_cons_iff in H as [? H]
  end.

(** Case analysis on every [if]/[match] of a hypothesis or of the goal. *)
Ltac break := repeat (case_match; simplify_eq/=; try done).

(** ** Strings as lists of characters *)
Lemma list_ascii_app x y :
  String.list_ascii_of_string (x +:+ y)
  = String.list_ascii_of_string x ++ String.list_ascii_of_string y.
Proof. induction x as [|c x IH]; [done|]. by apply (f_equal (cons c)). Qed.

Lemma list_ascii_inj x y :
  String.list_ascii_of_string x = String.list_ascii_of_string y → x = y.
Proof.
  intros H. rewrite <- (String.string_of_list_ascii_of_string x), H.
  apply String.string_of_list_ascii_of_string.
Qed.

(** ** Filters *)
Lemma filter_ext_in {A} (P Q : A → Prop) `{!∀ x, Decision (P x)} `{!∀ x, Decision (Q x)}
    (l : list A) :
  (∀ x, x ∈ l → P x ↔ Q x) → filter P l = filter Q l.
Proof.
  induction l as [|x l IH]; intros Hpq; [done|]. rewrite !filter_cons, IH.
  - destruct (Hpq x); [by left|]. by repeat case_decide; try tauto.
  - intros y Hy. apply Hpq. by right.
Qed.

Lemma filter_all {A} (P : A → Prop) `{!∀ x, Decision (P x)} (l : list A) :
  Forall P l → filter P l = l.
Proof.
  induction 1 as [|x l Hx _ IH]; [done|]. by rewrite filter_cons, decide_True, IH.
Qed.
