(* ===== verification/Platform.v ===== *)
(** * The interfaces of the code that is not in the repository

    The client calls libsodium for every primitive and Qt for text, hashing and
    serialisation.  Neither is in [src/] as source, so each is a class of
    operations, with the documented behaviour that the client relies on as a
    separate class of laws.  Definitions of the development only take the
    operations; a theorem that needs a law names the law class.

    Fixed-size C buffers are read by [mem_read]: libsodium reads a key, a nonce
    or a point of a fixed width from the pointer it is given, whatever the
    length of the [QByteArray] behind it.  [beyond b] stands for the octets that
    follow the buffer [b] in memory.

    A text stands for a [QString] that is a sequence of Unicode characters, for which
    UTF-8 loses nothing.  A [QString] with a lone surrogate, which [toUtf8] replaces, is
    outside the model. *)

From S2P Require Import Prelude.

(** ** libsodium *)

(** crypto_secretstream_xchacha20poly1305_state: a C struct, opaque octets to the code. *)
Definition ss_state : Type := bytes.

Class Sodium := {
  (* crypto_auth_hmacsha256: key, message *)
  hmac_sha256 : bytes → bytes → bytes;
  (* crypto_scalarmult_base; crypto_scalarmult (None is the return value -1) *)
  scalarmult_base : bytes → bytes;
  scalarmult : bytes → bytes → option bytes;
  (* crypto_sign_seed_keypair: seed to (public key, secret key) *)
  sign_seed_keypair : bytes → option (bytes * bytes);
  sk_to_curve25519 : bytes → option bytes;
  pk_to_curve25519 : bytes → option bytes;
  (* crypto_sign_detached: message, secret key *)
  sign_detached : bytes → bytes → option bytes;
  (* crypto_sign_verify_detached: signature, message, public key *)
  verify_detached : bytes → bytes → bytes → bool;
  (* AEADs: key, nonce, associated data, plaintext / ciphertext *)
  aes256gcm_encrypt : bytes → bytes → bytes → bytes → bytes;
  aes256gcm_decrypt : bytes → bytes → bytes → bytes → option bytes;
  xchacha_encrypt : bytes → bytes → bytes → bytes → bytes;
  xchacha_decrypt : bytes → bytes → bytes → bytes → option bytes;
  (* crypto_secretbox_easy / _open_easy: key, nonce, text *)
  secretbox_easy : bytes → bytes → bytes → bytes;
  secretbox_open_easy : bytes → bytes → bytes → option bytes;
  (* crypto_pwhash (Argon2id, interactive limits): input, salt *)
  pwhash : bytes → bytes → option bytes;
  (* crypto_secretstream_xchacha20poly1305_* *)
  ss_zero : ss_state;
  ss_init_push : bytes → bytes → option (ss_state * bytes);
  ss_push : ss_state → bytes → Z → option (ss_state * bytes);
  ss_init_pull : bytes → bytes → option ss_state;
  ss_pull : ss_state → bytes → option (ss_state * bytes * Z);
  (* the octets that follow a buffer in memory *)
  beyond : bytes → bytes;
}.

(** Reading [n] octets from the pointer of a buffer. *)
Definition mem_read `{Sodium} (n : nat) (b : bytes) : bytes :=
  take n (b ++ beyond b).

#[global] Arguments mem_read : simpl never.

Lemma mem_read_exact `{Sodium} n b : length b = n → mem_read n b = b.
Proof. intros H1. unfold mem_read. by apply take_app_exact. Qed.

(** Documented behaviour of the primitives.  Lengths are those of the headers
    under [client/third_party/libsodium/include/sodium]. *)
Class SodiumLaws `{Sodium} := {
  hmac_length k m : length (hmac_sha256 k m) = 32;
  scalarmult_base_length k : length k = 32 → length (scalarmult_base k) = 32;
  (* X25519 of two honest key pairs commutes and is never degenerate *)
  scalarmult_agree a b :
    length a = 32 → length b = 32 →
    scalarmult a (scalarmult_base b) = scalarmult b (scalarmult_base a);
  scalarmult_honest a b :
    length a = 32 → length b = 32 →
    is_Some (scalarmult a (scalarmult_base b));
  scalarmult_length a p s : scalarmult a p = Some s → length s = 32;
  (* Ed25519: key generation, signatures, and the map to X25519 *)
  seed_keypair_total seed :
    length seed = 32 → is_Some (sign_seed_keypair seed);
  seed_keypair_length seed pk sk :
    sign_seed_keypair seed = Some (pk, sk) → length pk = 32 ∧ length sk = 64;
  sk_to_curve_total seed pk sk :
    sign_seed_keypair seed = Some (pk, sk) →
    ∃ x, sk_to_curve25519 sk = Some x ∧ length x = 32 ∧
         pk_to_curve25519 pk = Some (scalarmult_base x);
  pk_to_curve_length p x : pk_to_curve25519 p = Some x → length x = 32;
  sign_total seed pk sk m :
    sign_seed_keypair seed = Some (pk, sk) →
    ∃ sig, sign_detached m sk = Some sig ∧ length sig = 64 ∧
           verify_detached sig m pk = true;
  (* authenticated encryption opens what it sealed *)
  aes_open k n a p :
    aes256gcm_decrypt k n a (aes256gcm_encrypt k n a p) = Some p;
  xchacha_open k n a p :
    xchacha_decrypt k n a (xchacha_encrypt k n a p) = Some p;
  secretbox_open k n p :
    secretbox_open_easy k n (secretbox_easy k n p) = Some p;
  secretbox_length k n p : length (secretbox_easy k n p) = length p + 16;
  secretbox_open_length k n c p :
    secretbox_open_easy k n c = Some p → length p + 16 = length c;
  pwhash_length i s k : pwhash i s = Some k → length k = 32;
}.

(** Secretstream: a pull stream opened with the key and the header of a push
    stream follows it chunk by chunk. *)
Class SecretstreamLaws `{Sodium} (ss_paired : ss_state → ss_state → Prop) := {
  ss_init_pair key rnd :
    length key = 32 →
    ∃ st h st', ss_init_push key rnd = Some (st, h) ∧ length h = 24 ∧
                ss_init_pull h key = Some st' ∧ ss_paired st st';
  ss_push_pull st st' p t :
    ss_paired st st' → (0 ≤ t < 256)%Z →
    ∃ s1 c s2, ss_push st p t = Some (s1, c) ∧ length c = length p + 17 ∧
               ss_pull st' c = Some (s2, p, t) ∧ ss_paired s1 s2;
}.

(** ** Qt text and hashing *)

Class QtText := {
  toUtf8 : string → bytes;
  fromUtf8 : bytes → string;
  toLatin1 : string → bytes;
  fromLatin1 : bytes → string;
  toHex : bytes → bytes;
  fromHex : bytes → bytes;
  qt_sha256 : bytes → bytes;
}.

Class QtTextLaws `{QtText} := {
  fromUtf8_toUtf8 s : fromUtf8 (toUtf8 s) = s;
  toLatin1_fromLatin1 b : toLatin1 (fromLatin1 b) = b;
  fromHex_toHex b : fromHex (toHex b) = b;
  sha256_length b : length (qt_sha256 b) = 32;
}.

(** The hexadecimal text of a byte string, and back, as the client writes them:
    [QString::fromLatin1(b.toHex())] and [QByteArray::fromHex(s.toLatin1())]. *)
Definition hexStr `{QtText} (b : bytes) : string := fromLatin1 (toHex b).
Definition unhexStr `{QtText} (s : string) : bytes := fromHex (toLatin1 s).

Lemma unhexStr_hexStr `{QtTextLaws} b : unhexStr (hexStr b) = b.
Proof. unfold unhexStr, hexStr. by rewrite toLatin1_fromLatin1, fromHex_toHex. Qed.

(** The hexadecimal text of a byte string has two digits per octet. *)
Definition is_hex_digit (c : Ascii.ascii) : bool :=
  let n := Z.of_N (Ascii.N_of_ascii c) in
  ((48 <=? n) && (n <=? 57) || (97 <=? n) && (n <=? 102))%Z%bool.

Class QtHexLaws `{QtText} := {
  hexStr_digits b : Forall is_hex_digit (String.list_ascii_of_string (hexStr b));
  hexStr_length b : String.length (hexStr b) = 2 * length b;
  toHex_length b : length (toHex b) = 2 * length b;
  hexStr_utf8 b : fromUtf8 (toHex b) = hexStr b;
  toUtf8_hexStr b : toUtf8 (hexStr b) = toHex b;
}.

Lemma hexStr_nonempty `{QtHexLaws} b : b ≠ [] → String.eqb (hexStr b) "" = false.
Proof.
  intros Hb. destruct (String.eqb_spec (hexStr b) "") as [E|]; [|done].
  apply (f_equal String.length) in E. rewrite hexStr_length in E. by destruct b.
Qed.

(** ** Qt containers

    [QHash] iterates in an order of its own; the order is a permutation of the
    entries.  ([erase] does not rehash, so erasing while iterating visits each
    remaining entry once.) *)
Class QHashOrder := {
  qhash_items {A} : gmap bytes A → list (bytes * A);
  qhash_items_perm {A} (m : gmap bytes A) : qhash_items m ≡ₚ map_to_list m;
}.

(** A [QSet] of names iterates in an order of its own too, and
    [QString::compare(., Qt::CaseInsensitive)] is a total preorder given by the
    sign of an integer. *)
Class QStringOrder := {
  qset_items : gset string → list string;
  qset_items_perm s : qset_items s ≡ₚ elements s;
  compareCI : string → string → Z;
}.

Class QStringOrderLaws `{QStringOrder} := {
  compareCI_refl a : compareCI a a = 0%Z;
  compareCI_antisym a b : (compareCI a b < 0 ↔ 0 < compareCI b a)%Z;
  compareCI_trans a b c :
    (compareCI a b ≤ 0 → compareCI b c ≤ 0 → compareCI a c ≤ 0)%Z;
}.

(** [QChar::isLetterOrNumber], and the order in which SQLite returns the rows of a
    query without [ORDER BY]. *)
Class QCharClass := { isLetterOrNumber : Ascii.ascii → bool }.

(** [QString::trimmed]. *)
Class QTrim := { trimmed : string → string }.

Class SqlOrder := {
  sql_scan {K A} `{Countable K} : gmap K A → list (K * A);
  sql_scan_perm {K A} `{Countable K} (m : gmap K A) : sql_scan m ≡ₚ map_to_list m;
}.

(** [QMap] iterates in ascending key order. *)
Definition key_le {A} (p q : Z * A) : Prop := (p.1 ≤ q.1)%Z.

#[export] Instance key_le_dec {A} : RelDecision (@key_le A).
Proof. intros p q. unfold key_le. apply _. Defined.

Definition qmap_items {A} (m : gmap Z A) : list (Z * A) :=
  merge_sort key_le (map_to_list m).

Lemma qmap_items_perm {A} (m : gmap Z A) : qmap_items m ≡ₚ map_to_list m.
Proof. apply merge_sort_Permutation. Qed.

(** ** QDataStream

    A reader is the unread octets and the sticky [status() == Ok].  Each writer
    appends its encoding; the laws say that a reader positioned at an encoding
    returns the value and advances past it. *)

Record dstream := { ds_data : bytes; ds_ok : bool }.

Definition ds_open (b : bytes) : dstream := {| ds_data := b; ds_ok := true |}.

Class QDataStream := {
  put_u8 : Z → bytes;
  put_u32 : Z → bytes;
  put_i64 : Z → bytes;
  put_bool : bool → bytes;
  put_bytes : bytes → bytes;
  get_u8 : dstream → Z * dstream;
  get_u32 : dstream → Z * dstream;
  get_i64 : dstream → Z * dstream;
  get_bool : dstream → bool * dstream;
  get_bytes : dstream → bytes * dstream;
}.

Definition is_i64 (z : Z) : Prop := (- 2 ^ 63 ≤ z < 2 ^ 63)%Z.

Class QDataStreamLaws `{QDataStream} := {
  get_put_u8 v r : (0 ≤ v < 256)%Z →
    get_u8 (ds_open (put_u8 v ++ r)) = (v, ds_open r);
  get_put_u32 v r : is_u32 v →
    get_u32 (ds_open (put_u32 v ++ r)) = (v, ds_open r);
  get_put_i64 v r : is_i64 v →
    get_i64 (ds_open (put_i64 v ++ r)) = (v, ds_open r);
  get_put_bool v r :
    get_bool (ds_open (put_bool v ++ r)) = (v, ds_open r);
  get_put_bytes v r : (Z.of_nat (length v) < 2 ^ 32 - 1)%Z →
    get_bytes (ds_open (put_bytes v ++ r)) = (v, ds_open r);
  put_u8_length v : length (put_u8 v) = 1;
  put_u32_length v : length (put_u32 v) = 4;
  put_i64_length v : length (put_i64 v) = 8;
}.

(** [readRawData]: the octets read, fewer than asked for at the end. *)
Definition read_raw (n : nat) (s : dstream) : bytes * dstream :=
  (take n (ds_data s), {| ds_data := drop n (ds_data s); ds_ok := ds_ok s |}).

Lemma read_raw_app n b r ok :
  length b = n →
  read_raw n {| ds_data := b ++ r; ds_ok := ok |} = (b, {| ds_data := r; ds_ok := ok |}).
Proof.
  intros Hn. unfold read_raw; simpl. by rewrite take_app_exact, drop_app_exact.
Qed.

#[export] Hint Rewrite @unhexStr_hexStr @mem_read_exact using done : chat.
#[export] Hint Resolve hmac_length scalarmult_base_length : chat.
