(* ===== verification/Kdf.v ===== *)
(** * HKDF-SHA256 and the ratchet key-derivation functions

    [client/src/cryptobox.cpp] builds HKDF from HMAC-SHA256 (an older libsodium
    has no HKDF) and [client/src/filecrypto.cpp] has a one-block variant.  The
    loop is proved equal to the definition of RFC 5869, and the one-block
    variant equal to the loop on the lengths it is used at. *)

From S2P Require Import Prelude Platform.

(** ** The domain-separation strings *)
Definition kHkdfInfo : bytes := lit "tamk-chat-e2ee-v1".
Definition kRootInfo : bytes := lit "tamk-chat-ratchet-root-v1".
Definition kLocalInfo : bytes := lit "tamk-chat-local-history-v1".
Definition kFileHkdfPrefix : bytes := lit "tamk-chat-file-v1|".
Definition kX3dhInfo : bytes := lit "tamk-chat-x3dh-v1".
Definition kWrapCtx : bytes := lit "tamk-chat-idkey-wrap-v1".
Definition kVerifyCtx : bytes := lit "tamk-chat-pw-verify-v1".

Section Hkdf.
Context `{Sodium}.

(** The expand loop: [t] is T(i-1), [okm] what has been copied so far.  Each
    pass copies at least one octet, so [okmLen] passes are enough. *)
Fixpoint hkdf_expand (fuel : nat) (prk info t : bytes) (counter : Z)
    (okmLen : nat) (okm : bytes) : bytes :=
  match fuel with
  | O => okm
  | S fuel' =>
      if decide (length okm < okmLen) then
        let t' := hmac_sha256 prk (t ++ info ++ [byte_of_Z counter]) in
        let tLen := length t' in
        let n := if decide (okmLen - length okm < tLen)
                 then okmLen - length okm else tLen in
        hkdf_expand fuel' prk info t' ((counter + 1) mod 256)%Z okmLen
                    (okm ++ take n t')
      else okm
  end.

(** [salt = None] is the null pointer, replaced by 32 zero octets. *)
Definition hkdf (salt : option bytes) (ikm info : bytes) (okmLen : nat) : bytes :=
  let prk := hmac_sha256 (default (zeros 32) salt) ikm in
  hkdf_expand okmLen prk info [] 1 okmLen [].

(** filecrypto.cpp's variant: a single block, at most 32 octets. *)
Definition hkdfSha256 (ikm info : bytes) (okmLen : nat) : bytes :=
  let prk := hmac_sha256 (zeros 32) ikm in
  let t := hmac_sha256 prk (info ++ [byte_of_Z 1]) in
  take (if decide (okmLen ≤ length t) then okmLen else length t) t.

(** ** RFC 5869, section 2.3 *)
Fixpoint rfc_T (prk info : bytes) (i : nat) : bytes :=
  match i with
  | O => []
  | S j => hmac_sha256 prk (rfc_T prk info j ++ info ++ [byte_of_Z (Z.of_nat i)])
  end.

Fixpoint rfc_blocks (prk info : bytes) (n : nat) : bytes :=
  match n with
  | O => []
  | S m => rfc_blocks prk info m ++ rfc_T prk info n
  end.

Definition rfc_okm (prk info : bytes) (n L : nat) : bytes :=
  take L (rfc_blocks prk info n).
End Hkdf.

#[global] Arguments hkdf : simpl never.
#[global] Arguments hkdfSha256 : simpl never.

Section HkdfFacts.
Context `{SodiumLaws}.

Lemma rfc_blocks_length prk info n : length (rfc_blocks prk info n) = 32 * n.
Proof.
  induction n as [|n IH]; [done|].
  cbn [rfc_blocks]. rewrite length_app, IH. cbn [rfc_T]. rewrite hmac_length. lia.
Qed.

(** A prefix does not depend on how many further blocks are produced. *)
Lemma rfc_okm_more prk info i m L :
  i ≤ m → L ≤ 32 * i → rfc_okm prk info m L = rfc_okm prk info i L.
Proof.
  intros Hle HL. induction Hle as [|m Hle IH]; [done|].
  rewrite <- IH. unfold rfc_okm. cbn [rfc_blocks].
  apply take_app_le. rewrite rfc_blocks_length. lia.
Qed.

Lemma rfc_okm_whole prk info i m :
  i ≤ m → rfc_okm prk info m (32 * i) = rfc_blocks prk info i.
Proof.
  intros Hle. rewrite (rfc_okm_more prk info i) by lia. unfold rfc_okm.
  apply take_ge. rewrite rfc_blocks_length. lia.
Qed.

Lemma rfc_okm_partial prk info i m k :
  i < m → k ≤ 32 →
  rfc_okm prk info m (32 * i + k)
  = rfc_blocks prk info i ++ take k (rfc_T prk info (S i)).
Proof.
  intros Hle Hk. rewrite (rfc_okm_more prk info (S i)) by lia.
  unfold rfc_okm. cbn [rfc_blocks].
  apply take_app_add'. by rewrite rfc_blocks_length.
Qed.

Lemma rfc_okm_length prk info m L :
  L ≤ 32 * m → length (rfc_okm prk info m L) = L.
Proof. intros HL. unfold rfc_okm. rewrite length_take, rfc_blocks_length. lia. Qed.

Lemma rfc_T_length prk info i : length (rfc_T prk info (S i)) = 32.
Proof. apply hmac_length. Qed.

(** The loop's octet counter is the block number while it fits an octet. *)
Lemma rfc_T_counter prk info i :
  hmac_sha256 prk (rfc_T prk info i ++ info ++ [byte_of_Z (Z.of_nat (S i) mod 256)])
  = rfc_T prk info (S i).
Proof.
  cbn [rfc_T]. do 4 f_equal. apply byte_val_inj.
  rewrite !byte_val_of_Z. apply Z.mod_mod. lia.
Qed.

Lemma hkdf_expand_done fuel prk info t c okmLen okm :
  okmLen ≤ length okm → hkdf_expand fuel prk info t c okmLen okm = okm.
Proof.
  intros Hle. destruct fuel; [done|]. cbn [hkdf_expand].
  rewrite decide_False; [done|lia].
Qed.

(** After [i] whole blocks the loop holds the first [i] blocks of the RFC. *)
Lemma hkdf_expand_blocks fuel prk info i L m :
  32 * i ≤ L → L ≤ 32 * m → L - 32 * i ≤ fuel →
  hkdf_expand fuel prk info (rfc_T prk info i) (Z.of_nat (S i) mod 256) L
              (rfc_blocks prk info i)
  = rfc_okm prk info m L.
Proof.
  revert i. induction fuel as [|fuel IH]; intros i HiL HLm Hf.
  { assert (L = 32 * i) as -> by lia. rewrite rfc_okm_whole by lia. done. }
  destruct (decide (32 * i < L)) as [Hlt|Hge].
  2: { assert (L = 32 * i) as -> by lia. rewrite rfc_okm_whole by lia.
       apply hkdf_expand_done. rewrite rfc_blocks_length. lia. }
  cbn [hkdf_expand]. rewrite rfc_blocks_length, decide_True by done.
  rewrite rfc_T_counter, rfc_T_length.
  destruct (decide (L - 32 * i < 32)) as [Hp|Hw].
  - rewrite <- rfc_okm_partial with (m := m) by lia.
    replace (32 * i + (L - 32 * i)) with L by lia.
    apply hkdf_expand_done. rewrite rfc_okm_length by lia. lia.
  - rewrite (take_ge (rfc_T _ _ _)) by (rewrite rfc_T_length; lia).
    replace ((Z.of_nat (S i) mod 256 + 1) mod 256)%Z
      with (Z.of_nat (S (S i)) mod 256)%Z
      by (rewrite Zplus_mod_idemp_l; f_equal; lia).
    apply (IH (S i)); lia.
Qed.

Lemma hkdf_length salt ikm info L : length (hkdf salt ikm info L) = L.
Proof.
  unfold hkdf.
  rewrite (hkdf_expand_blocks L (hmac_sha256 _ ikm) info 0 L L) by lia.
  apply rfc_okm_length. lia.
Qed.

(** The prefix of the RFC's block sequence, for any sufficient block count. *)
Lemma hkdf_okm salt ikm info L m :
  L ≤ 32 * m →
  hkdf salt ikm info L
  = rfc_okm (hmac_sha256 (default (zeros 32) salt) ikm) info m L.
Proof.
  intros HL. unfold hkdf.
  apply (hkdf_expand_blocks L (hmac_sha256 _ ikm) info 0 L m); lia.
Qed.

(** the HKDF loop that cryptobox.cpp builds from HMAC-SHA256 computes the
    output of RFC 5869, [T(1) | T(2) | ...] cut to [L] octets, for every salt,
    input, info and every length the RFC allows (at most 255 blocks). *)
Theorem hkdf_rfc5869 salt ikm info L m :
  L ≤ 32 * m → m ≤ 255 →
  hkdf salt ikm info L
  = rfc_okm (hmac_sha256 (default (zeros 32) salt) ikm) info m L.
Proof. intros HL _. by apply hkdf_okm. Qed.

(** filecrypto.cpp's single-block HKDF gives the same key as the general
    loop for every length it can serve (at most 32 octets). *)
Theorem hkdfSha256_is_hkdf ikm info L :
  L ≤ 32 → hkdfSha256 ikm info L = hkdf None ikm info L.
Proof.
  intros HL. rewrite (hkdf_okm None ikm info L 1) by lia.
  unfold hkdfSha256, rfc_okm. cbn -[Z.of_nat]. rewrite hmac_length.
  by rewrite decide_True by lia.
Qed.
End HkdfFacts.

#[export] Hint Resolve hkdf_length : chat.
