(* ===== verification/Ratchet.v ===== *)
(** * The Double Ratchet session (client/src/cryptobox.cpp, cryptobox.h)

    One definition per static function of cryptobox.cpp that acts on a
    [RatchetSession], and the two halves of [encryptFor]/[decryptFrom] that run
    once the session of the peer has been found.  [randombytes_buf] is an
    argument: [rnd] is the octets it returns. *)

From S2P Require Import Prelude Platform Kdf.

(** [struct RatchetSession]. *)
Record RatchetSession := mkSession {
  DHs_priv : bytes;
  DHs_pub : bytes;
  DHr_pub : bytes;
  RK : bytes;
  CKs : bytes;
  CKr : bytes;
  Ns : Z;
  Nr : Z;
  PN : Z;
  haveDHr : bool;
  skipped : gmap bytes bytes;
}.

(** A default-constructed session. *)
Definition empty_session : RatchetSession :=
  mkSession [] [] [] [] [] [] 0 0 0 false ∅.

Definition set_skipped (m : gmap bytes bytes) (s : RatchetSession) : RatchetSession :=
  mkSession (DHs_priv s) (DHs_pub s) (DHr_pub s) (RK s) (CKs s) (CKr s)
            (Ns s) (Nr s) (PN s) (haveDHr s) m.

(** [s.CKs = ck; s.Ns = n] and [s.CKr = ck; s.Nr = n]. *)
Definition set_sending (ck : bytes) (n : Z) (s : RatchetSession) : RatchetSession :=
  mkSession (DHs_priv s) (DHs_pub s) (DHr_pub s) (RK s) ck (CKr s)
            n (Nr s) (PN s) (haveDHr s) (skipped s).

Definition set_receiving (ck : bytes) (n : Z) (s : RatchetSession) : RatchetSession :=
  mkSession (DHs_priv s) (DHs_pub s) (DHr_pub s) (RK s) (CKs s) ck
            (Ns s) n (PN s) (haveDHr s) (skipped s).

Definition kMaxSkip : Z := 1000.
Definition kMaxSkippedTotal : Z := 2 * kMaxSkip.

Definition kCipherAes : bytes := lit "a256gcm-r1".
Definition kCipherXchacha : bytes := lit "xc20p1305-r1".

Section Primitives.
Context `{Sodium}.

(** X25519; the empty array on a degenerate point.  The lengths of the two
    arrays are not looked at: 32 octets are read from each. *)
Definition dhFn (priv pub : bytes) : bytes :=
  match scalarmult (mem_read 32 priv) (mem_read 32 pub) with
  | Some out => out
  | None => []
  end.

Definition genKeypair (rnd : bytes) : bytes * bytes :=
  (rnd, scalarmult_base (mem_read 32 rnd)).

Definition kdfRk (rk dhOut : bytes) : bytes * bytes :=
  let okm := hkdf (Some rk) dhOut kRootInfo 64 in
  (take 32 okm, drop 32 okm).

(** (next chain key, message key) *)
Definition kdfCk (ck : bytes) : bytes * bytes :=
  (hmac_sha256 (mem_read 32 ck) [Byte.x02], hmac_sha256 (mem_read 32 ck) [Byte.x01]).

Definition adBytes (cipher dhPub : bytes) (pn n : Z) : bytes :=
  cipher ++ dhPub ++ be32 pn ++ be32 n.

Definition nonceLenFor (cipher : bytes) : nat :=
  if decide (cipher = kCipherAes) then 12 else 24.

Definition aeadEncrypt (cipher key nonce pt ad : bytes) : bytes :=
  if decide (cipher = kCipherAes)
  then aes256gcm_encrypt (mem_read 32 key) (mem_read 12 nonce) ad pt
  else xchacha_encrypt (mem_read 32 key) (mem_read 24 nonce) ad pt.

Definition aeadDecrypt (cipher key nonce ct ad : bytes) : option bytes :=
  if decide (cipher = kCipherAes)
  then aes256gcm_decrypt (mem_read 32 key) (mem_read 12 nonce) ad ct
  else xchacha_decrypt (mem_read 32 key) (mem_read 24 nonce) ad ct.

Definition skipKey (dhPub : bytes) (n : Z) : bytes := dhPub ++ be32 n.

Definition bootstrapSk (myPriv peerPub : bytes) : bytes :=
  hkdf None (dhFn myPriv peerPub) kHkdfInfo 32.
End Primitives.

#[global] Arguments dhFn : simpl never.
#[global] Arguments genKeypair : simpl never.
#[global] Arguments kdfRk : simpl never.
#[global] Arguments kdfCk : simpl never.
#[global] Arguments aeadEncrypt : simpl never.
#[global] Arguments aeadDecrypt : simpl never.
#[global] Arguments skipKey : simpl never.
#[global] Arguments bootstrapSk : simpl never.

(** ** The store of skipped message keys *)
Section Skipped.
Context `{QHashOrder}.

(** [it.key().left(keepCurrent.size())] is the generation of an entry. *)
Definition purge_keeps (keepCurrent keepPrevious key : bytes) : bool :=
  let gen := take (length keepCurrent) key in
  bool_decide (gen = keepCurrent)
  || (negb (bool_decide (keepPrevious = [])) && bool_decide (gen = keepPrevious)).

Definition purgeUnreachableSkipped (s : RatchetSession)
    (keepCurrent keepPrevious : bytes) : RatchetSession :=
  set_skipped
    (filter (λ kv, Is_true (purge_keeps keepCurrent keepPrevious kv.1)) (skipped s)) s.

(** One [for (it = begin; it != end && size > cap; )] loop: visit the entries
    in order, erase those [victim] selects while the store is over its cap. *)
Fixpoint shed (victim : bytes → bool) (items : list (bytes * bytes))
    (m : gmap bytes bytes) : gmap bytes bytes :=
  match items with
  | [] => m
  | (k, _) :: items' =>
      if (kMaxSkippedTotal <? Z.of_nat (size m))%Z
      then if victim k then shed victim items' (delete k m)
           else shed victim items' m
      else m
  end.

Definition enforceSkippedCap (s : RatchetSession) (keepCurrent : bytes)
    : RatchetSession :=
  if (Z.of_nat (size (skipped s)) <=? kMaxSkippedTotal)%Z then s else
  let isOld k := negb (bool_decide (take (length keepCurrent) k = keepCurrent)) in
  let m1 := shed isOld (qhash_items (skipped s)) (skipped s) in
  let m2 := shed (λ _, true) (qhash_items m1) m1 in
  set_skipped m2 s.
End Skipped.

(** ** Chain and ratchet steps *)
Section Steps.
Context `{Sodium} `{QHashOrder}.

(** The body of [while (s.Nr < until)]. *)
Definition bank_one (s : RatchetSession) : RatchetSession :=
  let '(ckNext, mk) := kdfCk (CKr s) in
  set_receiving ckNext (u32 (Nr s + 1))
    (set_skipped (<[skipKey (DHr_pub s) (Nr s) := mk]> (skipped s)) s).

Fixpoint skip_loop (fuel : nat) (until : Z) (s : RatchetSession) : RatchetSession :=
  match fuel with
  | O => s
  | S f => if (Nr s <? until)%Z then skip_loop f until (bank_one s) else s
  end.

(** [None] is [return false].  The loop runs at most [kMaxSkip] times. *)
Definition skipTo (s : RatchetSession) (until : Z) : option RatchetSession :=
  if (u32 (Nr s + kMaxSkip) <? until)%Z then None else
  if decide (CKr s = []) then Some s else
  let s' := skip_loop (Z.to_nat kMaxSkip) until s in
  Some (enforceSkippedCap s' (DHr_pub s')).

Definition dhRatchet (s : RatchetSession) (dhPub rnd : bytes) : RatchetSession :=
  let supersededGen := DHr_pub s in
  let '(rk1, ckr) := kdfRk (RK s) (dhFn (DHs_priv s) dhPub) in
  let '(priv, pub) := genKeypair rnd in
  let '(rk2, cks) := kdfRk rk1 (dhFn priv dhPub) in
  let s' := mkSession priv pub dhPub rk2 cks ckr 0 0 (Ns s) true (skipped s) in
  enforceSkippedCap (purgeUnreachableSkipped s' dhPub supersededGen) dhPub.

(** The header and ciphertext of one message, before hexadecimal encoding. *)
Record RatchetFrame := mkFrame {
  f_cipher : bytes;
  f_dh : bytes;
  f_pn : Z;
  f_n : Z;
  f_nonce : bytes;
  f_ct : bytes;
}.

(** [encryptFor] after the responder-not-ready guard; [nonce] is the octets
    drawn for it. *)
Definition encryptStep (s : RatchetSession) (pt nonce : bytes)
    : RatchetSession * RatchetFrame :=
  let cipher := kCipherXchacha in
  let '(ckNext, mk) := kdfCk (CKs s) in
  let pn := PN s in
  let n := Ns s in
  let ad := adBytes cipher (DHs_pub s) pn n in
  let ct := aeadEncrypt cipher mk nonce pt ad in
  (set_sending ckNext (u32 (n + 1)) s,
   mkFrame cipher (DHs_pub s) pn n nonce ct).

(** [decryptFrom] once the session is found: the plaintext and the session to
    store back, or [None] for [emit decryptionFailed]. *)
Definition decryptStep (s : RatchetSession) (f : RatchetFrame) (rnd : bytes)
    : option (bytes * RatchetSession) :=
  let ad := adBytes (f_cipher f) (f_dh f) (f_pn f) (f_n f) in
  let sk := skipKey (f_dh f) (f_n f) in
  match skipped s !! sk with
  | Some mk =>
      match aeadDecrypt (f_cipher f) mk (f_nonce f) (f_ct f) ad with
      | Some pt => Some (pt, set_skipped (delete sk (skipped s)) s)
      | None => None
      end
  | None =>
      let ratcheted :=
        if negb (haveDHr s) || negb (bool_decide (f_dh f = DHr_pub s)) then
          match skipTo s (f_pn f) with
          | Some work => Some (dhRatchet work (f_dh f) rnd)
          | None => None
          end
        else Some s in
      match ratcheted with
      | None => None
      | Some work =>
          match skipTo work (f_n f) with
          | None => None
          | Some work' =>
              let '(ckNext, mk) := kdfCk (CKr work') in
              let work'' := set_receiving ckNext (u32 (Nr work' + 1)) work' in
              match aeadDecrypt (f_cipher f) mk (f_nonce f) (f_ct f) ad with
              | Some pt => Some (pt, work'')
              | None => None
              end
          end
      end
  end.
End Steps.

#[global] Arguments enforceSkippedCap : simpl never.
#[global] Arguments purgeUnreachableSkipped : simpl never.
#[global] Arguments bank_one : simpl never.
#[global] Arguments skipTo : simpl never.
#[global] Arguments dhRatchet : simpl never.
#[global] Arguments encryptStep : simpl never.
#[global] Arguments decryptStep : simpl never.
