(* ===== verification/RatchetFacts.v ===== *)
(** * The ratchet session: lemmas on chains, the skipped-key store and typing

    What one chain advance does, how large the store of skipped keys can get
    and what it can hold, and the well-formedness (widths and ranges) of a
    session, preserved by every step. *)

From S2P Require Import Prelude Platform Kdf Ratchet.

(** ** Projections of the setters *)
Lemma skip_store_set m s : skipped (set_skipped m s) = m.
Proof. done. Qed.

Section Chain.
Context `{Sodium}.

(** The chain key after [k] messages and the message key at offset [k]. *)
Fixpoint chain_ck (k : nat) (ck : bytes) : bytes :=
  match k with O => ck | S k' => chain_ck k' (kdfCk ck).1 end.

Definition chain_mk (k : nat) (ck : bytes) : bytes := (kdfCk (chain_ck k ck)).2.

Lemma chain_ck_S k ck : chain_ck (S k) ck = (kdfCk (chain_ck k ck)).1.
Proof. revert ck. induction k as [|k IH]; intros ck; [done|apply IH]. Qed.

Lemma chain_ck_add j k ck : chain_ck (j + k) ck = chain_ck j (chain_ck k ck).
Proof.
  revert ck. induction k as [|k IH]; intros ck.
  - by rewrite Nat.add_0_r.
  - rewrite Nat.add_succ_r. apply IH.
Qed.

(** The store after the keys of messages [n .. n+k-1] are banked. *)
Fixpoint banked (dh : bytes) (n : Z) (k : nat) (ck : bytes) (m : gmap bytes bytes)
    : gmap bytes bytes :=
  match k with
  | O => m
  | S k' => banked dh (n + 1) k' (kdfCk ck).1 (<[skipKey dh n := (kdfCk ck).2]> m)
  end.

Lemma bank_one_eq s :
  (Nr s + 1 < 2 ^ 32)%Z → (0 ≤ Nr s)%Z →
  bank_one s
  = set_receiving (kdfCk (CKr s)).1 (Nr s + 1)
      (set_skipped (<[skipKey (DHr_pub s) (Nr s) := (kdfCk (CKr s)).2]> (skipped s)) s).
Proof.
  intros ??. unfold bank_one. destruct (kdfCk (CKr s)) as [ck mk].
  by rewrite u32_small by (unfold is_u32; lia).
Qed.

(** The banking loop, unrolled: [k] passes advance the chain by [k]. *)
Lemma skip_loop_eq fuel k s :
  (0 ≤ Nr s)%Z → (Nr s + Z.of_nat k < 2 ^ 32)%Z → k ≤ fuel →
  skip_loop fuel (Nr s + Z.of_nat k) s
  = set_receiving (chain_ck k (CKr s)) (Nr s + Z.of_nat k)
      (set_skipped (banked (DHr_pub s) (Nr s) k (CKr s) (skipped s)) s).
Proof.
  revert fuel s. induction k as [|k IH]; intros fuel s H0 H1 Hf.
  - rewrite Z.add_0_r. destruct fuel; simpl; [by destruct s|].
    destruct (Z.ltb_spec (Nr s) (Nr s)); [lia|]. by destruct s.
  - destruct fuel as [|fuel]; [lia|]. cbn [skip_loop].
    destruct (Z.ltb_spec (Nr s) (Nr s + Z.of_nat (S k))); [|lia].
    rewrite bank_one_eq by lia.
    set (s1 := set_receiving _ _ _).
    assert (HN : Nr s1 = (Nr s + 1)%Z) by done.
    replace (Nr s + Z.of_nat (S k))%Z with (Nr s1 + Z.of_nat k)%Z by lia.
    rewrite IH by lia. unfold s1. cbn. f_equal; lia.
Qed.

Lemma skip_loop_stop fuel until s : (until ≤ Nr s)%Z → skip_loop fuel until s = s.
Proof.
  intros ?. destruct fuel; [done|]. simpl.
  destruct (Z.ltb_spec (Nr s) until); [lia|done].
Qed.

Lemma skipKey_inj dh n m :
  is_u32 n → is_u32 m → skipKey dh n = skipKey dh m → n = m.
Proof. intros ?? Heq%app_inv_head. by apply be32_inj. Qed.

Lemma skipKey_gen dh n : take (length dh) (skipKey dh n) = dh.
Proof. apply take_app_length. Qed.

Lemma banked_miss dh n k ck m key :
  (∀ j, j < k → key ≠ skipKey dh (n + Z.of_nat j)) →
  banked dh n k ck m !! key = m !! key.
Proof.
  revert n ck m. induction k as [|k IH]; intros n ck m Hne; [done|].
  cbn [banked]. rewrite IH.
  - rewrite lookup_insert_ne; [done|]. intros <-.
    apply (Hne 0); [lia|]. by rewrite Z.add_0_r.
  - intros j Hj. replace (n + 1 + Z.of_nat j)%Z with (n + Z.of_nat (S j))%Z by lia.
    apply Hne. lia.
Qed.

Lemma banked_hit dh n k ck m j :
  (0 ≤ n)%Z → (n + Z.of_nat k < 2 ^ 32)%Z → j < k →
  banked dh n k ck m !! skipKey dh (n + Z.of_nat j) = Some (chain_mk j ck).
Proof.
  revert n ck m j. induction k as [|k IH]; intros n ck m j H0 Hk Hj; [lia|].
  cbn [banked]. destruct j as [|j].
  - rewrite Z.add_0_r, banked_miss; [by rewrite lookup_insert_eq|].
    intros j Hj' Heq%skipKey_inj; unfold is_u32; lia.
  - replace (n + Z.of_nat (S j))%Z with (n + 1 + Z.of_nat j)%Z by lia.
    change (chain_mk (S j) ck) with (chain_mk j (kdfCk ck).1). apply IH; lia.
Qed.

Lemma banked_gen dh n k ck m key v :
  banked dh n k ck m !! key = Some v →
  (∃ i, key = skipKey dh i) ∨ m !! key = Some v.
Proof.
  revert n ck m. induction k as [|k IH]; intros n ck m Hk; [by right|].
  apply IH in Hk as [?|Hk]; [by left|].
  apply lookup_insert_Some in Hk as [[<- _]|[_ ?]]; eauto.
Qed.

Lemma banked_size dh n k ck m : size (banked dh n k ck m) ≤ size m + k.
Proof.
  revert n ck m. induction k as [|k IH]; intros n ck m; cbn [banked]; [lia|].
  etrans; [apply IH|]. rewrite map_size_insert. case_match; unfold id; lia.
Qed.
End Chain.

(** ** The store of skipped keys *)
Section Store.
Context `{QHashOrder}.

Lemma shed_submap victim items m : shed victim items m ⊆ m.
Proof.
  revert m. induction items as [|[k v] items IH]; intros m; simpl; [done|].
  destruct (_ <? _)%Z, (victim k); [|apply IH|done..].
  etrans; [apply IH|apply delete_subseteq].
Qed.

(** What a loop keeps whatever happens: the entries it does not select. *)
Lemma shed_keeps victim items m k :
  victim k = false → shed victim items m !! k = m !! k.
Proof.
  intros Hk. revert m. induction items as [|[k' v] items IH]; intros m; simpl; [done|].
  destruct (_ <? _)%Z, (victim k') eqn:Hk'; [|apply IH|done..].
  rewrite IH. apply lookup_delete_ne. congruence.
Qed.

(** If a loop ends over the cap, it has visited and erased every victim. *)
Lemma shed_over_cap victim items m :
  (kMaxSkippedTotal < Z.of_nat (size (shed victim items m)))%Z →
  ∀ k, k ∈ items.*1 → victim k = true → shed victim items m !! k = None.
Proof.
  revert m. induction items as [|[k' v] items IH]; intros m Hsz k; simpl in *.
  { set_solver. }
  destruct (Z.ltb_spec kMaxSkippedTotal (Z.of_nat (size m))) as [Hlt|Hge]; [|lia].
  rewrite elem_of_cons. intros [->|Hin] Hv.
  - rewrite Hv in *. eapply lookup_weaken_None; [|apply shed_submap].
    apply lookup_delete_eq.
  - destruct (victim k'); eauto.
Qed.

Lemma items_keys (m : gmap bytes bytes) k :
  is_Some (m !! k) → k ∈ (qhash_items m).*1.
Proof.
  intros [v Hv]. rewrite (qhash_items_perm m). apply list_elem_of_fmap.
  exists (k, v). split; [done|]. by apply elem_of_map_to_list.
Qed.

Lemma cap_submap s gen : skipped (enforceSkippedCap s gen) ⊆ skipped s.
Proof.
  unfold enforceSkippedCap. case_match; [done|].
  rewrite skip_store_set. etrans; apply shed_submap.
Qed.

Lemma cap_bound s gen :
  (Z.of_nat (size (skipped (enforceSkippedCap s gen))) ≤ kMaxSkippedTotal)%Z.
Proof.
  unfold enforceSkippedCap.
  destruct (Z.leb_spec (Z.of_nat (size (skipped s))) kMaxSkippedTotal); [done|].
  rewrite skip_store_set.
  set (m1 := shed _ _ (skipped s)). set (m2 := shed _ _ m1).
  destruct (Z.le_gt_cases (Z.of_nat (size m2)) kMaxSkippedTotal) as [|Hgt]; [done|].
  assert (m2 = ∅) as ->; [|rewrite map_size_empty; done].
  apply map_empty. intros k. destruct (m2 !! k) as [v|] eqn:Hk; [|done].
  assert (m1 !! k = Some v) by (eapply lookup_weaken; [done|apply shed_submap]).
  rewrite <- Hk. apply shed_over_cap; [fold m2; lia| |done].
  apply items_keys. eauto.
Qed.

(** Nothing of the live generation is erased while the superseded ones
    suffice: the cap sheds the live generation only if it alone exceeds it. *)
Lemma cap_keeps_live s gen k v :
  (Z.of_nat (size (filter (λ kv, take (length gen) kv.1 = gen) (skipped s)))
     ≤ kMaxSkippedTotal)%Z →
  take (length gen) k = gen → skipped s !! k = Some v →
  skipped (enforceSkippedCap s gen) !! k = Some v.
Proof.
  intros Hlive Hk Hv. unfold enforceSkippedCap. case_match; [done|].
  rewrite skip_store_set.
  set (isOld := λ k, negb (bool_decide (take (length gen) k = gen))).
  set (m1 := shed isOld _ (skipped s)).
  assert (Hk1 : m1 !! k = Some v).
  { unfold m1. rewrite shed_keeps; [done|]. unfold isOld. by rewrite bool_decide_true. }
  assert (Hm1 : (Z.of_nat (size m1) ≤ kMaxSkippedTotal)%Z).
  { destruct (Z.le_gt_cases (Z.of_nat (size m1)) kMaxSkippedTotal) as [|Hgt]; [done|].
    etrans; [|exact Hlive]. apply Nat2Z.inj_le, map_subseteq_size.
    apply map_subseteq_spec. intros k' v' Hk'.
    apply map_lookup_filter_Some. split.
    - eapply lookup_weaken; [done|apply shed_submap].
    - simpl. destruct (decide (take (length gen) k' = gen)) as [|Hold]; [done|].
      exfalso. assert (Hn : m1 !! k' = None); [|congruence].
      apply shed_over_cap; [fold m1; lia| |unfold isOld; by rewrite bool_decide_false].
      apply items_keys. exists v'. eapply lookup_weaken; [done|apply shed_submap]. }
  destruct (qhash_items m1) as [|[k' ?] ?]; [done|]. simpl.
  destruct (Z.ltb_spec kMaxSkippedTotal (Z.of_nat (size m1))); [lia|done].
Qed.

Lemma cap_id s gen :
  (Z.of_nat (size (skipped s)) ≤ kMaxSkippedTotal)%Z → enforceSkippedCap s gen = s.
Proof. intros Hle%Z.leb_le. unfold enforceSkippedCap. by rewrite Hle. Qed.

(** The cap only ever changes the store. *)
Lemma cap_shape s gen : enforceSkippedCap s gen = set_skipped (skipped (enforceSkippedCap s gen)) s.
Proof. unfold enforceSkippedCap. case_match; by destruct s. Qed.

Lemma purge_lookup s cur prev k v :
  skipped (purgeUnreachableSkipped s cur prev) !! k = Some v ↔
  skipped s !! k = Some v ∧
  (take (length cur) k = cur ∨ prev ≠ [] ∧ take (length cur) k = prev).
Proof.
  unfold purgeUnreachableSkipped. rewrite skip_store_set, map_lookup_filter_Some.
  f_equiv. unfold purge_keeps. simpl.
  rewrite orb_True, andb_True, negb_True, !bool_decide_spec. done.
Qed.
End Store.

(** ** [skipTo] and [dhRatchet] *)
Section StepFacts.
Context `{Sodium} `{QHashOrder}.

(** The parts of a session that [skipTo] leaves alone. *)
Definition same_but_receiving (s s' : RatchetSession) : Prop :=
  DHs_priv s' = DHs_priv s ∧ DHs_pub s' = DHs_pub s ∧ DHr_pub s' = DHr_pub s ∧
  RK s' = RK s ∧ CKs s' = CKs s ∧ Ns s' = Ns s ∧ PN s' = PN s ∧
  haveDHr s' = haveDHr s.

Lemma skipTo_gap s until s' :
  is_u32 (Nr s) → skipTo s until = Some s' → (until ≤ Nr s + kMaxSkip)%Z.
Proof.
  unfold skipTo, u32, is_u32, kMaxSkip. intros Hn.
  destruct (Z.ltb_spec ((Nr s + 1000) mod 2 ^ 32) until); [done|]. intros _.
  pose proof (Z.mod_le (Nr s + 1000) (2 ^ 32)). lia.
Qed.

Lemma skipTo_None s until :
  skipTo s until = None → (u32 (Nr s + kMaxSkip) < until)%Z.
Proof.
  unfold skipTo. destruct (Z.ltb_spec (u32 (Nr s + kMaxSkip)) until); [done|].
  by case_decide.
Qed.

(** The loop of [skipTo] never needs more than its [kMaxSkip] passes: it ends
    with the counter at [until], or where it was if already past it. *)
Lemma skipTo_loop s until :
  is_u32 (Nr s) → is_u32 until → (until ≤ Nr s + kMaxSkip)%Z →
  skip_loop (Z.to_nat kMaxSkip) until s
  = let k := Z.to_nat (until - Nr s) in
    set_receiving (chain_ck k (CKr s)) (Z.max (Nr s) until)
      (set_skipped (banked (DHr_pub s) (Nr s) k (CKr s) (skipped s)) s).
Proof.
  intros [? ?] [? ?] Hgap.
  destruct (Z.le_gt_cases until (Nr s)).
  - rewrite skip_loop_stop by done.
    replace (Z.to_nat (until - Nr s)) with 0 by lia.
    rewrite Z.max_l by done. by destruct s.
  - cbv zeta. rewrite Z.max_r by lia. set (k := Z.to_nat (until - Nr s)).
    replace until with (Nr s + Z.of_nat k)%Z by lia. apply skip_loop_eq; lia.
Qed.

Lemma skipTo_Some s until s' :
  is_u32 (Nr s) → is_u32 until → skipTo s until = Some s' →
  same_but_receiving s s' ∧
  ((CKr s = [] ∧ s' = s) ∨
   (CKr s ≠ [] ∧ Nr s' = Z.max (Nr s) until ∧
    CKr s' = chain_ck (Z.to_nat (until - Nr s)) (CKr s) ∧
    skipped s' ⊆ banked (DHr_pub s) (Nr s) (Z.to_nat (until - Nr s)) (CKr s) (skipped s) ∧
    (Z.of_nat (size (skipped s')) ≤ kMaxSkippedTotal)%Z)).
Proof.
  intros Hn Hu Hs. pose proof (skipTo_gap s until s' Hn Hs) as Hgap.
  unfold skipTo in Hs. destruct (_ <? _)%Z; [done|].
  case_decide as Hc; simplify_eq; [split; [done|by left]|].
  rewrite skipTo_loop, cap_shape by done. cbv zeta.
  set (st := set_receiving _ _ _). split; [done|]. right.
  split_and!; [done..|apply (cap_submap st)|apply cap_bound].
Qed.

(** The gap allowed by the guard, and a receiving chain: [skipTo] succeeds. *)
Lemma skipTo_ok s until :
  (0 ≤ Nr s)%Z → (Nr s + kMaxSkip < 2 ^ 32)%Z →
  (0 ≤ until ≤ Nr s + kMaxSkip)%Z → CKr s ≠ [] →
  let k := Z.to_nat (until - Nr s) in
  let st := set_receiving (chain_ck k (CKr s)) (Z.max (Nr s) until)
      (set_skipped (banked (DHr_pub s) (Nr s) k (CKr s) (skipped s)) s) in
  skipTo s until = Some (enforceSkippedCap st (DHr_pub s)).
Proof.
  intros H1 H2 H3 Hc k st. unfold skipTo.
  rewrite u32_small by (unfold is_u32, kMaxSkip in *; lia).
  destruct (Z.ltb_spec (Nr s + kMaxSkip) until); [lia|].
  rewrite decide_False by done.
  rewrite skipTo_loop by (unfold is_u32, kMaxSkip in *; lia). done.
Qed.

Lemma skipTo_nochain s until :
  (0 ≤ Nr s)%Z → (Nr s + kMaxSkip < 2 ^ 32)%Z →
  (until ≤ Nr s + kMaxSkip)%Z → CKr s = [] → skipTo s until = Some s.
Proof.
  intros H1 H2 H3 Hc. unfold skipTo.
  rewrite u32_small by (unfold is_u32, kMaxSkip in *; lia).
  destruct (Z.ltb_spec (Nr s + kMaxSkip) until); [lia|].
  by rewrite decide_True.
Qed.

(** The new keys of a DH ratchet step, apart from the store. *)
Definition ratchet_root (s : RatchetSession) (dh : bytes) : bytes * bytes :=
  kdfRk (RK s) (dhFn (DHs_priv s) dh).

Lemma dhRatchet_eq s dh rnd :
  ∃ m, dhRatchet s dh rnd
    = mkSession rnd (scalarmult_base (mem_read 32 rnd)) dh
        (kdfRk (ratchet_root s dh).1 (dhFn rnd dh)).1
        (kdfRk (ratchet_root s dh).1 (dhFn rnd dh)).2
        (ratchet_root s dh).2 0 0 (Ns s) true m ∧
    (∀ k v, m !! k = Some v → skipped s !! k = Some v ∧
       (take (length dh) k = dh ∨ DHr_pub s ≠ [] ∧ take (length dh) k = DHr_pub s)) ∧
    (Z.of_nat (size m) ≤ kMaxSkippedTotal)%Z.
Proof.
  unfold dhRatchet, ratchet_root, genKeypair.
  destruct (kdfRk (RK s) (dhFn (DHs_priv s) dh)) as [rk1 ckr]. cbn [fst snd].
  destruct (kdfRk rk1 (dhFn rnd dh)) as [rk2 cks]. cbn [fst snd].
  set (s1 := mkSession _ _ _ _ _ _ _ _ _ _ _).
  rewrite cap_shape. eexists. split_and!; [reflexivity| |apply cap_bound].
  intros k v Hk. eapply lookup_weaken in Hk; [|apply cap_submap].
  by apply purge_lookup in Hk.
Qed.
End StepFacts.

(** From here on the steps are used through the lemmas above. *)
#[global] Opaque hkdf skipTo dhRatchet.

(** ** Typing: the widths and ranges of a session *)
Section Typing.
Context `{SodiumLaws} `{QHashOrder}.

(** [width]: the widths the ratchet keys of the contact may have. *)
Record wf_at (width : nat → Prop) (s : RatchetSession) : Prop := {
  wf_priv : length (DHs_priv s) = 32;
  wf_pub : DHs_pub s = scalarmult_base (DHs_priv s);
  wf_dhr : haveDHr s = true → width (length (DHr_pub s));
  wf_rk : length (RK s) = 32;
  wf_cks : CKs s = [] ∨ length (CKs s) = 32;
  wf_ckr : CKr s = [] ∨ length (CKr s) = 32 ∧ haveDHr s = true;
  wf_Ns : is_u32 (Ns s);
  wf_Nr : is_u32 (Nr s);
  wf_PN : is_u32 (PN s);
  wf_skipped : map_Forall (λ k v, width (length k - 4) ∧ length v = 32) (skipped s);
}.

(** Of every session, whatever frames it took: nothing looks at the width of a ratchet
    key that comes in. *)
Definition wf_keys : RatchetSession → Prop := wf_at (λ _, True).
(** Of a session whose contact only ever sent ratchet keys of 32 octets. *)
Definition wf_session : RatchetSession → Prop := wf_at (λ n, n = 32).

Lemma wf_session_keys s : wf_session s → wf_keys s.
Proof. intros []. split; try done. by intros k v [_ Hv]%wf_skipped0. Qed.

Lemma kdfRk_length rk d : length (kdfRk rk d).1 = 32 ∧ length (kdfRk rk d).2 = 32.
Proof.
  unfold kdfRk. simpl. rewrite length_take, length_drop, hkdf_length. lia.
Qed.

Lemma kdfCk_length ck : length (kdfCk ck).1 = 32 ∧ length (kdfCk ck).2 = 32.
Proof. unfold kdfCk. simpl. by rewrite !hmac_length. Qed.

Lemma chain_ck_length k ck : length ck = 32 → length (chain_ck k ck) = 32.
Proof. destruct k; [done|]. intros _. rewrite chain_ck_S. apply kdfCk_length. Qed.

Lemma banked_wf (width : nat → Prop) dh n k ck m :
  width (length dh) → map_Forall (λ k v, width (length k - 4) ∧ length v = 32) m →
  map_Forall (λ k v, width (length k - 4) ∧ length v = 32) (banked dh n k ck m).
Proof.
  intros Hd. revert n ck m. induction k as [|k IH]; intros n ck m Hm; [done|].
  cbn [banked]. apply IH, map_Forall_insert_2; [|done].
  split; [|apply kdfCk_length]. unfold skipKey. rewrite length_app, be32_length.
  by replace (length dh + 4 - 4) with (length dh) by lia.
Qed.

Lemma skipTo_wf width s until s' :
  wf_at width s → is_u32 until → skipTo s until = Some s' → wf_at width s'.
Proof.
  intros [] Hu Hs. apply skipTo_Some in Hs as [Hsame Hs]; [|done..].
  destruct Hs as [[_ ->]|(Hc & HN & HC & Hk & _)]; [by split|].
  destruct Hsame as (E1&E2&E3&E4&E5&E6&E7&E8).
  destruct wf_ckr0 as [|[Hc32 Hd]]; [done|].
  split; rewrite ?E1, ?E2, ?E3, ?E4, ?E5, ?E6, ?E7, ?E8; try done.
  - right. rewrite HC. split; [by apply chain_ck_length|done].
  - unfold is_u32 in *. lia.
  - eapply map_Forall_subseteq; [exact Hk|]. apply banked_wf; auto.
Qed.

Lemma dhRatchet_wf (width : nat → Prop) s dh rnd :
  wf_at width s → width (length dh) → length rnd = 32 → wf_at width (dhRatchet s dh rnd).
Proof.
  intros [] Hd Hr. destruct (dhRatchet_eq s dh rnd) as (m & -> & Hm & _).
  split; cbn [DHs_priv DHs_pub DHr_pub RK CKs CKr Ns Nr PN haveDHr skipped]; try done.
  - by rewrite mem_read_exact.
  - exact (proj1 (kdfRk_length _ _)).
  - right. exact (proj2 (kdfRk_length _ _)).
  - right. split; [exact (proj2 (kdfRk_length _ _))|done].
  - intros k v Hk. apply Hm in Hk as [Hk _]. by apply wf_skipped0.
Qed.

Lemma wf_deliver width s :
  wf_at width s → haveDHr s = true →
  wf_at width (set_receiving (kdfCk (CKr s)).1 (u32 (Nr s + 1)) s).
Proof.
  intros [] Hd. split; cbn; try done; [|apply u32_range].
  right. split; [exact (proj1 (kdfCk_length _))|done].
Qed.

Lemma wf_set_skipped width s m :
  wf_at width s → m ⊆ skipped s → wf_at width (set_skipped m s).
Proof. intros [] Hm. split; simpl; try done. by eapply map_Forall_subseteq. Qed.

(** The session [decryptStep] works on before it authenticates the message:
    the ratcheted copy, advanced to the index of the message. *)
Lemma decryptStep_Some s f rnd pt s' :
  decryptStep s f rnd = Some (pt, s') →
  (∃ mk, skipped s !! skipKey (f_dh f) (f_n f) = Some mk ∧
         s' = set_skipped (delete (skipKey (f_dh f) (f_n f)) (skipped s)) s) ∨
  (∃ work work',
     (work = s ∧ haveDHr s = true ∧ f_dh f = DHr_pub s ∨
      (haveDHr s = false ∨ f_dh f ≠ DHr_pub s) ∧
      ∃ w0, skipTo s (f_pn f) = Some w0 ∧ work = dhRatchet w0 (f_dh f) rnd) ∧
     skipTo work (f_n f) = Some work' ∧
     s' = set_receiving (kdfCk (CKr work')).1 (u32 (Nr work' + 1)) work').
Proof.
  unfold decryptStep. intros Hd.
  destruct (skipped s !! _) as [mk|]; [left; case_match; naive_solver|right].
  destruct (haveDHr s) eqn:Eh; simpl in Hd.
  2: destruct (skipTo s (f_pn f)) as [w0|] eqn:E0; [|done].
  1: case_bool_decide as Hdh; simpl in Hd;
     [|destruct (skipTo s (f_pn f)) as [w0|] eqn:E0; [|done]].
  all: destruct (skipTo _ (f_n f)) as [w'|] eqn:E1 in Hd; [|done].
  all: destruct (kdfCk (CKr w')) as [ck mk] eqn:Ek in Hd; case_match; simplify_eq.
  all: eexists _, w'; split_and!; [|exact E1|done].
  1: by left.
  all: right; split; [by auto|by exists w0].
Qed.

Lemma decryptStep_keeps (width : nat → Prop) s f rnd pt s' :
  wf_at width s → width (length (f_dh f)) → length rnd = 32 →
  is_u32 (f_pn f) → is_u32 (f_n f) →
  decryptStep s f rnd = Some (pt, s') → wf_at width s'.
Proof.
  intros Hwf Hdh Hrnd Hpn Hn Hd.
  apply decryptStep_Some in Hd as [(mk & Hmk & ->)|(w & w' & Hw & Hs & ->)].
  - apply wf_set_skipped; [done|apply delete_subseteq].
  - assert (wf_at width w ∧ haveDHr w = true) as [Hwfw Hhw].
    { destruct Hw as [(-> & ? & _)|(_ & w0 & H0' & ->)]; [done|].
      split; [|by destruct (dhRatchet_eq w0 (f_dh f) rnd) as (m & -> & _)].
      apply dhRatchet_wf; [|done..]. exact (skipTo_wf _ _ _ _ Hwf Hpn H0'). }
    apply wf_deliver; [exact (skipTo_wf _ _ _ _ Hwfw Hn Hs)|].
    apply skipTo_Some in Hs as [Hsame _]; [|apply Hwfw|done].
    destruct Hsame as (_&_&_&_&_&_&_&->). done.
Qed.

(** C22: well-formedness is preserved by decryption.  Whatever frame is accepted, our
    ratchet pair, the root and chain keys and the banked message keys keep their 32
    octets, our public key stays that of the private one, and the counters stay within
    32 bits.  The code looks at no width of the ratchet key in a frame; if that key has
    32 octets as well, then the key of the contact and the indices of the store keep
    their widths too. *)
Theorem decryptStep_wf s f rnd pt s' :
  wf_keys s → length rnd = 32 → is_u32 (f_pn f) → is_u32 (f_n f) →
  decryptStep s f rnd = Some (pt, s') →
  wf_keys s' ∧ (wf_session s → length (f_dh f) = 32 → wf_session s').
Proof.
  intros Hk Hr Hpn Hn Hd. split; [|intros Hs Hw];
    by refine (decryptStep_keeps _ _ _ _ _ _ _ _ Hr Hpn Hn Hd).
Qed.

Lemma encryptStep_wf width s pt nonce :
  wf_at width s → wf_at width (encryptStep s pt nonce).1.
Proof.
  intros []. unfold encryptStep. destruct (kdfCk (CKs s)) as [ck mk] eqn:Ek.
  split; cbn; try done; [|apply u32_range]. right.
  pose proof (kdfCk_length (CKs s)) as [Hl _]. by rewrite Ek in Hl.
Qed.

(** C24: forward secrecy of the store. After a message that turns the DH
    ratchet, every banked message key belongs to the new generation or to the
    one just superseded; a key of any older generation is gone. *)
Theorem ratchet_keeps_two_generations s f rnd pt s' k v :
  wf_session s → is_u32 (f_pn f) → is_u32 (f_n f) →
  haveDHr s = false ∨ f_dh f ≠ DHr_pub s →
  skipped s !! skipKey (f_dh f) (f_n f) = None →
  decryptStep s f rnd = Some (pt, s') →
  skipped s' !! k = Some v →
  take (length (f_dh f)) k = f_dh f
  ∨ DHr_pub s ≠ [] ∧ take (length (f_dh f)) k = DHr_pub s.
Proof.
  intros Hwf Hpn Hn Hnew Hnone Hd Hk.
  apply decryptStep_Some in Hd as [(mk & Hmk & _)|(w & w' & Hw & Hs & ->)]; [congruence|].
  destruct Hw as [(-> & ? & ?)|(_ & w0 & Hs0 & ->)];
    [by destruct Hnew; congruence|].
  apply skipTo_Some in Hs0 as [Hsame0 _]; [|apply Hwf|done].
  destruct (dhRatchet_eq w0 (f_dh f) rnd) as (m & Heq & Hm & _).
  rewrite Heq in Hs. apply skipTo_Some in Hs as [_ Hs]; [|by unfold is_u32|done].
  destruct Hsame0 as (_&_&Edh&_).
  assert (Hold : m !! k = Some v → take (length (f_dh f)) k = f_dh f
      ∨ DHr_pub s ≠ [] ∧ take (length (f_dh f)) k = DHr_pub s).
  { intros Hmk. apply Hm in Hmk as [_ Hg]. by rewrite Edh in Hg. }
  destruct Hs as [[_ ->]|(_ & _ & _ & Hsub & _)]; [by apply Hold|].
  eapply lookup_weaken in Hk; [|exact Hsub]. simpl in Hk.
  apply banked_gen in Hk as [[i ->]|Hk]; [left; apply skipKey_gen|auto].
Qed.

(** C23: the store is bounded. Whatever frame arrives, accepting it leaves at
    most [kMaxSkippedTotal] banked keys if there were no more before. *)
Theorem decryptStep_store_bounded s f rnd pt s' :
  is_u32 (Nr s) → is_u32 (f_pn f) → is_u32 (f_n f) →
  (Z.of_nat (size (skipped s)) ≤ kMaxSkippedTotal)%Z →
  decryptStep s f rnd = Some (pt, s') →
  (Z.of_nat (size (skipped s')) ≤ kMaxSkippedTotal)%Z.
Proof.
  intros HNr Hpn Hn Hsz Hd.
  apply decryptStep_Some in Hd as [(mk & Hmk & ->)|(w & w' & Hw & Hs & ->)].
  { simpl. pose proof (map_subseteq_size _ _
      (delete_subseteq (skipped s) (skipKey (f_dh f) (f_n f)))). lia. }
  change (skipped (set_receiving _ _ w')) with (skipped w').
  assert (is_u32 (Nr w) ∧ (Z.of_nat (size (skipped w)) ≤ kMaxSkippedTotal)%Z)
    as [HNw Hszw].
  { destruct Hw as [(-> & _)|(_ & w0 & _ & ->)]; [done|].
    destruct (dhRatchet_eq w0 (f_dh f) rnd) as (m & -> & _ & ?). by unfold is_u32. }
  apply skipTo_Some in Hs as [_ [[_ ->]|(_ & _ & _ & _ & ?)]]; done.
Qed.

(** the work of a frame is bounded. A frame that claims an index more than
    [kMaxSkip] beyond the receiving counter is refused before any key is
    derived, and an accepted one advances the chain by at most [kMaxSkip]. *)
Theorem skipTo_dos_bound s until :
  is_u32 (Nr s) → is_u32 until →
  match skipTo s until with
  | None => (u32 (Nr s + kMaxSkip) < until)%Z
  | Some s' => (Nr s ≤ Nr s' ≤ Nr s + kMaxSkip)%Z ∧
               (CKr s ≠ [] → Nr s' = Z.max (Nr s) until)
  end.
Proof.
  intros Hn Hu. destruct (skipTo s until) as [s'|] eqn:E.
  - pose proof (skipTo_gap _ _ _ Hn E).
    apply skipTo_Some in E as [_ [[? ->]|(_ & -> & _)]]; unfold kMaxSkip in *; naive_solver lia.
  - by apply skipTo_None.
Qed.
End Typing.
