(* ===== verification/Conversation.v ===== *)
(** * Two linked sessions: every message is read, in both directions

    The invariant that links the session of a sender with the session of its
    peer, and the two delivery lemmas: a message on the current chain, and a
    message that turns the receiver's DH ratchet.  The theorems about two
    [CryptoBox]es ([CryptoBox.v]) are built on them. *)

From S2P Require Import Prelude Platform Kdf Ratchet RatchetFacts.

Section Linked.
Context `{SodiumLaws} `{QHashOrder}.

(** [R] follows the sending chain of [S]: same generation, same chain key,
    same index. *)
Record in_sync (S R : RatchetSession) : Prop := {
  sync_cks : length (CKs S) = 32;
  sync_have : haveDHr R = true;
  sync_dh : DHr_pub R = DHs_pub S;
  sync_ck : CKr R = CKs S;
  sync_n : Nr R = Ns S;
}.

(** [L] has turned its ratchet and [F] has not seen the new key yet: the step
    [F] will make on the next message of [L] gives the keys of [L]. *)
Record ahead (L F : RatchetSession) : Prop := {
  ahead_cks : length (CKs L) = 32;
  ahead_root : ratchet_root F (DHs_pub L) = (RK L, CKs L);
  ahead_ns : Ns L = 0%Z;
  ahead_new : haveDHr F = false ∨ DHs_pub L ≠ DHr_pub F;
  ahead_pn : PN L = Nr F;
  ahead_dhr : DHr_pub L = DHs_pub F;
  ahead_have : haveDHr L = true;
}.

Record keypair (s : RatchetSession) : Prop := {
  kp_len : length (DHs_priv s) = 32;
  kp_pub : DHs_pub s = scalarmult_base (DHs_priv s);
}.

Definition counters_le (c : Z) (s : RatchetSession) : Prop :=
  (0 ≤ Ns s ≤ c ∧ 0 ≤ Nr s ≤ c ∧ 0 ≤ PN s ≤ c)%Z.

(** The state of a conversation in which every message sent so far has been
    read: [L] made the latest DH step.  The follower either has no sending
    chain yet (a responder before the first message) or is in step with [L].
    [c] bounds the counters. *)
Record turn (c : Z) (L F : RatchetSession) : Prop := {
  turn_ahead : ahead L F;
  turn_back : (CKs F = [] ∧ CKr L = [] ∧ Nr L = Ns F) ∨ in_sync F L;
  turn_kpL : keypair L;
  turn_kpF : keypair F;
  turn_skL : skipped L = ∅;
  turn_skF : skipped F = ∅;
  turn_cL : counters_le c L;
  turn_cF : counters_le c F;
}.

Definition linked (c : Z) (s1 s2 : RatchetSession) : Prop :=
  turn c s1 s2 ∨ turn c s2 s1.

Lemma linked_sym c s1 s2 : linked c s1 s2 → linked c s2 s1.
Proof. unfold linked. tauto. Qed.

(** Diffie-Hellman of two honest key pairs. *)
Lemma dhFn_agree a b :
  length a = 32 → length b = 32 →
  dhFn a (scalarmult_base b) = dhFn b (scalarmult_base a).
Proof.
  intros Ha Hb. unfold dhFn.
  rewrite !mem_read_exact by auto using scalarmult_base_length.
  by rewrite scalarmult_agree.
Qed.

(** Asking for the current index banks nothing. *)
Lemma skipTo_here s :
  (0 ≤ Nr s)%Z → (Nr s + kMaxSkip < 2 ^ 32)%Z → skipped s = ∅ →
  skipTo s (Nr s) = Some s.
Proof.
  intros H2 H3 Hsk. unfold kMaxSkip in *. destruct (decide (CKr s = [])).
  - apply skipTo_nochain; unfold kMaxSkip; lia || done.
  - rewrite skipTo_ok by (unfold kMaxSkip; lia || done). cbv zeta.
    rewrite Z.sub_diag, Z.max_id. f_equal. rewrite cap_id; [by destruct s|].
    change (Z.to_nat 0) with 0. cbn [skipped set_receiving set_skipped banked].
    by rewrite Hsk, map_size_empty.
Qed.

Lemma aead_open cipher k n a p :
  aeadDecrypt cipher k n (aeadEncrypt cipher k n p a) a = Some p.
Proof.
  unfold aeadEncrypt, aeadDecrypt. case_decide; [apply aes_open|apply xchacha_open].
Qed.

(** The sender's side of one message. *)
Lemma encryptStep_eq s pt nonce :
  (0 ≤ Ns s)%Z → (Ns s + 1 < 2 ^ 32)%Z →
  encryptStep s pt nonce
  = (set_sending (kdfCk (CKs s)).1 (Ns s + 1) s,
     mkFrame kCipherXchacha (DHs_pub s) (PN s) (Ns s) nonce
       (aeadEncrypt kCipherXchacha (kdfCk (CKs s)).2 nonce pt
          (adBytes kCipherXchacha (DHs_pub s) (PN s) (Ns s)))).
Proof.
  intros ??. unfold encryptStep. destruct (kdfCk (CKs s)).
  by rewrite u32_small by (unfold is_u32; lia).
Qed.
End Linked.

#[global] Opaque adBytes.

Section Delivery.
Context `{SodiumLaws} `{QHashOrder}.

(** A message on the chain the receiver follows. *)
Lemma deliver_same S R pt nonce rnd :
  in_sync S R → skipped R = ∅ → (0 ≤ Ns S)%Z → (Ns S + kMaxSkip < 2 ^ 32)%Z →
  let '(S', f) := encryptStep S pt nonce in
  decryptStep R f rnd = Some (pt, set_receiving (CKs S') (Ns S') R).
Proof.
  intros [Hck Hh Hdh HC HN] Hsk H2 H3.
  rewrite encryptStep_eq by (unfold kMaxSkip in *; lia).
  unfold decryptStep. cbn [f_cipher f_dh f_pn f_n f_nonce f_ct].
  rewrite Hsk, lookup_empty, Hh, Hdh, bool_decide_true by done. cbn [negb orb].
  rewrite <- HN, skipTo_here by (done || lia). rewrite HC.
  destruct (kdfCk (CKs S)) as [ck mk] eqn:Ek. cbn [fst snd].
  rewrite aead_open, u32_small; [done|].
  unfold is_u32, kMaxSkip in *. lia.
Qed.

(** A message that turns the receiver's ratchet. *)
Lemma deliver_turn L F pt nonce rnd :
  ahead L F → keypair L → keypair F → skipped F = ∅ →
  (0 ≤ Nr F)%Z → (Nr F + kMaxSkip < 2 ^ 32)%Z →
  let '(L', f) := encryptStep L pt nonce in
  ∃ rk cks,
    kdfRk (RK L) (dhFn rnd (DHs_pub L)) = (rk, cks) ∧
    decryptStep F f rnd
    = Some (pt, mkSession rnd (scalarmult_base (mem_read 32 rnd)) (DHs_pub L)
                  rk cks (CKs L') 0 (Ns L') (Ns F) true ∅).
Proof.
  intros [Hck Hroot Hns Hnew Hpn Hdhr Hhave] HkL HkF Hsk H2 H3.
  rewrite encryptStep_eq by (rewrite Hns; lia). rewrite Hns.
  destruct (kdfRk (RK L) (dhFn rnd (DHs_pub L))) as [rk cks] eqn:Erk.
  exists rk, cks. split; [done|].
  unfold decryptStep. cbn [f_cipher f_dh f_pn f_n f_nonce f_ct].
  rewrite Hsk, lookup_empty.
  assert (negb (haveDHr F) || negb (bool_decide (DHs_pub L = DHr_pub F)) = true) as ->.
  { destruct Hnew as [->|Hne]; [done|]. rewrite bool_decide_false by done.
    by rewrite orb_true_r. }
  rewrite Hpn, skipTo_here by done.
  destruct (dhRatchet_eq F (DHs_pub L) rnd) as (m & Heq & Hm & _).
  assert (m = ∅) as ->.
  { apply map_empty. intros k. destruct (m !! k) as [v|] eqn:Ek; [|done].
    apply Hm in Ek as [Ek _]. by rewrite Hsk, lookup_empty in Ek. }
  rewrite Hroot in Heq. cbn [fst snd] in Heq. rewrite Erk in Heq. cbn [fst snd] in Heq.
  rewrite Heq. set (w := mkSession _ _ _ _ _ _ _ _ _ _ _).
  change 0%Z with (Nr w) at 1. rewrite skipTo_here by (done || (cbn; lia)).
  cbn [CKr w]. destruct (kdfCk (CKs L)) as [ck mk] eqn:Ek. cbn [fst snd].
  by rewrite aead_open.
Qed.
End Delivery.

(** ** One message of a conversation *)
Section Step.
Context `{SodiumLaws} `{QHashOrder}.

Lemma kdfCk_nonempty ck : (kdfCk ck).1 ≠ [].
Proof. pose proof (proj1 (kdfCk_length ck)). by destruct (kdfCk ck).1. Qed.

Lemma set_sending_in_sync S R ck n :
  length ck = 32 → in_sync S R →
  in_sync (set_sending ck n S) (set_receiving ck n R).
Proof. intros Hl []. by split. Qed.

(** The follower writes: both sides advance one step of its chain. *)
Lemma turn_follower c L F pt nonce rnd :
  turn c L F → CKs F ≠ [] → (c + kMaxSkip < 2 ^ 32)%Z →
  let '(F', f) := encryptStep F pt nonce in
  ∃ L', decryptStep L f rnd = Some (pt, L') ∧ turn (c + 1) L' F' ∧
        CKs F' ≠ [] ∧ (DHs_pub L' = DHs_pub L ∧ Ns L' = Ns L) ∧ DHs_pub F' = DHs_pub F.
Proof.
  intros [Ha Hb HkL HkF HsL HsF HcL HcF] Hne Hc.
  destruct Hb as [(? & _)|Hs]; [done|].
  destruct HcL as (?&?&?), HcF as (?&?&?).
  pose proof (deliver_same F L pt nonce rnd Hs HsL ltac:(lia) ltac:(lia)) as Hd.
  destruct (encryptStep F pt nonce) as [F' f] eqn:Ee.
  rewrite encryptStep_eq in Ee by (unfold kMaxSkip in *; lia).
  injection Ee as HF' Hf. eexists. split; [exact Hd|]. subst F'. cbn.
  split; [|split_and!; [apply kdfCk_nonempty|done..]]. split; [|right|..].
  1: by destruct Ha; split.
  1: by apply set_sending_in_sync; [apply kdfCk_length|].
  1: by destruct HkL; split.
  1: by destruct HkF; split.
  1, 2: done.
  all: unfold counters_le; cbn; destruct Hs as [_ _ _ _ ->] || idtac; lia.
Qed.

(** The leader writes: the follower's ratchet turns and it takes the lead. *)
Lemma turn_leader c L F pt nonce rnd :
  turn c L F → (c + kMaxSkip < 2 ^ 32)%Z →
  length rnd = 32 → scalarmult_base rnd ≠ DHs_pub F →
  let '(L', f) := encryptStep L pt nonce in
  ∃ F', decryptStep F f rnd = Some (pt, F') ∧ turn (c + 1) F' L' ∧
        CKs F' ≠ [] ∧ DHs_pub F' = scalarmult_base rnd ∧ DHs_pub L' = DHs_pub L.
Proof.
  intros [Ha Hb HkL HkF HsL HsF HcL HcF] Hc Hrnd Hfresh.
  destruct HcL as (?&?&?), HcF as (?&?&?).
  pose proof (deliver_turn L F pt nonce rnd Ha HkL HkF HsF ltac:(lia) ltac:(lia)) as Hd.
  destruct (encryptStep L pt nonce) as [L' f] eqn:Ee.
  destruct Hd as (rk & cks & Erk & Hd). rewrite mem_read_exact in Hd by done.
  rewrite encryptStep_eq in Ee by (unfold kMaxSkip in *; lia).
  injection Ee as HL' Hf. subst L'. destruct HkL as [Hl Hp].
  assert (Hcks : length cks = 32).
  { pose proof (proj2 (kdfRk_length (RK L) (dhFn rnd (DHs_pub L)))) as Hk.
    by rewrite Erk in Hk. }
  destruct Ha as [Hck Hroot Hns Hnew Hpn Hdhr Hhave].
  eexists. split; [exact Hd|]. cbn. split_and!; [|by destruct cks|done..].
  split; cbn; [|right|by split|by split|done|done|..].
  - split; cbn; auto.
    + unfold ratchet_root. cbn. rewrite <- Erk. f_equal.
      rewrite Hp. by apply dhFn_agree.
    + right. by rewrite Hdhr.
    + by destruct Hb as [(_ & _ & ->)|[]].
  - split; cbn; auto. apply kdfCk_length.
  - unfold counters_le. cbn. lia.
  - unfold counters_le. cbn. lia.
Qed.

Lemma linked_ready c S R : turn c S R → CKs S ≠ [].
Proof. intros [[Hl] _ _ _ _ _ _ _] Hn. by rewrite Hn in Hl. Qed.

(** One message in either direction of a linked pair; afterwards both sides
    can write. *)
Lemma linked_step c S R pt nonce rnd :
  linked c S R → CKs S ≠ [] → (c + kMaxSkip < 2 ^ 32)%Z →
  length rnd = 32 → scalarmult_base rnd ≠ DHs_pub R →
  let '(S', f) := encryptStep S pt nonce in
  ∃ R', decryptStep R f rnd = Some (pt, R') ∧ linked (c + 1) S' R' ∧
        CKs S' ≠ [] ∧ CKs R' ≠ [] ∧ DHs_pub S' = DHs_pub S ∧
        (DHs_pub R' = DHs_pub R ∧ Ns R' = Ns R ∨ DHs_pub R' = scalarmult_base rnd).
Proof.
  intros [Ht|Ht] Hne Hc Hr Hf.
  - pose proof (turn_leader c S R pt nonce rnd Ht Hc Hr Hf) as Hd.
    destruct (encryptStep S pt nonce) as [S' f] eqn:Ee.
    destruct Hd as (R' & Hd & Ht' & HneR & HpR & HpS).
    exists R'. split_and!; [done|by right| |done..|by right].
    unfold encryptStep in Ee. destruct (kdfCk (CKs S)) as [ck mk] eqn:Ek.
    injection Ee as <- _. cbn. pose proof (kdfCk_nonempty (CKs S)) as Hk.
    by rewrite Ek in Hk.
  - pose proof (turn_follower c R S pt nonce rnd Ht Hne Hc) as Hd.
    destruct (encryptStep S pt nonce) as [S' f].
    destruct Hd as (R' & Hd & Ht' & HneS & HpR & HpS).
    exists R'. split_and!; [done|by right|done| |done|by left].
    by eapply linked_ready.
Qed.
End Step.

(** ** Where linked pairs come from

    The two sessions that start a conversation: an initiator that knows the
    public half of the responder's first ratchet key, and a responder that holds
    the private half, over the same root secret. *)
Section Start.
Context `{SodiumLaws} `{QHashOrder}.

Definition initiator_session (sk peerPub rnd : bytes) : RatchetSession :=
  let '(priv, pub) := genKeypair rnd in
  let '(rk, cks) := kdfRk sk (dhFn priv peerPub) in
  mkSession priv pub peerPub rk cks [] 0 0 0 true ∅.

Definition responder_session (sk priv pub : bytes) : RatchetSession :=
  mkSession priv pub [] sk [] [] 0 0 0 false ∅.

Lemma start_linked sk priv rnd :
  length priv = 32 → length rnd = 32 →
  linked 0 (initiator_session sk (scalarmult_base priv) rnd)
           (responder_session sk priv (scalarmult_base priv)).
Proof.
  intros Hp Hr. left. unfold initiator_session, responder_session, genKeypair.
  rewrite mem_read_exact by done.
  destruct (kdfRk sk (dhFn rnd (scalarmult_base priv))) as [rk cks] eqn:Ek.
  assert (length cks = 32).
  { pose proof (proj2 (kdfRk_length sk (dhFn rnd (scalarmult_base priv)))) as Hl.
    by rewrite Ek in Hl. }
  split; [|by left|by split|by split|done|done|unfold counters_le; cbn; lia..].
  split; cbn; auto. unfold ratchet_root. cbn. by rewrite dhFn_agree.
Qed.

Lemma initiator_session_pub sk peerPub rnd :
  length rnd = 32 →
  DHs_pub (initiator_session sk peerPub rnd) = scalarmult_base rnd ∧
  CKs (initiator_session sk peerPub rnd) ≠ [].
Proof.
  intros Hr. unfold initiator_session, genKeypair. rewrite mem_read_exact by done.
  destruct (kdfRk sk (dhFn rnd peerPub)) as [rk cks] eqn:Ek. cbn. split; [done|].
  pose proof (proj2 (kdfRk_length sk (dhFn rnd peerPub))) as Hl. rewrite Ek in Hl.
  by destruct cks.
Qed.
End Start.
