(* ===== verification/Reorder.v ===== *)
(** * Out-of-order delivery within a sending chain

    The messages of one sending chain may arrive in any order and with gaps: the
    receiver banks the keys of the messages it has not seen and uses each once. *)

From S2P Require Import Prelude Platform Kdf Ratchet RatchetFacts Conversation.

Section Reorder.
Context `{SodiumLaws} `{QHashOrder}.

(** The frames of a run of messages (plaintext, nonce) on one chain. *)
Fixpoint send_all (msgs : list (bytes * bytes)) (S : RatchetSession) : list RatchetFrame :=
  match msgs with
  | [] => []
  | (pt, nonce) :: rest =>
      let '(S', f) := encryptStep S pt nonce in f :: send_all rest S'
  end.

(** Deliver frames in the order given; a frame that fails changes nothing. *)
Fixpoint receive_all (frames : list RatchetFrame) (R : RatchetSession) : list (option bytes) :=
  match frames with
  | [] => []
  | f :: rest =>
      match decryptStep R f [] with
      | Some (pt, R') => Some pt :: receive_all rest R'
      | None => None :: receive_all rest R
      end
  end.

(** The frame of message [i] of the chain that starts at [S]. *)
Definition chain_frame (S : RatchetSession) (i : nat) (pt nonce : bytes) : RatchetFrame :=
  let n := (Ns S + Z.of_nat i)%Z in
  mkFrame kCipherXchacha (DHs_pub S) (PN S) n nonce
    (aeadEncrypt kCipherXchacha (chain_mk i (CKs S)) nonce pt
       (adBytes kCipherXchacha (DHs_pub S) (PN S) n)).

Lemma send_all_lookup msgs S i :
  (0 ≤ Ns S)%Z → (Ns S + Z.of_nat (length msgs) < 2 ^ 32)%Z →
  send_all msgs S !! i = (λ m, chain_frame S i m.1 m.2) <$> (msgs !! i).
Proof.
  revert S i. induction msgs as [|[pt nonce] msgs IH]; intros S i L1 L2; [done|].
  cbn [length] in L2. cbn [send_all].
  rewrite encryptStep_eq by lia. set (S' := set_sending _ _ S).
  destruct i as [|i].
  - cbn. unfold chain_frame, chain_mk. cbn [chain_ck fst snd]. by rewrite Z.add_0_r.
  - change ((send_all msgs S') !! i = (λ m, chain_frame S (Datatypes.S i) m.1 m.2) <$> (msgs !! i)).
    rewrite IH by (cbn; lia). destruct (msgs !! i) as [[p n]|]; [|done]. cbn.
    unfold chain_frame. cbn -[Z.of_nat chain_mk].
    change (chain_mk (Datatypes.S i) (CKs S)) with (chain_mk i (kdfCk (CKs S)).1).
    by replace (Ns S + 1 + Z.of_nat i)%Z with (Ns S + Z.of_nat (Datatypes.S i))%Z by lia.
Qed.

(** The receiver after the messages [D] of the chain (key [ck], first index
    [n0], generation [dh]) were delivered and the keys below [m] derived. *)
Record follows (dh ck : bytes) (n0 : Z) (K m : nat) (D : list nat) (R : RatchetSession) : Prop := {
  fo_have : haveDHr R = true;
  fo_dh : DHr_pub R = dh;
  fo_ck : CKr R = chain_ck m ck;
  fo_n : Nr R = (n0 + Z.of_nat m)%Z;
  fo_size : size (skipped R) ≤ m;
  fo_D : ∀ j, j ∈ D → j < m;
  fo_store : ∀ j, j < K → skipped R !! skipKey dh (n0 + Z.of_nat j)
               = if decide (j < m ∧ j ∉ D) then Some (chain_mk j ck) else None;
}.

Lemma follows_banked dh ck n0 K m D R pt j nonce pn :
  follows dh ck n0 K m D R → j < K → (j ∉ D) → j < m → is_u32 n0 →
  (n0 + Z.of_nat K < 2 ^ 32)%Z →
  let n := (n0 + Z.of_nat j)%Z in
  let f := mkFrame kCipherXchacha dh pn n nonce
             (aeadEncrypt kCipherXchacha (chain_mk j ck) nonce pt (adBytes kCipherXchacha dh pn n)) in
  ∃ R', decryptStep R f [] = Some (pt, R') ∧ follows dh ck n0 K m (j :: D) R'.
Proof.
  intros [H1' H2' H3' H4' H5' H6' H7'] HjK HjD Hjm Hn0 HK. cbv zeta. unfold decryptStep.
  cbn [f_cipher f_dh f_pn f_n f_nonce f_ct].
  rewrite H7', decide_True by (done || lia). rewrite aead_open. eexists. split; [done|].
  split; try done; cbn [skipped set_skipped].
  - pose proof (map_subseteq_size _ _ (delete_subseteq (skipped R) (skipKey dh (n0 + Z.of_nat j)))).
    lia.
  - intros i [->|Hi]%elem_of_cons; auto.
  - intros i Hi. destruct (decide (i = j)) as [->|Hne].
    + rewrite lookup_delete_eq, decide_False; [done|]. rewrite elem_of_cons. tauto.
    + rewrite lookup_delete_ne.
      2: { intros Heq%skipKey_inj; unfold is_u32 in *; lia. }
      rewrite H7' by done. apply decide_ext. rewrite elem_of_cons. tauto.
Qed.

Lemma follows_ahead dh ck n0 K m D R pt j nonce pn :
  follows dh ck n0 K m D R → j < K → m ≤ j → is_u32 n0 → length ck = 32 →
  (n0 + 2 * kMaxSkip < 2 ^ 32)%Z → (Z.of_nat K ≤ kMaxSkip)%Z →
  let n := (n0 + Z.of_nat j)%Z in
  let f := mkFrame kCipherXchacha dh pn n nonce
             (aeadEncrypt kCipherXchacha (chain_mk j ck) nonce pt (adBytes kCipherXchacha dh pn n)) in
  ∃ R', decryptStep R f [] = Some (pt, R') ∧ follows dh ck n0 K (S j) (j :: D) R'.
Proof.
  intros [H1' H2' H3' H4' H5' H6' H7'] HjK Hmj [Hn0 Hn1] Hck HK HKm. cbv zeta. unfold decryptStep.
  cbn [f_cipher f_dh f_pn f_n f_nonce f_ct].
  rewrite H7', decide_False, H1', H2', bool_decide_true by (done || lia). cbn [negb orb].
  unfold kMaxSkip in *.
  rewrite skipTo_ok; unfold kMaxSkip; [|lia..|].
  2: { rewrite H3'. intros Hn. pose proof (chain_ck_length m ck Hck) as Hl. by rewrite Hn in Hl. }
  cbv zeta. rewrite H2', H3', H4', Z.max_r by lia.
  replace (Z.to_nat (n0 + Z.of_nat j - (n0 + Z.of_nat m))) with (j - m) by lia.
  rewrite <- chain_ck_add. replace (j - m + m) with j by lia.
  set (st := set_receiving _ _ _).
  assert (Hst : skipped st = banked dh (n0 + Z.of_nat m) (j - m) (chain_ck m ck) (skipped R))
    by done.
  assert (Hsz : size (skipped st) ≤ j).
  { rewrite Hst. etrans; [apply banked_size|]. lia. }
  rewrite cap_id by (unfold kMaxSkippedTotal, kMaxSkip; lia).
  change (CKr st) with (chain_ck j ck). rewrite (surjective_pairing (kdfCk (chain_ck j ck))).
  change (kdfCk (chain_ck j ck)).2 with (chain_mk j ck). rewrite aead_open.
  eexists. split; [done|]. rewrite <- chain_ck_S.
  split; cbn [haveDHr DHr_pub CKr Nr skipped set_receiving]; try done.
  - rewrite u32_small by (unfold is_u32; cbn; lia). cbn. lia.
  - change (size (skipped st) ≤ S j). lia.
  - intros i [->|Hi]%elem_of_cons; [lia|]. specialize (H6' i Hi). lia.
  - intros i Hi. change (skipped st !! skipKey dh (n0 + Z.of_nat i)
      = if decide (i < S j ∧ i ∉ j :: D) then Some (chain_mk i ck) else None).
    rewrite Hst. destruct (decide (m ≤ i < j)) as [Hmid|Hout].
    + replace (n0 + Z.of_nat i)%Z with (n0 + Z.of_nat m + Z.of_nat (i - m))%Z by lia.
      rewrite banked_hit by lia. rewrite decide_True.
      * unfold chain_mk. rewrite <- chain_ck_add. by replace (i - m + m) with i by lia.
      * split; [lia|]. rewrite elem_of_cons. intros [->|Hin]; [lia|].
        specialize (H6' i Hin). lia.
    + rewrite banked_miss.
      2: { intros x Hx Heq%skipKey_inj; unfold is_u32; lia. }
      rewrite H7' by done. apply decide_ext. rewrite elem_of_cons.
      split; intros [Ha Hb]; (split; [lia|]).
      * intros [->|]; [lia|tauto].
      * tauto.
Qed.

Lemma follows_step dh ck n0 K m D R pt j nonce pn :
  follows dh ck n0 K m D R → j < K → (j ∉ D) → is_u32 n0 → length ck = 32 →
  (n0 + 2 * kMaxSkip < 2 ^ 32)%Z → (Z.of_nat K ≤ kMaxSkip)%Z →
  let n := (n0 + Z.of_nat j)%Z in
  let f := mkFrame kCipherXchacha dh pn n nonce
             (aeadEncrypt kCipherXchacha (chain_mk j ck) nonce pt (adBytes kCipherXchacha dh pn n)) in
  ∃ R' m', decryptStep R f [] = Some (pt, R') ∧ follows dh ck n0 K m' (j :: D) R'.
Proof.
  intros Hf Hj HD Hn0 Hck Hmax HK. destruct (decide (j < m)) as [Hlt|Hge].
  - destruct (follows_banked dh ck n0 K m D R pt j nonce pn) as (R' & Hd & Hf');
      [done..|unfold kMaxSkip in *; lia|]. eauto.
  - destruct (follows_ahead dh ck n0 K m D R pt j nonce pn) as (R' & Hd & Hf');
      [done|done|lia|done..|]. eauto.
Qed.

(** C8: delivery in any order. A receiver in step with the sender reads any
    selection of up to a thousand messages of a chain, in whatever order they
    arrive, each once and as it was written: reordering and losses cost
    nothing. *)
Theorem any_order_delivery S R msgs order :
  in_sync S R → skipped R = ∅ → (0 ≤ Ns S)%Z → (Ns S + 2 * kMaxSkip < 2 ^ 32)%Z →
  (Z.of_nat (length msgs) ≤ kMaxSkip)%Z →
  NoDup order → Forall (λ i, i < length msgs) order →
  receive_all (omap (λ i, send_all msgs S !! i) order) R
  = (λ i, fst <$> msgs !! i) <$> order.
Proof.
  intros [Hck Hh Hdh HC HN] Hsk Hn Hmax HK Hnd Hall.
  assert (Hf : follows (DHs_pub S) (CKs S) (Ns S) (length msgs) 0 [] R).
  { split; try done.
    - by rewrite HN, Z.add_0_r.
    - by rewrite Hsk, map_size_empty.
    - intros j Hj. by apply not_elem_of_nil in Hj.
    - intros j Hj. rewrite Hsk, lookup_empty, decide_False; [done|lia]. }
  assert (Hdis : ∀ j, j ∈ order → j ∉ ([] : list nat)) by (intros; apply not_elem_of_nil).
  assert (Hu : is_u32 (Ns S)) by (unfold is_u32, kMaxSkip in *; lia).
  revert Hf Hdis. generalize 0 ([] : list nat) R. clear Hh Hdh HC HN Hsk R.
  induction order as [|j order IH]; intros m D R Hf Hdis; [done|].
  apply NoDup_cons in Hnd as [Hj Hnd]. apply Forall_cons in Hall as [Hlt Hall].
  destruct (lookup_lt_is_Some_2 _ _ Hlt) as [[pt nonce] Em].
  cbn [omap list_omap fmap list_fmap]. rewrite send_all_lookup, Em by (unfold kMaxSkip in *; lia).
  cbn [fmap option_fmap option_map fst snd receive_all].
  destruct (follows_step _ _ _ _ _ _ _ pt j nonce (PN S) Hf Hlt (Hdis j ltac:(by left)) Hu Hck
              Hmax HK) as (R' & m' & Hd & Hf').
  unfold chain_frame. rewrite Hd. f_equal. apply (IH Hnd Hall m' (j :: D)); [done|].
  intros i Hi. rewrite not_elem_of_cons. split; [by intros ->|].
  apply Hdis. by right.
Qed.
End Reorder.
