(* ===== verification/X3dh.v ===== *)
(** * X3DH initial key agreement (client/src/x3dh.cpp, x3dh.h)

    Every function of namespace X3DH in the HAVE_SODIUM build, in the order of
    the file.  A [bool] result with output references is an [option]: [None] is
    [return false].  Random octets are arguments. *)

From S2P Require Import Prelude Platform Kdf.
From Stdlib Require Import Strings.Ascii.

Module X3DH.

(** ** Hexadecimal *)
Definition nib (c : ascii) : Z :=
  let n := Z.of_N (N_of_ascii c) in
  if (48 <=? n)%Z && (n <=? 57)%Z then n - 48
  else if (97 <=? n)%Z && (n <=? 102)%Z then n - 97 + 10
  else if (65 <=? n)%Z && (n <=? 70)%Z then n - 65 + 10
  else -1.

(** The loop of [fromHex]; [None] is [return Bytes()] on a bad digit. *)
Fixpoint fromHex_loop (s : list ascii) : option bytes :=
  match s with
  | h :: l :: s' =>
      let hi := nib h in
      let lo := nib l in
      if (hi <? 0)%Z || (lo <? 0)%Z then None
      else match fromHex_loop s' with
           | Some out => Some (byte_of_Z (Z.lor (Z.shiftl hi 4) lo) :: out)
           | None => None
           end
  | _ => Some []
  end.

Definition fromHex (hex : string) : bytes :=
  let s := String.list_ascii_of_string hex in
  if Nat.odd (length s) then [] else default [] (fromHex_loop s).

Definition hex_digits : list ascii :=
  String.list_ascii_of_string "0123456789abcdef".

Definition toHex (b : bytes) : string :=
  String.string_of_list_ascii
    (mjoin ((λ c, [nth (Z.to_nat (Z.shiftr (byte_val c) 4)) hex_digits "0"%char;
                   nth (Z.to_nat (Z.land (byte_val c) 15)) hex_digits "0"%char]) <$> b)).

(** ** Sizes and data *)
Definition kSeedBytes : nat := 32.
Definition kEdPubBytes : nat := 32.
Definition kX25519Bytes : nat := 32.
Definition kSigBytes : nat := 64.

Record Bundle := mkBundle {
  ik : bytes;
  spk : bytes;
  spkSig : bytes;
  opk : bytes;
  opkId : Z;
}.

Record InitiatorResult := mkResult {
  r_sk : bytes;
  r_ik : bytes;
  r_ek : bytes;
  r_ad : bytes;
  r_opkId : Z;
}.

Section Agreement.
Context `{Sodium}.

(** The file's own copy of HKDF: the same text as cryptobox.cpp's. *)
Definition hkdf (salt : option bytes) (ikm info : bytes) (okmLen : nat) : bytes :=
  Kdf.hkdf salt ikm info okmLen.

Definition kF : bytes := replicate 32 Byte.xff.

(** Unlike cryptobox.cpp's [dhFn], the sizes are checked here. *)
Definition dh (priv pub : bytes) : bytes :=
  if negb (length priv =? kX25519Bytes) || negb (length pub =? kX25519Bytes) then []
  else default [] (scalarmult priv pub).

(** (secret key, public key) *)
Definition secretKeyFromSeed (seed : bytes) : option (bytes * bytes) :=
  if negb (length seed =? kSeedBytes) then None
  else match sign_seed_keypair seed with
       | Some (pk, sk) => Some (sk, pk)
       | None => None
       end.

Definition kdf (dhConcat : bytes) : bytes :=
  hkdf None (kF ++ dhConcat) kX3dhInfo 32.

Definition generateIdentity (rnd : bytes) : option (bytes * bytes) :=
  match secretKeyFromSeed rnd with
  | Some (_, edPub) => Some (rnd, edPub)
  | None => None
  end.

Definition identityPublic (seed : bytes) : bytes :=
  match secretKeyFromSeed seed with Some (_, pk32) => pk32 | None => [] end.

Definition identityToX25519Private (seed : bytes) : bytes :=
  match secretKeyFromSeed seed with
  | Some (sk64, _) => default [] (sk_to_curve25519 sk64)
  | None => []
  end.

Definition identityToX25519Public (edPub : bytes) : option bytes :=
  if negb (length edPub =? kEdPubBytes) then None else pk_to_curve25519 edPub.

Definition sign (seed message : bytes) : bytes :=
  match secretKeyFromSeed seed with
  | Some (sk64, _) =>
      match sign_detached message sk64 with
      | Some sig => if negb (length sig =? kSigBytes) then [] else sig
      | None => []
      end
  | None => []
  end.

Definition verify (edPub message sig : bytes) : bool :=
  if negb (length edPub =? kEdPubBytes) || negb (length sig =? kSigBytes)
  then false else verify_detached sig message edPub.

(** (private, public, signature) *)
Definition newSignedPrekey (ikSeed rnd : bytes) : option (bytes * bytes * bytes) :=
  let spkPub := scalarmult_base rnd in
  let sig := sign ikSeed spkPub in
  if decide (sig = []) then None else Some (rnd, spkPub, sig).

Definition newOneTimePrekey (rnd : bytes) : bytes * bytes :=
  (rnd, scalarmult_base rnd).

(** [concat] of the three or four Diffie-Hellmans; [None] when one of them is
    degenerate.  [opk] empty means no fourth. *)
Definition dh_concat (dh1 dh2 dh3 : bytes) (opk : bytes) (dh4 : bytes) : option bytes :=
  if decide (dh1 = [] ∨ dh2 = [] ∨ dh3 = []) then None
  else if decide (opk = []) then Some (dh1 ++ dh2 ++ dh3)
  else if decide (dh4 = []) then None
  else Some (dh1 ++ dh2 ++ dh3 ++ dh4).

Definition initiatorWithEphemeral (aIkSeed : bytes) (b : Bundle) (ekPriv : bytes)
    : option InitiatorResult :=
  if negb (verify (ik b) (spk b) (spkSig b)) then None else
  let aIkPub := identityPublic aIkSeed in
  let aIkX := identityToX25519Private aIkSeed in
  if decide (aIkPub = [] ∨ aIkX = []) then None else
  match identityToX25519Public (ik b) with
  | None => None
  | Some bIkX =>
      if negb (length ekPriv =? kX25519Bytes) then None else
      let ekPub := scalarmult_base ekPriv in
      match dh_concat (dh aIkX (spk b)) (dh ekPriv bIkX) (dh ekPriv (spk b))
                      (opk b) (dh ekPriv (opk b)) with
      | None => None
      | Some concat =>
          let sk := kdf concat in
          if decide (sk = []) then None else
          Some (mkResult sk aIkPub ekPub (aIkPub ++ ik b)
                  (if decide (opk b = []) then -1 else opkId b)%Z)
      end
  end.

Definition initiator (aIkSeed : bytes) (b : Bundle) (rnd : bytes)
    : option InitiatorResult :=
  initiatorWithEphemeral aIkSeed b rnd.

Definition responder (bIkSeed spkPriv opkPriv ikA ekA : bytes) : option bytes :=
  match identityToX25519Public ikA with
  | None => None
  | Some aIkX =>
      let bIkX := identityToX25519Private bIkSeed in
      if decide (bIkX = []) then None else
      match dh_concat (dh spkPriv aIkX) (dh bIkX ekA) (dh spkPriv ekA)
                      opkPriv (dh opkPriv ekA) with
      | None => None
      | Some concat =>
          let sk := kdf concat in
          if decide (sk = []) then None else Some sk
      end
  end.
End Agreement.
End X3DH.
