(* ===== verification/X3dhFacts.v ===== *)
(** * X3DH: hexadecimal, signatures, agreement, and what is refused *)

From S2P Require Import Prelude Platform Kdf X3dh.
From Stdlib Require Import Strings.Ascii.
Import X3DH.

(** ** Hexadecimal round trip *)
Section Hex.
Definition hex_pair (c : byte) : list Ascii.ascii :=
  [nth (Z.to_nat (Z.shiftr (byte_val c) 4)) hex_digits "0"%char;
   nth (Z.to_nat (Z.land (byte_val c) 15)) hex_digits "0"%char].

Lemma toHex_pairs b : String.list_ascii_of_string (toHex b) = mjoin (hex_pair <$> b).
Proof. unfold toHex. by rewrite String.list_ascii_of_string_of_list_ascii. Qed.

Lemma hex_pair_digit c h l :
  hex_pair c = [h; l] →
  (0 ≤ nib h)%Z ∧ (0 ≤ nib l)%Z ∧ byte_of_Z (Z.lor (Z.shiftl (nib h) 4) (nib l)) = c.
Proof. intros [= <- <-]. destruct c; vm_compute; repeat split; congruence. Qed.

Lemma fromHex_loop_pairs b : fromHex_loop (mjoin (hex_pair <$> b)) = Some b.
Proof.
  induction b as [|c b IH]; [done|].
  change (mjoin (hex_pair <$> c :: b)) with (hex_pair c ++ mjoin (hex_pair <$> b)).
  assert (∃ h l, hex_pair c = [h; l]) as (h & l & E) by by eexists _, _.
  destruct (hex_pair_digit c h l E) as (Hh & Hl & Hc).
  rewrite E. cbn [app fromHex_loop].
  destruct (Z.ltb_spec (nib h) 0); [lia|]. destruct (Z.ltb_spec (nib l) 0); [lia|].
  cbn [orb]. by rewrite IH, Hc.
Qed.

Lemma hex_pairs_even b : Nat.odd (length (mjoin (hex_pair <$> b))) = false.
Proof.
  induction b as [|c b IH]; [done|].
  change (mjoin (hex_pair <$> c :: b)) with (hex_pair c ++ mjoin (hex_pair <$> b)).
  rewrite length_app. unfold hex_pair at 1. cbn [length plus].
  by rewrite Nat.odd_succ, Nat.even_succ.
Qed.

Lemma hex_inverse b : X3DH.fromHex (X3DH.toHex b) = b.
Proof.
  unfold X3DH.fromHex. rewrite toHex_pairs, hex_pairs_even, fromHex_loop_pairs. done.
Qed.

(** [fromHex (toHex b)] is [b] for every byte string, so a key survives
    its trip through JSON text. *)
Theorem fromHex_toHex_id b : X3DH.fromHex (X3DH.toHex b) = b.
Proof. apply hex_inverse. Qed.

(** text of odd length, or with a character that is not a hexadecimal
    digit in an even position pair, is refused as a whole: the result is empty,
    never a prefix. *)
Theorem fromHex_rejects s :
  Nat.odd (length (String.list_ascii_of_string s)) = true ∨
  (∃ c, c ∈ String.list_ascii_of_string s ∧ (nib c < 0)%Z) →
  X3DH.fromHex s = [].
Proof.
  unfold X3DH.fromHex. destruct (Nat.odd _) eqn:Eo; [done|].
  intros [?|(c & Hin & Hc)]; [done|].
  enough (fromHex_loop (String.list_ascii_of_string s) = None) as ->; [done|].
  remember (length (String.list_ascii_of_string s)) as n eqn:En.
  revert Eo Hin En. generalize (String.list_ascii_of_string s). clear s.
  induction (lt_wf n) as [n _ IH]. intros [|h [|l s]] Eo Hin ->; [set_solver|done|].
  cbn [fromHex_loop]. cbn [length] in *. rewrite Nat.odd_succ, Nat.even_succ in Eo.
  destruct (Z.ltb_spec (nib h) 0), (Z.ltb_spec (nib l) 0); try done. simpl.
  rewrite (IH (length s)); [done|lia|done| |done].
  apply elem_of_cons in Hin as [->|Hin]; [lia|].
  apply elem_of_cons in Hin as [->|Hin]; [lia|done].
Qed.
End Hex.

Section Facts.
Context `{SodiumLaws}.

(** All that derives from an identity seed. *)
Lemma seed_keys seed :
  length seed = 32 →
  ∃ pk sk x,
    secretKeyFromSeed seed = Some (sk, pk) ∧ sign_seed_keypair seed = Some (pk, sk) ∧
    identityPublic seed = pk ∧ length pk = 32 ∧
    identityToX25519Private seed = x ∧ length x = 32 ∧
    identityToX25519Public pk = Some (scalarmult_base x).
Proof.
  intros Hl. destruct (seed_keypair_total seed Hl) as [[pk sk] E].
  destruct (seed_keypair_length _ _ _ E) as [Hpk Hsk].
  destruct (sk_to_curve_total _ _ _ E) as (x & Ex & Hx & Hp).
  assert (Es : secretKeyFromSeed seed = Some (sk, pk)).
  { unfold secretKeyFromSeed, kSeedBytes. by rewrite Hl, E. }
  exists pk, sk, x. unfold identityPublic, identityToX25519Private.
  rewrite Es, Ex. split_and!; try done.
  unfold identityToX25519Public, kEdPubBytes. by rewrite Hpk.
Qed.

Lemma len32_nonempty (b : bytes) : length b = 32 → b ≠ [].
Proof. by destruct b. Qed.

Lemma dh_honest a b :
  length a = 32 → length b = 32 →
  dh a (scalarmult_base b) = dh b (scalarmult_base a) ∧
  dh a (scalarmult_base b) ≠ [].
Proof.
  intros Ha Hb. unfold dh, kX25519Bytes. rewrite !scalarmult_base_length, Ha, Hb by done.
  cbn -[scalarmult]. rewrite scalarmult_agree by done. split; [done|].
  destruct (scalarmult_honest b a Hb Ha) as [s Es]. rewrite Es. simpl.
  apply len32_nonempty. by eapply scalarmult_length.
Qed.

Lemma kdf_length c : length (kdf c) = 32.
Proof. apply hkdf_length. Qed.

Lemma sign_honest seed m :
  length seed = 32 →
  length (sign seed m) = 64 ∧ verify (identityPublic seed) m (sign seed m) = true.
Proof.
  intros Hl. destruct (seed_keys seed Hl) as (pk & sk & x & Es & E & -> & Hpk & _).
  destruct (sign_total _ _ _ m E) as (sig & Esig & Hsig & Hv).
  unfold sign, verify, kSigBytes, kEdPubBytes. rewrite Es, Esig, Hsig. cbn.
  by rewrite Hpk, Hsig.
Qed.

(** what [sign] produces under an identity seed, [verify] accepts under
    the identity's public key, whatever the message. *)
Theorem sign_verify seed m :
  length seed = 32 → verify (identityPublic seed) m (sign seed m) = true.
Proof. apply sign_honest. Qed.

(** The bundle a well-behaved relay serves: [opkPriv = []] is an exhausted
    pool. *)
Definition honest_bundle (bSeed spkPriv opkPriv : bytes) (id : Z) : Bundle :=
  mkBundle (identityPublic bSeed) (scalarmult_base spkPriv)
    (sign bSeed (scalarmult_base spkPriv))
    (if decide (opkPriv = []) then [] else scalarmult_base opkPriv) id.

Lemma dh_concat_honest dh1 dh2 dh3 o o' dh4 :
  dh1 ≠ [] → dh2 ≠ [] → dh3 ≠ [] → (o = [] ↔ o' = []) → (o ≠ [] → dh4 ≠ []) →
  ∃ c, dh_concat dh1 dh2 dh3 o dh4 = Some c ∧ dh_concat dh1 dh2 dh3 o' dh4 = Some c.
Proof.
  intros N1 N2 N3 Ho H4. unfold dh_concat.
  rewrite !(decide_False (P := dh1 = [] ∨ _)) by (intros [?|[?|?]]; done).
  destruct (decide (o = [])), (decide (o' = [])); [by eexists|tauto|tauto|].
  rewrite !decide_False by auto. by eexists.
Qed.

(** The agreement, with everything the initiator transmits. *)
Lemma agreement_full aSeed bSeed spkPriv opkPriv id ekPriv :
  length aSeed = 32 → length bSeed = 32 → length spkPriv = 32 →
  (opkPriv = [] ∨ length opkPriv = 32) → length ekPriv = 32 →
  ∃ r, initiatorWithEphemeral aSeed (honest_bundle bSeed spkPriv opkPriv id) ekPriv
       = Some r ∧
       responder bSeed spkPriv opkPriv (r_ik r) (r_ek r) = Some (r_sk r) ∧
       length (r_sk r) = 32 ∧
       r_ik r = identityPublic aSeed ∧ r_ek r = scalarmult_base ekPriv ∧
       r_ad r = identityPublic aSeed ++ identityPublic bSeed ∧
       (opkPriv = [] → r_opkId r = (-1)%Z) ∧ (opkPriv ≠ [] → r_opkId r = id).
Proof.
  intros Ha Hb Hspk Hopk Hek.
  destruct (sign_honest bSeed (scalarmult_base spkPriv) Hb) as [_ Hver].
  destruct (seed_keys aSeed Ha) as (apk & ask & ax & _ & _ & Eap & Hapk & Eax & Hax & Eapub).
  destruct (seed_keys bSeed Hb) as (bpk & bsk & bx & _ & _ & Ebp & _ & Ebx & Hbx & Ebpub).
  destruct (dh_honest ax spkPriv Hax Hspk) as [E1 N1].
  destruct (dh_honest ekPriv bx Hek Hbx) as [E2 N2].
  destruct (dh_honest ekPriv spkPriv Hek Hspk) as [E3 N3].
  set (o := if decide (opkPriv = []) then [] else scalarmult_base opkPriv).
  assert ((o = [] ↔ opkPriv = []) ∧ dh opkPriv (scalarmult_base ekPriv) = dh ekPriv o
               ∧ (o ≠ [] → dh ekPriv o ≠ [])) as (Ho & E4 & N4).
  { unfold o. case_decide as Hd.
    - subst. split; [done|]. unfold dh. by rewrite orb_true_r.
    - destruct Hopk as [|Hopk]; [done|].
      destruct (dh_honest ekPriv opkPriv Hek Hopk) as [-> ?].
      pose proof (len32_nonempty _ (scalarmult_base_length opkPriv Hopk)). tauto. }
  destruct (dh_concat_honest _ _ _ o opkPriv _ N1 N2 N3 Ho N4) as (c & Ec & Ec').
  unfold initiatorWithEphemeral. cbn [ik spk spkSig opk opkId honest_bundle]. fold o.
  rewrite Hver. cbn [negb]. rewrite Eap, Eax, Ebp, Ebpub.
  pose proof (len32_nonempty _ Hapk). pose proof (len32_nonempty _ Hax).
  rewrite decide_False by tauto.
  unfold kX25519Bytes. rewrite Hek. cbn [negb Nat.eqb]. rewrite Ec.
  rewrite decide_False by (apply len32_nonempty, kdf_length).
  eexists. split; [done|]. cbn [r_ik r_ek r_sk r_ad r_opkId].
  split; [|split; [apply kdf_length|split_and!; try done]].
  - unfold responder. rewrite Eapub, Ebx.
    rewrite decide_False by (by apply len32_nonempty).
    rewrite <- E1, <- E2, <- E3, E4, Ec'.
    by rewrite decide_False by (apply len32_nonempty, kdf_length).
  - intros Hd. by rewrite decide_True by tauto.
  - intros Hd. by rewrite decide_False by tauto.
Qed.

(** agreement. Against an honest bundle the initiator always succeeds,
    and the responder, given what the initiator transmits, derives the same
    32-octet secret: with a one-time prekey (four Diffie-Hellmans) and without
    one (three). *)
Theorem x3dh_agreement aSeed bSeed spkPriv opkPriv id ekPriv :
  length aSeed = 32 → length bSeed = 32 → length spkPriv = 32 →
  (opkPriv = [] ∨ length opkPriv = 32) → length ekPriv = 32 →
  ∃ r, initiatorWithEphemeral aSeed (honest_bundle bSeed spkPriv opkPriv id) ekPriv
       = Some r ∧
       responder bSeed spkPriv opkPriv (r_ik r) (r_ek r) = Some (r_sk r) ∧
       length (r_sk r) = 32 ∧
       r_ad r = identityPublic aSeed ++ identityPublic bSeed ∧
       (opkPriv = [] → r_opkId r = (-1)%Z) ∧ (opkPriv ≠ [] → r_opkId r = id).
Proof.
  intros Ha Hb Hspk Hopk Hek.
  destruct (agreement_full aSeed bSeed spkPriv opkPriv id ekPriv Ha Hb Hspk Hopk Hek)
    as (r & Hi & Hr & Hl & _ & _ & Hrest). by exists r.
Qed.

(** no session from a bad bundle. If the initiator produces a secret then
    the signed prekey carried a valid signature of the bundle's own identity,
    every Diffie-Hellman that entered the secret was non-degenerate, and the
    secret is exactly the KDF of their concatenation. *)
Theorem initiator_sound aSeed b ekPriv r :
  initiatorWithEphemeral aSeed b ekPriv = Some r →
  verify (ik b) (spk b) (spkSig b) = true ∧
  ∃ bIkX, identityToX25519Public (ik b) = Some bIkX ∧
    let dh1 := dh (identityToX25519Private aSeed) (spk b) in
    let dh2 := dh ekPriv bIkX in
    let dh3 := dh ekPriv (spk b) in
    let dh4 := dh ekPriv (opk b) in
    dh1 ≠ [] ∧ dh2 ≠ [] ∧ dh3 ≠ [] ∧ (opk b ≠ [] → dh4 ≠ []) ∧
    r_sk r = kdf (dh1 ++ dh2 ++ dh3 ++ (if decide (opk b = []) then [] else dh4)).
Proof.
  unfold initiatorWithEphemeral. destruct (verify _ _ _); [|done]. cbn [negb].
  intros Hi. split; [done|]. case_decide; [done|].
  destruct (identityToX25519Public (ik b)) as [bIkX|]; [|done].
  destruct (negb _); [done|]. exists bIkX. split; [done|]. cbv zeta.
  destruct (dh_concat _ _ _ _ _) as [c|] eqn:Ec; [|done].
  case_decide; [done|]. injection Hi as <-. cbn [r_sk].
  unfold dh_concat in Ec. repeat case_decide; simplify_eq; split_and!; try naive_solver.
  by rewrite app_nil_r.
Qed.
End Facts.
