(* ===== verification/VectorsCheck.v ===== *)
(** * The conformance check of X3DH (tools/x3dh_vectors_check.cpp)

    The tool reads the values of a vector file by searching its text, runs the functions of
    [X3DH] on the fixed keys and compares.  [String.index] is [std::string::find] and
    [String.substring] is [substr]; [None] is [npos].  A check is a label and whether it
    passed; what is printed beside it is left out. *)

From S2P Require Import Prelude Platform Kdf X3dh X3dhFacts.
From Stdlib Require Import Strings.Ascii.

Module VectorsCheck.
Import X3DH.

(** ** Looking a value up in the text *)
Definition dq : string := String (ascii_of_nat 34) "".

Definition mark (s : string) : string := dq +:+ s +:+ dq.

Definition field (doc section key : string) : string :=
  default "" (
    at0 ← String.index 0 (mark section) doc;
    at1 ← String.index at0 (mark key) doc;
    at2 ← String.index (at1 + String.length (mark key)) ":" doc;
    open ← String.index at2 dq doc;
    close ← String.index (open + 1) dq doc;
    Some (String.substring (open + 1) (close - open - 1) doc)).

(** The loop of [caseField]: the brace that opens the [n]-th object after [at0]. *)
Fixpoint nth_object (doc : string) (n at0 : nat) : option nat :=
  at1 ← String.index at0 "{" doc;
  match n with
  | O => Some at1
  | S n' => at2 ← String.index at1 "}" doc; nth_object doc n' at2
  end.

(** [find_first_of] and [find_first_not_of]: the first position from [at0] whose
    character satisfies the test. *)
Fixpoint find_if (test : ascii → bool) (at0 : nat) (s : string) : option nat :=
  match s, at0 with
  | EmptyString, _ => None
  | String _ s', S at' => S <$> find_if test at' s'
  | String c s', O => if test c then Some 0 else S <$> find_if test 0 s'
  end.

Definition one_of (codes : list nat) (c : ascii) : bool := bool_decide (nat_of_ascii c ∈ codes).

(** [while (!raw.empty() && (raw.back() == ' ' || raw.back() == '\r')) raw.pop_back()]. *)
Fixpoint rstrip (s : string) : string :=
  match s with
  | EmptyString => ""
  | String c s' =>
      let r := rstrip s' in
      if String.eqb r "" && one_of [32; 13] c then "" else String c r
  end.

(** Up to the position, or to the end of the text where there is none. *)
Definition upto (from : nat) (stop : option nat) (s : string) : string :=
  String.substring from (match stop with Some p => p - from | None => String.length s end) s.

Definition caseField (doc : string) (n : nat) (key : string) : string :=
  default "" (
    at0 ← String.index 0 (mark "cases") doc;
    at1 ← nth_object doc n at0;
    let obj := upto at1 (String.index at1 "}" doc) doc in
    k ← String.index 0 (mark key) obj;
    let after := match String.index (k + String.length (mark key)) ":" obj with
                 | Some c => c + 1
                 | None => 0
                 end in
    open ← find_if (λ c, negb (one_of [32; 9; 10; 13] c)) after obj;
    if bool_decide (String.get open obj = Some (ascii_of_nat 34))
    then Some (upto (open + 1) (String.index (open + 1) dq obj) obj)
    else Some (rstrip (upto open (find_if (one_of [44; 10; 125]) open obj) obj))).

(** ** The checks *)
Definition Check : Type := string * bool.

Definition check (label : string) (got : bytes) (expectHex : string) : Check :=
  (label, negb (String.eqb expectHex "") && String.eqb (toHex got) expectHex).

Definition checkBool (label : string) (got expect : bool) : Check :=
  (label, Bool.eqb got expect).

(** The fixed keys, as they are read. *)
Record Keys := mkKeys {
  ikASeed : bytes;
  ikBSeed : bytes;
  ikAPubHex : string;
  ikBPubHex : string;
  spkB : bytes;
  opkB : bytes;
  ekAPub : bytes;
  ekAPriv : bytes;
  spkBPriv : bytes;
  opkBPriv : bytes;
}.

Definition ikAPub (k : Keys) : bytes := fromHex (ikAPubHex k).
Definition ikBPub (k : Keys) : bytes := fromHex (ikBPubHex k).

Definition read_keys (doc : string) : Keys :=
  mkKeys (fromHex (field doc "identity_seeds" "ik_a"))
    (fromHex (field doc "identity_seeds" "ik_b"))
    (field doc "public_keys" "ik_a") (field doc "public_keys" "ik_b")
    (fromHex (field doc "public_keys" "spk_b")) (fromHex (field doc "public_keys" "opk_b"))
    (fromHex (field doc "public_keys" "ek_a")) (fromHex (field doc "private_keys" "ek_a"))
    (fromHex (field doc "private_keys" "spk_b")) (fromHex (field doc "private_keys" "opk_b")).

Section Run.
Context `{Sodium}.

Definition check_conversion (doc : string) (k : Keys) : list Check :=
  let xa := identityToX25519Public (ikAPub k) in
  let xb := identityToX25519Public (ikBPub k) in
  [check "Ed25519 public from seed (A)" (identityPublic (ikASeed k)) (ikAPubHex k);
   check "Ed25519 public from seed (B)" (identityPublic (ikBSeed k)) (ikBPubHex k);
   check "derived X25519 private (A)" (identityToX25519Private (ikASeed k))
     (field doc "derived_x25519_priv" "ik_a");
   check "derived X25519 private (B)" (identityToX25519Private (ikBSeed k))
     (field doc "derived_x25519_priv" "ik_b");
   checkBool "convert Ed25519 public (A)" (bool_decide (is_Some xa)) true;
   check "derived X25519 public (A)" (default [] xa) (field doc "derived_x25519_pub" "ik_a");
   checkBool "convert Ed25519 public (B)" (bool_decide (is_Some xb)) true;
   check "derived X25519 public (B)" (default [] xb) (field doc "derived_x25519_pub" "ik_b");
   checkBool "reject a non-convertible public key"
     (bool_decide (is_Some (identityToX25519Public (zeros 31)))) false].

Definition check_signature (doc : string) (k : Keys) : list Check :=
  let sigHex := field doc "signature" "valid_signature" in
  let badHex := field doc "signature" "corrupted_signature_must_reject" in
  [check "signature reproduces frozen bytes" (sign (ikBSeed k) (spkB k)) sigHex;
   checkBool "frozen signature verifies" (verify (ikBPub k) (spkB k) (fromHex sigHex)) true;
   checkBool "corrupted signature rejected" (verify (ikBPub k) (spkB k) (fromHex badHex)) false;
   checkBool "signature by the wrong identity rejected"
     (verify (ikBPub k) (spkB k) (sign (ikASeed k) (spkB k))) false].

(** The bundle of one case. *)
Definition bundle (k : Keys) (withOpk : bool) : Bundle :=
  mkBundle (ikBPub k) (spkB k) (sign (ikBSeed k) (spkB k))
    (if withOpk then opkB k else []) (if withOpk then 7 else -1)%Z.

Definition check_case (doc : string) (k : Keys) (i : nat) : list Check :=
  let name := caseField doc i "name" in
  let skHex := caseField doc i "sk" in
  let withOpk := String.eqb (caseField doc i "opk") "true" in
  if String.eqb name "" || String.eqb skHex "" then [("case missing", false)] else
  match initiatorWithEphemeral (ikASeed k) (bundle k withOpk) (ekAPriv k) with
  | None => [("initiator returned false", false)]
  | Some r => [check "initiator sk" (r_sk r) skHex;
               check "ephemeral pub" (r_ek r) (field doc "public_keys" "ek_a")]
  end ++
  match responder (ikBSeed k) (spkBPriv k) (if withOpk then opkBPriv k else [])
          (ikAPub k) (ekAPub k) with
  | None => [("responder returned false", false)]
  | Some sk => [check "responder sk" sk skHex]
  end.

Definition check_associated (doc : string) (k : Keys) : list Check :=
  let badHex := field doc "signature" "corrupted_signature_must_reject" in
  let bad := mkBundle (ikBPub k) (spkB k) (fromHex badHex) [] (-1) in
  [match initiatorWithEphemeral (ikASeed k) (bundle k true) (ekAPriv k) with
   | Some r => check "AD = Encode(IK_A) || Encode(IK_B)" (r_ad r)
                 (field doc "associated_data" "value")
   | None => ("initiator failed for the AD check", false)
   end;
   checkBool "initiator refuses a bundle with a bad signature"
     (bool_decide (is_Some (initiatorWithEphemeral (ikASeed k) bad (ekAPriv k)))) false].

Definition checks (doc : string) : list Check :=
  let k := read_keys doc in
  check_conversion doc k ++ check_signature doc k ++ check_case doc k 0 ++ check_case doc k 1
  ++ check_associated doc k.

(** The exit status; [None] is a file that cannot be opened. *)
Definition main (file : option string) : Z :=
  match file with
  | None => 2
  | Some doc =>
      let k := read_keys doc in
      if bool_decide (ikASeed k = []) || bool_decide (ikBPub k = [])
         || bool_decide (spkB k = []) then 2
      else if forallb snd (checks doc) then 0 else 1
  end.
End Run.

(** ** What a run shows *)
Section Shown.
Context `{SodiumLaws}.

Lemma toHex_inj a b : toHex a = toHex b → a = b.
Proof. intros E1%(f_equal fromHex). by rewrite !hex_inverse in E1. Qed.

Lemma check_true label got hex : (check label got hex).2 = true ↔ toHex got = hex ∧ hex ≠ "".
Proof.
  unfold check. cbn [snd].
  rewrite andb_true_iff, negb_true_iff, String.eqb_eq, String.eqb_neq. tauto.
Qed.

Lemma checkBool_true label got expect : (checkBool label got expect).2 = true ↔ got = expect.
Proof. apply Bool.eqb_true_iff. Qed.

Definition passed (c : Check) : Prop := c.2 = true.

Lemma failed_one label : ¬ Forall passed [(label, false)].
Proof. by intros [Hc _]%Forall_cons. Qed.

Lemma all_passed cs : forallb snd cs = true ↔ Forall passed cs.
Proof. rewrite forallb_forall, Forall_forall. by setoid_rewrite list_elem_of_In. Qed.

Lemma main_zero doc : main (Some doc) = 0%Z → Forall passed (checks doc).
Proof.
  unfold main. destruct (_ || _); [done|]. destruct (forallb snd _) eqn:Ef; [|done].
  intros _. by apply all_passed.
Qed.

(** An exit status of zero means that in each case of the file both sides derive the secret
    it states, the initiator from the bundle and the responder from what the initiator
    transmits. *)
Theorem zero_means_agreement doc i :
  main (Some doc) = 0%Z → i < 2 →
  let k := read_keys doc in
  let withOpk := String.eqb (caseField doc i "opk") "true" in
  ∃ r, initiatorWithEphemeral (ikASeed k) (bundle k withOpk) (ekAPriv k) = Some r ∧
       responder (ikBSeed k) (spkBPriv k) (if withOpk then opkBPriv k else []) (ikAPub k) (r_ek r)
       = Some (r_sk r) ∧
       toHex (r_sk r) = caseField doc i "sk".
Proof.
  intros Hz Hi k withOpk.
  assert (Forall passed (check_case doc k i)) as Hc.
  { apply main_zero in Hz. unfold checks in Hz. fold k in Hz. rewrite !Forall_app in Hz.
    destruct Hz as (_ & _ & Hc0 & Hc1 & _). destruct i as [|[|i]]; [exact Hc0|exact Hc1|lia]. }
  unfold check_case in Hc. fold withOpk in Hc.
  destruct (_ || _); [by apply failed_one in Hc|]. apply Forall_app in Hc as [Hi1 Hr].
  destruct (initiatorWithEphemeral _ _ _) as [r|] eqn:Er; [|by apply failed_one in Hi1].
  apply Forall_cons in Hi1 as [[Hsk _]%check_true [[Hek _]%check_true _]%Forall_cons].
  assert (ekAPub k = r_ek r) as Ek by (cbn; by rewrite <- Hek, hex_inverse).
  rewrite Ek in Hr. destruct (responder _ _ _ _ _) as [sk|] eqn:Es; [|by apply failed_one in Hr].
  apply Forall_cons in Hr as [[Hs _]%check_true _]. rewrite <- Hsk in Hs.
  apply toHex_inj in Hs as ->. by exists r.
Qed.

(** A file that states what [X3DH] gives on its keys. *)
Record honest (doc : string) (aSeed bSeed spkPriv opkPriv ekPriv : bytes) : Prop := {
  hn_seed_a : field doc "identity_seeds" "ik_a" = toHex aSeed;
  hn_seed_b : field doc "identity_seeds" "ik_b" = toHex bSeed;
  hn_ek : field doc "private_keys" "ek_a" = toHex ekPriv;
  hn_spk : field doc "private_keys" "spk_b" = toHex spkPriv;
  hn_opk : field doc "private_keys" "opk_b" = toHex opkPriv;
  hn_pub_a : field doc "public_keys" "ik_a" = toHex (identityPublic aSeed);
  hn_pub_b : field doc "public_keys" "ik_b" = toHex (identityPublic bSeed);
  hn_ek_pub : field doc "public_keys" "ek_a" = toHex (scalarmult_base ekPriv);
  hn_spk_pub : field doc "public_keys" "spk_b" = toHex (scalarmult_base spkPriv);
  hn_opk_pub : field doc "public_keys" "opk_b" = toHex (scalarmult_base opkPriv);
  hn_xpriv_a : field doc "derived_x25519_priv" "ik_a" = toHex (identityToX25519Private aSeed);
  hn_xpriv_b : field doc "derived_x25519_priv" "ik_b" = toHex (identityToX25519Private bSeed);
  hn_xpub_a : field doc "derived_x25519_pub" "ik_a"
              = toHex (scalarmult_base (identityToX25519Private aSeed));
  hn_xpub_b : field doc "derived_x25519_pub" "ik_b"
              = toHex (scalarmult_base (identityToX25519Private bSeed));
  hn_sig : field doc "signature" "valid_signature" = toHex (sign bSeed (scalarmult_base spkPriv));
  hn_ad : field doc "associated_data" "value"
          = toHex (identityPublic aSeed ++ identityPublic bSeed);
  hn_name i : i < 2 → caseField doc i "name" ≠ "";
  hn_sk i : i < 2 →
    ∃ r, initiatorWithEphemeral aSeed
           (bundle (read_keys doc) (String.eqb (caseField doc i "opk") "true")) ekPriv = Some r ∧
         caseField doc i "sk" = toHex (r_sk r);
}.

Lemma check_same label b hex : hex = toHex b → b ≠ [] → passed (check label b hex).
Proof.
  intros -> Hb. apply check_true. split; [done|]. by intros Hn%(toHex_inj b []).
Qed.

Section Honest.
Context (doc : string) (aSeed bSeed spkPriv opkPriv ekPriv : bytes).
Context (Hdoc : honest doc aSeed bSeed spkPriv opkPriv ekPriv).
Context (Ha : length aSeed = 32) (Hb : length bSeed = 32) (Hspk : length spkPriv = 32).
Context (Hopk : length opkPriv = 32) (Hek : length ekPriv = 32).

#[local] Abbreviation k := (read_keys doc).

Lemma read_honest :
  k = mkKeys aSeed bSeed (toHex (identityPublic aSeed)) (toHex (identityPublic bSeed))
        (scalarmult_base spkPriv) (scalarmult_base opkPriv) (scalarmult_base ekPriv) ekPriv
        spkPriv opkPriv.
Proof.
  unfold read_keys. destruct Hdoc as [-> -> -> -> -> -> -> -> -> ->]. by rewrite !hex_inverse.
Qed.

Lemma honest_pub : ikAPub k = identityPublic aSeed ∧ ikBPub k = identityPublic bSeed.
Proof. rewrite read_honest. unfold ikAPub, ikBPub. cbn. by rewrite !hex_inverse. Qed.

Lemma bundle_honest w :
  bundle k w = honest_bundle bSeed spkPriv (if w then opkPriv else []) (if w then 7 else -1).
Proof.
  unfold bundle, honest_bundle. rewrite (proj2 honest_pub), read_honest. cbn [spkB ikBSeed opkB].
  destruct w; [|done]. rewrite decide_False; [done|]. by apply len32_nonempty.
Qed.

Lemma conversion_passes : Forall passed (check_conversion doc k).
Proof.
  destruct (seed_keys aSeed Ha) as (apk & ? & ax & _ & _ & Eap & Hap & Eax & Hax & Eaq).
  destruct (seed_keys bSeed Hb) as (bpk & ? & bx & _ & _ & Ebp & Hbp & Ebx & Hbx & Ebq).
  pose proof (len32_nonempty _ Hap). pose proof (len32_nonempty _ Hax).
  pose proof (len32_nonempty _ Hbp). pose proof (len32_nonempty _ Hbx).
  pose proof (len32_nonempty _ (scalarmult_base_length ax Hax)).
  pose proof (len32_nonempty _ (scalarmult_base_length bx Hbx)).
  unfold check_conversion. destruct honest_pub as [-> ->]. rewrite read_honest.
  cbn [ikASeed ikBSeed ikAPubHex ikBPubHex]. rewrite Eap, Ebp, Eaq, Ebq, Eax, Ebx.
  pose proof (hn_xpriv_a _ _ _ _ _ _ Hdoc) as E1. pose proof (hn_xpriv_b _ _ _ _ _ _ Hdoc) as E2.
  pose proof (hn_xpub_a _ _ _ _ _ _ Hdoc) as E3. pose proof (hn_xpub_b _ _ _ _ _ _ Hdoc) as E4.
  rewrite Eax in E1, E3. rewrite Ebx in E2, E4.
  repeat (constructor; [first [by apply check_same | by apply checkBool_true]|]). constructor.
Qed.

Lemma case_passes i : i < 2 → Forall passed (check_case doc k i).
Proof.
  intros Hi. destruct (hn_sk _ _ _ _ _ _ Hdoc i Hi) as (r & Er & Esk).
  unfold check_case. set (w := String.eqb (caseField doc i "opk") "true") in *.
  rewrite bundle_honest in Er.
  destruct (agreement_full aSeed bSeed spkPriv (if w then opkPriv else []) (if w then 7 else -1)%Z ekPriv)
    as (r' & Er' & Eresp & Hlen & Eik & Eek & _); [done..|destruct w; auto|done|].
  rewrite Er in Er'. injection Er' as <-. pose proof (len32_nonempty _ Hlen) as Hne.
  rewrite (proj2 (String.eqb_neq _ _) (hn_name _ _ _ _ _ _ Hdoc i Hi)).
  assert (caseField doc i "sk" ≠ "") as Hsk.
  { rewrite Esk. by intros Hn%(toHex_inj _ []). }
  rewrite (proj2 (String.eqb_neq _ _) Hsk). cbn [orb].
  rewrite bundle_honest, (proj1 honest_pub), read_honest.
  cbn [ikASeed ikBSeed ekAPriv spkBPriv opkBPriv ekAPub]. rewrite Er.
  rewrite Eik, Eek in Eresp. rewrite Eresp.
  constructor; [by apply check_same|]. constructor.
  - rewrite Eek. apply check_same; [apply Hdoc|]. by apply len32_nonempty, scalarmult_base_length.
  - constructor; [by apply check_same|constructor].
Qed.

(** What is left to check of the file: nothing that is refused is accepted. *)
Context (Hbad : verify (identityPublic bSeed) (scalarmult_base spkPriv)
  (fromHex (field doc "signature" "corrupted_signature_must_reject")) = false).
Context (Hwrong : verify (identityPublic bSeed) (scalarmult_base spkPriv)
  (sign aSeed (scalarmult_base spkPriv)) = false).

Lemma signature_passes : Forall passed (check_signature doc k).
Proof.
  destruct (sign_honest bSeed (scalarmult_base spkPriv) Hb) as [Hlen Hv].
  unfold check_signature. rewrite (proj2 honest_pub), read_honest. cbn [ikASeed ikBSeed spkB].
  rewrite (hn_sig _ _ _ _ _ _ Hdoc), hex_inverse.
  repeat (constructor; [first [by apply checkBool_true | apply check_same]|]); [done| |constructor].
  intros Hn. by rewrite Hn in Hlen.
Qed.

Lemma associated_passes : Forall passed (check_associated doc k).
Proof.
  destruct (agreement_full aSeed bSeed spkPriv opkPriv 7 ekPriv)
    as (r & Er & _ & _ & _ & _ & Ead & _); [done..|by right|done|].
  destruct (seed_keys aSeed Ha) as (apk & ? & ax & _ & _ & Eap & Hap & _).
  unfold check_associated. rewrite bundle_honest, (proj2 honest_pub), read_honest.
  cbn [ikASeed ekAPriv spkB]. rewrite Er, Ead. constructor; [|constructor; [|constructor]].
  - apply check_same; [apply Hdoc|]. rewrite Eap. by destruct apk.
  - apply checkBool_true. unfold initiatorWithEphemeral. cbn [ik spk spkSig]. by rewrite Hbad.
Qed.

(** A file that states what [X3DH] gives passes every check: the responder agrees with the
    initiator in both cases, and the frozen signature is the one the key makes. *)
Theorem honest_file_passes : main (Some doc) = 0%Z.
Proof.
  unfold main. rewrite (proj2 honest_pub).
  destruct (seed_keys bSeed Hb) as (bpk & ? & bx & _ & _ & Ebp & Hbp & _).
  rewrite Ebp. rewrite (bool_decide_false (bpk = [])) by by apply len32_nonempty.
  assert (ikASeed k = aSeed ∧ spkB k = scalarmult_base spkPriv) as [-> ->] by by rewrite read_honest.
  rewrite !bool_decide_false by (by apply len32_nonempty; rewrite ?scalarmult_base_length).
  cbn [orb]. assert (forallb snd (checks doc) = true) as ->; [|done].
  apply all_passed. unfold checks. rewrite !Forall_app.
  split_and!; auto using conversion_passes, signature_passes, associated_passes;
    apply case_passes; lia.
Qed.
End Honest.
End Shown.
End VectorsCheck.
