(* ===== verification/Toy.v ===== *)
(** * Concrete platforms

    Small executable instances of the interfaces of [Platform.v].  They satisfy
    every law, so a theorem that assumes the laws can be applied to concrete
    data: each witness of the development runs on them.  They are not
    cryptography. *)

From S2P Require Import Prelude Platform X3dh X3dhFacts.
From Stdlib Require Import Strings.Byte.

(** ** A keyed mixing function with 32 octets of output *)
Definition toy_acc (b : bytes) : Z :=
  fold_left (λ a c, Z.land (a * 257 + byte_val c + 1) 65535) b 1%Z.

Definition toy_hmac (k m : bytes) : bytes :=
  let acc := toy_acc (k ++ [Byte.xff] ++ m) in
  (λ i, byte_of_Z (Z.land (acc + i * Z.shiftr acc 8) 255)) <$>
    [0; 1; 2; 3; 4; 5; 6; 7; 8; 9; 10; 11; 12; 13; 14; 15; 16; 17; 18; 19; 20; 21; 22;
     23; 24; 25; 26; 27; 28; 29; 30; 31]%Z.

Lemma toy_hmac_length k m : length (toy_hmac k m) = 32.
Proof. reflexivity. Qed.

(** ** A commutative "curve": the all-zero point is the degenerate one *)
Definition toy_base (k : bytes) : bytes :=
  match k with
  | [] => []
  | b :: k' => byte_of_Z (Z.lor (byte_val b) 1) :: k'
  end.

Definition toy_add (a b : bytes) : bytes :=
  zip_with (λ x y, byte_of_Z (byte_val x + byte_val y)) a b.

Definition toy_mult (a p : bytes) : option bytes :=
  if decide (length a = 32 ∧ length p = 32 ∧ p ≠ zeros 32)
  then Some (toy_add (toy_base a) p) else None.

Lemma toy_base_length k : length (toy_base k) = length k.
Proof. by destruct k. Qed.

Lemma toy_add_comm a b : toy_add a b = toy_add b a.
Proof.
  revert b. induction a as [|x a IH]; intros [|y b]; [done..|].
  unfold toy_add in *. cbn [zip_with]. f_equal; [by rewrite Z.add_comm|apply IH].
Qed.

Lemma toy_base_not_zero k : toy_base k ≠ zeros 32.
Proof.
  destruct k as [|b k]; [done|]. intros [= H _]. revert H.
  destruct b; vm_compute; discriminate.
Qed.

Lemma toy_base_ok a : length a = 32 → toy_base a ≠ zeros 32 ∧ length (toy_base a) = 32.
Proof. intros H. split; [apply toy_base_not_zero|]. by rewrite toy_base_length. Qed.

(** ** Signatures and authenticated encryption *)
Definition toy_keypair (seed : bytes) : option (bytes * bytes) :=
  if decide (length seed = 32) then Some (toy_base seed, seed ++ toy_base seed) else None.

Definition toy_sig (pk m : bytes) : bytes := toy_hmac pk m ++ toy_hmac pk m.

Definition toy_tag (k n a p : bytes) : bytes :=
  take 16 (toy_hmac k (n ++ a ++ p)).

Definition toy_seal (k n a p : bytes) : bytes := p ++ toy_tag k n a p.

Definition toy_open (k n a c : bytes) : option bytes :=
  let p := take (length c - 16) c in
  if decide (c = toy_seal k n a p) then Some p else None.

Lemma toy_seal_length k n a p : length (toy_seal k n a p) = length p + 16.
Proof.
  unfold toy_seal, toy_tag. by rewrite length_app, length_take, toy_hmac_length.
Qed.

Lemma toy_open_seal k n a p : toy_open k n a (toy_seal k n a p) = Some p.
Proof.
  unfold toy_open. rewrite toy_seal_length.
  replace (length p + 16 - 16) with (length p) by lia.
  assert (take (length p) (toy_seal k n a p) = p) as ->
    by (unfold toy_seal; apply take_app_length).
  by rewrite decide_True.
Qed.

(** ** Big-endian numbers *)
Fixpoint toy_be (n : nat) (z : Z) : bytes :=
  match n with
  | O => []
  | S m => toy_be m (z / 256) ++ [byte_of_Z z]
  end.

Definition toy_of_be (b : bytes) : Z :=
  fold_left (λ a c, (a * 256 + byte_val c)%Z) b 0%Z.

Lemma toy_be_length n z : length (toy_be n z) = n.
Proof.
  revert z. induction n as [|n IH]; intros z; [done|].
  cbn. rewrite length_app, IH. cbn. lia.
Qed.

Lemma toy_of_be_be n z : toy_of_be (toy_be n z) = (z mod 256 ^ Z.of_nat n)%Z.
Proof.
  revert z. induction n as [|n IH]; intros z; [by rewrite Z.mod_1_r|].
  cbn [toy_be]. unfold toy_of_be in *. rewrite fold_left_app, IH. cbn [fold_left].
  rewrite byte_val_of_Z. rewrite Nat2Z.inj_succ, Z.pow_succ_r by lia.
  rewrite Z.rem_mul_r by lia. lia.
Qed.

(** ** A stream: the key, and an octet for every chunk so far *)
Definition toy_push (st : ss_state) (p : bytes) (t : Z) : option (ss_state * bytes) :=
  Some (st ++ zeros 1, toy_seal st (zeros 8) [] (byte_of_Z t :: p)).

Definition toy_pull (st : ss_state) (c : bytes) : option (ss_state * bytes * Z) :=
  match toy_open st (zeros 8) [] c with
  | Some (t :: p) => Some (st ++ zeros 1, p, byte_val t)
  | _ => None
  end.

#[export] Instance toy_sodium : Sodium := {
  hmac_sha256 := toy_hmac;
  scalarmult_base := toy_base;
  scalarmult := toy_mult;
  sign_seed_keypair := toy_keypair;
  sk_to_curve25519 sk := Some (take 32 sk);
  pk_to_curve25519 p := if decide (length p = 32) then Some p else None;
  sign_detached m sk := Some (toy_sig (drop 32 sk) m);
  verify_detached sig m pk := bool_decide (sig = toy_sig pk m);
  aes256gcm_encrypt := toy_seal;
  aes256gcm_decrypt := toy_open;
  xchacha_encrypt := toy_seal;
  xchacha_decrypt := toy_open;
  secretbox_easy k n p := toy_seal k n [] p;
  secretbox_open_easy k n c := toy_open k n [] c;
  pwhash i s := Some (toy_hmac i s);
  ss_zero := [];
  ss_init_push key rnd :=
    let h := take 24 (rnd ++ zeros 24) in Some (key ++ h, h);
  ss_push := toy_push;
  ss_init_pull h key := Some (key ++ h);
  ss_pull := toy_pull;
  beyond _ := zeros 64;
}.

#[export] Instance toy_sodium_laws : SodiumLaws.
Proof.
  split; cbn.
  - apply toy_hmac_length.
  - intros k. by rewrite toy_base_length.
  - intros a b Ha Hb. destruct (toy_base_ok a Ha), (toy_base_ok b Hb). unfold toy_mult.
    rewrite !decide_True by done. by rewrite toy_add_comm.
  - intros a b Ha Hb. destruct (toy_base_ok b Hb). unfold toy_mult.
    by rewrite decide_True.
  - unfold toy_mult. intros a p s. case_decide as Hd; [|done]. intros [= <-].
    unfold toy_add. rewrite length_zip_with, toy_base_length. lia.
  - intros seed Hs. unfold toy_keypair. by rewrite decide_True.
  - unfold toy_keypair. intros seed pk sk. case_decide; [|done]. intros [= <- <-].
    rewrite length_app, !toy_base_length. lia.
  - unfold toy_keypair. intros seed pk sk. case_decide as Hs; [|done]. intros [= <- <-].
    exists seed. rewrite take_app_exact by done. split_and!; [done..|].
    by rewrite decide_True by (by rewrite toy_base_length).
  - intros p x. case_decide; [|done]. by intros [= <-].
  - unfold toy_keypair. intros seed pk sk m. case_decide as Hs; [|done]. intros [= <- <-].
    exists (toy_sig (toy_base seed) m). rewrite drop_app_exact by done. split; [done|]. split.
    + unfold toy_sig. by rewrite length_app, !toy_hmac_length.
    + by apply bool_decide_eq_true.
  - intros. apply toy_open_seal.
  - intros. apply toy_open_seal.
  - intros. apply toy_open_seal.
  - intros. apply toy_seal_length.
  - intros k n c p. unfold toy_open. case_decide as E; [|done]. intros [= <-].
    apply (f_equal length) in E. rewrite toy_seal_length in E. lia.
  - intros i s k [= <-]. apply toy_hmac_length.
Qed.

#[export] Instance toy_stream_laws : SecretstreamLaws (eq (A := bytes)).
Proof.
  split; cbn.
  - intros key rnd Hk. do 3 eexists. split; [done|]. split.
    { rewrite length_take, length_app. cbn [length zeros replicate]. lia. }
    done.
  - intros st st' p t <- Ht. unfold toy_push, toy_pull.
    exists (st ++ zeros 1). exists (toy_seal st (zeros 8) [] (byte_of_Z t :: p)). eexists.
    split; [done|]. split; [rewrite toy_seal_length; cbn [length]; lia|].
    rewrite toy_open_seal, byte_val_of_Z, Z.mod_small by done. done.
Qed.

(** ** Text: one octet per character *)
#[export] Instance toy_text : QtText := {
  toUtf8 := String.list_byte_of_string;
  fromUtf8 := String.string_of_list_byte;
  toLatin1 := String.list_byte_of_string;
  fromLatin1 := String.string_of_list_byte;
  toHex b := String.list_byte_of_string (X3DH.toHex b);
  fromHex b := X3DH.fromHex (String.string_of_list_byte b);
  qt_sha256 := toy_hmac [];
}.

#[export] Instance toy_text_laws : QtTextLaws.
Proof.
  split; intros b.
  - apply String.string_of_list_byte_of_string.
  - apply String.list_byte_of_string_of_list_byte.
  - etransitivity; [apply (f_equal X3DH.fromHex), String.string_of_list_byte_of_string
                   |apply hex_inverse].
  - apply (toy_hmac_length [] b).
Qed.

Lemma hex_digit_ok i : Is_true (is_hex_digit (nth i X3DH.hex_digits (Ascii.ascii_of_nat 48))).
Proof. do 16 (destruct i as [|i]; [exact I|]). by destruct i. Qed.

Lemma hexStr_toHex b : hexStr b = X3DH.toHex b.
Proof. apply String.string_of_list_byte_of_string. Qed.

Lemma mjoin_length_pairs {A B} (f : A → list B) (l : list A) :
  (∀ x, length (f x) = 2) → length (mjoin (f <$> l)) = 2 * length l.
Proof.
  intros Hf. induction l as [|x l IH]; [done|].
  change (mjoin (f <$> x :: l)) with (f x ++ mjoin (f <$> l)).
  rewrite length_app, Hf, IH. cbn [length]. lia.
Qed.

Lemma toHex_chars b : String.length (X3DH.toHex b) = 2 * length b.
Proof.
  unfold X3DH.toHex.
  match goal with |- context[String.string_of_list_ascii ?l] => set (ds := l) end.
  assert (String.length (String.string_of_list_ascii ds) = length ds) as ->
    by (induction ds as [|d ds IH]; [done|by apply (f_equal S)]).
  by apply (mjoin_length_pairs _ b).
Qed.

Lemma list_byte_chars s : length (String.list_byte_of_string s) = String.length s.
Proof.
  unfold String.list_byte_of_string. rewrite length_map.
  induction s as [|c s IH]; [done|]. by apply (f_equal S).
Qed.

#[export] Instance toy_hex_laws : QtHexLaws.
Proof.
  split; intros b.
  - rewrite hexStr_toHex, toHex_pairs. induction b as [|c b IH]; [constructor|].
    cbn [fmap list_fmap mjoin list_join hex_pair app].
    repeat (constructor; [apply hex_digit_ok|]). exact IH.
  - rewrite hexStr_toHex. apply toHex_chars.
  - etransitivity; [apply list_byte_chars|apply toHex_chars].
  - done.
  - apply String.list_byte_of_string_of_list_byte.
Qed.

(** ** A hash table that iterates in key order *)
#[export] Instance toy_order : QHashOrder := {
  qhash_items A m := map_to_list m;
  qhash_items_perm A m := Permutation_refl _;
}.

(** Names ordered by their first letter's case-folded code, sets by [elements]. *)
Definition toy_fold (s : string) : Z :=
  match s with
  | EmptyString => 0
  | String c _ =>
      let n := Z.of_N (Ascii.N_of_ascii c) in
      if (65 <=? n)%Z && (n <=? 90)%Z then n + 32 else n
  end.

#[export] Instance toy_string_order : QStringOrder := {
  qset_items s := elements s;
  qset_items_perm s := Permutation_refl _;
  compareCI a b := (toy_fold a - toy_fold b)%Z;
}.

#[export] Instance toy_string_order_laws : QStringOrderLaws.
Proof. split; cbn; lia. Qed.

(** ** Characters, and a database that scans its tables in key order *)
#[export] Instance toy_chars : QCharClass := {
  isLetterOrNumber c :=
    let n := Z.of_N (Ascii.N_of_ascii c) in
    ((48 <=? n) && (n <=? 57) || (65 <=? n) && (n <=? 90) || (97 <=? n) && (n <=? 122))%Z%bool;
}.

(** Names here have no surrounding blanks. *)
#[export] Instance toy_trim : QTrim := { trimmed s := s }.

#[export] Instance toy_scan : SqlOrder := {
  sql_scan K A _ _ m := map_to_list m;
  sql_scan_perm K A _ _ m := Permutation_refl _;
}.

(** ** QDataStream's own format: big-endian, length-prefixed arrays

    Read [n] octets as a number; too few of them spoil the stream. *)
Definition toy_get (n : nat) (s : dstream) : Z * dstream :=
  if decide (ds_ok s = true ∧ n ≤ length (ds_data s))
  then (toy_of_be (take n (ds_data s)), {| ds_data := drop n (ds_data s); ds_ok := true |})
  else (0%Z, {| ds_data := []; ds_ok := false |}).

#[export] Instance toy_stream : QDataStream := {
  put_u8 := toy_be 1;
  put_u32 := toy_be 4;
  put_i64 := toy_be 8;
  put_bool v := toy_be 1 (if v then 1 else 0);
  put_bytes v := toy_be 4 (Z.of_nat (length v)) ++ v;
  get_u8 := toy_get 1;
  get_u32 := toy_get 4;
  get_i64 s :=
    let '(v, s') := toy_get 8 s in
    ((if (v <? 2 ^ 63)%Z then v else v - 2 ^ 64)%Z, s');
  get_bool s := let '(v, s') := toy_get 1 s in (negb (v =? 0)%Z, s');
  get_bytes s :=
    let '(n, s') := toy_get 4 s in
    if decide (ds_ok s' = true ∧ n ≤ Z.of_nat (length (ds_data s')))%Z
    then (take (Z.to_nat n) (ds_data s'),
          {| ds_data := drop (Z.to_nat n) (ds_data s'); ds_ok := true |})
    else ([], {| ds_data := []; ds_ok := false |});
}.

Lemma toy_get_put n z r :
  toy_get n (ds_open (toy_be n z ++ r)) = ((z mod 256 ^ Z.of_nat n)%Z, ds_open r).
Proof.
  unfold toy_get. cbn [ds_ok ds_data ds_open].
  rewrite decide_True by (rewrite length_app, toy_be_length; split; [done|lia]).
  by rewrite take_app_exact, drop_app_exact, toy_of_be_be by apply toy_be_length.
Qed.

#[export] Instance toy_stream_format : QDataStreamLaws.
Proof.
  split; unfold get_u8, get_u32, get_i64, get_bool, get_bytes, put_u8, put_u32, put_i64,
    put_bool, put_bytes, toy_stream; intros; rewrite ?toy_be_length; try done.
  - rewrite toy_get_put. by rewrite Z.mod_small.
  - rewrite toy_get_put. by rewrite Z.mod_small.
  - rewrite toy_get_put. f_equal. unfold is_i64 in *.
    change (256 ^ Z.of_nat 8)%Z with (2 ^ 64)%Z.
    pose proof (Z.mod_pos_bound v (2 ^ 64) ltac:(lia)).
    pose proof (Z.div_mod v (2 ^ 64) ltac:(lia)).
    destruct (Z.ltb_spec (v mod 2 ^ 64) (2 ^ 63)); nia.
  - rewrite toy_get_put. by destruct v.
  - rewrite <- app_assoc, toy_get_put. cbv beta iota zeta.
    rewrite Z.mod_small by lia. rewrite Nat2Z.id. cbn [ds_ok ds_data ds_open].
    rewrite decide_True by (rewrite length_app; split; [done|lia]).
    by rewrite take_app_length, drop_app_length.
Qed.

(** Distinct keys for the concrete runs. *)
Definition toy_key (n : Z) : bytes := Byte.x01 :: replicate 31 (byte_of_Z n).
