(* ===== verification/CryptoBox.v ===== *)
(** * CryptoBox: identity, prekeys, sessions and messages
      (client/src/cryptobox.cpp, cryptobox.h)

    The state of the class and its member functions, HAVE_SODIUM build, grouped
    as in the file: identity, prekeys, X3DH sessions, the legacy bootstrap,
    encryption and decryption.  A member function that returns [bool] and
    changes nothing when it returns [false] is an [option]. *)

From S2P Require Import Prelude Platform Kdf Ratchet X3dh.

Record CryptoBox := mkBox {
  m_spkPriv : bytes;
  m_spkPub : bytes;
  m_spkSig : bytes;
  m_spkCreatedMs : Z;
  m_prevSpkPriv : bytes;
  m_prevSpkPub : bytes;
  m_prevSpkRetiredMs : Z;
  m_opkPriv : gmap Z bytes;
  m_nextOpkId : Z;
  m_identitySeed : bytes;
  m_edPublicKey : bytes;
  m_identityVersion : Z;
  m_privateKey : bytes;
  m_publicKey : bytes;
  m_peerIdentity : gmap string bytes;
  m_sessions : gmap string RatchetSession;
}.

(** The state after the constructor. *)
Definition newBox : CryptoBox :=
  mkBox [] [] [] 0 [] [] 0 ∅ 0 [] [] 0 [] [] ∅ ∅.

(** ** Field updates *)
Definition set_spk (priv pub sig : bytes) (created : Z) (b : CryptoBox) : CryptoBox :=
  mkBox priv pub sig created (m_prevSpkPriv b) (m_prevSpkPub b) (m_prevSpkRetiredMs b)
    (m_opkPriv b) (m_nextOpkId b) (m_identitySeed b) (m_edPublicKey b)
    (m_identityVersion b) (m_privateKey b) (m_publicKey b) (m_peerIdentity b) (m_sessions b).

Definition set_prev (priv pub : bytes) (retired : Z) (b : CryptoBox) : CryptoBox :=
  mkBox (m_spkPriv b) (m_spkPub b) (m_spkSig b) (m_spkCreatedMs b) priv pub retired
    (m_opkPriv b) (m_nextOpkId b) (m_identitySeed b) (m_edPublicKey b)
    (m_identityVersion b) (m_privateKey b) (m_publicKey b) (m_peerIdentity b) (m_sessions b).

Definition set_pool (pool : gmap Z bytes) (next : Z) (b : CryptoBox) : CryptoBox :=
  mkBox (m_spkPriv b) (m_spkPub b) (m_spkSig b) (m_spkCreatedMs b) (m_prevSpkPriv b)
    (m_prevSpkPub b) (m_prevSpkRetiredMs b) pool next (m_identitySeed b) (m_edPublicKey b)
    (m_identityVersion b) (m_privateKey b) (m_publicKey b) (m_peerIdentity b) (m_sessions b).

Definition set_identity (seed ed : bytes) (ver : Z) (b : CryptoBox) : CryptoBox :=
  mkBox (m_spkPriv b) (m_spkPub b) (m_spkSig b) (m_spkCreatedMs b) (m_prevSpkPriv b)
    (m_prevSpkPub b) (m_prevSpkRetiredMs b) (m_opkPriv b) (m_nextOpkId b) seed ed ver
    (m_privateKey b) (m_publicKey b) (m_peerIdentity b) (m_sessions b).

Definition set_keys (priv pub : bytes) (b : CryptoBox) : CryptoBox :=
  mkBox (m_spkPriv b) (m_spkPub b) (m_spkSig b) (m_spkCreatedMs b) (m_prevSpkPriv b)
    (m_prevSpkPub b) (m_prevSpkRetiredMs b) (m_opkPriv b) (m_nextOpkId b)
    (m_identitySeed b) (m_edPublicKey b) (m_identityVersion b) priv pub
    (m_peerIdentity b) (m_sessions b).

Definition set_peers (peers : gmap string bytes) (b : CryptoBox) : CryptoBox :=
  mkBox (m_spkPriv b) (m_spkPub b) (m_spkSig b) (m_spkCreatedMs b) (m_prevSpkPriv b)
    (m_prevSpkPub b) (m_prevSpkRetiredMs b) (m_opkPriv b) (m_nextOpkId b)
    (m_identitySeed b) (m_edPublicKey b) (m_identityVersion b) (m_privateKey b)
    (m_publicKey b) peers (m_sessions b).

Definition set_ratchets (ss : gmap string RatchetSession) (b : CryptoBox) : CryptoBox :=
  mkBox (m_spkPriv b) (m_spkPub b) (m_spkSig b) (m_spkCreatedMs b) (m_prevSpkPriv b)
    (m_prevSpkPub b) (m_prevSpkRetiredMs b) (m_opkPriv b) (m_nextOpkId b)
    (m_identitySeed b) (m_edPublicKey b) (m_identityVersion b) (m_privateKey b)
    (m_publicKey b) (m_peerIdentity b) ss.

Definition put_session (peer : string) (s : RatchetSession) (b : CryptoBox) : CryptoBox :=
  set_ratchets (<[peer := s]> (m_sessions b)) b.

(** ** Identity *)
Section Identity.
Context `{Sodium} `{QtText}.

Definition deriveAgreementKeysFromSeed (b : CryptoBox) : option CryptoBox :=
  let seed := m_identitySeed b in
  let edPub := X3DH.identityPublic seed in
  let xPriv := X3DH.identityToX25519Private seed in
  if decide (edPub = [] ∨ xPriv = []) then None
  else match X3DH.identityToX25519Public edPub with
       | None => None
       | Some xPub =>
           Some (set_keys xPriv xPub
                   (set_identity seed edPub (m_identityVersion b) b))
       end.

(** [m_identitySeed = seed], then derive; a failure clears the seed. *)
Definition adopt_seed (seed : bytes) (b : CryptoBox) : bool * CryptoBox :=
  let b1 := set_identity seed (m_edPublicKey b) (m_identityVersion b) b in
  match deriveAgreementKeysFromSeed b1 with
  | None => (false, set_identity [] (m_edPublicKey b) (m_identityVersion b) b)
  | Some b2 => (true, set_identity (m_identitySeed b2) (m_edPublicKey b2) 2 b2)
  end.

Definition generateIdentity (rnd : bytes) (b : CryptoBox) : CryptoBox :=
  match X3DH.generateIdentity rnd with
  | None => b
  | Some (seed, _) => (adopt_seed seed b).2
  end.

Definition hasX3dhIdentity (b : CryptoBox) : bool :=
  (m_identityVersion b =? 2)%Z && negb (bool_decide (m_identitySeed b = [])).

Definition edPublicKeyHex (b : CryptoBox) : string := hexStr (m_edPublicKey b).

Definition publicKeyHex (b : CryptoBox) : string := hexStr (m_publicKey b).

Definition signWithIdentity (message : bytes) (b : CryptoBox) : bytes :=
  if negb (m_identityVersion b =? 2)%Z || bool_decide (m_identitySeed b = []) then []
  else X3DH.sign (m_identitySeed b) message.

Definition verifyIdentitySignature (edPub message sig : bytes) : bool :=
  X3DH.verify edPub message sig.

Definition agreementKeyFor (publishedKey : bytes) (ikType : string) : option bytes :=
  if negb (length publishedKey =? 32) then None
  else if String.eqb ikType "ed25519" then X3DH.identityToX25519Public publishedKey
  else if String.eqb ikType "" || String.eqb ikType "x25519" then Some publishedKey
  else None.

Definition verifyBundle (ik spk spkSig : bytes) : bool :=
  if negb (length ik =? 32) || negb (length spk =? 32) || negb (length spkSig =? 64)
  then false else verifyIdentitySignature ik spk spkSig.
End Identity.

(** ** Prekeys *)
Section Prekeys.
Context `{Sodium} `{QtText}.

Definition hasPrekeys (b : CryptoBox) : bool := negb (bool_decide (m_spkPriv b = [])).
Definition hasPreviousSignedPrekey (b : CryptoBox) : bool :=
  negb (bool_decide (m_prevSpkPriv b = [])).

(** [for (i < opkCount) m_opkPriv.insert(m_nextOpkId++, priv)]; the [i]-th
    key's octets are [rnds i]. *)
Fixpoint fill_pool (count : nat) (rnds : nat → bytes) (next : Z) (pool : gmap Z bytes)
    : gmap Z bytes * Z :=
  match count with
  | O => (pool, next)
  | S count' =>
      fill_pool count' (λ i, rnds (S i)) (u32 (next + 1))
        (<[next := (X3DH.newOneTimePrekey (rnds 0)).1]> pool)
  end.

(** [now] is [QDateTime::currentMSecsSinceEpoch()]. *)
Definition generatePrekeys (opkCount : Z) (rnd : bytes) (rnds : nat → bytes) (now : Z)
    (b : CryptoBox) : option CryptoBox :=
  if negb (hasX3dhIdentity b) then None else
  let opkCount := if (opkCount <? 0)%Z then 0%Z else opkCount in
  match X3DH.newSignedPrekey (m_identitySeed b) rnd with
  | None => None
  | Some (spkPriv, spkPub, sig) =>
      let b1 := if decide (m_spkPriv b = []) then b
                else set_prev (m_spkPriv b) (m_spkPub b) now b in
      let b2 := set_spk spkPriv spkPub sig now b1 in
      let '(pool, next) := fill_pool (Z.to_nat opkCount) rnds (m_nextOpkId b2) ∅ in
      Some (set_pool pool next b2)
  end.

Definition signedPrekeyPublicHex (b : CryptoBox) : string := hexStr (m_spkPub b).
Definition signedPrekeySignatureHex (b : CryptoBox) : string := hexStr (m_spkSig b).

Definition oneTimePrekeyPublicsHex (b : CryptoBox) : gmap Z string :=
  (λ priv, hexStr (scalarmult_base (mem_read 32 priv))) <$> m_opkPriv b.

Definition takeOneTimePrekey (id : Z) (b : CryptoBox) : bytes * CryptoBox :=
  match m_opkPriv b !! id with
  | None => ([], b)
  | Some priv => (priv, set_pool (delete id (m_opkPriv b)) (m_nextOpkId b) b)
  end.

Definition signedPrekeyAgeMs (now : Z) (b : CryptoBox) : Z :=
  if bool_decide (m_spkPriv b = []) || (m_spkCreatedMs b <=? 0)%Z then -1
  else now - m_spkCreatedMs b.

(** [nowMs] is the caller's clock, [clock] the one [generatePrekeys] reads. *)
Definition rotateSignedPrekeyIfDue (maxAgeMs nowMs : Z) (rnd : bytes) (clock : Z)
    (b : CryptoBox) : bool * CryptoBox :=
  if negb (hasX3dhIdentity b) || bool_decide (m_spkPriv b = []) then (false, b) else
  let age := signedPrekeyAgeMs nowMs b in
  let '(age, b1) :=
    if (age <? 0)%Z
    then (0%Z, set_spk (m_spkPriv b) (m_spkPub b) (m_spkSig b) nowMs b)
    else (age, b) in
  if (age <? maxAgeMs)%Z then (false, b1) else
  let keepPool := m_opkPriv b1 in
  let keepNextId := m_nextOpkId b1 in
  match generatePrekeys 0 rnd (λ _, []) clock b1 with
  | None => (false, b1)
  | Some b2 => (true, set_pool keepPool keepNextId b2)
  end.

Definition dropExpiredPreviousPrekey (graceMs nowMs : Z) (b : CryptoBox)
    : bool * CryptoBox :=
  if bool_decide (m_prevSpkPriv b = []) then (false, b)
  else if (nowMs - m_prevSpkRetiredMs b <? graceMs)%Z then (false, b)
  else (true, set_prev [] [] 0 b).
End Prekeys.

(** ** X3DH session establishment *)
Section X3dhSessions.
Context `{Sodium}.

(** The initiator's session and the three values of the opener header.  [rndE]
    is the ephemeral, [rndR] the ratchet key. *)
Definition beginX3dhSession (peer : string) (peerIk peerSpk peerSpkSig peerOpk : bytes)
    (opkId : Z) (rndE rndR : bytes) (b : CryptoBox)
    : option (bytes * bytes * Z * CryptoBox) :=
  if negb (hasX3dhIdentity b) then None else
  let bundle := if decide (peerOpk = [])
                then X3DH.mkBundle peerIk peerSpk peerSpkSig [] (-1)
                else X3DH.mkBundle peerIk peerSpk peerSpkSig peerOpk opkId in
  match X3DH.initiator (m_identitySeed b) bundle rndE with
  | None => None
  | Some r =>
      let sk := X3DH.r_sk r in
      if negb (length sk =? 32) then None else
      let '(priv, pub) := genKeypair rndR in
      let '(rk, cks) := kdfRk sk (dhFn priv peerSpk) in
      let s := mkSession priv pub peerSpk rk cks [] 0 0 0 true ∅ in
      Some (X3DH.r_ik r, X3DH.r_ek r,
            if decide (peerOpk = []) then (-1)%Z else opkId,
            put_session peer s b)
  end.

(** The responder.  [false] may still have consumed the one-time prekey. *)
Definition acceptX3dhSession (peer : string) (ikA ekA : bytes) (opkId : Z)
    (spkUsed : bytes) (b : CryptoBox) : bool * CryptoBox :=
  if negb (hasX3dhIdentity b) || bool_decide (m_spkPriv b = []) then (false, b) else
  let '(opkPriv, b1) :=
    if (0 <=? opkId)%Z then takeOneTimePrekey (u32 opkId) b else ([], b) in
  if (0 <=? opkId)%Z && bool_decide (opkPriv = []) then (false, b1) else
  let choice :=
    if decide (spkUsed = []) then Some (m_spkPriv b1)
    else if decide (spkUsed = m_spkPub b1) then Some (m_spkPriv b1)
    else if decide (m_prevSpkPub b1 ≠ [] ∧ spkUsed = m_prevSpkPub b1)
         then Some (m_prevSpkPriv b1)
    else None in
  match choice with
  | None =>
      (false,
       if (0 <=? opkId)%Z && negb (bool_decide (opkPriv = []))
       then set_pool (<[u32 opkId := opkPriv]> (m_opkPriv b1)) (m_nextOpkId b1) b1
       else b1)
  | Some useSpkPriv =>
      match X3DH.responder (m_identitySeed b1) useSpkPriv opkPriv ikA ekA with
      | None => (false, b1)
      | Some sk =>
          let pub := if decide (useSpkPriv = m_spkPriv b1)
                     then m_spkPub b1 else m_prevSpkPub b1 in
          let s := mkSession useSpkPriv pub [] sk [] [] 0 0 0 false ∅ in
          (true, put_session peer s b1)
      end
  end.
End X3dhSessions.

(** ** Peers and the legacy bootstrap *)
Section Sessions.
Context `{Sodium} `{QtText}.

Definition ensureSharedKey (peerName peerPubHex : string) (b : CryptoBox)
    : bool * CryptoBox :=
  let pub := unhexStr peerPubHex in
  if negb (length pub =? 32) then (false, b) else
  let keyChanged := match m_peerIdentity b !! peerName with
                    | Some old => negb (bool_decide (old = pub))
                    | None => false
                    end in
  let b1 := set_peers (<[peerName := pub]> (m_peerIdentity b)) b in
  if keyChanged then (true, set_ratchets (delete peerName (m_sessions b1)) b1)
  else (false, b1).

Definition hasSessionFor (peerName : string) (b : CryptoBox) : bool :=
  bool_decide (is_Some (m_sessions b !! peerName)).

Definition dropSession (peerName : string) (b : CryptoBox) : bool * CryptoBox :=
  (hasSessionFor peerName b, set_ratchets (delete peerName (m_sessions b)) b).

Definition resetForNewUser (b : CryptoBox) : CryptoBox :=
  set_keys [] [] (set_peers ∅ (set_ratchets ∅ b)).

Definition setPeerIdentity (peerName peerPubHex : string) (b : CryptoBox)
    : bool * CryptoBox :=
  let pub := unhexStr peerPubHex in
  if negb (length pub =? 32) then (false, b)
  else (true, set_peers (<[peerName := pub]> (m_peerIdentity b)) b).

Definition peerIdentityHex (peerName : string) (b : CryptoBox) : string :=
  match m_peerIdentity b !! peerName with
  | None => ""
  | Some k => hexStr k
  end.

Definition sharedSecretWith (peerPubHex : string) (b : CryptoBox) : bytes :=
  let pub := unhexStr peerPubHex in
  if bool_decide (m_privateKey b = []) || negb (length pub =? 32) then []
  else bootstrapSk (m_privateKey b) pub.

(** The session a new pair starts from; [rnd] is the initiator's ratchet key. *)
Definition bootstrap_session (priv pub peerPub rnd : bytes) : RatchetSession :=
  let sk := bootstrapSk priv peerPub in
  if (memcmp pub peerPub 32 <? 0)%Z then
    let '(dpriv, dpub) := genKeypair rnd in
    let '(rk, cks) := kdfRk sk (dhFn dpriv peerPub) in
    mkSession dpriv dpub peerPub rk cks [] 0 0 0 true ∅
  else mkSession priv pub [] sk [] [] 0 0 0 false ∅.

(** [None] is the null pointer. *)
Definition sessionFor (peerName : string) (rnd : bytes) (b : CryptoBox)
    : option (RatchetSession * CryptoBox) :=
  match m_sessions b !! peerName with
  | Some s => Some (s, b)
  | None =>
      match m_peerIdentity b !! peerName with
      | None => None
      | Some peerPub =>
          if decide (m_privateKey b = []) then None else
          let s := bootstrap_session (m_privateKey b) (m_publicKey b) peerPub rnd in
          Some (s, put_session peerName s b)
      end
  end.

Definition amInitiatorFor (peerName : string) (b : CryptoBox) : bool :=
  match m_peerIdentity b !! peerName with
  | None => false
  | Some peerPub =>
      if decide (m_privateKey b = []) then false
      else (memcmp (m_publicKey b) peerPub 32 <? 0)%Z
  end.
End Sessions.

(** ** Encrypt and decrypt *)
Section Messages.
Context `{Sodium} `{QtText} `{QHashOrder}.

(** The out-parameters of [encryptFor]. *)
Record WireFrame := mkWire {
  w_cipher : string;
  w_dh : string;
  w_pn : Z;
  w_n : Z;
  w_nonce : string;
  w_ct : string;
}.

Inductive EncryptResult :=
| Encrypted (w : WireFrame)
| NotReady
| EncryptFailed.

(** [rnd] for a session created on first use, [nonce] for the message. *)
Definition encryptFor (peerName plaintext : string) (rnd nonce : bytes)
    (b : CryptoBox) : EncryptResult * CryptoBox :=
  match sessionFor peerName rnd b with
  | None => (EncryptFailed, b)
  | Some (s, b1) =>
      if decide (CKs s = []) then (NotReady, b1) else
      let '(s', f) := encryptStep s (toUtf8 plaintext) nonce in
      (Encrypted (mkWire (fromLatin1 (f_cipher f)) (hexStr (f_dh f)) (f_pn f) (f_n f)
                         (hexStr (f_nonce f)) (hexStr (f_ct f))),
       put_session peerName s' b1)
  end.

(** [Some text], or [None] for [emit decryptionFailed] and the empty string. *)
Definition decryptFrom (peerName : string) (w : WireFrame) (rnd rndR : bytes)
    (b : CryptoBox) : option string * CryptoBox :=
  match sessionFor peerName rnd b with
  | None => (None, b)
  | Some (s, b1) =>
      let f := mkFrame (toLatin1 (w_cipher w)) (unhexStr (w_dh w)) (w_pn w) (w_n w)
                       (unhexStr (w_nonce w)) (unhexStr (w_ct w)) in
      match decryptStep s f rndR with
      | None => (None, b1)
      | Some (pt, s') => (Some (fromUtf8 pt), put_session peerName s' b1)
      end
  end.
End Messages.
