(* ===== verification/CryptoBoxFacts.v ===== *)
(** * CryptoBox: sessions, roles, conversations and prekeys *)

From S2P Require Import Prelude Platform Kdf Ratchet RatchetFacts Conversation X3dh.
From S2P Require Import X3dhFacts CryptoBox.

(** ** What a frame that arrives does to the sessions *)
Section Arrivals.
Context `{Sodium} `{QtText} `{QHashOrder}.

Lemma put_session_lookup peer s b : m_sessions (put_session peer s b) !! peer = Some s.
Proof. apply lookup_insert_eq. Qed.

Lemma sessionFor_other p q rnd b s b1 :
  p ≠ q → sessionFor q rnd b = Some (s, b1) → m_sessions b1 !! p = m_sessions b !! p.
Proof.
  intros Hn. unfold sessionFor. destruct (m_sessions b !! q); [by intros [= _ <-]|].
  destruct (m_peerIdentity b !! q) as [pub|]; [|done]. destruct (decide _); [done|].
  intros [= _ <-]. by apply lookup_insert_ne.
Qed.

(** A frame of one contact leaves the sessions with the others alone. *)
Lemma decryptFrom_other p q w rnd rndR b :
  p ≠ q → m_sessions (decryptFrom q w rnd rndR b).2 !! p = m_sessions b !! p.
Proof.
  intros Hn. unfold decryptFrom. destruct (sessionFor q rnd b) as [[s b1]|] eqn:Es; [|done].
  apply (sessionFor_other p) in Es; [|done]. destruct (decryptStep _ _ _) as [[pt s']|]; [|done].
  cbn. by rewrite lookup_insert_ne.
Qed.

(** One that fails leaves the session of its sender alone, too. *)
Lemma decryptFrom_failed p w rnd rndR b s :
  m_sessions b !! p = Some s → (decryptFrom p w rnd rndR b).1 = None →
  (decryptFrom p w rnd rndR b).2 = b.
Proof.
  intros Hs. unfold decryptFrom, sessionFor. rewrite Hs.
  by destruct (decryptStep _ _ _) as [[pt s']|].
Qed.
End Arrivals.

(** ** Roles *)
Section Roles.
Context `{SodiumLaws} `{QtText} `{QHashOrder}.

(** A box that holds a legacy or derived X25519 pair. *)
Record has_keys (b : CryptoBox) : Prop := {
  keys_len : length (m_privateKey b) = 32;
  keys_pub : m_publicKey b = scalarmult_base (m_privateKey b);
}.

Lemma has_keys_pub_length b : has_keys b → length (m_publicKey b) = 32.
Proof. intros [? ->]. auto using scalarmult_base_length. Qed.

(** [b1] knows [b2] as [n2], and [b2] knows [b1] as [n1], under their real
    keys. *)
Definition know_each_other (n1 n2 : string) (b1 b2 : CryptoBox) : Prop :=
  has_keys b1 ∧ has_keys b2 ∧
  m_peerIdentity b1 !! n2 = Some (m_publicKey b2) ∧
  m_peerIdentity b2 !! n1 = Some (m_publicKey b1).

(** the bootstrap role is decided without coordination. Of two boxes that
    hold each other's distinct identity keys exactly one is the initiator. *)
Theorem roles_opposite n1 n2 b1 b2 :
  know_each_other n1 n2 b1 b2 → m_publicKey b1 ≠ m_publicKey b2 →
  amInitiatorFor n2 b1 = negb (amInitiatorFor n1 b2).
Proof.
  intros (K1 & K2 & P1 & P2) Hne. unfold amInitiatorFor. rewrite P1, P2.
  pose proof (has_keys_pub_length _ K1). pose proof (has_keys_pub_length _ K2).
  destruct K1 as [L1 _], K2 as [L2 _].
  rewrite !decide_False by (by apply len32_nonempty).
  rewrite (memcmp_antisym (m_publicKey b1)).
  pose proof (memcmp_eq (m_publicKey b1) (m_publicKey b2) 32) as Hz.
  destruct (Z.ltb_spec (memcmp (m_publicKey b1) (m_publicKey b2) 32) 0),
    (Z.ltb_spec (- memcmp (m_publicKey b1) (m_publicKey b2) 32) 0); simpl; try lia.
  exfalso. apply Hne, Hz; [done|done|lia].
Qed.

Lemma bootstrapSk_agree a b :
  length a = 32 → length b = 32 →
  bootstrapSk a (scalarmult_base b) = bootstrapSk b (scalarmult_base a).
Proof. intros. unfold bootstrapSk. by rewrite dhFn_agree. Qed.

Lemma bootstrap_session_role priv pub peerPub rnd :
  bootstrap_session priv pub peerPub rnd =
  if (memcmp pub peerPub 32 <? 0)%Z
  then initiator_session (bootstrapSk priv peerPub) peerPub rnd
  else responder_session (bootstrapSk priv peerPub) priv pub.
Proof. done. Qed.

(** The legacy bootstrap on both sides gives linked sessions. *)
Lemma bootstrap_linked b1 b2 rnd1 rnd2 :
  has_keys b1 → has_keys b2 → m_publicKey b1 ≠ m_publicKey b2 →
  length rnd1 = 32 → length rnd2 = 32 →
  linked 0
    (bootstrap_session (m_privateKey b1) (m_publicKey b1) (m_publicKey b2) rnd1)
    (bootstrap_session (m_privateKey b2) (m_publicKey b2) (m_publicKey b1) rnd2).
Proof.
  intros K1 K2 Hne Hr1 Hr2.
  pose proof (has_keys_pub_length _ K1) as Lp1. pose proof (has_keys_pub_length _ K2) as Lp2.
  pose proof (memcmp_eq (m_publicKey b1) (m_publicKey b2) 32 Lp1 Lp2) as Hz.
  rewrite !bootstrap_session_role, (memcmp_antisym (m_publicKey b1) (m_publicKey b2)).
  destruct K1 as [L1 P1], K2 as [L2 P2]. rewrite P1, P2 in *.
  rewrite (bootstrapSk_agree (m_privateKey b2)) by done.
  destruct (Z.ltb_spec (memcmp (scalarmult_base (m_privateKey b1))
              (scalarmult_base (m_privateKey b2)) 32) 0);
    destruct (Z.ltb_spec (- memcmp (scalarmult_base (m_privateKey b1))
              (scalarmult_base (m_privateKey b2)) 32) 0); try lia.
  - by apply start_linked.
  - by apply linked_sym, start_linked.
  - exfalso. apply Hne, Hz. lia.
Qed.
End Roles.

(** ** Conversations between two boxes *)
Section Converse.
Context `{Sodium} `{QtText} `{QHashOrder}.

(** One message: who writes, the text, the nonce and ratchet key drawn. *)
Record Event := mkEvent {
  ev_first : bool;
  ev_text : string;
  ev_nonce : bytes;
  ev_rnd : bytes;
}.

Inductive Outcome := Read (t : string) | Waiting | Lost.

(** Write on one box and deliver the frame to the other. *)
Definition exchange (fromName toName : string) (e : Event) (src dst : CryptoBox)
    : Outcome * CryptoBox * CryptoBox :=
  match encryptFor toName (ev_text e) [] (ev_nonce e) src with
  | (Encrypted w, src') =>
      match decryptFrom fromName w [] (ev_rnd e) dst with
      | (Some t, dst') => (Read t, src', dst')
      | (None, dst') => (Lost, src', dst')
      end
  | (NotReady, src') => (Waiting, src', dst)
  | (EncryptFailed, src') => (Lost, src', dst)
  end.

Fixpoint converse (n1 n2 : string) (evs : list Event) (b1 b2 : CryptoBox)
    : list Outcome :=
  match evs with
  | [] => []
  | e :: evs' =>
      if ev_first e then
        let '(o, b1', b2') := exchange n1 n2 e b1 b2 in
        o :: converse n1 n2 evs' b1' b2'
      else
        let '(o, b2', b1') := exchange n2 n1 e b2 b1 in
        o :: converse n1 n2 evs' b1' b2'
  end.

(** A conversation among other frames: [Noise] is a frame that the relay delivers to the
    first box, or to the second, under the name [from]. *)
Inductive Step :=
| Talk (e : Event)
| Noise (to_first : bool) (from : string) (w : WireFrame) (rnd rndR : bytes).

(** What became of the messages, and whether every noise that came under the name of the
    other party was refused. *)
Fixpoint noisy (n1 n2 : string) (steps : list Step) (b1 b2 : CryptoBox)
    : list Outcome * bool :=
  match steps with
  | [] => ([], true)
  | Talk e :: rest =>
      if ev_first e then
        let '(o, b1', b2') := exchange n1 n2 e b1 b2 in
        let '(os, q) := noisy n1 n2 rest b1' b2' in (o :: os, q)
      else
        let '(o, b2', b1') := exchange n2 n1 e b2 b1 in
        let '(os, q) := noisy n1 n2 rest b1' b2' in (o :: os, q)
  | Noise true from w rnd rndR :: rest =>
      let '(r, b1') := decryptFrom from w rnd rndR b1 in
      let '(os, q) := noisy n1 n2 rest b1' b2 in
      (os, (negb (String.eqb from n2) || bool_decide (r = None)) && q)
  | Noise false from w rnd rndR :: rest =>
      let '(r, b2') := decryptFrom from w rnd rndR b2 in
      let '(os, q) := noisy n1 n2 rest b1 b2' in
      (os, (negb (String.eqb from n1) || bool_decide (r = None)) && q)
  end.

Definition talk_of (steps : list Step) : list Event :=
  omap (λ st, match st with Talk e => Some e | Noise _ _ _ _ _ => None end) steps.

Lemma converse_noisy n1 n2 evs b1 b2 :
  noisy n1 n2 (Talk <$> evs) b1 b2 = (converse n1 n2 evs b1 b2, true).
Proof.
  revert b1 b2. induction evs as [|e evs IH]; intros b1 b2; [done|].
  cbn [fmap list_fmap noisy converse]. destruct (ev_first e);
    destruct (exchange _ _ e _ _) as [[o b1'] b2']; by rewrite IH.
Qed.

Lemma talk_of_Talk evs : talk_of (Talk <$> evs) = evs.
Proof. induction evs as [|e evs IH]; [done|]. cbn. by f_equal. Qed.

(** What the users see: every message is read, except those a responder writes
    before the initiator's first message, which wait. *)
Fixpoint expected (ready1 ready2 : bool) (evs : list Event) : list Outcome :=
  match evs with
  | [] => []
  | e :: evs' =>
      if (if ev_first e then ready1 else ready2)
      then Read (ev_text e) :: expected true true evs'
      else Waiting :: expected ready1 ready2 evs'
  end.

(** Every drawn ratchet key is new. *)
Fixpoint fresh_script (used : list bytes) (evs : list Event) : Prop :=
  match evs with
  | [] => True
  | e :: evs' =>
      length (ev_rnd e) = 32 ∧ (scalarmult_base (ev_rnd e) ∉ used) ∧
      fresh_script (scalarmult_base (ev_rnd e) :: used) evs'
  end.

Definition ready (s : RatchetSession) : bool := negb (bool_decide (CKs s = [])).
End Converse.

Section Conversations.
Context `{SodiumLaws} `{QtTextLaws} `{QHashOrder}.

(** The wire form of a frame loses nothing. *)
Lemma wire_roundtrip f :
  mkFrame (toLatin1 (fromLatin1 (f_cipher f))) (unhexStr (hexStr (f_dh f))) (f_pn f)
    (f_n f) (unhexStr (hexStr (f_nonce f))) (unhexStr (hexStr (f_ct f))) = f.
Proof. destruct f. cbn. by rewrite toLatin1_fromLatin1, !unhexStr_hexStr. Qed.

Lemma exchange_step c nf nt e src dst s1 s2 :
  m_sessions src !! nt = Some s1 → m_sessions dst !! nf = Some s2 →
  linked c s1 s2 → (c + kMaxSkip < 2 ^ 32)%Z →
  length (ev_rnd e) = 32 → scalarmult_base (ev_rnd e) ≠ DHs_pub s2 →
  if ready s1 then
    ∃ s1' s2', exchange nf nt e src dst
               = (Read (ev_text e), put_session nt s1' src, put_session nf s2' dst) ∧
      linked (c + 1) s1' s2' ∧ ready s1' = true ∧ ready s2' = true ∧
      DHs_pub s1' = DHs_pub s1 ∧
      (DHs_pub s2' = DHs_pub s2 ∨ DHs_pub s2' = scalarmult_base (ev_rnd e))
  else exchange nf nt e src dst = (Waiting, src, dst).
Proof.
  intros H1' H2' Hl Hc Hr Hf. unfold exchange, encryptFor, decryptFrom, sessionFor, ready.
  rewrite H1'. case_bool_decide as Hcks; cbn [negb].
  { by rewrite decide_True by done. }
  rewrite decide_False by done.
  pose proof (linked_step c s1 s2 (toUtf8 (ev_text e)) (ev_nonce e) (ev_rnd e)
                Hl Hcks Hc Hr Hf) as Hstep.
  destruct (encryptStep s1 _ _) as [s1' f].
  destruct Hstep as (s2' & Hd & Hl' & N1 & N2 & Hp1 & Hp2).
  exists s1', s2'. rewrite H2'. cbn [w_cipher w_dh w_pn w_n w_nonce w_ct].
  rewrite wire_roundtrip, Hd, fromUtf8_toUtf8. rewrite !bool_decide_false by done.
  destruct Hp2 as [[Hp2 _]|Hp2]; auto 9.
Qed.

(** The first public ratchet key of a bootstrapped session, and whether it can
    write. *)
Lemma bootstrap_ready priv pub peerPub rnd :
  length rnd = 32 →
  ready (bootstrap_session priv pub peerPub rnd) = (memcmp pub peerPub 32 <? 0)%Z.
Proof.
  intros Hr. rewrite bootstrap_session_role. unfold ready.
  destruct (_ <? _)%Z; [|done].
  by rewrite bool_decide_false by (by apply initiator_session_pub).
Qed.

Lemma bootstrap_pub priv pub peerPub rnd :
  length rnd = 32 →
  DHs_pub (bootstrap_session priv pub peerPub rnd)
  = if (memcmp pub peerPub 32 <? 0)%Z then scalarmult_base rnd else pub.
Proof.
  intros Hr. rewrite bootstrap_session_role. destruct (_ <? _)%Z; [|done].
  by apply initiator_session_pub.
Qed.

(** Noise leaves the session of the conversation alone. *)
Lemma noise_session p from w rnd rndR b s :
  m_sessions b !! p = Some s →
  negb (String.eqb from p) || bool_decide ((decryptFrom from w rnd rndR b).1 = None) = true →
  m_sessions (decryptFrom from w rnd rndR b).2 !! p = Some s.
Proof.
  intros Hs. destruct (String.eqb_spec from p) as [->|Hn]; cbn [negb orb].
  - intros Hr%bool_decide_eq_true. by rewrite (decryptFrom_failed _ _ _ _ _ s).
  - intros _. rewrite decryptFrom_other; [done|congruence].
Qed.

(** A key drawn for a message that waits is spent all the same. *)
Lemma noisy_linked n1 n2 steps : ∀ c used b1 b2 s1 s2,
  m_sessions b1 !! n2 = Some s1 → m_sessions b2 !! n1 = Some s2 →
  linked c s1 s2 → (c + Z.of_nat (length (talk_of steps)) + kMaxSkip < 2 ^ 32)%Z →
  DHs_pub s1 ∈ used → DHs_pub s2 ∈ used → fresh_script used (talk_of steps) →
  (noisy n1 n2 steps b1 b2).2 = true →
  (noisy n1 n2 steps b1 b2).1 = expected (ready s1) (ready s2) (talk_of steps).
Proof.
  induction steps as [|[e|first from w rnd rndR] steps IH];
    intros c used b1 b2 s1 s2 E1 E2 Hl Hc U1 U2 Hf Hq; [done| |].
  2: { destruct first; cbn [noisy talk_of] in *.
       - pose proof (noise_session n2 from w rnd rndR b1 s1 E1) as Hn.
         destruct (decryptFrom _ _ _ _ b1) as [r b1'].
         destruct (noisy n1 n2 steps b1' b2) as [os q] eqn:En. cbn in Hn, Hq |- *.
         apply andb_true_iff in Hq as [Hr Hq].
         pose proof (IH c used b1' b2 s1 s2 (Hn Hr) E2 Hl Hc U1 U2 Hf) as Hi.
         rewrite En in Hi. by apply Hi.
       - pose proof (noise_session n1 from w rnd rndR b2 s2 E2) as Hn.
         destruct (decryptFrom _ _ _ _ b2) as [r b2'].
         destruct (noisy n1 n2 steps b1 b2') as [os q] eqn:En. cbn in Hn, Hq |- *.
         apply andb_true_iff in Hq as [Hr Hq].
         pose proof (IH c used b1 b2' s1 s2 E1 (Hn Hr) Hl Hc U1 U2 Hf) as Hi.
         rewrite En in Hi. by apply Hi. }
  change (talk_of (Talk e :: steps)) with (e :: talk_of steps) in *.
  cbn [length] in Hc. destruct Hf as (Hr & Hn & Hf).
  assert (N1 : scalarmult_base (ev_rnd e) ≠ DHs_pub s1) by congruence.
  assert (N2 : scalarmult_base (ev_rnd e) ≠ DHs_pub s2) by congruence.
  assert (Hnext : ∀ s1' s2', linked (c + 1) s1' s2' →
    ready s1' = true → ready s2' = true →
    DHs_pub s1' ∈ scalarmult_base (ev_rnd e) :: used →
    DHs_pub s2' ∈ scalarmult_base (ev_rnd e) :: used →
    (noisy n1 n2 steps (put_session n2 s1' b1) (put_session n1 s2' b2)).2 = true →
    (noisy n1 n2 steps (put_session n2 s1' b1) (put_session n1 s2' b2)).1
    = expected true true (talk_of steps)).
  { intros s1' s2' Hl' R1' R2' V1 V2 Hq'. rewrite <- R1' at 1. rewrite <- R2'.
    eapply (IH (c + 1)%Z); eauto using put_session_lookup. lia. }
  assert (Hwait : (noisy n1 n2 steps b1 b2).2 = true →
    (noisy n1 n2 steps b1 b2).1 = expected (ready s1) (ready s2) (talk_of steps)).
  { apply (IH c (scalarmult_base (ev_rnd e) :: used));
      try done; [lia|rewrite elem_of_cons; auto..]. }
  cbn [noisy expected] in *. destruct (ev_first e).
  - pose proof (exchange_step c n1 n2 e b1 b2 s1 s2 E1 E2 Hl ltac:(lia) Hr N2) as Hx.
    destruct (ready s1) eqn:R1.
    + destruct Hx as (s1' & s2' & Hx & Hl' & R1' & R2' & P1 & P2). rewrite Hx in *.
      specialize (Hnext s1' s2' Hl' R1' R2').
      destruct (noisy _ _ _ _ _) as [os q]. cbn in *. f_equal.
      apply Hnext; [rewrite elem_of_cons, ?P1; by right|rewrite elem_of_cons|done].
      destruct P2 as [-> | ->]; auto.
    + rewrite Hx in *. destruct (noisy _ _ _ _ _) as [os q]. cbn in *. f_equal. by apply Hwait.
  - pose proof (exchange_step c n2 n1 e b2 b1 s2 s1 E2 E1 (linked_sym _ _ _ Hl)
                  ltac:(lia) Hr N1) as Hx.
    destruct (ready s2) eqn:R2.
    + destruct Hx as (s2' & s1' & Hx & Hl' & R2' & R1' & P2 & P1). rewrite Hx in *.
      specialize (Hnext s1' s2' (linked_sym _ _ _ Hl') R1' R2').
      destruct (noisy _ _ _ _ _) as [os q]. cbn in *. f_equal.
      apply Hnext; [rewrite elem_of_cons|rewrite elem_of_cons, ?P2; by right|done].
      destruct P1 as [-> | ->]; auto.
    + rewrite Hx in *. destruct (noisy _ _ _ _ _) as [os q]. cbn in *. f_equal. by apply Hwait.
Qed.

Lemma converse_linked n1 n2 evs c used b1 b2 s1 s2 :
  m_sessions b1 !! n2 = Some s1 → m_sessions b2 !! n1 = Some s2 →
  linked c s1 s2 → (c + Z.of_nat (length evs) + kMaxSkip < 2 ^ 32)%Z →
  DHs_pub s1 ∈ used → DHs_pub s2 ∈ used → fresh_script used evs →
  converse n1 n2 evs b1 b2 = expected (ready s1) (ready s2) evs.
Proof.
  intros E1 E2 Hl Hc U1 U2 Hf. pose proof (noisy_linked n1 n2 (Talk <$> evs) c used b1 b2 s1 s2) as Hn.
  rewrite talk_of_Talk, converse_noisy in Hn. by apply Hn.
Qed.

(** The sessions that two boxes open for themselves, each in its own time. *)
Lemma bootstrap_sessions n1 n2 b1 b2 rnd1 rnd2 :
  know_each_other n1 n2 b1 b2 → m_publicKey b1 ≠ m_publicKey b2 →
  m_sessions b1 !! n2 = None → m_sessions b2 !! n1 = None →
  length rnd1 = 32 → length rnd2 = 32 →
  ∃ s1 s2, sessionFor n2 rnd1 b1 = Some (s1, put_session n2 s1 b1) ∧
    sessionFor n1 rnd2 b2 = Some (s2, put_session n1 s2 b2) ∧ linked 0 s1 s2 ∧
    ready s1 = amInitiatorFor n2 b1 ∧ ready s2 = amInitiatorFor n1 b2 ∧
    let used := [scalarmult_base rnd1; scalarmult_base rnd2; m_publicKey b1; m_publicKey b2] in
    DHs_pub s1 ∈ used ∧ DHs_pub s2 ∈ used.
Proof.
  intros (K1 & K2 & P1 & P2) Hne S1 S2 L1 L2.
  pose proof (bootstrap_linked b1 b2 rnd1 rnd2 K1 K2 Hne L1 L2) as Hl.
  unfold sessionFor, amInitiatorFor. rewrite S1, S2, P1, P2.
  rewrite !decide_False by (apply len32_nonempty; apply K1 || apply K2).
  do 2 eexists. split_and!; [done..|exact Hl|by apply bootstrap_ready|by apply bootstrap_ready| |];
    rewrite bootstrap_pub, !elem_of_cons by done; destruct (_ <? _)%Z; auto.
Qed.

(** C9: two boxes that hold each other's identity keys can converse on the
    legacy bootstrap. Each side opens its session on its own, in either order;
    from then on every message, in any interleaving of the two directions, is
    read as it was written, except those the responder writes before the
    initiator's first, which are reported not ready. *)
Theorem legacy_conversation n1 n2 evs b1 b2 rnd1 rnd2 :
  know_each_other n1 n2 b1 b2 → m_publicKey b1 ≠ m_publicKey b2 →
  m_sessions b1 !! n2 = None → m_sessions b2 !! n1 = None →
  length rnd1 = 32 → length rnd2 = 32 →
  (Z.of_nat (length evs) + kMaxSkip < 2 ^ 32)%Z →
  fresh_script [scalarmult_base rnd1; scalarmult_base rnd2;
                m_publicKey b1; m_publicKey b2] evs →
  ∃ s1 s2 b1' b2',
    sessionFor n2 rnd1 b1 = Some (s1, b1') ∧ sessionFor n1 rnd2 b2 = Some (s2, b2') ∧
    converse n1 n2 evs b1' b2'
    = expected (amInitiatorFor n2 b1) (amInitiatorFor n1 b2) evs.
Proof.
  intros Hk Hne S1 S2 L1 L2 Hc Hf.
  destruct (bootstrap_sessions n1 n2 b1 b2 rnd1 rnd2 Hk Hne S1 S2 L1 L2)
    as (s1 & s2 & E1 & E2 & Hl & R1 & R2 & U1 & U2).
  do 4 eexists. split; [exact E1|]. split; [exact E2|]. rewrite <- R1, <- R2.
  eapply (converse_linked n1 n2 evs 0); [apply put_session_lookup..|exact Hl|exact Hc
    |exact U1|exact U2|exact Hf].
Qed.

(** C21: a frame that is refused does no harm.  Two boxes open their sessions as above and
    then converse while the relay delivers other frames to either: forged ones and copies
    under the name of the other party, and anything under other names.  Provided that
    those under the name of the other party are refused (that they are is the matter of
    the cipher), every message of the conversation is still read as it was written, as if
    the noise had not been there. *)
Theorem noise_does_no_harm n1 n2 steps b1 b2 rnd1 rnd2 :
  know_each_other n1 n2 b1 b2 → m_publicKey b1 ≠ m_publicKey b2 →
  m_sessions b1 !! n2 = None → m_sessions b2 !! n1 = None →
  length rnd1 = 32 → length rnd2 = 32 →
  (Z.of_nat (length (talk_of steps)) + kMaxSkip < 2 ^ 32)%Z →
  fresh_script [scalarmult_base rnd1; scalarmult_base rnd2;
                m_publicKey b1; m_publicKey b2] (talk_of steps) →
  ∃ s1 s2 b1' b2',
    sessionFor n2 rnd1 b1 = Some (s1, b1') ∧ sessionFor n1 rnd2 b2 = Some (s2, b2') ∧
    ((noisy n1 n2 steps b1' b2').2 = true →
     (noisy n1 n2 steps b1' b2').1
     = expected (amInitiatorFor n2 b1) (amInitiatorFor n1 b2) (talk_of steps)).
Proof.
  intros Hk Hne S1 S2 L1 L2 Hc Hf.
  destruct (bootstrap_sessions n1 n2 b1 b2 rnd1 rnd2 Hk Hne S1 S2 L1 L2)
    as (s1 & s2 & E1 & E2 & Hl & R1 & R2 & U1 & U2).
  do 4 eexists. split; [exact E1|]. split; [exact E2|]. rewrite <- R1, <- R2.
  eapply (noisy_linked n1 n2 steps 0); [apply put_session_lookup..|exact Hl|exact Hc
    |exact U1|exact U2|exact Hf].
Qed.
End Conversations.
