(* ===== verification/PrekeyFacts.v ===== *)
(** * CryptoBox: prekeys, their rotation, and X3DH sessions *)

From S2P Require Import Prelude Platform Kdf Ratchet RatchetFacts Conversation X3dh.
From S2P Require Import X3dhFacts CryptoBox CryptoBoxFacts.

Section Pool.
Context `{Sodium}.

Lemma fill_pool_next count rnds next pool :
  (0 ≤ next)%Z → (next + Z.of_nat count < 2 ^ 32)%Z →
  (fill_pool count rnds next pool).2 = (next + Z.of_nat count)%Z.
Proof.
  revert rnds next pool. induction count as [|n IH]; intros rnds next pool H0 H1; simpl; [lia|].
  rewrite u32_small by (unfold is_u32; lia). rewrite IH; lia.
Qed.

Lemma fill_pool_lookup count rnds next pool id :
  (0 ≤ next)%Z → (next + Z.of_nat count < 2 ^ 32)%Z →
  (fill_pool count rnds next pool).1 !! id
  = if decide (next ≤ id < next + Z.of_nat count)%Z
    then Some (rnds (Z.to_nat (id - next))) else pool !! id.
Proof.
  revert rnds next pool. induction count as [|n IH]; intros rnds next pool H0 H1.
  { rewrite decide_False by lia. done. }
  cbn [fill_pool]. rewrite u32_small by (unfold is_u32; lia). rewrite IH by lia.
  destruct (decide (id = next)) as [->|Hne].
  - rewrite decide_False by lia. rewrite decide_True by lia.
    rewrite lookup_insert_eq, Z.sub_diag. done.
  - destruct (decide (next + 1 ≤ id < next + 1 + Z.of_nat n)%Z).
    + rewrite decide_True by lia.
      replace (Z.to_nat (id - next)) with (S (Z.to_nat (id - (next + 1)))) by lia. done.
    + rewrite decide_False by lia. by rewrite lookup_insert_ne.
Qed.
End Pool.

(** ** Invariants of the prekey state *)
Section Prekeys.
Context `{SodiumLaws} `{QtText}.

(** A version 2 identity with all that derives from its seed. *)
Record identity_ok (b : CryptoBox) : Prop := {
  id_ver : m_identityVersion b = 2%Z;
  id_seed : length (m_identitySeed b) = 32;
  id_ed : m_edPublicKey b = X3DH.identityPublic (m_identitySeed b);
}.

(** The published signed prekey is the key the private half makes, signed by
    the identity. *)
Record prekeys_ok (b : CryptoBox) : Prop := {
  pk_priv : length (m_spkPriv b) = 32;
  pk_pub : m_spkPub b = scalarmult_base (m_spkPriv b);
  pk_sig : m_spkSig b = X3DH.sign (m_identitySeed b) (m_spkPub b);
}.

Lemma identity_ok_x3dh b : identity_ok b → hasX3dhIdentity b = true.
Proof.
  intros [Hv Hs _]. unfold hasX3dhIdentity. rewrite Hv.
  rewrite bool_decide_false by (by apply len32_nonempty). done.
Qed.

Lemma newSignedPrekey_ok seed rnd :
  length seed = 32 →
  X3DH.newSignedPrekey seed rnd
  = Some (rnd, scalarmult_base rnd, X3DH.sign seed (scalarmult_base rnd)).
Proof.
  intros Hs. unfold X3DH.newSignedPrekey.
  destruct (sign_honest seed (scalarmult_base rnd) Hs) as [Hl _].
  rewrite decide_False; [done|]. intros Hn. by rewrite Hn in Hl.
Qed.

(** A generated prekey set is publishable. Generation succeeds for every
    version 2 identity; the signed prekey matches its private half and verifies
    under the identity, the replaced key is retained with its retirement time,
    and the pool holds exactly [count] keys under ids never issued before. *)
Lemma generatePrekeys_spec count rnd rnds now b :
  identity_ok b → length rnd = 32 → (0 ≤ count)%Z → (0 ≤ m_nextOpkId b)%Z →
  (m_nextOpkId b + count < 2 ^ 32)%Z →
  ∃ b', generatePrekeys count rnd rnds now b = Some b' ∧
    prekeys_ok b' ∧ identity_ok b' ∧
    X3DH.verify (m_edPublicKey b') (m_spkPub b') (m_spkSig b') = true ∧
    m_spkCreatedMs b' = now ∧
    (m_spkPriv b ≠ [] → m_prevSpkPriv b' = m_spkPriv b ∧ m_prevSpkPub b' = m_spkPub b
                        ∧ m_prevSpkRetiredMs b' = now) ∧
    m_nextOpkId b' = (m_nextOpkId b + count)%Z ∧
    ∀ id, is_Some (m_opkPriv b' !! id) ↔ (m_nextOpkId b ≤ id < m_nextOpkId b + count)%Z.
Proof.
  intros Hid Hr Hc Hn Hlt. destruct Hid as [Hv Hs Hed].
  unfold generatePrekeys. rewrite identity_ok_x3dh by done. cbn [negb].
  destruct (Z.ltb_spec count 0); [lia|].
  rewrite newSignedPrekey_ok by done.
  set (b1 := if decide (m_spkPriv b = []) then b else _).
  assert (E : m_nextOpkId (set_spk rnd (scalarmult_base rnd)
               (X3DH.sign (m_identitySeed b) (scalarmult_base rnd)) now b1) = m_nextOpkId b)
    by (unfold b1; by case_decide).
  rewrite E.
  pose proof (fill_pool_next (Z.to_nat count) rnds (m_nextOpkId b) ∅ Hn ltac:(lia)) as Hnext.
  pose proof (λ id, fill_pool_lookup (Z.to_nat count) rnds (m_nextOpkId b) ∅ id Hn ltac:(lia))
    as Hlook.
  destruct (fill_pool _ _ _ _) as [pool next]. cbn [fst snd] in *.
  assert (Eid : m_identityVersion b1 = m_identityVersion b ∧
    m_identitySeed b1 = m_identitySeed b ∧ m_edPublicKey b1 = m_edPublicKey b)
    by (unfold b1; by case_decide).
  destruct Eid as (Ev & Es & Ee).
  eexists. split; [done|]. cbn. rewrite Ee, Hed.
  split_and!; [split; cbn; congruence|split; cbn; congruence| |done| |lia|].
  - by apply sign_honest.
  - intros Hne. unfold b1. by rewrite decide_False.
  - intros id. rewrite Hlook, lookup_empty. case_decide; rewrite ?Z2Nat.id in *; try lia.
    + split; [lia|done].
    + split; [by intros []|lia].
Qed.

(** ** One-time prekeys are used once *)

Lemma take_spec id b :
  match m_opkPriv b !! id with
  | Some k => takeOneTimePrekey id b
              = (k, set_pool (delete id (m_opkPriv b)) (m_nextOpkId b) b)
  | None => takeOneTimePrekey id b = ([], b)
  end.
Proof. unfold takeOneTimePrekey. by destruct (m_opkPriv b !! id). Qed.

(** single use. Once an opener naming a one-time prekey has been accepted,
    any opener naming the same id again is refused and changes nothing,
    whatever peer and keys it claims. *)
Theorem opk_single_use peer ikA ekA id spkUsed b b' peer2 ik2 ek2 spk2 :
  (0 ≤ id < 2 ^ 31)%Z →
  acceptX3dhSession peer ikA ekA id spkUsed b = (true, b') →
  acceptX3dhSession peer2 ik2 ek2 id spk2 b' = (false, b').
Proof.
  intros Hid. unfold acceptX3dhSession at 1.
  destruct (negb (hasX3dhIdentity b) || bool_decide (m_spkPriv b = [])) eqn:Eg; [done|].
  rewrite (proj2 (Z.leb_le 0 id)) by lia. rewrite u32_small by (unfold is_u32; lia).
  unfold takeOneTimePrekey. destruct (m_opkPriv b !! id) as [k|] eqn:Ek; [|done].
  cbn [andb]. destruct (bool_decide (k = [])); [done|].
  destruct (if decide (spkUsed = []) then _ else _) as [use|]; [|done].
  destruct (X3DH.responder _ _ _ _ _) as [sk|]; [|done].
  intros [= <-]. unfold acceptX3dhSession. cbn -[u32 takeOneTimePrekey].
  unfold hasX3dhIdentity in *. cbn -[u32 takeOneTimePrekey]. rewrite Eg.
  rewrite (proj2 (Z.leb_le 0 id)) by lia. rewrite u32_small by (unfold is_u32; lia).
  unfold takeOneTimePrekey. cbn. by rewrite lookup_delete_eq.
Qed.

(** An opener built from a signed prekey we no longer hold is refused
    without touching anything: the one-time prekey it named (32 octets, like
    every key of the pool) goes back where it was. *)
Lemma stale_opener_is_harmless peer ikA ekA id spkUsed b :
  spkUsed ≠ [] → spkUsed ≠ m_spkPub b →
  (m_prevSpkPub b = [] ∨ spkUsed ≠ m_prevSpkPub b) →
  map_Forall (λ _ k, length k = 32) (m_opkPriv b) →
  acceptX3dhSession peer ikA ekA id spkUsed b = (false, b).
Proof.
  intros Hs Hc Hp Hpool. unfold acceptX3dhSession.
  destruct (_ || _); [done|]. destruct (0 <=? id)%Z; cbn [andb].
  - unfold takeOneTimePrekey. destruct (m_opkPriv b !! u32 id) as [k|] eqn:Ek; [|done].
    rewrite bool_decide_false by (apply len32_nonempty, (Hpool _ _ Ek)).
    cbn. rewrite (decide_False (P := spkUsed = [])), (decide_False (P := spkUsed = m_spkPub b)),
      decide_False by (done || tauto). cbn. f_equal. unfold set_pool. cbn.
    rewrite insert_delete_id by done. by destruct b.
  - rewrite (decide_False (P := spkUsed = [])), (decide_False (P := spkUsed = m_spkPub b)),
      decide_False by (done || tauto). done.
Qed.
End Prekeys.
