(* ===== verification/OpenerFacts.v ===== *)
(** * CryptoBox: X3DH openers, rotation, and what a reset leaves behind *)

From S2P Require Import Prelude Platform Kdf Ratchet RatchetFacts Conversation X3dh.
From S2P Require Import X3dhFacts CryptoBox CryptoBoxFacts PrekeyFacts.

(** ** A conversation opened with X3DH *)
Section Opener.
Context `{SodiumLaws} `{QtTextLaws} `{QHashOrder}.

(** A one-time prekey of the pool, or none (id -1). *)
Definition offered (b : CryptoBox) (opkPriv : bytes) (id : Z) : Prop :=
  opkPriv = [] ∧ id = (-1)%Z ∨
  m_opkPriv b !! id = Some opkPriv ∧ length opkPriv = 32 ∧ (0 ≤ id < 2 ^ 31)%Z.

Definition opk_public (opkPriv : bytes) : bytes :=
  if decide (opkPriv = []) then [] else scalarmult_base opkPriv.

Lemma opk_public_empty opkPriv :
  opkPriv = [] ∨ length opkPriv = 32 → (opk_public opkPriv = [] ↔ opkPriv = []).
Proof.
  intros Ho. unfold opk_public. case_decide as Hd; [done|].
  destruct Ho as [?|Hl]; [done|]. pose proof (scalarmult_base_length _ Hl) as Hb.
  split; [|done]. intros E. by rewrite E in Hb.
Qed.

Lemma beginX3dhSession_ok peer seedB spkPriv opkPriv id rndE rndR a :
  identity_ok a → length seedB = 32 → length spkPriv = 32 →
  opkPriv = [] ∧ id = (-1)%Z ∨ length opkPriv = 32 → length rndE = 32 →
  ∃ sk,
    beginX3dhSession peer (X3DH.identityPublic seedB) (scalarmult_base spkPriv)
      (X3DH.sign seedB (scalarmult_base spkPriv)) (opk_public opkPriv) id rndE rndR a
    = Some (X3DH.identityPublic (m_identitySeed a), scalarmult_base rndE, id,
            put_session peer (initiator_session sk (scalarmult_base spkPriv) rndR) a) ∧
    length sk = 32 ∧
    X3DH.responder seedB spkPriv opkPriv (X3DH.identityPublic (m_identitySeed a))
      (scalarmult_base rndE) = Some sk.
Proof.
  intros Ha HsB Hspk Ho HrE.
  assert (Ho' : opkPriv = [] ∨ length opkPriv = 32) by tauto.
  destruct (agreement_full (m_identitySeed a) seedB spkPriv opkPriv id rndE)
    as (r & Hi & Hresp & Hsk & Hik & Hek & _); [apply Ha|done..|].
  exists (X3DH.r_sk r). unfold beginX3dhSession. rewrite identity_ok_x3dh by done. cbn [negb].
  unfold X3DH.initiator.
  pose proof (opk_public_empty opkPriv Ho') as Hemp.
  assert ((if decide (opk_public opkPriv = [])
     then X3DH.mkBundle (X3DH.identityPublic seedB) (scalarmult_base spkPriv)
            (X3DH.sign seedB (scalarmult_base spkPriv)) [] (-1)
     else X3DH.mkBundle (X3DH.identityPublic seedB) (scalarmult_base spkPriv)
            (X3DH.sign seedB (scalarmult_base spkPriv)) (opk_public opkPriv) id)
    = honest_bundle seedB spkPriv opkPriv id) as ->.
  { unfold honest_bundle. fold (opk_public opkPriv). case_decide as Hd; [|done].
    rewrite Hd. destruct Ho as [[_ ->]|Hl]; [done|].
    apply Hemp in Hd. by rewrite Hd in Hl. }
  rewrite Hi, Hsk, Hik, Hek. cbn [negb Nat.eqb]. unfold initiator_session.
  destruct (genKeypair rndR) as [priv pub]. destruct (kdfRk _ _) as [rk cks].
  split_and!; [|done|by rewrite <- Hik, <- Hek].
  f_equal. f_equal. f_equal. case_decide as Hd; [|done].
  destruct Ho as [[_ ->]|Hl]; [done|]. apply Hemp in Hd. by rewrite Hd in Hl.
Qed.

Lemma acceptX3dhSession_ok peer ikA ekA opkPriv id b sk :
  identity_ok b → prekeys_ok b → offered b opkPriv id →
  X3DH.responder (m_identitySeed b) (m_spkPriv b) opkPriv ikA ekA = Some sk →
  ∃ b1, acceptX3dhSession peer ikA ekA id (m_spkPub b) b
        = (true, put_session peer (responder_session sk (m_spkPriv b) (m_spkPub b)) b1) ∧
        b1 = (if decide (opkPriv = []) then b
              else set_pool (delete id (m_opkPriv b)) (m_nextOpkId b) b).
Proof.
  intros Hi [Lp Hpub Hsig] Ho Hr. unfold acceptX3dhSession.
  rewrite identity_ok_x3dh by done.
  rewrite bool_decide_false by (by apply len32_nonempty). cbn [negb orb].
  assert (Hne : m_spkPub b ≠ []).
  { rewrite Hpub. apply len32_nonempty. by apply scalarmult_base_length. }
  unfold takeOneTimePrekey. destruct Ho as [[-> ->]|(Hk & Hl & Hid)].
  - cbn -[decide]. rewrite !(decide_False (P := m_spkPub b = [])), decide_True by done.
    rewrite Hr. eexists. split; [|by rewrite decide_True].
    by rewrite decide_True.
  - rewrite (proj2 (Z.leb_le 0 id)) by lia. rewrite u32_small by (unfold is_u32; lia).
    rewrite Hk. pose proof (len32_nonempty _ Hl) as Hko.
    rewrite bool_decide_false by done. cbn [andb m_spkPub m_spkPriv set_pool m_identitySeed].
    rewrite (decide_False (P := m_spkPub b = [])), decide_True by done.
    rewrite Hr. eexists. split; [|by rewrite decide_False].
    by rewrite decide_True.
Qed.

(** C3: the asynchronous start. From the bundle a recipient published, with a
    one-time prekey or without, the initiator opens a session while the recipient
    is away; the recipient opens the matching one from the header, spending the
    one-time prekey; and from then on every message in either direction and any
    interleaving is read as it was written, those the recipient writes before the
    initiator's first being held back as not ready. *)
Theorem x3dh_conversation n1 n2 a b opkPriv id rndE rndR evs :
  identity_ok a → identity_ok b → prekeys_ok b → offered b opkPriv id →
  length rndE = 32 → length rndR = 32 →
  (Z.of_nat (length evs) + kMaxSkip < 2 ^ 32)%Z →
  fresh_script [scalarmult_base rndR; m_spkPub b] evs →
  ∃ ikA ekA a' b',
    beginX3dhSession n2 (m_edPublicKey b) (m_spkPub b) (m_spkSig b) (opk_public opkPriv)
      id rndE rndR a = Some (ikA, ekA, id, a') ∧
    acceptX3dhSession n1 ikA ekA id (m_spkPub b) b = (true, b') ∧
    m_opkPriv b' = (if decide (opkPriv = []) then m_opkPriv b else delete id (m_opkPriv b)) ∧
    converse n1 n2 evs a' b' = expected true false evs.
Proof.
  intros Ha Hb Hpk Ho HrE HrR Hc Hf. pose proof Hpk as [Lp Hpub Hsig].
  pose proof Hb as [_ Hseed Hed].
  destruct (beginX3dhSession_ok n2 (m_identitySeed b) (m_spkPriv b) opkPriv id rndE rndR a)
    as (sk & Hbeg & _ & Hresp); [done..| |done|].
  { destruct Ho as [?|(_ & ? & _)]; auto. }
  destruct (acceptX3dhSession_ok n1 _ _ opkPriv id b sk Hb Hpk Ho Hresp) as (b1 & Hacc & Hb1).
  rewrite Hed, Hsig, Hpub, Hbeg. rewrite Hpub in Hacc.
  do 4 eexists. split; [done|]. split; [exact Hacc|]. split.
  { subst b1. by case_decide. }
  destruct (initiator_session_pub sk (scalarmult_base (m_spkPriv b)) rndR HrR) as [Ep Ec].
  rewrite (converse_linked n1 n2 evs 0
      [scalarmult_base rndR; scalarmult_base (m_spkPriv b)] _ _
      (initiator_session sk (scalarmult_base (m_spkPriv b)) rndR)
      (responder_session sk (m_spkPriv b) (scalarmult_base (m_spkPriv b))));
    [|apply put_session_lookup|apply put_session_lookup|by apply start_linked|lia|..].
  - f_equal. unfold ready. by rewrite bool_decide_false.
  - rewrite Ep. by left.
  - right. by left.
  - by rewrite <- Hpub.
Qed.
End Opener.

(** ** Refills, rotations and forgeries *)
Section Lifetimes.
Context `{SodiumLaws} `{QtText} `{QHashOrder}.

(** Like [generatePrekeys_spec], with the keys of the pool. *)
Lemma generatePrekeys_offers count rnd rnds now b b' id :
  identity_ok b → (0 ≤ m_nextOpkId b)%Z → (0 ≤ count)%Z → (m_nextOpkId b + count < 2 ^ 32)%Z →
  generatePrekeys count rnd rnds now b = Some b' →
  m_opkPriv b' !! id
  = if decide (m_nextOpkId b ≤ id < m_nextOpkId b + count)%Z
    then Some (rnds (Z.to_nat (id - m_nextOpkId b))) else None.
Proof.
  intros Hi Hn Hc Hlt. unfold generatePrekeys. rewrite identity_ok_x3dh by done. cbn [negb].
  destruct (Z.ltb_spec count 0); [lia|].
  rewrite newSignedPrekey_ok by apply Hi.
  set (b1 := if decide (m_spkPriv b = []) then b else _).
  assert (E : m_nextOpkId (set_spk rnd (scalarmult_base rnd)
               (X3DH.sign (m_identitySeed b) (scalarmult_base rnd)) now b1) = m_nextOpkId b)
    by (unfold b1; by case_decide).
  rewrite E. pose proof (fill_pool_lookup (Z.to_nat count) rnds (m_nextOpkId b) ∅ id Hn
                           ltac:(lia)) as Hl.
  destruct (fill_pool _ _ _ _) as [pool next]. cbn [fst] in Hl. intros [= <-]. cbn.
  rewrite Hl, lookup_empty. by rewrite Z2Nat.id by lia.
Qed.

Lemma accept_unknown_opk peer ikA ekA id spkUsed b :
  (0 ≤ id < 2 ^ 31)%Z → m_opkPriv b !! id = None →
  acceptX3dhSession peer ikA ekA id spkUsed b = (false, b).
Proof.
  intros Hid Hnone. unfold acceptX3dhSession. destruct (_ || _); [done|].
  rewrite (proj2 (Z.leb_le 0 id)) by lia. rewrite u32_small by (unfold is_u32; lia).
  unfold takeOneTimePrekey. rewrite Hnone. done.
Qed.

(** a new pool replaces the old one. Generating prekeys succeeds for every
    version 2 identity and gives a publishable set: a signed prekey that verifies
    under the identity, and one-time prekeys under ids never used before, each of
    which can open a session. Every one-time prekey served earlier is gone: an
    opener that names one is refused. *)
Theorem generatePrekeys_replaces_pool count rnd rnds now b :
  identity_ok b → length rnd = 32 → (∀ i, length (rnds i) = 32) → (0 ≤ count)%Z →
  (0 ≤ m_nextOpkId b)%Z → (m_nextOpkId b + count < 2 ^ 31)%Z →
  ∃ b', generatePrekeys count rnd rnds now b = Some b' ∧ identity_ok b' ∧ prekeys_ok b' ∧
    X3DH.verify (m_edPublicKey b') (m_spkPub b') (m_spkSig b') = true ∧
    (∀ id, (m_nextOpkId b ≤ id < m_nextOpkId b + count)%Z → ∃ k, offered b' k id ∧ k ≠ []) ∧
    ∀ id peer ikA ekA spkUsed, (0 ≤ id < m_nextOpkId b)%Z →
      acceptX3dhSession peer ikA ekA id spkUsed b' = (false, b').
Proof.
  intros Hi Hr Hrs Hc Hn Hlt.
  destruct (generatePrekeys_spec count rnd rnds now b) as (b' & Hg & Hp & Hi' & Hv & _);
    [done..|lia|].
  exists b'. split_and!; [done..| |].
  - intros id Hid. pose proof (generatePrekeys_offers count rnd rnds now b b' id Hi Hn Hc
      ltac:(lia) Hg) as Hl. rewrite decide_True in Hl by done.
    eexists. split; [|apply len32_nonempty, Hrs]. right. split; [exact Hl|].
    split; [apply Hrs|lia].
  - intros id peer ikA ekA spkUsed Hid.
    pose proof (generatePrekeys_offers count rnd rnds now b b' id Hi Hn Hc ltac:(lia) Hg) as Hl.
    rewrite decide_False in Hl by lia. apply accept_unknown_opk; [lia|done].
Qed.

(** What a rotation that happened leaves. *)
Lemma rotate_result maxAge now rnd clock b b' :
  identity_ok b → prekeys_ok b → length rnd = 32 →
  rotateSignedPrekeyIfDue maxAge now rnd clock b = (true, b') →
  identity_ok b' ∧ prekeys_ok b' ∧ m_spkPriv b' = rnd ∧ m_spkPub b' = scalarmult_base rnd ∧
  m_prevSpkPriv b' = m_spkPriv b ∧ m_prevSpkPub b' = m_spkPub b ∧
  m_identitySeed b' = m_identitySeed b ∧ m_opkPriv b' = m_opkPriv b ∧
  m_nextOpkId b' = m_nextOpkId b ∧ m_sessions b' = m_sessions b.
Proof.
  intros Hi Hp Hr. unfold rotateSignedPrekeyIfDue.
  destruct (_ || _); [done|].
  set (pair := if (signedPrekeyAgeMs now b <? 0)%Z then _ else _).
  assert (Hb1 : pair.2 = b ∨ ∃ t, pair.2 = set_spk (m_spkPriv b) (m_spkPub b) (m_spkSig b) t b)
    by (unfold pair; destruct (_ <? 0)%Z; eauto).
  destruct pair as [age b1]. cbn [snd] in Hb1. destruct (age <? maxAge)%Z; [done|].
  destruct Hi as [Hv Hs Hed], Hp as [Lp Hpub Hsig].
  assert (Hid : identity_ok b1) by (destruct Hb1 as [->|[t ->]]; split; done).
  unfold generatePrekeys. rewrite identity_ok_x3dh by done. cbn [negb Z.ltb Z.compare].
  rewrite newSignedPrekey_ok by apply Hid.
  assert (Hne : m_spkPriv b1 ≠ []).
  { destruct Hb1 as [->|[t ->]]; by apply len32_nonempty. }
  rewrite decide_False by done. cbn [Z.to_nat fill_pool]. intros [= <-].
  destruct Hb1 as [->|[t ->]]; cbn; (split; [by split|]); (split; [by split|]); done.
Qed.

(** The answer to an opener, computed from the material it needs. *)
Definition answer_opener (seed useSpkPriv useSpkPub : bytes) (ikA ekA : bytes)
    (opkId : Z) (pool : gmap Z bytes) : option RatchetSession :=
  let opk := if (0 <=? opkId)%Z then pool !! u32 opkId else Some [] in
  opkPriv ← opk;
  if (0 <=? opkId)%Z && bool_decide (opkPriv = []) then None else
  sk ← X3DH.responder seed useSpkPriv opkPriv ikA ekA;
  Some (responder_session sk useSpkPriv useSpkPub).

(** An opener that names the current signed prekey, or the previous one, is
    answered with that key. *)
Lemma accept_answers peer ikA ekA id spkUsed usePriv b :
  identity_ok b → m_spkPriv b ≠ [] → spkUsed ≠ [] →
  spkUsed = m_spkPub b ∧ usePriv = m_spkPriv b ∨
  spkUsed ≠ m_spkPub b ∧ spkUsed = m_prevSpkPub b ∧ usePriv = m_prevSpkPriv b ∧
    usePriv ≠ m_spkPriv b →
  let r := acceptX3dhSession peer ikA ekA id spkUsed b in
  let o := answer_opener (m_identitySeed b) usePriv spkUsed ikA ekA id (m_opkPriv b) in
  r.1 = bool_decide (is_Some o) ∧
  m_sessions r.2 !! peer = match o with Some s => Some s | None => m_sessions b !! peer end.
Proof.
  intros Hi Hp Hs Huse. unfold acceptX3dhSession, answer_opener, takeOneTimePrekey.
  rewrite identity_ok_x3dh, (bool_decide_false (m_spkPriv b = [])) by done. cbn [negb orb].
  assert (Hcase : ∀ x, m_spkPub x = m_spkPub b → m_spkPriv x = m_spkPriv b →
    m_prevSpkPub x = m_prevSpkPub b → m_prevSpkPriv x = m_prevSpkPriv b →
    (if decide (spkUsed = []) then Some (m_spkPriv x)
     else if decide (spkUsed = m_spkPub x) then Some (m_spkPriv x)
     else if decide (m_prevSpkPub x ≠ [] ∧ spkUsed = m_prevSpkPub x)
          then Some (m_prevSpkPriv x) else None) = Some usePriv ∧
    (if decide (usePriv = m_spkPriv x) then m_spkPub x else m_prevSpkPub x) = spkUsed).
  { intros x -> -> -> ->. rewrite (decide_False (P := spkUsed = [])) by done.
    destruct Huse as [[-> ->]|(Hne & Hprev & -> & Hk)]; [by rewrite !decide_True|].
    rewrite (decide_False (P := spkUsed = m_spkPub b)), (decide_False (P := m_prevSpkPriv b = _)),
      decide_True by (done || by rewrite <- Hprev). done. }
  destruct (0 <=? id)%Z; cbn [andb];
    [destruct (m_opkPriv b !! u32 id) as [k|] eqn:Ek; [destruct (decide (k = [])) as [->|Hk]|]|];
    cbn [mbind option_bind]; rewrite ?(bool_decide_true ([] = [])) by done; try done.
  - rewrite (bool_decide_false (k = [])) by done.
    set (x := set_pool _ _ b). destruct (Hcase x) as [-> Epub]; [done..|].
    change (m_identitySeed x) with (m_identitySeed b).
    destruct (X3DH.responder _ _ _ _ _); [|done]. rewrite Epub. cbn. by rewrite lookup_insert_eq.
  - destruct (Hcase b) as [-> Epub]; [done..|].
    destruct (X3DH.responder _ _ _ _ _); [|done]. rewrite Epub. cbn. by rewrite lookup_insert_eq.
Qed.

(** Dropping the previous signed prekey touches nothing else. *)
Lemma dropExpired_result grace t b b' :
  dropExpiredPreviousPrekey grace t b = (true, b') →
  m_spkPub b' = m_spkPub b ∧ m_opkPriv b' = m_opkPriv b ∧ m_prevSpkPub b' = [].
Proof.
  unfold dropExpiredPreviousPrekey. destruct (bool_decide _); [done|].
  destruct (_ <? _)%Z; [done|]. by intros [= <-].
Qed.

(** C30: a rotation keeps faith with the bundles in flight. When the signed prekey is
    rotated, the one-time pool stays, and an opener built from the bundle served
    before is answered as it would have been: accepted or refused alike, with the
    same session. Once the grace period is over it is refused and nothing changes. *)
Theorem rotation_keeps_openers maxAge now rnd clock b b' peer ikA ekA id grace t b'' :
  identity_ok b → prekeys_ok b → length rnd = 32 → scalarmult_base rnd ≠ m_spkPub b →
  map_Forall (λ _ k, length k = 32) (m_opkPriv b) →
  rotateSignedPrekeyIfDue maxAge now rnd clock b = (true, b') →
  (acceptX3dhSession peer ikA ekA id (m_spkPub b) b').1
    = (acceptX3dhSession peer ikA ekA id (m_spkPub b) b).1 ∧
  m_sessions (acceptX3dhSession peer ikA ekA id (m_spkPub b) b').2 !! peer
    = m_sessions (acceptX3dhSession peer ikA ekA id (m_spkPub b) b).2 !! peer ∧
  (dropExpiredPreviousPrekey grace t b' = (true, b'') →
   acceptX3dhSession peer ikA ekA id (m_spkPub b) b'' = (false, b'')).
Proof.
  intros Hi Hp Hr Hfresh Hpool Hrot.
  destruct (rotate_result _ _ _ _ _ _ Hi Hp Hr Hrot)
    as (Hi' & Hp' & E1 & E2 & E3 & E4 & E5 & E6 & E7 & E8).
  assert (Hne : m_spkPub b ≠ []).
  { destruct Hp as [Lp -> _]. apply len32_nonempty. by apply scalarmult_base_length. }
  assert (Hpriv : m_spkPriv b ≠ m_spkPriv b').
  { rewrite E1. intros <-. destruct Hp as [_ Hpub _]. by rewrite Hpub in Hfresh. }
  destruct (accept_answers peer ikA ekA id (m_spkPub b) (m_spkPriv b) b) as [A1 A2];
    [done|by apply len32_nonempty, Hp|done|by left|].
  destruct (accept_answers peer ikA ekA id (m_spkPub b) (m_spkPriv b) b') as [B1 B2];
    [done|by apply len32_nonempty, Hp'|done|right; rewrite E2, E3, E4; auto|].
  rewrite E5, E6 in B1, B2. rewrite E8 in B2. rewrite A1, A2, B1, B2. split_and!; [done..|].
  intros Hdrop. destruct (dropExpired_result _ _ _ _ Hdrop) as (D1 & D2 & D3).
  apply stale_opener_is_harmless; [done|congruence|by left|by rewrite D2, E6].
Qed.
End Lifetimes.
