(* ===== verification/Persist.v ===== *)
(** * CryptoBox at rest (client/src/cryptobox.cpp)

    The member functions that write secrets to a file or a blob and read them
    back: the identity file, plain and wrapped under the password, the server
    verifier, the prekey blob, the session blob, the seal of the local history,
    and the safety number. *)

From Stdlib Require Import Strings.Ascii.
From S2P Require Import Prelude Platform Kdf Ratchet X3dh CryptoBox.

(** ** Files

    The files of the device by path.  [open] for writing can fail, and a write
    can be short: [room] is [None] for the first and the octets that fit for the
    second. *)
Abbreviation Files := (gmap string bytes).

Definition write_file (path : string) (blob : bytes) (room : option nat) (fs : Files)
    : bool * Files :=
  match room with
  | None => (false, fs)
  | Some r => (length (take r blob) =? length blob, <[path := take r blob]> fs)
  end.

(** ** Magic numbers and versions *)
Definition kPlainMagic : bytes := lit "CE2EEIDP".
Definition kWrapMagic : bytes := lit "CE2EEID1".
Definition kPrekeyMagic : bytes := lit "CE2EPKEY".
Definition kWrapVersionLegacy : Z := 1.
Definition kWrapVersion : Z := 2.
Definition kPrekeyVersionV1 : Z := 1.
Definition kPrekeyVersion : Z := 2.

(** [raw.at(i)] as an unsigned octet. *)
Definition at_u8 (b : bytes) (i : nat) : Z := byte_val (nth i b Byte.x00).

Section IdentityFiles.
Context `{Sodium} `{QtText}.

(** A version 1 identity: the private key itself. *)
Definition adopt_legacy (raw : bytes) (b : CryptoBox) : CryptoBox :=
  set_keys raw (scalarmult_base (mem_read 32 raw)) (set_identity [] [] 1 b).

Definition has_seed (b : CryptoBox) : bool :=
  (m_identityVersion b =? 2)%Z && negb (bool_decide (m_identitySeed b = [])).

Definition loadIdentity (path : string) (fs : Files) (b : CryptoBox) : bool * CryptoBox :=
  match fs !! path with
  | None => (false, b)
  | Some raw =>
      if (length raw =? 8 + 1 + 32) && bool_decide (take 8 raw = kPlainMagic) then
        if negb (at_u8 raw 8 =? 2)%Z then (false, b)
        else adopt_seed (take 32 (drop 9 raw)) b
      else if negb (length raw =? 32) then (false, b)
      else (true, adopt_legacy raw b)
  end.

Definition saveIdentity (path : string) (room : option nat) (fs : Files) (b : CryptoBox)
    : bool * Files :=
  let blob := if has_seed b
              then kPlainMagic ++ [byte_of_Z 2] ++ m_identitySeed b
              else m_privateKey b in
  write_file path blob room fs.

(** Argon2id over the context tag and the password. *)
Definition argon2id32 (ctx password salt : bytes) : option bytes :=
  pwhash (ctx ++ password) salt.

(** [salt] and [nonce] are the octets drawn. *)
Definition saveIdentityEncrypted (path password : string) (salt nonce : bytes)
    (room : option nat) (fs : Files) (b : CryptoBox) : bool * Files :=
  if negb (length (m_privateKey b) =? 32) then (false, fs) else
  match argon2id32 kWrapCtx (toUtf8 password) salt with
  | None => (false, fs)
  | Some wrapKey =>
      let secret := if has_seed b then m_identitySeed b else m_privateKey b in
      let ct := secretbox_easy wrapKey nonce secret in
      let ver := if has_seed b then kWrapVersion else kWrapVersionLegacy in
      write_file path (kWrapMagic ++ [byte_of_Z ver] ++ salt ++ nonce ++ ct) room fs
  end.

Definition loadIdentityEncrypted (path password : string) (fs : Files) (b : CryptoBox)
    : bool * CryptoBox :=
  match fs !! path with
  | None => (false, b)
  | Some blob =>
      let headerLen := 8 + 1 + 16 + 24 in
      let minCt := 32 + 16 in
      if decide (length blob < headerLen + minCt) then (false, b) else
      if negb (bool_decide (take 8 blob = kWrapMagic)) then (false, b) else
      let version := at_u8 blob 8 in
      if negb (version =? kWrapVersion)%Z && negb (version =? kWrapVersionLegacy)%Z
      then (false, b) else
      let salt := take 16 (drop 9 blob) in
      let nonce := take 24 (drop (9 + 16) blob) in
      let ct := drop (9 + 16 + 24) blob in
      match argon2id32 kWrapCtx (toUtf8 password) salt with
      | None => (false, b)
      | Some wrapKey =>
          match secretbox_open_easy wrapKey nonce ct with
          | None => (false, b)
          | Some opened =>
              (* the buffer opened into has 32 octets *)
              let priv := take 32 opened in
              if (version =? kWrapVersion)%Z then adopt_seed priv b
              else (true, adopt_legacy priv b)
          end
      end
  end.

Definition isEncryptedIdentityFile (path : string) (fs : Files) : bool :=
  match fs !! path with
  | None => false
  | Some raw =>
      let head := take (8 + 1) raw in
      if decide (length head < 8 + 1) then false
      else if negb (bool_decide (take 8 head = kWrapMagic)) then false
      else (at_u8 head 8 =? kWrapVersion)%Z
  end.

(** (verifier, salt), both in hexadecimal. *)
Definition deriveVerifier (password : string) (salt : bytes) : option (string * string) :=
  match argon2id32 kVerifyCtx (toUtf8 password) salt with
  | None => None
  | Some verifier => Some (hexStr verifier, hexStr salt)
  end.

Definition deriveVerifierWithSalt (password saltHex : string) : string :=
  let salt := unhexStr saltHex in
  if negb (length salt =? 16) then ""%string else
  match argon2id32 kVerifyCtx (toUtf8 password) salt with
  | None => ""%string
  | Some verifier => hexStr verifier
  end.
End IdentityFiles.

(** ** The local history and the safety number *)
Section LocalHistory.
Context `{Sodium} `{QtText}.

Definition localKey (b : CryptoBox) : bytes := hkdf None (m_privateKey b) kLocalInfo 32.

(** (nonce, ciphertext), in hexadecimal. *)
Definition localSeal (plaintext : string) (nonce : bytes) (b : CryptoBox)
    : option (string * string) :=
  if decide (m_privateKey b = []) then None else
  let ct := xchacha_encrypt (localKey b) (mem_read 24 nonce) [] (toUtf8 plaintext) in
  Some (hexStr nonce, hexStr ct).

(** [None] is the empty string of a failure. *)
Definition localOpen (nonceHex ctHex : string) (b : CryptoBox) : option string :=
  if decide (m_privateKey b = []) then None else
  let nonce := unhexStr nonceHex in
  let ct := unhexStr ctHex in
  match xchacha_decrypt (localKey b) (mem_read 24 nonce) [] ct with
  | None => None
  | Some pt => Some (fromUtf8 pt)
  end.

(** [QString::number(v).rightJustified(5, '0')]: five decimal digits, [v] being
    below 100000. *)
Definition digit (d : Z) : Ascii.ascii := Ascii.ascii_of_N (Z.to_N (48 + d)).

Definition five_digits (v : Z) : list Ascii.ascii :=
  digit <$> [v / 10000; (v / 1000) mod 10; (v / 100) mod 10; (v / 10) mod 10; v mod 10]%Z.

Definition digest_group (digest : bytes) (g : nat) : Z :=
  (Z.lor (Z.lor (Z.lor (Z.shiftl (at_u8 digest (g * 4)) 24)
                       (Z.shiftl (at_u8 digest (g * 4 + 1)) 16))
                (Z.shiftl (at_u8 digest (g * 4 + 2)) 8))
         (at_u8 digest (g * 4 + 3)) mod 100000)%Z.

Fixpoint join_groups (groups : list (list Ascii.ascii)) : list Ascii.ascii :=
  match groups with
  | [] => []
  | [g] => g
  | g :: rest => g ++ [" "%char] ++ join_groups rest
  end.

Definition safetyNumber (pubKeyHexA pubKeyHexB : string) : string :=
  let a := unhexStr pubKeyHexA in
  let b := unhexStr pubKeyHexB in
  if negb (length a =? 32) || negb (length b =? 32) then ""%string else
  let '(a, b) := if (0 <? memcmp a b 32)%Z then (b, a) else (a, b) in
  let digest := qt_sha256 (a ++ b) in
  String.string_of_list_ascii
    (join_groups ((λ g, five_digits (digest_group digest g)) <$> [0; 1; 2; 3; 4; 5])).
End LocalHistory.

(** ** The prekey blob *)
Section PrekeyBlob.
Context `{Sodium} `{QDataStream}.

Definition put_pool (items : list (Z * bytes)) : bytes :=
  mjoin ((λ kv, put_u32 kv.1 ++ kv.2) <$> items).

Definition serialisePrekeys (b : CryptoBox) : bytes :=
  if decide (m_spkPriv b = []) then [] else
  kPrekeyMagic ++ put_u8 kPrekeyVersion ++ m_spkPriv b ++ m_spkSig b
  ++ put_i64 (m_spkCreatedMs b) ++ put_i64 (m_prevSpkRetiredMs b)
  ++ put_u32 (Z.of_nat (length (m_prevSpkPriv b)))
  ++ (if decide (m_prevSpkPriv b = []) then [] else m_prevSpkPriv b ++ m_prevSpkPub b)
  ++ put_u32 (m_nextOpkId b)
  ++ put_u32 (Z.of_nat (size (m_opkPriv b)))
  ++ put_pool (qmap_items (m_opkPriv b)).

(** [readRawData(p, n) != n] is the early return. *)
Definition read_exact (n : nat) (s : dstream) : option (bytes * dstream) :=
  let '(b, s') := read_raw n s in
  if length b =? n then Some (b, s') else None.

Fixpoint read_pool (count : nat) (s : dstream) (pool : gmap Z bytes)
    : option (gmap Z bytes * dstream) :=
  match count with
  | O => Some (pool, s)
  | S count' =>
      let '(id, s1) := get_u32 s in
      match read_exact 32 s1 with
      | None => None
      | Some (priv, s2) => read_pool count' s2 (<[id := priv]> pool)
      end
  end.

(** The retained key of a version 2 blob: (created, retired, private, public). *)
Definition read_previous (ver : Z) (s : dstream)
    : option (Z * Z * bytes * bytes * dstream) :=
  if (ver <? kPrekeyVersion)%Z then Some (0%Z, 0%Z, [], [], s) else
  let '(created, s1) := get_i64 s in
  let '(retired, s2) := get_i64 s1 in
  let '(prevLen, s3) := get_u32 s2 in
  if (prevLen =? 32)%Z then
    match read_exact 32 s3 with
    | None => None
    | Some (prevPriv, s4) =>
        match read_exact 32 s4 with
        | None => None
        | Some (prevPub, s5) => Some (created, retired, prevPriv, prevPub, s5)
        end
    end
  else if (prevLen =? 0)%Z then Some (created, retired, [], [], s3) else None.

(** [now] is the clock; [None] is [return false], which changes nothing. *)
Definition restorePrekeys (blob : bytes) (now : Z) (b : CryptoBox) : option CryptoBox :=
  if decide (length blob < 8 + 1 + 32 + 64 + 8) then None else
  match read_exact 8 (ds_open blob) with
  | None => None
  | Some (magic, s0) =>
  if negb (bool_decide (magic = kPrekeyMagic)) then None else
  let '(ver, s1) := get_u8 s0 in
  if negb (ver =? kPrekeyVersion)%Z && negb (ver =? kPrekeyVersionV1)%Z then None else
  match read_exact 32 s1 with
  | None => None
  | Some (spkPriv, s2) =>
  match read_exact 64 s2 with
  | None => None
  | Some (sig, s3) =>
  match read_previous ver s3 with
  | None => None
  | Some (created, retired, prevPriv, prevPub, s4) =>
  let '(nextId, s5) := get_u32 s4 in
  let '(count, s6) := get_u32 s5 in
  match read_pool (Z.to_nat count) s6 ∅ with
  | None => None
  | Some (pool, s7) =>
  if negb (ds_ok s7) then None else
  let createdMs := if (kPrekeyVersion <=? ver)%Z && (0 <? created)%Z then created else now in
  Some (set_prev prevPriv prevPub retired
         (set_spk spkPriv (scalarmult_base spkPriv) sig createdMs
           (set_pool pool nextId b)))
  end end end end end.
End PrekeyBlob.

(** ** The session blob *)
Section SessionBlob.
Context `{QDataStream} `{QHashOrder}.

Definition put_skipped (items : list (bytes * bytes)) : bytes :=
  mjoin ((λ kv, put_bytes kv.1 ++ put_bytes kv.2) <$> items).

Definition put_ratchet (s : RatchetSession) : bytes :=
  put_bytes (DHs_priv s) ++ put_bytes (DHs_pub s) ++ put_bytes (DHr_pub s)
  ++ put_bytes (RK s) ++ put_bytes (CKs s) ++ put_bytes (CKr s)
  ++ put_u32 (Ns s) ++ put_u32 (Nr s) ++ put_u32 (PN s) ++ put_bool (haveDHr s)
  ++ put_u32 (Z.of_nat (size (skipped s))) ++ put_skipped (qhash_items (skipped s)).

(** [QHash::value]: the default-constructed array for an absent peer. *)
Definition exportSession (peerName : string) (b : CryptoBox) : bytes :=
  match m_sessions b !! peerName with
  | None => []
  | Some s =>
      let peerId := default [] (m_peerIdentity b !! peerName) in
      put_u8 2 ++ put_bytes (m_publicKey b) ++ put_bytes peerId ++ put_ratchet s
  end.

Fixpoint read_skipped (count : nat) (s : dstream) (m : gmap bytes bytes)
    : gmap bytes bytes * dstream :=
  match count with
  | O => (m, s)
  | S count' =>
      let '(k, s1) := get_bytes s in
      let '(v, s2) := get_bytes s1 in
      read_skipped count' s2 (<[k := v]> m)
  end.

Definition read_ratchet (d : dstream) : RatchetSession * dstream :=
  let '(dhs_priv, d) := get_bytes d in
  let '(dhs_pub, d) := get_bytes d in
  let '(dhr_pub, d) := get_bytes d in
  let '(rk, d) := get_bytes d in
  let '(cks, d) := get_bytes d in
  let '(ckr, d) := get_bytes d in
  let '(ns, d) := get_u32 d in
  let '(nr, d) := get_u32 d in
  let '(pn, d) := get_u32 d in
  let '(have, d) := get_bool d in
  let '(nskip, d) := get_u32 d in
  let '(m, d) := read_skipped (Z.to_nat nskip) d ∅ in
  (mkSession dhs_priv dhs_pub dhr_pub rk cks ckr ns nr pn have m, d).

Definition importSession (peerName : string) (blob : bytes) (b : CryptoBox)
    : option CryptoBox :=
  if decide (blob = []) then None else
  let '(ver, d) := get_u8 (ds_open blob) in
  if negb (ver =? 2)%Z then None else
  let '(stampMine, d) := get_bytes d in
  let '(stampPeer, d) := get_bytes d in
  let '(s, d) := read_ratchet d in
  if negb (ds_ok d) then None else
  let curPeerId := default [] (m_peerIdentity b !! peerName) in
  if negb (bool_decide (stampMine = m_publicKey b)) then None else
  if bool_decide (curPeerId = []) || negb (bool_decide (stampPeer = curPeerId)) then None
  else Some (put_session peerName s b).
End SessionBlob.
