(* ===== verification/PersistFacts.v ===== *)
(** * CryptoBox at rest: what is written is what is read back *)

From Stdlib Require Import Strings.Ascii.
From S2P Require Import Prelude Platform Kdf Ratchet RatchetFacts X3dh X3dhFacts.
From S2P Require Import CryptoBox CryptoBoxFacts PrekeyFacts Persist.

(** ** Identity files *)
Section Identity.
Context `{SodiumLaws} `{QtText}.

(** The two kinds of loaded identity: a version 2 seed with the keys derived
    from it, or a version 1 private key with no seed. *)
Inductive identity_loaded (b : CryptoBox) : Prop :=
| loaded_seed :
    m_identityVersion b = 2%Z → length (m_identitySeed b) = 32 →
    m_edPublicKey b = X3DH.identityPublic (m_identitySeed b) →
    m_privateKey b = X3DH.identityToX25519Private (m_identitySeed b) →
    m_publicKey b = scalarmult_base (m_privateKey b) → identity_loaded b
| loaded_legacy :
    m_identityVersion b = 1%Z → m_identitySeed b = [] → m_edPublicKey b = [] →
    length (m_privateKey b) = 32 →
    m_publicKey b = scalarmult_base (m_privateKey b) → identity_loaded b.

(** The identity fields of two boxes agree. *)
Definition same_identity (b1 b2 : CryptoBox) : Prop :=
  m_identityVersion b1 = m_identityVersion b2 ∧ m_identitySeed b1 = m_identitySeed b2 ∧
  m_edPublicKey b1 = m_edPublicKey b2 ∧ m_privateKey b1 = m_privateKey b2 ∧
  m_publicKey b1 = m_publicKey b2.

(** Adopting a seed of the right length always works, and gives its keys. *)
Lemma adopt_seed_ok seed b :
  length seed = 32 →
  adopt_seed seed b
  = (true, set_keys (X3DH.identityToX25519Private seed)
             (scalarmult_base (X3DH.identityToX25519Private seed))
             (set_identity seed (X3DH.identityPublic seed) 2 b)).
Proof.
  intros Hs. destruct (seed_keys seed Hs) as (pk & sk & x & _ & _ & Hpk & Lpk & Hx & Lx & Hc).
  unfold adopt_seed, deriveAgreementKeysFromSeed. cbn [m_identitySeed set_identity].
  rewrite Hpk, Hx, decide_False, Hc; [done|].
  intros [-> | ->]; done.
Qed.

Lemma adopt_seed_loaded seed b :
  length seed = 32 → (adopt_seed seed b).1 = true ∧ identity_loaded (adopt_seed seed b).2.
Proof. intros Hs. rewrite adopt_seed_ok by done. split; [done|]. by apply loaded_seed. Qed.

Lemma adopt_legacy_loaded raw b :
  length raw = 32 → identity_loaded (adopt_legacy raw b).
Proof.
  intros Hl. apply loaded_legacy; try done. cbn. by rewrite mem_read_exact.
Qed.

Lemma loaded_private_length b : identity_loaded b → length (m_privateKey b) = 32.
Proof.
  intros [_ Hs _ -> _|]; [|done].
  destruct (seed_keys _ Hs) as (pk & sk & x & _ & _ & _ & _ & -> & ? & _). done.
Qed.

Lemma loaded_has_keys b : identity_loaded b → has_keys b.
Proof. intros Hb. split; [by apply loaded_private_length|]. by destruct Hb. Qed.

Lemma loaded_has_seed b :
  identity_loaded b →
  has_seed b = true ∧ m_identityVersion b = 2%Z ∧ length (m_identitySeed b) = 32 ∨
  has_seed b = false ∧ m_identityVersion b = 1%Z ∧ m_identitySeed b = [].
Proof.
  intros [Hv Hs _ _ _|Hv Hs _ _ _]; unfold has_seed; rewrite Hv, ?Hs; [left|by right].
  by rewrite bool_decide_false by (by apply len32_nonempty).
Qed.

(** Loading back the secret of [b0] gives the identity of [b0]. *)
Lemma adopt_same b0 b :
  identity_loaded b0 →
  same_identity (if has_seed b0 then (adopt_seed (m_identitySeed b0) b).2
                 else adopt_legacy (m_privateKey b0) b) b0.
Proof.
  intros Hb. pose proof (loaded_private_length b0 Hb) as Hl.
  destruct (loaded_has_seed b0 Hb) as [(E & Ev & Es)|(E & Ev & Es)]; rewrite E.
  - rewrite adopt_seed_ok by done. destruct Hb; [|congruence].
    repeat split; cbn; congruence.
  - destruct Hb; [by rewrite Es in *|].
    repeat split; cbn; rewrite ?mem_read_exact; congruence.
Qed.

Lemma write_file_ok path blob room fs fs' :
  write_file path blob room fs = (true, fs') → fs' !! path = Some blob.
Proof.
  unfold write_file. destruct room as [r|]; [|done].
  destruct (Nat.eqb_spec (length (take r blob)) (length blob)) as [E|]; [|done].
  intros [= <-]. rewrite lookup_insert_eq. f_equal. apply take_ge.
  rewrite length_take in E. lia.
Qed.

Lemma wrap_fields (m v salt nonce ct : bytes) :
  length m = 8 → length v = 1 → length salt = 16 → length nonce = 24 →
  let blob := m ++ v ++ salt ++ nonce ++ ct in
  take 8 blob = m ∧ take 16 (drop 9 blob) = salt ∧
  take 24 (drop (9 + 16) blob) = nonce ∧ drop (9 + 16 + 24) blob = ct ∧
  length blob = 49 + length ct.
Proof.
  intros Hm Hv Hs Hn blob. unfold blob.
  rewrite take_app_exact by done. split; [done|].
  assert (D : drop 9 (m ++ v ++ salt ++ nonce ++ ct) = salt ++ nonce ++ ct).
  { rewrite (app_assoc m v). apply drop_app_exact. rewrite length_app. lia. }
  assert (D2 : drop (9 + 16) (m ++ v ++ salt ++ nonce ++ ct) = nonce ++ ct).
  { rewrite <- drop_drop, D. by apply drop_app_exact. }
  assert (D3 : drop (9 + 16 + 24) (m ++ v ++ salt ++ nonce ++ ct) = ct).
  { rewrite <- drop_drop, D2. by apply drop_app_exact. }
  rewrite D, D2, D3, !take_app_exact, !length_app by done. split_and!; done || lia.
Qed.

Lemma at_u8_app m v r n :
  length m = n → at_u8 (m ++ [byte_of_Z v] ++ r) n = (v mod 256)%Z.
Proof.
  intros <-. unfold at_u8. rewrite app_nth2 by lia. rewrite Nat.sub_diag. cbn.
  apply byte_val_of_Z.
Qed.

(** The wrapped identity survives a restart. If saving under a password
    succeeded, loading the file with the same password into any box succeeds
    and yields the same identity, seed or legacy key, public halves and
    version. *)
Lemma unwrap_saved path pw salt nonce room fs fs' b0 b :
  identity_loaded b0 → length salt = 16 → length nonce = 24 →
  saveIdentityEncrypted path pw salt nonce room fs b0 = (true, fs') →
  ∃ b', loadIdentityEncrypted path pw fs' b = (true, b') ∧ same_identity b' b0 ∧
        identity_loaded b'.
Proof.
  intros Hb Hs Hn. unfold saveIdentityEncrypted.
  rewrite (loaded_private_length b0 Hb). cbn [negb Nat.eqb].
  unfold argon2id32. destruct (pwhash _ salt) as [k|] eqn:Ek; [|done].
  set (secret := if has_seed b0 then m_identitySeed b0 else _).
  set (ver := if has_seed b0 then kWrapVersion else kWrapVersionLegacy).
  intros Hw%write_file_ok. unfold loadIdentityEncrypted. rewrite Hw.
  assert (Lsec : length secret = 32).
  { unfold secret. pose proof (loaded_private_length b0 Hb).
    destruct (loaded_has_seed b0 Hb) as [(-> & _ & ?)|(-> & _ & _)]; done. }
  destruct (wrap_fields kWrapMagic [byte_of_Z ver] salt nonce (secretbox_easy k nonce secret))
    as (F1 & F2 & F3 & F4 & F5); [done..|].
  rewrite F1, F2, F3, F4, F5, secretbox_length, Lsec.
  rewrite decide_False by lia. rewrite bool_decide_true by done. cbn [negb].
  rewrite at_u8_app by done.
  assert (Hver : (ver mod 256)%Z = ver) by (unfold ver; by destruct (has_seed b0)).
  rewrite Hver. unfold argon2id32. rewrite Ek, secretbox_open, take_ge by lia.
  pose proof (adopt_same b0 b Hb) as Hsame. unfold ver, secret.
  destruct (loaded_has_seed b0 Hb) as [(E & Ev & Es)|(E & Ev & Es)]; rewrite E in *; cbn.
  - destruct (adopt_seed_loaded (m_identitySeed b0) b Es) as [E1 E2].
    destruct (adopt_seed _ _) as [ok b']. cbn in *. subst ok. eauto.
  - eexists. split; [done|]. split; [done|].
    by apply adopt_legacy_loaded, loaded_private_length.
Qed.

(** the plain identity file round-trips for both kinds of identity: the
    tag keeps the 41-octet seed record and the bare 32-octet key apart. *)
Theorem plain_identity_roundtrip path room fs fs' b0 b :
  identity_loaded b0 → saveIdentity path room fs b0 = (true, fs') →
  ∃ b', loadIdentity path fs' b = (true, b') ∧ same_identity b' b0 ∧ identity_loaded b'.
Proof.
  intros Hb Hw%write_file_ok. unfold loadIdentity. rewrite Hw.
  pose proof (adopt_same b0 b Hb) as Hsame.
  pose proof (loaded_private_length b0 Hb) as Lp.
  destruct (loaded_has_seed b0 Hb) as [(E & Ev & Es)|(E & Ev & Es)]; rewrite E in *.
  - rewrite at_u8_app by done. rewrite take_app_exact by done.
    assert (drop 9 (kPlainMagic ++ [byte_of_Z 2] ++ m_identitySeed b0)
            = m_identitySeed b0) as -> by reflexivity.
    rewrite take_ge, !length_app, Es, bool_decide_true by (done || lia).
    change (2 mod 256 =? 2)%Z with true. cbn [negb andb plus length Nat.eqb].
    destruct (adopt_seed_loaded (m_identitySeed b0) b Es) as [E1 E2].
    destruct (adopt_seed _ _) as [ok b']. cbn in *. subst ok. eauto.
  - rewrite Lp. cbn. eexists. split; [done|]. split; [done|].
    by apply adopt_legacy_loaded.
Qed.

(** A wrong password loads nothing. Whenever the wrapped file does not
    open (no file, a short or foreign file, an unknown version, a key that
    does not match) the box is left exactly as it was. *)
Lemma failed_load_changes_nothing path pw fs b b' :
  loadIdentityEncrypted path pw fs b = (false, b') → b' = b.
Proof.
  unfold loadIdentityEncrypted. destruct (fs !! path) as [blob|]; [|by intros [= <-]].
  case_decide as Hlen; [by intros [= <-]|].
  destruct (negb (bool_decide _)); [by intros [= <-]|].
  destruct (_ && _); [by intros [= <-]|].
  destruct (argon2id32 _ _ _) as [k|]; [|by intros [= <-]].
  destruct (secretbox_open_easy _ _ _) as [o|] eqn:Eo; [|by intros [= <-]].
  apply secretbox_open_length in Eo. rewrite length_drop in Eo.
  assert (length (take 32 o) = 32) by (rewrite length_take; lia).
  destruct (_ =? _)%Z; [|done]. by rewrite adopt_seed_ok.
Qed.

(** A save touches no other file. *)
Lemma save_frame path pw salt nonce room fs b ok fs' q :
  saveIdentityEncrypted path pw salt nonce room fs b = (ok, fs') → q ≠ path →
  fs' !! q = fs !! q.
Proof.
  unfold saveIdentityEncrypted, write_file. intros Hs Hq.
  destruct (negb _); [by injection Hs as _ <-|].
  destruct (argon2id32 _ _ _); [|by injection Hs as _ <-].
  destruct room as [r|]; injection Hs as _ <-; [by rewrite lookup_insert_ne|done].
Qed.

(** A file that could not be opened for writing is not there afterwards. *)
Lemma save_unopened path pw salt nonce fs b :
  saveIdentityEncrypted path pw salt nonce None fs b = (false, fs).
Proof.
  unfold saveIdentityEncrypted. destruct (negb _); [done|].
  by destruct (argon2id32 _ _ _).
Qed.

(** The migration check recognises the wrapped files of version 2 identities
    only, not those [saveIdentityEncrypted] writes for a version 1 key. *)
Lemma saved_recognised path pw salt nonce room fs fs' b0 :
  identity_loaded b0 → length salt = 16 → length nonce = 24 →
  saveIdentityEncrypted path pw salt nonce room fs b0 = (true, fs') →
  is_Some (fs' !! path) ∧
  isEncryptedIdentityFile path fs' = (m_identityVersion b0 =? 2)%Z.
Proof.
  intros Hb Hs Hn Hw. unfold saveIdentityEncrypted in Hw.
  destruct (negb _); [done|]. destruct (argon2id32 _ _ _) as [k|]; [|done].
  apply write_file_ok in Hw. split; [by eexists|].
  unfold isEncryptedIdentityFile. rewrite Hw.
  set (ver := if has_seed b0 then kWrapVersion else kWrapVersionLegacy).
  set (blob := kWrapMagic ++ _).
  assert (Ht : take (8 + 1) blob = kWrapMagic ++ [byte_of_Z ver]).
  { unfold blob. rewrite (app_assoc kWrapMagic). by rewrite take_app_exact. }
  rewrite Ht. unfold ver.
  destruct (loaded_has_seed b0 Hb) as [(-> & -> & _)|(-> & -> & _)]; done.
Qed.
End Identity.

(** ** Local history, verifier, safety number *)
Section Text.
Context `{SodiumLaws} `{QtTextLaws}.

(** A row of the local history opens to the text that was sealed, for every box
    that holds an identity and every nonce. *)
Lemma localOpen_localSeal t nonce b :
  m_privateKey b ≠ [] →
  ∃ nonceHex ctHex, localSeal t nonce b = Some (nonceHex, ctHex) ∧
                    localOpen nonceHex ctHex b = Some t.
Proof.
  intros Hk. unfold localSeal, localOpen. rewrite decide_False by done.
  do 2 eexists. split; [done|]. rewrite decide_False by done.
  by rewrite !unhexStr_hexStr, xchacha_open, fromUtf8_toUtf8.
Qed.

(** login re-derives the verifier of registration: the salt uploaded as
    hexadecimal text gives back exactly the verifier that was uploaded. *)
Theorem verifier_rederived pw salt v saltHex :
  length salt = 16 → deriveVerifier pw salt = Some (v, saltHex) →
  deriveVerifierWithSalt pw saltHex = v.
Proof.
  unfold deriveVerifier, deriveVerifierWithSalt. intros Hs.
  destruct (argon2id32 _ _ _) as [k|] eqn:Ek; [|done]. intros [= <- <-].
  by rewrite unhexStr_hexStr, Hs, Ek.
Qed.

(** The two Argon2id inputs never coincide, whatever the passwords. *)
Lemma argon_inputs_differ pw1 pw2 : kWrapCtx ++ pw1 ≠ kVerifyCtx ++ pw2.
Proof. discriminate. Qed.

(** the safety number does not depend on which of the two users computes
    it. *)
Theorem safetyNumber_symmetric a b : safetyNumber a b = safetyNumber b a.
Proof.
  unfold safetyNumber.
  destruct (Nat.eqb_spec (length (unhexStr a)) 32) as [La|],
    (Nat.eqb_spec (length (unhexStr b)) 32) as [Lb|]; cbn [negb orb]; try done.
  pose proof (memcmp_eq (unhexStr a) (unhexStr b) 32 La Lb) as Hz.
  rewrite (memcmp_antisym (unhexStr a) (unhexStr b)).
  destruct (Z.ltb_spec 0 (memcmp (unhexStr a) (unhexStr b) 32)),
    (Z.ltb_spec 0 (- memcmp (unhexStr a) (unhexStr b) 32)); try lia; try done.
  assert (unhexStr a = unhexStr b) as -> by (apply Hz; lia). done.
Qed.

Lemma join_groups_length k gs :
  gs ≠ [] → Forall (λ g, length g = k) gs →
  length (join_groups gs) + 1 = length gs * (k + 1).
Proof.
  intros Hne Hall. induction Hall as [|g gs Hg Hgs IH]; [done|].
  destruct gs as [|g' gs]; [cbn; lia|].
  specialize (IH ltac:(done)). cbn [join_groups length] in *.
  rewrite !length_app. cbn [length]. lia.
Qed.

(** for two well-formed keys the safety number is six groups of five
    decimal digits; for anything else it is empty. *)
Theorem safetyNumber_shape a b :
  length (unhexStr a) = 32 ∧ length (unhexStr b) = 32 ∧
  (∃ gs, safetyNumber a b = String.string_of_list_ascii (join_groups gs) ∧
     length gs = 6 ∧
     Forall (λ g, length g = 5 ∧ Forall (λ c, 48 ≤ N_of_ascii c ≤ 57)%N g) gs ∧
     length (join_groups gs) = 35) ∨
  (length (unhexStr a) ≠ 32 ∨ length (unhexStr b) ≠ 32) ∧ safetyNumber a b = ""%string.
Proof.
  unfold safetyNumber.
  destruct (Nat.eqb_spec (length (unhexStr a)) 32) as [La|],
    (Nat.eqb_spec (length (unhexStr b)) 32) as [Lb|]; cbn [negb orb]; auto.
  left. split; [done|]. split; [done|].
  destruct (if (0 <? memcmp _ _ 32)%Z then _ else _) as [x y].
  eexists. split; [done|]. rewrite length_fmap. split; [done|].
  assert (Hf : Forall (λ g, length g = 5 ∧ Forall (λ c, 48 ≤ N_of_ascii c ≤ 57)%N g)
    ((λ g, five_digits (digest_group (qt_sha256 (x ++ y)) g)) <$> [0; 1; 2; 3; 4; 5])).
  { apply Forall_fmap, Forall_true. intros g. cbn. split; [done|].
    assert (Hr : (0 ≤ digest_group (qt_sha256 (x ++ y)) g < 100000)%Z)
      by (apply Z.mod_pos_bound; lia).
    revert Hr. generalize (digest_group (qt_sha256 (x ++ y)) g). intros v Hv.
    assert (Hd : ∀ d, (0 ≤ d < 10)%Z → (48 ≤ N_of_ascii (digit d) ≤ 57)%N).
    { intros d Hd. unfold digit. rewrite N_ascii_embedding by lia. lia. }
    unfold five_digits.
    pose proof (Z.div_lt_upper_bound v 10000 10 ltac:(lia) ltac:(lia)).
    pose proof (Z.div_pos v 10000 ltac:(lia) ltac:(lia)).
    repeat constructor; apply Hd; try (apply Z.mod_pos_bound; lia); lia. }
  split; [exact Hf|].
  assert (Hl : ∀ gs, length gs = 6 → Forall (λ g, length g = 5 ∧
                 Forall (λ c, 48 ≤ N_of_ascii c ≤ 57)%N g) gs → length (join_groups gs) = 35).
  { intros gs Hgs H5. assert (Hj : length (join_groups gs) + 1 = length gs * (5 + 1)).
    { apply join_groups_length; [by destruct gs|]. eapply Forall_impl; [exact H5|]. by intros ? [? _]. }
    lia. }
  by apply Hl.
Qed.
End Text.

(** ** The prekey blob *)
Section PrekeyBlob.
Context `{SodiumLaws} `{QtText} `{QDataStreamLaws}.

(** What a generated or restored prekey state looks like. *)
Record prekeys_storable (b : CryptoBox) : Prop := {
  st_ok : length (m_spkPriv b) = 32;
  st_pub : m_spkPub b = scalarmult_base (m_spkPriv b);
  st_sig : length (m_spkSig b) = 64;
  st_created : (0 < m_spkCreatedMs b < 2 ^ 63)%Z;
  st_retired : is_i64 (m_prevSpkRetiredMs b);
  st_prev : m_prevSpkPriv b = [] ∧ m_prevSpkPub b = [] ∨
            length (m_prevSpkPriv b) = 32 ∧ length (m_prevSpkPub b) = 32;
  st_next : is_u32 (m_nextOpkId b);
  st_pool : map_Forall (λ id k, is_u32 id ∧ length k = 32) (m_opkPriv b);
  st_count : is_u32 (Z.of_nat (size (m_opkPriv b)));
}.

Lemma read_exact_app n b r :
  length b = n → read_exact n (ds_open (b ++ r)) = Some (b, ds_open r).
Proof.
  intros Hn. unfold read_exact, ds_open. rewrite read_raw_app by done.
  by rewrite Hn, Nat.eqb_refl.
Qed.

(** Reading a written pool back, entry by entry. *)
Lemma read_put_pool items r pool :
  Forall (λ kv : Z * bytes, is_u32 kv.1 ∧ length kv.2 = 32) items →
  read_pool (length items) (ds_open (put_pool items ++ r)) pool
  = Some (foldl (λ m kv, <[kv.1 := kv.2]> m) pool items, ds_open r).
Proof.
  intros Hi. revert pool. induction Hi as [|[id k] items [Hid Hk] Hi IH]; intros pool; [done|].
  cbn [length read_pool]. change (put_pool ((id, k) :: items))
    with ((put_u32 id ++ k) ++ put_pool items). cbn [fst snd] in *.
  rewrite <- !app_assoc, get_put_u32 by done. rewrite read_exact_app by done.
  apply IH.
Qed.

(** Inserting the entries of a map, in any order, gives the map. *)
Lemma foldl_insert_list `{Countable K} {A} (items : list (K * A)) m0 :
  NoDup (items.*1) →
  foldl (λ m kv, <[kv.1 := kv.2]> m) m0 items = (list_to_map items : gmap K A) ∪ m0.
Proof.
  revert m0. induction items as [|[k x] items IH]; intros m0 Hnd; cbn.
  { by rewrite (left_id_L ∅ (∪)). }
  inversion Hnd as [|? ? Hk Hnd']; subst. rewrite IH by done.
  rewrite <- insert_union_l. rewrite insert_union_r; [done|].
  by apply not_elem_of_list_to_map_1.
Qed.

Lemma foldl_insert_perm `{Countable K} {A} (items : list (K * A)) (m : gmap K A) :
  items ≡ₚ map_to_list m → foldl (λ m kv, <[kv.1 := kv.2]> m) ∅ items = m.
Proof.
  intros Hp.
  assert (Hnd : NoDup items.*1) by (rewrite Hp; apply NoDup_fst_map_to_list).
  rewrite foldl_insert_list by done. rewrite (right_id_L ∅ (∪)).
  symmetry. apply list_to_map_flip. by symmetry.
Qed.

Lemma items_length `{Countable K} {A} (items : list (K * A)) (m : gmap K A) :
  items ≡ₚ map_to_list m → length items = size m.
Proof. intros ->. apply length_map_to_list. Qed.

Lemma items_Forall `{Countable K} {A} (P : K → A → Prop) (items : list (K * A)) (m : gmap K A) :
  items ≡ₚ map_to_list m → map_Forall P m → Forall (λ kv, P kv.1 kv.2) items.
Proof.
  intros Hp HP. rewrite Hp. apply map_Forall_to_list in HP.
  eapply Forall_impl; [exact HP|]. by intros [].
Qed.

(** The retained key, present or absent, is read back. *)
Lemma read_previous_ok b r :
  prekeys_storable b →
  read_previous kPrekeyVersion (ds_open
    (put_i64 (m_spkCreatedMs b) ++ put_i64 (m_prevSpkRetiredMs b)
     ++ put_u32 (Z.of_nat (length (m_prevSpkPriv b)))
     ++ (if decide (m_prevSpkPriv b = []) then [] else m_prevSpkPriv b ++ m_prevSpkPub b)
     ++ r))
  = Some (m_spkCreatedMs b, m_prevSpkRetiredMs b, m_prevSpkPriv b, m_prevSpkPub b,
          ds_open r).
Proof.
  intros [_ _ _ Hc Hr Hp _ _ _]. unfold read_previous.
  change (kPrekeyVersion <? kPrekeyVersion)%Z with false. cbv beta iota.
  rewrite get_put_i64 by (unfold is_i64; lia). rewrite get_put_i64 by done.
  destruct Hp as [[-> ->]|[L1 L2]].
  - rewrite get_put_u32 by (unfold is_u32; cbn; lia). done.
  - rewrite decide_False by (by apply len32_nonempty).
    rewrite L1, get_put_u32 by (unfold is_u32; lia).
    change (Z.of_nat 32 =? 32)%Z with true. cbv beta iota.
    rewrite <- app_assoc, read_exact_app by done. by rewrite read_exact_app.
Qed.

(** prekeys survive a restart. Restoring what was serialised, into any
    box and at any time, gives back the signed prekey (its public half
    recomputed), its signature and age, the retained key and its retirement
    time, the next id and the whole pool. *)
Theorem prekeys_roundtrip b b0 now :
  prekeys_storable b →
  restorePrekeys (serialisePrekeys b) now b0
  = Some (set_prev (m_prevSpkPriv b) (m_prevSpkPub b) (m_prevSpkRetiredMs b)
           (set_spk (m_spkPriv b) (m_spkPub b) (m_spkSig b) (m_spkCreatedMs b)
             (set_pool (m_opkPriv b) (m_nextOpkId b) b0))).
Proof.
  intros Hb. pose proof (λ r, read_previous_ok b r Hb) as Hprev.
  destruct Hb as [Lp Hpub Lsig Hc Hr Hp Hn Hpool Hcount].
  unfold serialisePrekeys. rewrite decide_False by (by apply len32_nonempty).
  unfold restorePrekeys. rewrite decide_False.
  2: { rewrite !length_app, put_u8_length, !put_i64_length, !put_u32_length, Lp, Lsig.
       change (length kPrekeyMagic) with 8. lia. }
  rewrite read_exact_app by done. rewrite bool_decide_true by done. cbn [negb].
  rewrite get_put_u8 by done. cbn [Z.eqb kPrekeyVersion Pos.eqb negb andb].
  rewrite read_exact_app by done. rewrite read_exact_app by done.
  change 2%Z with kPrekeyVersion. rewrite Hprev.
  rewrite get_put_u32 by done. rewrite get_put_u32 by done.
  rewrite Nat2Z.id. pose proof (qmap_items_perm (m_opkPriv b)) as Hperm.
  rewrite <- (items_length _ _ Hperm).
  rewrite <- (app_nil_r (put_pool (qmap_items (m_opkPriv b)))).
  rewrite read_put_pool by (by exact (items_Forall (λ id k, is_u32 id ∧ length k = 32) _ _ Hperm Hpool)).
  rewrite (foldl_insert_perm _ _ Hperm). cbn [ds_ok ds_open negb].
  change (kPrekeyVersion <=? kPrekeyVersion)%Z with true.
  rewrite (proj2 (Z.ltb_lt 0 (m_spkCreatedMs b))) by lia. cbn [andb].
  by rewrite Hpub.
Qed.
End PrekeyBlob.

(** ** The session blob *)
Section SessionBlob.
Context `{QDataStreamLaws} `{QHashOrder}.

Definition fits (b : bytes) : Prop := (Z.of_nat (length b) < 2 ^ 32 - 1)%Z.

(** Every array fits a length field and every counter its word. *)
Record session_storable (s : RatchetSession) : Prop := {
  ss_arrays : Forall fits [DHs_priv s; DHs_pub s; DHr_pub s; RK s; CKs s; CKr s];
  ss_counters : Forall is_u32 [Ns s; Nr s; PN s; Z.of_nat (size (skipped s))];
  ss_skipped : map_Forall (λ k v, fits k ∧ fits v) (skipped s);
}.

Lemma read_put_skipped items r m :
  Forall (λ kv : bytes * bytes, fits kv.1 ∧ fits kv.2) items →
  read_skipped (length items) (ds_open (put_skipped items ++ r)) m
  = (foldl (λ m kv, <[kv.1 := kv.2]> m) m items, ds_open r).
Proof.
  intros Hi. revert m. induction Hi as [|[k v] items [Hk Hv] Hi IH]; intros m; [done|].
  cbn [length read_skipped]. change (put_skipped ((k, v) :: items))
    with ((put_bytes k ++ put_bytes v) ++ put_skipped items). cbn [fst snd] in *.
  rewrite <- !app_assoc. rewrite get_put_bytes by done. rewrite get_put_bytes by done.
  apply IH.
Qed.

Lemma read_put_ratchet s r :
  session_storable s → read_ratchet (ds_open (put_ratchet s ++ r)) = (s, ds_open r).
Proof.
  intros [Ha Hc Hs]. split_Forall.
  unfold put_ratchet, read_ratchet. rewrite <- !app_assoc.
  do 6 rewrite get_put_bytes by done. do 3 rewrite get_put_u32 by done.
  rewrite get_put_bool. rewrite get_put_u32 by done. rewrite Nat2Z.id.
  pose proof (qhash_items_perm (skipped s)) as Hperm.
  rewrite <- (items_length _ _ Hperm).
  rewrite read_put_skipped by (by exact (items_Forall (λ k v, fits k ∧ fits v) _ _ Hperm Hs)).
  rewrite (foldl_insert_perm _ _ Hperm). by destruct s.
Qed.

Lemma exported_nonempty peer b s : m_sessions b !! peer = Some s → exportSession peer b ≠ [].
Proof.
  intros Es E. unfold exportSession in E. rewrite Es in E. apply (f_equal length) in E.
  rewrite length_app, put_u8_length in E. cbn in E. lia.
Qed.

(** The exported blob is accepted by any box that holds the same two identity
    keys, and puts exactly the exported session (chains, counters and skipped
    keys) in place. *)
Lemma import_exported peer b b0 s pid :
  m_sessions b !! peer = Some s → session_storable s →
  m_peerIdentity b !! peer = Some pid → pid ≠ [] → fits pid → fits (m_publicKey b) →
  m_publicKey b0 = m_publicKey b → m_peerIdentity b0 !! peer = Some pid →
  importSession peer (exportSession peer b) b0 = Some (put_session peer s b0).
Proof.
  intros Es Hs Hp Hne Hf Hm E1 E2. unfold importSession.
  rewrite decide_False by by eapply exported_nonempty.
  unfold exportSession. rewrite Es, Hp. cbn [default].
  rewrite get_put_u8 by done. cbn [Z.eqb Pos.eqb negb].
  do 2 rewrite get_put_bytes by done.
  rewrite <- (app_nil_r (put_ratchet s)), read_put_ratchet by done. cbn [ds_ok ds_open negb].
  rewrite E1, E2. cbn [default]. rewrite !bool_decide_true by done.
  rewrite bool_decide_false by done. cbn [negb orb].
  by rewrite bool_decide_true.
Qed.

(** a stale session is never resurrected. The blob exported under one
    pair of identity keys is refused by a box whose own key, or whose record of
    the peer's key, is different or missing. *)
Theorem stale_session_refused peer b b0 s :
  m_sessions b !! peer = Some s → session_storable s →
  fits (m_publicKey b) → fits (default [] (m_peerIdentity b !! peer)) →
  m_publicKey b0 ≠ m_publicKey b ∨
  m_peerIdentity b0 !! peer ≠ m_peerIdentity b !! peer ∨ m_peerIdentity b0 !! peer = None →
  map_Forall (λ _ k, k ≠ []) (m_peerIdentity b0) →
  importSession peer (exportSession peer b) b0 = None.
Proof.
  intros Es Hs Hm Hf Hdiff Hall. unfold exportSession, importSession. rewrite Es.
  case_decide; [done|]. rewrite get_put_u8 by done. cbn [Z.eqb Pos.eqb negb].
  do 2 rewrite get_put_bytes by done.
  rewrite <- (app_nil_r (put_ratchet s)), read_put_ratchet by done. cbn [ds_ok ds_open negb].
  destruct (decide (m_publicKey b = m_publicKey b0)) as [E|E];
    [|by rewrite bool_decide_false].
  rewrite bool_decide_true by done. cbn [negb].
  destruct (m_peerIdentity b0 !! peer) as [p0|] eqn:E0; cbn [default]; [|done].
  rewrite bool_decide_false by (by apply (Hall peer)). cbn [orb].
  rewrite bool_decide_false; [done|]. intros Ep. cbn in Ep.
  destruct (m_peerIdentity b !! peer) as [p|] eqn:E1; cbn in Ep; subst.
  - naive_solver.
  - by apply (Hall peer _ E0).
Qed.

(** An accepted blob changes the peer's session and nothing else. *)
Lemma importSession_put peer blob b b' :
  importSession peer blob b = Some b' → ∃ s, b' = put_session peer s b.
Proof.
  unfold importSession. case_decide; [done|].
  destruct (get_u8 _) as [ver d1]. destruct (negb _); [done|].
  destruct (get_bytes d1) as [m d2]. destruct (get_bytes d2) as [p d3].
  destruct (read_ratchet d3) as [s d4]. repeat (destruct (negb _); [done|]).
  destruct (_ || _); [done|]. intros [= <-]. eauto.
Qed.

(** The session a blob gives a box, if it is accepted. *)
Definition imported (peer : string) (blob : bytes) (b : CryptoBox) : option RatchetSession :=
  match importSession peer blob b with
  | Some b' => m_sessions b' !! peer
  | None => None
  end.

Lemma imported_spec peer blob b :
  importSession peer blob b = (λ s, put_session peer s b) <$> imported peer blob b.
Proof.
  unfold imported. destruct (importSession peer blob b) as [b'|] eqn:E; [|done].
  apply importSession_put in E as [s ->]. cbn. by rewrite lookup_insert_eq.
Qed.

(** Only the two identity keys matter. *)
Lemma imported_ext peer blob b1 b2 :
  m_publicKey b1 = m_publicKey b2 → m_peerIdentity b1 !! peer = m_peerIdentity b2 !! peer →
  imported peer blob b1 = imported peer blob b2.
Proof.
  intros E1 E2. unfold imported, importSession. rewrite E1, E2. case_decide; [done|].
  destruct (get_u8 _) as [ver d1]. destruct (negb _); [done|].
  destruct (get_bytes d1) as [m d2]. destruct (get_bytes d2) as [p d3].
  destruct (read_ratchet d3) as [s d4]. repeat (destruct (negb _); [done|]).
  destruct (_ || _); [done|]. cbn. by rewrite !lookup_insert_eq.
Qed.
End SessionBlob.
