(* ===== verification/FileCrypto.v ===== *)
(** * FileCrypto: the encryption of a file as a stream of chunks
      (client/src/filecrypto.cpp, filecrypto.h)

    The state of the class and its member functions, HAVE_SODIUM build.  A null
    [QByteArray] (failure) is [None]; an empty chunk is [Some []]. *)

From S2P Require Import Prelude Platform Kdf.

Definition CHUNK_SIZE : Z := 64 * 1024.
Definition HEADER_BYTES : nat := 24.
Definition KEY_BYTES : nat := 32.
Definition TAG_BYTES : nat := 17.
Definition MAX_FILE_BYTES : Z := 50 * 1024 * 1024.

(** crypto_secretstream_xchacha20poly1305_TAG_MESSAGE and TAG_FINAL. *)
Definition TAG_MESSAGE : Z := 0.
Definition TAG_FINAL : Z := 3.

Record FileCrypto := mkFile {
  m_state : ss_state;
  m_header : bytes;
  m_initialized : bool;
  m_sawFinal : bool;
}.

(** The constructor leaves the C state as it is: [st]. *)
Definition newFile (st : ss_state) : FileCrypto := mkFile st [] false false.

Section FileCrypto.
Context `{Sodium}.

Definition randomKey (rnd : bytes) : bytes := rnd.

Definition deriveFileKey `{QtText} (sharedSecret : bytes) (msgId : string) : bytes :=
  hkdfSha256 sharedSecret (kFileHkdfPrefix ++ toUtf8 msgId) KEY_BYTES.

(** [rnd] is the header's octets, drawn by libsodium. *)
Definition initPush (fileKey rnd : bytes) (f : FileCrypto) : bool * FileCrypto :=
  if negb (length fileKey =? KEY_BYTES) then (false, f) else
  match ss_init_push fileKey rnd with
  | None => (false, mkFile (m_state f) [] (m_initialized f) (m_sawFinal f))
  | Some (st, h) => (true, mkFile st h true false)
  end.

Definition encryptChunk (plaintext : bytes) (isLast : bool) (f : FileCrypto)
    : option bytes * FileCrypto :=
  if negb (m_initialized f) then (None, f) else
  let tag := if isLast then TAG_FINAL else TAG_MESSAGE in
  match ss_push (m_state f) plaintext tag with
  | None => (None, f)
  | Some (st, ct) => (Some ct, mkFile st (m_header f) (m_initialized f) (m_sawFinal f))
  end.

Definition initPull (fileKey header : bytes) (f : FileCrypto) : bool * FileCrypto :=
  if negb (length fileKey =? KEY_BYTES) || negb (length header =? HEADER_BYTES)
  then (false, f) else
  match ss_init_pull header fileKey with
  | None => (false, f)
  | Some st => (true, mkFile st (m_header f) true false)
  end.

(** (plaintext, [isFinal], state) *)
Definition decryptChunk (ciphertext : bytes) (f : FileCrypto)
    : option bytes * bool * FileCrypto :=
  if negb (m_initialized f) then (None, false, f) else
  if decide (length ciphertext < TAG_BYTES) then (None, false, f) else
  match ss_pull (m_state f) ciphertext with
  | None => (None, false, f)
  | Some (st, pt, tag) =>
      let fin := (tag =? TAG_FINAL)%Z in
      (Some pt, fin, mkFile st (m_header f) (m_initialized f) (m_sawFinal f || fin))
  end.

(** ** The usage the header prescribes: a whole file, chunk by chunk *)
Fixpoint push_all (chunks : list bytes) (f : FileCrypto) : option (list bytes) :=
  match chunks with
  | [] => Some []
  | c :: rest =>
      let '(ct, f') := encryptChunk c (bool_decide (rest = [])) f in
      match ct with
      | None => None
      | Some ct => match push_all rest f' with
                   | None => None
                   | Some cts => Some (ct :: cts)
                   end
      end
  end.

Fixpoint pull_all (cts : list bytes) (f : FileCrypto) : option (list bytes) * FileCrypto :=
  match cts with
  | [] => (Some [], f)
  | ct :: rest =>
      let '(pt, _, f') := decryptChunk ct f in
      match pt with
      | None => (None, f')
      | Some pt => let '(pts, f'') := pull_all rest f' in
                   (match pts with None => None | Some pts => Some (pt :: pts) end, f'')
      end
  end.
End FileCrypto.

Section Stream.
Context `{Sodium} (ss_paired : ss_state → ss_state → Prop) `{!SecretstreamLaws ss_paired}.

Lemma chunk_step p last fs fr :
  m_initialized fs = true → m_initialized fr = true → m_sawFinal fr = false →
  ss_paired (m_state fs) (m_state fr) →
  ∃ fs' ct fr', encryptChunk p last fs = (Some ct, fs') ∧
    decryptChunk ct fr = (Some p, last, fr') ∧
    m_initialized fs' = true ∧ m_initialized fr' = true ∧ m_sawFinal fr' = last ∧
    ss_paired (m_state fs') (m_state fr').
Proof.
  intros H1 H2 H3 Hp. unfold encryptChunk, decryptChunk. rewrite H1, H2, H3. cbn [negb].
  set (t := if last then TAG_FINAL else TAG_MESSAGE).
  destruct (ss_push_pull _ _ p t Hp) as (s1 & c & s2 & -> & Hl & Hpull & Hp').
  { unfold t, TAG_FINAL, TAG_MESSAGE. destruct last; lia. }
  do 3 eexists. split; [done|]. unfold TAG_BYTES. rewrite decide_False by lia. rewrite Hpull.
  assert ((t =? TAG_FINAL)%Z = last) as -> by (unfold t; by destruct last).
  done.
Qed.

(** a file streamed chunk by chunk arrives whole, and a truncated one is
    detected. Under one key the chunks that [encryptChunk] produces decrypt, in
    order, to the chunks of the file; the receiver has seen the final tag exactly
    when it has them all, so after any proper prefix [sawFinal] is false. *)
Theorem stream_roundtrip key rnd chunks fs fr :
  length key = KEY_BYTES → chunks ≠ [] →
  ∃ fs' cts fr',
    initPush key rnd fs = (true, fs') ∧ push_all chunks fs' = Some cts ∧
    initPull key (m_header fs') fr = (true, fr') ∧ length cts = length chunks ∧
    ∀ k, k ≤ length cts →
      ∃ fr'', pull_all (take k cts) fr' = (Some (take k chunks), fr'') ∧
              m_sawFinal fr'' = bool_decide (k = length cts).
Proof.
  intros Hk Hne. unfold initPush, initPull. rewrite Hk, Nat.eqb_refl. cbn [negb orb].
  destruct (ss_init_pair key rnd Hk) as (st & h & st' & -> & Hh & Hpull & Hp).
  eexists (mkFile st h true false).
  assert (Hall : ∀ chunks fs fr, chunks ≠ [] → m_initialized fs = true →
    m_initialized fr = true → m_sawFinal fr = false → ss_paired (m_state fs) (m_state fr) →
    ∃ cts, push_all chunks fs = Some cts ∧ length cts = length chunks ∧
      ∀ k, k ≤ length cts → ∃ fr'', pull_all (take k cts) fr = (Some (take k chunks), fr'') ∧
                                    m_sawFinal fr'' = bool_decide (k = length cts)).
  { clear -SecretstreamLaws0. intros chunks. induction chunks as [|c rest IH]; intros fs fr Hne H1 H2 H3 Hp; [done|].
    destruct (chunk_step c (bool_decide (rest = [])) fs fr H1 H2 H3 Hp)
      as (fs' & ct & fr' & He & Hd & I1 & I2 & I3 & Hp').
    cbn [push_all]. rewrite He.
    assert (∃ cts, push_all rest fs' = Some cts ∧ length cts = length rest ∧
      ∀ k, k ≤ length cts → ∃ fr'', pull_all (take k cts) fr' = (Some (take k rest), fr'') ∧
                                    m_sawFinal fr'' = bool_decide (k = length cts))
      as (cts & -> & Hlen & Hpre).
    { destruct (decide (rest = [])) as [->|Hr].
      - exists []. split; [done|]. split; [done|]. intros k Hk. exists fr'.
        assert (k = 0) as -> by (cbn in Hk; lia). by rewrite I3.
      - rewrite bool_decide_false in I3 by done. by apply IH. }
    eexists. split; [done|]. cbn [length]. split; [by rewrite Hlen|].
    intros [|k] Hk.
    - exists fr. split; [done|]. by rewrite bool_decide_false by lia.
    - destruct (Hpre k ltac:(lia)) as (fr'' & Hpl & Hf). exists fr''.
      cbn [take pull_all]. rewrite Hd, Hpl. split; [done|]. rewrite Hf.
      apply bool_decide_ext. lia. }
  destruct (Hall chunks (mkFile st h true false) (mkFile st' (m_header fr) true false)) as (cts & Hpush & Hl & Hpre); try done.
  exists cts. eexists. split; [done|]. split; [done|]. cbn [m_header].
  rewrite Hh, Hpull. split; [done|]. split; [done|]. exact Hpre.
Qed.
End Stream.
