(* ===== verification/ListModel.v ===== *)
(** * List models and the views attached to them

    [MessageModel], [UserModel] and [LogBuffer] are [QAbstractListModel]s: a QML
    view keeps a copy of the rows and updates it from the signals the model
    emits, reading [data()] for the rows and roles a signal names.  An operation
    of such a model is modelled with its trace: each signal with the state of the
    model when it is emitted.  The contract of a model is that a view that
    replays the trace holds what the model holds. *)

From S2P Require Import Prelude.

(** What a model offers its views: [rowCount()] and [data(index, role)]. *)
Class ListModel (M Role Value : Type) := {
  rowCount : M → nat;
  row_data : M → nat → Role → Value;
}.

Inductive Signal (Role : Type) :=
| RowsInserted (first last : nat)
| RowsRemoved (first last : nat)
| DataChanged (row : nat) (roles : list Role)
| ModelReset.
Arguments RowsInserted {_}.
Arguments RowsRemoved {_}.
Arguments DataChanged {_}.
Arguments ModelReset {_}.

Section Views.
Context `{!ListModel M Role Value} `{!EqDecision Role}.

Definition read_all (m : M) : list (Role → Value) := row_data m <$> seq 0 (rowCount m).

Definition on_signal (sig : Signal Role) (m : M) (v : list (Role → Value)) : list (Role → Value) :=
  match sig with
  | RowsInserted a b => take a v ++ (row_data m <$> seq a (S b - a)) ++ drop a v
  | RowsRemoved a b => take a v ++ drop (S b) v
  | DataChanged r roles =>
      alter (λ f role, if decide (role ∈ roles) then row_data m r role else f role) r v
  | ModelReset => read_all m
  end.

Fixpoint replay (t : list (Signal Role * M)) (v : list (Role → Value)) : list (Role → Value) :=
  match t with
  | [] => v
  | (sig, m) :: t' => replay t' (on_signal sig m v)
  end.

(** Two views show the same. *)
Definition same_view (v w : list (Role → Value)) : Prop :=
  Forall2 (λ f g, ∀ role, f role = g role) v w.

(** The contract of an operation from [m] to [m'] with trace [t]. *)
Definition coherent (m : M) (t : list (Signal Role * M)) (m' : M) : Prop :=
  same_view (replay t (read_all m)) (read_all m').

#[export] Instance same_view_equiv : Equivalence same_view.
Proof.
  split; unfold same_view.
  - intros v. apply Forall_Forall2_diag, Forall_true. done.
  - intros v w Hvw. induction Hvw; constructor; auto.
  - intros u v w Huv. revert w. induction Huv; intros w Hvw; inversion Hvw; subst;
      [constructor|]. constructor; [intros role; congruence|auto].
Qed.

#[export] Instance on_signal_proper sig m : Proper (same_view ==> same_view) (on_signal sig m).
Proof.
  intros v w Hvw. destruct sig as [a b|a b|r roles|]; cbn.
  - apply Forall2_app; [by apply Forall2_take|]. apply Forall2_app; [|by apply Forall2_drop].
    apply same_view_equiv.
  - apply Forall2_app; [by apply Forall2_take|by apply Forall2_drop].
  - apply Forall2_alter; [done|]. intros f g _ _ H role. by case_decide.
  - apply same_view_equiv.
Qed.

Lemma replay_app t1 t2 v : replay (t1 ++ t2) v = replay t2 (replay t1 v).
Proof. revert v. induction t1 as [|[sig m] t1 IH]; intros v; [done|apply IH]. Qed.

#[export] Instance replay_proper t : Proper (same_view ==> same_view) (replay t).
Proof.
  induction t as [|[sig m] t IH]; intros v w Hvw; [done|].
  cbn. apply IH. by rewrite Hvw.
Qed.

Lemma coherent_refl m : coherent m [] m.
Proof. apply same_view_equiv. Qed.

Lemma coherent_trans m1 t1 m2 t2 m3 :
  coherent m1 t1 m2 → coherent m2 t2 m3 → coherent m1 (t1 ++ t2) m3.
Proof. unfold coherent. intros H1 H2. by rewrite replay_app, H1. Qed.

(** A reset is always coherent. *)
Lemma coherent_reset m m' : coherent m [(ModelReset, m')] m'.
Proof. apply same_view_equiv. Qed.

Lemma read_all_lookup m i f :
  read_all m !! i = Some f ↔ i < rowCount m ∧ f = row_data m i.
Proof.
  unfold read_all. rewrite list_lookup_fmap_Some. split.
  - intros (j & -> & [-> Hj]%lookup_seq). done.
  - intros [Hi ->]. exists i. by rewrite lookup_seq.
Qed.

Lemma read_all_length m : length (read_all m) = rowCount m.
Proof. unfold read_all. by rewrite length_fmap, length_seq. Qed.

Lemma read_all_lookup_lt m i : i < rowCount m → read_all m !! i = Some (row_data m i).
Proof. intros. by apply read_all_lookup. Qed.

Lemma read_all_lookup_ge m i : rowCount m ≤ i → read_all m !! i = None.
Proof. intros. apply lookup_ge_None. by rewrite read_all_length. Qed.

Lemma same_view_intro (v w : list (Role → Value)) :
  length v = length w →
  (∀ i f g, v !! i = Some f → w !! i = Some g → ∀ role, f role = g role) →
  same_view v w.
Proof. intros Hl H. apply Forall2_same_length_lookup. eauto. Qed.

(** One row inserted at [r]: the rows before keep their place, the rows after
    move down by one. *)
Lemma coherent_insert_row m m' r :
  r ≤ rowCount m → rowCount m' = S (rowCount m) →
  (∀ i role, i < r → row_data m' i role = row_data m i role) →
  (∀ i role, r ≤ i < rowCount m → row_data m' (S i) role = row_data m i role) →
  coherent m [(RowsInserted r r, m')] m'.
Proof.
  intros Hr Hc Hlo Hhi. unfold coherent. cbn [replay on_signal].
  replace (S r - r) with 1 by lia. cbn [seq fmap list_fmap].
  apply same_view_intro.
  { rewrite !length_app, length_take, length_drop, !read_all_length. cbn. lia. }
  intros i f g Hf [Hi ->]%read_all_lookup role.
  destruct (decide (i < r)) as [Hlt|Hge].
  - rewrite lookup_app_l, lookup_take_lt in Hf by (rewrite ?length_take, ?read_all_length; lia).
    apply read_all_lookup in Hf as [_ ->]. symmetry. by apply Hlo.
  - rewrite lookup_app_r in Hf by (rewrite length_take, read_all_length; lia).
    rewrite length_take, read_all_length in Hf.
    destruct (i - r `min` rowCount m) as [|j] eqn:Ej; cbn in Hf.
    + injection Hf as <-. replace r with i by lia. done.
    + change (drop r (read_all m) !! j = Some f) in Hf.
      rewrite lookup_drop in Hf. apply read_all_lookup in Hf as [Hl ->].
      replace i with (S (r + j)) by lia. symmetry. apply Hhi. lia.
Qed.

(** The first row removed. *)
Lemma coherent_remove_first m m' :
  rowCount m = S (rowCount m') →
  (∀ i role, i < rowCount m' → row_data m' i role = row_data m (S i) role) →
  coherent m [(RowsRemoved 0 0, m')] m'.
Proof.
  intros Hc Hd. change (same_view (drop 1 (read_all m)) (read_all m')).
  apply same_view_intro.
  { rewrite length_drop, !read_all_length. lia. }
  intros i f g Hf [Hi ->]%read_all_lookup role.
  rewrite lookup_drop in Hf. apply read_all_lookup in Hf as [_ ->]. symmetry. by apply Hd.
Qed.

(** One row changed in the roles named by the signal. *)
Lemma coherent_changed m m' r roles :
  rowCount m' = rowCount m →
  (∀ i role, i < rowCount m → i ≠ r ∨ (role ∉ roles) →
             row_data m' i role = row_data m i role) →
  coherent m [(DataChanged r roles, m')] m'.
Proof.
  intros Hc Hd. unfold coherent. cbn [replay on_signal].
  apply same_view_intro.
  { by rewrite length_alter, !read_all_length. }
  intros i f g Hf [Hi ->]%read_all_lookup role. rewrite Hc in Hi.
  destruct (decide (i = r)) as [->|Hne].
  - rewrite list_lookup_alter_eq, read_all_lookup_lt in Hf by done. injection Hf as <-.
    case_decide; [done|]. symmetry. auto.
  - rewrite list_lookup_alter_ne, read_all_lookup_lt in Hf by done. injection Hf as <-.
    symmetry. auto.
Qed.
End Views.

