(* ===== verification/LogBuffer.v ===== *)
(** * LogBuffer: the log screen's buffer (client/src/logbuffer.cpp, logbuffer.h)

    Two parallel lists of at most [kMaxLines] entries, changed on the GUI thread
    only: a record that arrives on another thread is queued for it.  A step
    relation interleaves arrivals and the GUI thread's work, and the refinement
    theorem says the buffer is the last [kMaxLines] of what was delivered. *)

From S2P Require Import Prelude ListModel.

Module LogBuffer.

Definition kMaxLines : nat := Z.to_nat 5000.
#[global] Opaque kMaxLines.

Inductive Role := LineRole | LevelRole | DisplayRole | OtherRole.

#[export] Instance role_eq_dec : EqDecision Role.
Proof. solve_decision. Defined.

(** [m_lines], [m_levels], and the calls queued to the GUI thread. *)
Record State := mkState {
  m_lines : list string;
  m_levels : list string;
  queued : list (string * string);
}.

Definition newState : State := mkState [] [] [].

(** [data(index, role)]; [None] is the invalid variant. *)
Definition data (s : State) (r : nat) (role : Role) : option string :=
  if decide (length (m_lines s) ≤ r) then None else
  match role with
  | LineRole => m_lines s !! r
  | LevelRole => m_levels s !! r
  | DisplayRole => m_lines s !! r
  | OtherRole => None
  end.

#[export] Instance log_model : ListModel State Role (option string) :=
  {| rowCount s := length (m_lines s); row_data := data |}.

Abbreviation trace := (list (Signal Role * State)).

(** Roll the oldest line off once at capacity. *)
Definition roll (s : State) : State * trace :=
  if decide (kMaxLines ≤ length (m_lines s)) then
    let s1 := mkState (drop 1 (m_lines s)) (drop 1 (m_levels s)) (queued s) in
    (s1, [(RowsRemoved 0 0, s1)])
  else (s, []).

Definition appendOnGui (line level : string) (s : State) : State * trace :=
  let '(s1, t1) := roll s in
  let row := length (m_lines s1) in
  let s2 := mkState (m_lines s1 ++ [line]) (m_levels s1 ++ [level]) (queued s1) in
  (s2, t1 ++ [(RowsInserted row row, s2)]).

Definition append (onGui : bool) (line level : string) (s : State) : State * trace :=
  if onGui then appendOnGui line level s
  else (mkState (m_lines s) (m_levels s) (queued s ++ [(line, level)]), []).

(** The event loop of the GUI thread runs the oldest queued call. *)
Definition run_queued (s : State) : State * trace :=
  match queued s with
  | [] => (s, [])
  | (line, level) :: rest =>
      appendOnGui line level (mkState (m_lines s) (m_levels s) rest)
  end.

Definition clear (s : State) : State * trace :=
  if decide (m_lines s = []) then (s, []) else
  let s1 := mkState [] [] (queued s) in (s1, [(ModelReset, s1)]).

Fixpoint join (sep : string) (l : list string) : string :=
  match l with
  | [] => ""
  | [x] => x
  | x :: rest => x +:+ sep +:+ join sep rest
  end.

Definition newline : string := String (Ascii.ascii_of_nat 10) "".

Definition asText (s : State) : string := join newline (m_lines s).

(** ** What the buffer promises

    The abstract log is every record delivered to the GUI thread since the last
    clear, oldest first. *)
Definition last_n {A} (n : nat) (l : list A) : list A := drop (length l - n) l.

Record represents (h : list (string * string)) (s : State) : Prop := {
  rep_lines : m_lines s = (last_n kMaxLines h).*1;
  rep_levels : m_levels s = (last_n kMaxLines h).*2;
}.

(** One step of the program, with the record it delivers if any. *)
Inductive step : list (string * string) → State → list (string * string) → State → trace → Prop :=
| step_gui h s line level s' t :
    append true line level s = (s', t) → step h s (h ++ [(line, level)]) s' t
| step_other h s line level s' t :
    append false line level s = (s', t) → step h s h s' t
| step_loop h s line level rest s' t :
    queued s = (line, level) :: rest → run_queued s = (s', t) →
    step h s (h ++ [(line, level)]) s' t
| step_clear h s s' t :
    clear s = (s', t) → step h s [] s' t.

Inductive reachable : list (string * string) → State → Prop :=
| reach_new : reachable [] newState
| reach_step h s h' s' t : reachable h s → step h s h' s' t → reachable h' s'.

Lemma last_n_length {A} n (l : list A) : length (last_n n l) = n `min` length l.
Proof. unfold last_n. rewrite length_drop. lia. Qed.

Lemma last_n_snoc {A} n (l : list A) x :
  0 < n → last_n n (l ++ [x])
          = (if decide (n ≤ length l) then drop 1 (last_n n l) else last_n n l) ++ [x].
Proof.
  intros Hn. unfold last_n. rewrite length_app. cbn [length].
  rewrite drop_app_le by lia. case_decide.
  - rewrite drop_drop. do 2 f_equal. lia.
  - do 2 f_equal. lia.
Qed.

#[local] Transparent kMaxLines.
Lemma kMaxLines_pos : 0 < kMaxLines.
Proof. unfold kMaxLines. lia. Qed.
#[local] Opaque kMaxLines.

Lemma rep_full h s : represents h s →
  (kMaxLines ≤ length (m_lines s) ↔ kMaxLines ≤ length h).
Proof. intros [-> _]. rewrite length_fmap, last_n_length. lia. Qed.

Lemma roll_lists s :
  m_lines (roll s).1 = (if decide (kMaxLines ≤ length (m_lines s))
                        then drop 1 (m_lines s) else m_lines s) ∧
  m_levels (roll s).1 = (if decide (kMaxLines ≤ length (m_lines s))
                         then drop 1 (m_levels s) else m_levels s) ∧
  queued (roll s).1 = queued s.
Proof. unfold roll. by case_decide. Qed.

Lemma appendOnGui_represents h s line level :
  represents h s → represents (h ++ [(line, level)]) (appendOnGui line level s).1.
Proof.
  intros Hr. pose proof (rep_full h s Hr) as Hfull. destruct Hr as [Hl Hv].
  unfold appendOnGui. pose proof kMaxLines_pos. destruct (roll_lists s) as (E1 & E2 & _).
  destruct (roll s) as [s1 t1]. cbn in *.
  split; cbn; rewrite last_n_snoc, fmap_app by done; cbn; f_equal; rewrite ?E1, ?E2.
  all: destruct (decide (kMaxLines ≤ length h)), (decide (kMaxLines ≤ length (m_lines s)));
    try tauto; rewrite ?fmap_drop; congruence.
Qed.

(** The two lists always have the same length. *)
Definition parallel (s : State) : Prop := length (m_lines s) = length (m_levels s).

Lemma represents_parallel h s : represents h s → parallel s.
Proof. intros [E1 E2]. unfold parallel. by rewrite E1, E2, !length_fmap. Qed.

Lemma line_lookup s i role :
  i < length (m_lines s) →
  data s i role = match role with
                  | LineRole | DisplayRole => m_lines s !! i
                  | LevelRole => m_levels s !! i
                  | OtherRole => None
                  end.
Proof. intros Hi. unfold data. by rewrite decide_False by lia. Qed.

Lemma roll_coherent s :
  parallel s → coherent s (roll s).2 (roll s).1 ∧ parallel (roll s).1.
Proof.
  intros Hp. unfold parallel in *. unfold roll. pose proof kMaxLines_pos. case_decide; cbn [fst snd].
  2: { split; [apply coherent_refl|done]. }
  split; [|cbn; rewrite !length_drop; lia].
  apply coherent_remove_first; cbn; [rewrite length_drop; lia|].
  intros i role Hi. rewrite length_drop in Hi.
  rewrite !line_lookup by (cbn; rewrite ?length_drop; lia). cbn.
  by rewrite !lookup_drop.
Qed.

Lemma appendOnGui_coherent line level s :
  parallel s →
  coherent s (appendOnGui line level s).2 (appendOnGui line level s).1 ∧
  parallel (appendOnGui line level s).1.
Proof.
  intros Hp. destruct (roll_coherent s Hp) as [Hc Hp1]. unfold appendOnGui.
  destruct (roll s) as [s1 t1]. cbn [fst snd] in *. unfold parallel in *.
  split; [|cbn; rewrite !length_app; cbn; lia].
  eapply coherent_trans; [exact Hc|]. apply coherent_insert_row; cbn.
  - done.
  - rewrite length_app. cbn. lia.
  - intros i role Hi. rewrite !line_lookup by (cbn; rewrite ?length_app; lia).
    cbn. by rewrite !lookup_app_l by lia.
  - intros i role Hi. lia.
Qed.

Lemma set_queue_coherent s q : coherent s [] (mkState (m_lines s) (m_levels s) q).
Proof.
  apply same_view_intro; cbn [replay].
  { by rewrite !read_all_length. }
  intros i f g [_ ->]%read_all_lookup [_ ->]%read_all_lookup role. done.
Qed.

Lemma step_ok h s h' s' t :
  represents h s → step h s h' s' t → represents h' s' ∧ coherent s t s'.
Proof.
  intros Hr Hs. pose proof (represents_parallel h s Hr) as Hp.
  destruct Hs as [h s line level s' t E|h s line level s' t E
                 |h s line level rest s' t Eq E|h s s' t E].
  - cbn in E. destruct (appendOnGui_coherent line level s Hp) as [Hc _].
    pose proof (appendOnGui_represents h s line level Hr). rewrite E in *. done.
  - injection E as <- <-. split; [by destruct Hr; split|]. apply set_queue_coherent.
  - unfold run_queued in E. rewrite Eq in E.
    set (s0 := mkState (m_lines s) (m_levels s) rest) in *.
    assert (Hr0 : represents h s0) by (by destruct Hr; split).
    destruct (appendOnGui_coherent line level s0 Hp) as [Hc _].
    pose proof (appendOnGui_represents h s0 line level Hr0). rewrite E in *.
    split; [done|]. exact (coherent_trans s [] s0 t s' (set_queue_coherent s rest) Hc).
  - unfold clear in E. case_decide as Hn; injection E as <- <-.
    + split; [|apply coherent_refl]. split; [done|].
      unfold parallel in Hp. rewrite Hn in Hp. by destruct (m_levels s).
    + split; [by split|apply coherent_reset].
Qed.

(** C39: under any interleaving of records from the GUI thread, records queued by
    other threads and clears, the log screen holds exactly the last 5000 records
    delivered since the last clear, in order, each with its own level; and an
    attached view that follows the signals shows the same at every step. *)
Theorem buffer_is_last_records h s :
  reachable h s →
  represents h s ∧ length (m_lines s) ≤ kMaxLines ∧
  ∀ h' s' t, step h s h' s' t → coherent s t s'.
Proof.
  intros Hr. assert (represents h s) as Hrep.
  { induction Hr as [|h s h' s' t _ IH Hs]; [by split|]. by destruct (step_ok _ _ _ _ _ IH Hs). }
  split; [done|]. split.
  - destruct Hrep as [-> _]. rewrite length_fmap, last_n_length. lia.
  - intros h' s' t Hs. by apply (step_ok h s h' s' t).
Qed.

End LogBuffer.
