(* ===== verification/LogHandler.v ===== *)
(** * The message handler of the application (client/src/main.cpp)

    Every thread that logs runs [deepLogHandler].  Until the log buffer exists its records
    wait in a bounded pre-buffer behind a mutex; the first handler that finds the buffer
    drains it.  A handler is a small program whose steps are the reads of the instance, the
    critical sections and the calls of [append]; the steps of all threads interleave.  The
    text of a record is [qFormatLogMessage]'s; the abort after a fatal one is left out. *)

From S2P Require Import Prelude.

Module LogHandler.

Inductive MsgType := QtDebugMsg | QtInfoMsg | QtWarningMsg | QtCriticalMsg | QtFatalMsg.

Definition levelTag (t : MsgType) : string :=
  match t with
  | QtDebugMsg => "debug" | QtInfoMsg => "info" | QtWarningMsg => "warning"
  | QtCriticalMsg => "critical" | QtFatalMsg => "fatal"
  end.

(** A record as it is mirrored: the line and its level. *)
Abbreviation Rec := (string * string)%type.

Definition kPreBufferMax : nat := Z.to_nat 2000.
Lemma kPreBufferMax_pos : 0 < kPreBufferMax.
Proof. by apply Nat.ltb_lt; vm_compute. Qed.
#[global] Opaque kPreBufferMax.

(** What the threads share; [console] is what the default handler was given, [appended]
    the calls of [LogBuffer::append] in their order, [rolled] the records that a full
    pre-buffer gave up. *)
Record Shared := mkShared {
  instance : bool;
  g_preBuffer : list Rec;
  g_preDrained : bool;
  console : list Rec;
  appended : list Rec;
  rolled : list Rec;
}.

(** Where a handler is. *)
Inductive Pc :=
| Called
| Looking
| Checking
| Draining
| Drained (pending : list Rec)
| Marking
| Mirroring
| Waiting
| Returned.

Definition set_pre (l : list Rec) (d : bool) (s : Shared) : Shared :=
  mkShared (instance s) l d (console s) (appended s) (rolled s).
Definition append (r : Rec) (s : Shared) : Shared :=
  mkShared (instance s) (g_preBuffer s) (g_preDrained s) (console s) (appended s ++ [r]) (rolled s).
Definition print (r : Rec) (s : Shared) : Shared :=
  mkShared (instance s) (g_preBuffer s) (g_preDrained s) (console s ++ [r]) (appended s) (rolled s).

(** [if (size() >= kPreBufferMax) removeFirst(); append(...)]. *)
Definition hold_back (r : Rec) (s : Shared) : Shared :=
  if decide (kPreBufferMax ≤ length (g_preBuffer s)) then
    mkShared (instance s) (drop 1 (g_preBuffer s) ++ [r]) (g_preDrained s) (console s)
      (appended s) (rolled s ++ take 1 (g_preBuffer s))
  else set_pre (g_preBuffer s ++ [r]) (g_preDrained s) s.

(** One step of the handler of [r]. *)
Definition deepLogHandler (r : Rec) (pc : Pc) (s : Shared) : Pc * Shared :=
  match pc with
  | Called => (Looking, print r s)
  | Looking => (if instance s then Checking else Waiting, s)
  | Checking =>
      (if negb (g_preDrained s) && negb (bool_decide (g_preBuffer s = [])) then Draining
       else Marking, s)
  | Draining => (Drained (g_preBuffer s), set_pre [] true s)
  | Drained (p :: rest) => (Drained rest, append p s)
  | Drained [] => (Mirroring, s)
  | Marking => (Mirroring, set_pre (g_preBuffer s) true s)
  | Mirroring => (Returned, append r s)
  | Waiting => (Returned, hold_back r s)
  | Returned => (Returned, s)
  end.

(** ** Threads *)
Record State := mkState { shared : Shared; calls : list (Rec * Pc) }.

Definition start : State := mkState (mkShared false [] false [] [] []) [].

Definition create (s : Shared) : Shared :=
  mkShared true (g_preBuffer s) (g_preDrained s) (console s) (appended s) (rolled s).

Inductive step : State → State → Prop :=
| step_call r s cs : step (mkState s cs) (mkState s (cs ++ [(r, Called)]))
| step_create s cs : step (mkState s cs) (mkState (create s) cs)
| step_handler i r pc s cs :
    cs !! i = Some (r, pc) →
    step (mkState s cs)
         (mkState (deepLogHandler r pc s).2 (<[i := (r, (deepLogHandler r pc s).1)]> cs)).

Definition reachable : State → Prop := rtc step start.

(** ** Where the records are *)
Definition held (c : Rec * Pc) : list Rec :=
  match c.2 with
  | Drained pending => pending ++ [c.1]
  | Returned => []
  | _ => [c.1]
  end.

Definition accounted (s : Shared) : list Rec := appended s ++ g_preBuffer s ++ rolled s.

Definition occ (x : Rec) (l : list Rec) : nat := count_occ (λ x y : Rec, decide (x = y)) l x.

Lemma occ_app x l k : occ x (l ++ k) = occ x l + occ x k.
Proof. apply count_occ_app. Qed.
Lemma occ_cons x y l : occ x (y :: l) = occ x [y] + occ x l.
Proof. apply (occ_app x [y] l). Qed.
Lemma occ_nil x : occ x [] = 0.
Proof. done. Qed.
Lemma occ_perm l k : (∀ x, occ x l = occ x k) → l ≡ₚ k.
Proof. apply (Permutation_count_occ (λ x y : Rec, decide (x = y))). Qed.
Lemma perm_occ l k x : l ≡ₚ k → occ x l = occ x k.
Proof. intros Hp. by apply (Permutation_count_occ (λ x y : Rec, decide (x = y))). Qed.

(** Both sides hold as many of every record. *)
#[local] Ltac count :=
  apply occ_perm; intros ?;
  repeat (rewrite occ_app || rewrite occ_nil ||
          match goal with |- context [occ ?x (?y :: ?l)] =>
            lazymatch l with [] => fail | _ => rewrite (occ_cons x y l) end end);
  repeat match goal with |- context [occ ?x ?l] => generalize (occ x l) end; clear; intros; lia.

Lemma hold_back_conserves r s : accounted (hold_back r s) ≡ₚ accounted s ++ [r].
Proof.
  unfold accounted, hold_back. case_decide; cbn; [|count].
  destruct (g_preBuffer s) as [|x l]; cbn; rewrite ?drop_0; count.
Qed.

Lemma handler_conserves r pc s :
  accounted s ++ held (r, pc) ≡ₚ
  accounted (deepLogHandler r pc s).2 ++ held (r, (deepLogHandler r pc s).1).
Proof.
  destruct pc as [| | | |[|p rest]| | | |]; cbn [deepLogHandler fst snd]; try done.
  - by destruct (instance s).
  - by destruct (_ && _).
  - unfold accounted. cbn. count.
  - unfold accounted. cbn. count.
  - unfold accounted. cbn. count.
  - rewrite hold_back_conserves. cbn. by rewrite app_nil_r.
Qed.

Definition all_held (cs : list (Rec * Pc)) : list Rec := cs ≫= held.

Lemma held_move i r pc pc' cs :
  cs !! i = Some (r, pc) →
  all_held cs ++ held (r, pc') ≡ₚ all_held (<[i := (r, pc')]> cs) ++ held (r, pc).
Proof.
  intros Hi. rewrite <- (take_drop_middle cs i (r, pc) Hi) at 1.
  rewrite insert_take_drop by (by eapply lookup_lt_Some).
  unfold all_held. rewrite !bind_app, !bind_cons. count.
Qed.

(** C32: No record is lost track of and none is doubled.  However the threads interleave, every
    record logged is, exactly once, in the log screen, in the pre-buffer, in the hands of a
    handler at work, or among those a full pre-buffer gave up; and the pre-buffer never
    exceeds its bound. *)
Theorem records_conserved st :
  reachable st →
  fst <$> calls st ≡ₚ accounted (shared st) ++ all_held (calls st)
  ∧ length (g_preBuffer (shared st)) ≤ kPreBufferMax.
Proof.
  revert st. refine (rtc_ind_r _ _ _ _); [split; [done|cbn; lia]|].
  intros st1 st2 _ Hs [IH Hb]. destruct Hs as [r s cs|s cs|i r pc s cs Hi]; cbn in *.
  - split; [|done]. unfold all_held. rewrite fmap_app, bind_app, IH. cbn. by rewrite <- app_assoc.
  - by split.
  - split.
    + rewrite list_fmap_insert. cbn. rewrite list_insert_id.
      2: { rewrite list_lookup_fmap, Hi. done. }
      apply occ_perm. intros x. pose proof (perm_occ _ _ x IH) as E1.
      pose proof (perm_occ _ _ x (held_move i r pc (deepLogHandler r pc s).1 cs Hi)) as E2.
      pose proof (perm_occ _ _ x (handler_conserves r pc s)) as E3.
      unfold all_held in *. rewrite !occ_app in *. lia.
    + destruct pc as [| | | |[|p rest]| | | |]; cbn; try done; try lia.
      unfold hold_back. case_decide; cbn.
      * rewrite length_app, length_drop. pose proof kPreBufferMax_pos. cbn. lia.
      * rewrite length_app. cbn. lia.
Qed.

(** ** One handler after the other *)

(** A handler run to its end. *)
Fixpoint finish (fuel : nat) (r : Rec) (pc : Pc) (s : Shared) : Shared :=
  match fuel, pc with
  | _, Returned | O, _ => s
  | S fuel', _ => finish fuel' r (deepLogHandler r pc s).1 (deepLogHandler r pc s).2
  end.

Definition handle (r : Rec) (s : Shared) : Shared :=
  finish (7 + length (g_preBuffer s)) r Called s.

Definition log_all (rs : list Rec) (s : Shared) : Shared := fold_left (λ s r, handle r s) rs s.

Lemma finish_returned fuel r s : finish fuel r Returned s = s.
Proof. by destruct fuel. Qed.

Lemma finish_drained fuel r pending s :
  length pending + 2 ≤ fuel →
  finish fuel r (Drained pending) s =
  mkShared (instance s) (g_preBuffer s) (g_preDrained s) (console s)
    (appended s ++ pending ++ [r]) (rolled s).
Proof.
  revert fuel s. induction pending as [|p pending IH]; intros fuel s Hf.
  - destruct fuel as [|[|fuel]]; [cbn in Hf; lia..|]. cbn. by destruct fuel.
  - destruct fuel as [|fuel]; [cbn in Hf; lia|]. cbn [finish deepLogHandler fst snd].
    rewrite IH by (cbn in Hf; lia). cbn. by rewrite <- app_assoc.
Qed.

Lemma finish_step fuel r pc s pc' s' :
  deepLogHandler r pc s = (pc', s') → pc ≠ Returned →
  finish (S fuel) r pc s = finish fuel r pc' s'.
Proof. intros E1 Hpc. destruct pc; cbn [finish]; by rewrite ?E1. Qed.

Lemma handle_early r s : instance s = false → handle r s = hold_back r (print r s).
Proof.
  intros Hi. unfold handle. generalize (length (g_preBuffer s)) as n. intros n. cbn [Nat.add].
  rewrite (finish_step _ r Called s Looking (print r s)) by done.
  rewrite (finish_step _ r Looking _ Waiting (print r s)) by (done || (cbn; by rewrite Hi)).
  rewrite (finish_step _ r Waiting _ Returned (hold_back r (print r s))) by done.
  apply finish_returned.
Qed.

Lemma handle_late r s :
  instance s = true →
  handle r s = mkShared true (if g_preDrained s then g_preBuffer s else []) true (console s ++ [r])
                 (appended s ++ (if g_preDrained s then [] else g_preBuffer s) ++ [r]) (rolled s).
Proof.
  intros Hi. unfold handle. set (n := length (g_preBuffer s)). cbn [Nat.add].
  rewrite (finish_step _ r Called s Looking (print r s)) by done.
  rewrite (finish_step _ r Looking _ Checking (print r s)) by (done || (cbn; by rewrite Hi)).
  destruct (negb (g_preDrained s) && negb (bool_decide (g_preBuffer s = []))) eqn:Hd.
  - rewrite (finish_step _ r Checking _ Draining (print r s)) by (done || (cbn; by rewrite Hd)).
    rewrite (finish_step _ r Draining _ (Drained (g_preBuffer s)) (set_pre [] true (print r s))) by done.
    rewrite finish_drained by (fold n; lia). apply andb_true_iff in Hd as [Hd%negb_true_iff _].
    rewrite Hd. cbn. by rewrite Hi.
  - rewrite (finish_step _ r Checking _ Marking (print r s)) by (done || (cbn; by rewrite Hd)).
    rewrite (finish_step _ r Marking _ Mirroring (set_pre (g_preBuffer s) true (print r s))) by done.
    rewrite (finish_step _ r Mirroring _ Returned (append r (set_pre (g_preBuffer s) true (print r s)))) by done.
    rewrite finish_returned. unfold append, set_pre, print. cbn. rewrite Hi.
    destruct (g_preDrained s); [done|]. cbn in Hd. apply negb_false_iff, bool_decide_eq_true in Hd.
    by rewrite Hd.
Qed.

#[local] Opaque handle.

Lemma fold_left_cons {A B} (f : A → B → A) b l a : fold_left f (b :: l) a = fold_left f l (f a b).
Proof. done. Qed.

Lemma log_all_cons r rs s : log_all (r :: rs) s = log_all rs (handle r s).
Proof. apply (fold_left_cons (λ s r, handle r s)). Qed.

Definition newest (l : list Rec) : list Rec := drop (length l - kPreBufferMax) l.

Lemma log_early rs s pre :
  instance s = false → g_preBuffer s = newest pre →
  let s' := log_all rs s in
  instance s' = false ∧ g_preDrained s' = g_preDrained s ∧ g_preBuffer s' = newest (pre ++ rs)
  ∧ console s' = console s ++ rs ∧ appended s' = appended s.
Proof.
  revert s pre. induction rs as [|r rs IH]; intros s pre Hi Hp; cbv zeta.
  { by rewrite !app_nil_r. }
  rewrite log_all_cons, (handle_early r s Hi).
  destruct (IH (hold_back r (print r s)) (pre ++ [r])) as (E1 & E2 & E3 & E4 & E5).
  - unfold hold_back. by case_decide.
  - pose proof kPreBufferMax_pos. unfold hold_back. cbn. rewrite Hp. unfold newest.
    rewrite length_drop, length_app. cbn [length].
    case_decide as Hd; cbn.
    + rewrite drop_drop, drop_app_le by lia. f_equal. f_equal. lia.
    + replace (length pre - kPreBufferMax) with 0 by lia.
      replace (length pre + 1 - kPreBufferMax) with 0 by lia. done.
  - rewrite E1, E2, E3, E4, E5. rewrite <- !app_assoc.
    unfold hold_back. case_decide; cbn; by rewrite <- ?app_assoc.
Qed.

Lemma log_late rs s :
  instance s = true → g_preDrained s = true →
  let s' := log_all rs s in
  g_preBuffer s' = g_preBuffer s ∧ console s' = console s ++ rs ∧ appended s' = appended s ++ rs.
Proof.
  revert s. induction rs as [|r rs IH]; intros s Hi Hd; cbv zeta.
  { by rewrite !app_nil_r. }
  rewrite log_all_cons, (handle_late r s Hi), Hd.
  destruct (IH (mkShared true (g_preBuffer s) true (console s ++ [r]) (appended s ++ [r]) (rolled s)))
    as (E1 & E2 & E3); [done..|].
  cbn [app] in *. rewrite E1, E2, E3. cbn. by rewrite <- !app_assoc.
Qed.

(** From one thread, the log screen is complete.  Records logged before the log buffer
    exists are held back and mirrored before the first one after, in order, the newest of
    them if there were more than the pre-buffer holds; the console has every record. *)
Theorem sequential_log_complete early r late :
  let s := log_all (r :: late) (create (log_all early (shared start))) in
  appended s = newest early ++ r :: late ∧ console s = early ++ r :: late ∧ g_preBuffer s = [].
Proof.
  cbv zeta. destruct (log_early early (shared start) []) as (E1 & E2 & E3 & E4 & E5); [done|done|].
  set (s1 := log_all early (shared start)) in *. clearbody s1.
  rewrite log_all_cons, (handle_late r (create s1)) by done. cbn [create g_preDrained g_preBuffer console appended rolled].
  rewrite E2, E3, E4, E5. cbn [shared start g_preDrained console appended app].
  match goal with |- context [log_all late ?x] =>
    destruct (log_late late x) as (F1 & F2 & F3); [done..|] end.
  rewrite F1, F2, F3. cbn. by rewrite <- !app_assoc.
Qed.

(** ** A record that comes late *)

(** Drained, and no handler on its way to drain. *)
Definition settled (st : State) : Prop :=
  g_preDrained (shared st) = true ∧ Forall (λ c, c.2 ≠ Draining) (calls st).

Definition waiting_line (s : Shared) : list Rec := rolled s ++ g_preBuffer s.

Lemma settled_step st1 st2 :
  step st1 st2 → settled st1 →
  settled st2 ∧ waiting_line (shared st1) `prefix_of` waiting_line (shared st2).
Proof.
  intros Hs [Hd Hc]. destruct Hs as [r s cs|s cs|i r pc s cs Hi]; cbn in *.
  - split; [split; [done|apply Forall_app; split; [done|by repeat constructor]]|done].
  - by split.
  - pose proof (Forall_lookup_1 _ _ _ _ Hc Hi) as Hpc. cbn in Hpc.
    assert (g_preDrained (deepLogHandler r pc s).2 = true
            ∧ (deepLogHandler r pc s).1 ≠ Draining
            ∧ waiting_line s `prefix_of` waiting_line (deepLogHandler r pc s).2) as (E1 & E2 & E3).
    { destruct pc as [| | | |[|p rest]| | | |]; cbn; try done.
      - by destruct (instance s).
      - by rewrite Hd.
      - unfold hold_back, waiting_line. case_decide; cbn; (split_and!; [done|done|]).
        + exists [r]. rewrite <- !app_assoc. by rewrite (app_assoc (take 1 _)), take_drop.
        + exists [r]. by rewrite app_assoc. }
    split; [|done]. split; [done|]. by apply Forall_insert.
Qed.

Lemma settled_run st1 st2 :
  rtc step st1 st2 → settled st1 → waiting_line (shared st1) `prefix_of` waiting_line (shared st2).
Proof.
  intros Hr. induction Hr as [|st1 st st2 Hs _ IH]; intros Hc; [done|].
  destruct (settled_step _ _ Hs Hc). etrans; [done|by apply IH].
Qed.

(** A record can be stranded.  A handler that looked for the log buffer just before it was
    created holds its record back after another has found the pre-buffer empty and marked
    it drained; from then on no step of any thread ever takes it out: the record never
    reaches the log screen, however much is logged after it. *)
Theorem late_record_stranded (r r2 : Rec) :
  ∃ st, reachable st ∧ instance (shared st) = true ∧ Forall (λ c, c.2 = Returned) (calls st) ∧
    g_preBuffer (shared st) = [r] ∧
    ∀ st', rtc step st st' → [r] `prefix_of` rolled (shared st') ++ g_preBuffer (shared st').
Proof.
  exists (mkState (mkShared true [r] true [r; r2] [r2] []) [(r, Returned); (r2, Returned)]).
  split; [|split_and!; [done|by repeat constructor|done|]].
  - unfold reachable, start. eapply rtc_l; [apply (step_call r)|].
    do 2 (eapply rtc_l; [eapply (step_handler 0 r); reflexivity|]).
    eapply rtc_l; [apply step_create|]. eapply rtc_l; [apply (step_call r2)|].
    do 5 (eapply rtc_l; [eapply (step_handler 1 r2); reflexivity|]).
    eapply rtc_l; [eapply (step_handler 0 r); reflexivity|]. cbn. unfold hold_back.
    rewrite decide_False by (pose proof kPreBufferMax_pos; cbn; lia). apply rtc_refl.
  - intros st' Hr. apply (settled_run _ _ Hr). by repeat constructor.
Qed.
End LogHandler.
