(* ===== verification/MessageModel.v ===== *)
(** * MessageModel: the conversation on screen
      (client/src/messagemodel.cpp, messagemodel.h)

    A list of message rows with the operations that append, tombstone, react to
    and edit them, each with the signals it emits. *)

From S2P Require Import Prelude ListModel.

Module MessageModel.

Inductive Roles :=
| SenderRole | TextRole | TimestampRole | IsMineRole | IsSystemRole
| IsFileRole | MsgIdRole | FilenameRole | MimeRole | SizeRole | LocalPathRole
| MidRole | IsDeletedRole | MyReactionRole | PeerReactionRole | IsEditedRole.

#[export] Instance roles_eq_dec : EqDecision Roles.
Proof. solve_decision. Defined.

(** The [QVariant]s of [data()]; a timestamp is formatted by Qt. *)
Inductive Value :=
| VString (s : string)
| VBool (b : bool)
| VInt (n : Z)
| VTime (ms : Z)
| VInvalid.

Record Message := mkMessage {
  sender : string;
  text : string;
  ts : Z;
  mine : bool;
  system : bool;
  isFile : bool;
  msgId : string;
  filename : string;
  mime : string;
  fsize : Z;
  localPath : string;
  mid : string;
  deleted : bool;
  myReaction : string;
  peerReaction : string;
  edited : bool;
}.

Definition rowMid (m : Message) : string :=
  if negb (String.eqb (mid m) "") then mid m
  else if isFile m then msgId m
  else "".

Abbreviation State := (list Message).

Definition row_value (m : Message) (role : Roles) : Value :=
  match role with
  | SenderRole => VString (sender m)
  | TextRole => VString (if deleted m then "This message was deleted" else text m)
  | TimestampRole => VTime (ts m)
  | IsMineRole => VBool (mine m)
  | IsSystemRole => VBool (system m)
  | IsFileRole => VBool (if deleted m then false else isFile m)
  | MsgIdRole => VString (msgId m)
  | FilenameRole => VString (filename m)
  | MimeRole => VString (if deleted m then "" else mime m)
  | SizeRole => VInt (fsize m)
  | LocalPathRole => VString (if deleted m then "" else localPath m)
  | MidRole => VString (rowMid m)
  | IsDeletedRole => VBool (deleted m)
  | MyReactionRole => VString (if deleted m then "" else myReaction m)
  | PeerReactionRole => VString (if deleted m then "" else peerReaction m)
  | IsEditedRole => VBool (if deleted m then false else edited m)
  end.

Definition data (s : State) (r : nat) (role : Roles) : Value :=
  match s !! r with
  | None => VInvalid
  | Some m => row_value m role
  end.

#[export] Instance message_model : ListModel State Roles Value :=
  {| rowCount s := length s; row_data := data |}.

Abbreviation trace := (list (Signal Roles * State)).

Definition append_row (m : Message) (s : State) : State * trace :=
  let s' := s ++ [m] in (s', [(RowsInserted (length s) (length s), s')]).

Definition addMessage (snd txt : string) (tsMillis : Z) (isMine : bool) (id : string)
    (s : State) : State * trace :=
  append_row (mkMessage snd txt tsMillis isMine false false "" "" "" 0 "" id false "" "" false) s.

(** [now] is [QDateTime::currentMSecsSinceEpoch()]. *)
Definition addSystem (txt : string) (now : Z) (s : State) : State * trace :=
  append_row (mkMessage "" txt now false true false "" "" "" 0 "" "" false "" "" false) s.

Definition appendFileMessage (snd id fname mimeType : string) (sz : Z) (path : string)
    (isOutgoing : bool) (tsMillis now : Z) (s : State) : State * trace :=
  append_row (mkMessage snd "" (if (0 <? tsMillis)%Z then tsMillis else now) isOutgoing false
                true id fname mimeType sz path "" false "" "" false) s.

Definition clear (s : State) : State * trace := ([], [(ModelReset, [])]).

(** The first row whose id is [id]; [None] is -1. *)
Fixpoint find_mid (id : string) (s : State) : option nat :=
  match s with
  | [] => None
  | m :: s' => if String.eqb (rowMid m) id then Some 0 else S <$> find_mid id s'
  end.

Definition indexOfMid (id : string) (s : State) : option nat :=
  if String.eqb id "" then None else find_mid id s.

(** Write a changed row back and tell the views which roles changed. *)
Definition change_row (row : nat) (m : Message) (roles : list Roles) (s : State)
    : bool * State * trace :=
  let s' := <[row := m]> s in (true, s', [(DataChanged row roles, s')]).

Definition tombstone (m : Message) : Message :=
  mkMessage (sender m) "" (ts m) (mine m) (system m) (isFile m) (msgId m) "" "" (fsize m) ""
    (mid m) true "" "" (edited m).

Definition tombstone_roles : list Roles :=
  [TextRole; IsFileRole; MimeRole; FilenameRole; LocalPathRole; IsDeletedRole;
   MyReactionRole; PeerReactionRole].

Definition markDeletedByMid (id : string) (s : State) : bool * State * trace :=
  match indexOfMid id s with
  | None => (false, s, [])
  | Some row =>
      match s !! row with
      | None => (false, s, [])
      | Some m =>
          if deleted m then (true, s, [])
          else change_row row (tombstone m) tombstone_roles s
      end
  end.

Definition midAt (row : Z) (s : State) : string :=
  if (row <? 0)%Z then "" else
  match s !! Z.to_nat row with None => "" | Some m => rowMid m end.

Definition isMineAt (row : Z) (s : State) : bool :=
  if (row <? 0)%Z then false else
  match s !! Z.to_nat row with None => false | Some m => mine m end.

Definition set_reaction (isMine : bool) (k : string) (m : Message) : Message :=
  mkMessage (sender m) (text m) (ts m) (mine m) (system m) (isFile m) (msgId m) (filename m)
    (mime m) (fsize m) (localPath m) (mid m) (deleted m)
    (if isMine then k else myReaction m) (if isMine then peerReaction m else k) (edited m).

Definition applyReaction (id : string) (isMine : bool) (kind : string) (s : State)
    : bool * State * trace :=
  match indexOfMid id s with
  | None => (false, s, [])
  | Some row =>
      match s !! row with
      | None => (false, s, [])
      | Some m =>
          if deleted m then (false, s, []) else
          let k := if String.eqb kind "up" || String.eqb kind "down" then kind else "" in
          change_row row (set_reaction isMine k m)
            [if isMine then MyReactionRole else PeerReactionRole] s
      end
  end.

Definition set_text (txt : string) (ed : bool) (m : Message) : Message :=
  mkMessage (sender m) txt (ts m) (mine m) (system m) (isFile m) (msgId m) (filename m)
    (mime m) (fsize m) (localPath m) (mid m) (deleted m) (myReaction m) (peerReaction m) ed.

Definition editTextByMid (id newText : string) (s : State) : bool * State * trace :=
  match indexOfMid id s with
  | None => (false, s, [])
  | Some row =>
      match s !! row with
      | None => (false, s, [])
      | Some m =>
          if isFile m || system m || deleted m then (false, s, [])
          else change_row row (set_text newText true m) [TextRole; IsEditedRole] s
      end
  end.

Definition markEditedByMid (id : string) (s : State) : bool * State * trace :=
  match indexOfMid id s with
  | None => (false, s, [])
  | Some row =>
      match s !! row with
      | None => (false, s, [])
      | Some m =>
          if isFile m || system m || deleted m then (false, s, [])
          else if edited m then (true, s, [])
          else change_row row (set_text (text m) true m) [IsEditedRole] s
      end
  end.

Definition isFileAt (row : Z) (s : State) : bool :=
  if (row <? 0)%Z then false else
  match s !! Z.to_nat row with None => false | Some m => isFile m end.

Definition textAt (row : Z) (s : State) : string :=
  if (row <? 0)%Z then "" else
  match s !! Z.to_nat row with
  | None => ""
  | Some m => if isFile m || system m then "" else text m
  end.

(** ** Operations as data, to state what every sequence of them preserves *)
Inductive Op :=
| AddMessage (snd txt : string) (t : Z) (isMine : bool) (id : string)
| AddSystem (txt : string) (now : Z)
| AppendFile (snd id fname mimeType : string) (sz : Z) (path : string)
    (isOutgoing : bool) (t now : Z)
| Delete (id : string)
| React (id : string) (isMine : bool) (kind : string)
| EditText (id newText : string)
| MarkEdited (id : string)
| Clear.

Definition run_op (o : Op) (s : State) : State * trace :=
  match o with
  | AddMessage snd txt t isMine id => addMessage snd txt t isMine id s
  | AddSystem txt now => addSystem txt now s
  | AppendFile snd id fname mimeType sz path isOutgoing t now =>
      appendFileMessage snd id fname mimeType sz path isOutgoing t now s
  | Delete id => let '(_, s', t) := markDeletedByMid id s in (s', t)
  | React id isMine kind => let '(_, s', t) := applyReaction id isMine kind s in (s', t)
  | EditText id newText => let '(_, s', t) := editTextByMid id newText s in (s', t)
  | MarkEdited id => let '(_, s', t) := markEditedByMid id s in (s', t)
  | Clear => clear s
  end.

Fixpoint run_ops (os : list Op) (s : State) : State :=
  match os with
  | [] => s
  | o :: os' => run_ops os' (run_op o s).1
  end.

(** ** Lookup by id *)
Lemma find_mid_Some id s i :
  find_mid id s = Some i →
  ∃ m, s !! i = Some m ∧ rowMid m = id ∧
       ∀ j m', j < i → s !! j = Some m' → rowMid m' ≠ id.
Proof.
  revert i. induction s as [|m s IH]; intros i; [done|]. cbn.
  destruct (String.eqb_spec (rowMid m) id) as [E|Hne].
  - intros [= <-]. exists m. split_and!; [done..|]. intros j m' Hj. lia.
  - destruct (find_mid id s) as [j|] eqn:Ej; [|done]. intros [= <-].
    destruct (IH j eq_refl) as (m1 & E1 & E2 & Hf). exists m1. split_and!; [done..|].
    intros [|k] m' Hk Hm'; [cbn in Hm'; congruence|]. eapply (Hf k); [lia|exact Hm'].
Qed.

Lemma find_mid_None id s : find_mid id s = None ↔ Forall (λ m, rowMid m ≠ id) s.
Proof.
  induction s as [|m s IH]; cbn; [by split; [constructor|]|].
  rewrite Forall_cons_iff, <- IH. destruct (String.eqb_spec (rowMid m) id) as [E|Hne].
  - split; [done|]. by intros [? _].
  - rewrite fmap_None. tauto.
Qed.

(** a message is addressed by its id. [indexOfMid] returns the first row
    that carries a non-empty id (the text id, or the file id of a file row), and
    -1 exactly when no row does, so a system note can never be addressed. *)
Theorem indexOfMid_spec id s :
  match indexOfMid id s with
  | Some i => id ≠ "" ∧ ∃ m, s !! i = Some m ∧ rowMid m = id ∧
                ∀ j m', j < i → s !! j = Some m' → rowMid m' ≠ id
  | None => id = "" ∨ Forall (λ m, rowMid m ≠ id) s
  end.
Proof.
  unfold indexOfMid. destruct (String.eqb_spec id ""); [by left|].
  destruct (find_mid id s) as [i|] eqn:E.
  - split; [done|]. by apply find_mid_Some.
  - right. by apply find_mid_None.
Qed.

(** Where the operations that change one row change it. *)
Lemma index_row id s :
  indexOfMid id s = None ∨
  ∃ i m, indexOfMid id s = Some i ∧ s !! i = Some m ∧ rowMid m = id.
Proof.
  pose proof (indexOfMid_spec id s) as Hs. destruct (indexOfMid id s) as [i|]; [|by left].
  destruct Hs as (_ & m & ? & ? & _). right. eauto.
Qed.

(** ** What an operation does to a row *)

(** The parts of a row that identify it, and that nothing changes. *)
Definition same_row (m m' : Message) : Prop :=
  sender m' = sender m ∧ ts m' = ts m ∧ mine m' = mine m ∧ system m' = system m ∧
  isFile m' = isFile m ∧ rowMid m' = rowMid m.

(** The rows of [s] as they are after a change: identity kept, tombstones
    frozen. *)
Definition evolves (s s' : State) : Prop :=
  ∀ i m, s !! i = Some m →
    ∃ m', s' !! i = Some m' ∧ same_row m m' ∧ (deleted m = true → m' = m).

Lemma evolves_refl s : evolves s s.
Proof. intros i m Hm. exists m. by repeat split. Qed.

Lemma evolves_trans s1 s2 s3 : evolves s1 s2 → evolves s2 s3 → evolves s1 s3.
Proof.
  intros H1 H2 i m Hm. destruct (H1 i m Hm) as (m2 & E2 & S2 & D2).
  destruct (H2 i m2 E2) as (m3 & E3 & S3 & D3). exists m3. split; [done|]. split.
  - unfold same_row in *. destruct_and!. split_and!; congruence.
  - intros Hd. rewrite (D2 Hd) in *. auto.
Qed.

Lemma evolves_app s m : evolves s (s ++ [m]).
Proof.
  intros i m0 Hm. exists m0. split; [by apply lookup_app_l_Some|]. by repeat split.
Qed.

Lemma evolves_change s i m m' :
  s !! i = Some m → deleted m = false → same_row m m' → evolves s (<[i := m']> s).
Proof.
  intros Hi Hd Hs j m0 Hj. destruct (decide (i = j)) as [->|Hne].
  - rewrite Hi in Hj. injection Hj as <-. exists m'.
    rewrite list_lookup_insert_eq by (by eapply lookup_lt_Some). split; [done|].
    split; [done|congruence].
  - rewrite list_lookup_insert_ne by done. exists m0. by repeat split.
Qed.

(** The operations that would delete a live row that carries an edit. *)
Definition deletes_edited (o : Op) (s : State) : Prop :=
  ∃ id i m, o = Delete id ∧ indexOfMid id s = Some i ∧ s !! i = Some m ∧
            deleted m = false ∧ edited m = true.

(** A row-changing operation: nothing, or one live row replaced. *)
Lemma run_op_shape o s :
  o ≠ Clear →
  (∃ m, run_op o s = append_row m s ∧ deleted m = false ∧ edited m = false ∧
        myReaction m = "" ∧ peerReaction m = "") ∨
  run_op o s = (s, []) ∨
  ∃ i m m' roles, s !! i = Some m ∧ deleted m = false ∧ same_row m m' ∧
    run_op o s = (<[i := m']> s, [(DataChanged i roles, <[i := m']> s)]) ∧
    (∀ role, role ∉ roles → row_value m' role = row_value m role ∨ deletes_edited o s) ∧
    (m' = tombstone m ∨ (∃ b k, k ∈ [""; "up"; "down"] ∧ m' = set_reaction b k m) ∨
     isFile m = false ∧ system m = false ∧ ∃ t, m' = set_text t true m).
Proof.
  intros Hne. destruct o as [| | |id|id isMine kind|id txt|id|]; try done.
  1-3: left; eexists; by repeat split.
  all: right; cbn [run_op];
    unfold markDeletedByMid, applyReaction, editTextByMid, markEditedByMid, change_row;
    destruct (index_row id s) as [E|(i & m & E & Em & Eid)]; rewrite E; try (by left);
    rewrite Em; destruct (deleted m) eqn:Ed; rewrite ?orb_true_r; try (by left).
  - right. exists i, m, (tombstone m), tombstone_roles. split_and!; try done; [|by left].
    intros role Hr. destruct role; try (left; cbn; rewrite ?Ed; done);
      try (exfalso; apply Hr; unfold tombstone_roles; set_solver).
    destruct (edited m) eqn:Ee; [right; by exists id, i, m|left; cbn; by rewrite Ed, Ee].
  - right. set (k := if String.eqb kind "up" || String.eqb kind "down" then kind else "").
    exists i, m, (set_reaction isMine k m), [if isMine then MyReactionRole else PeerReactionRole].
    split_and!; try done.
    + intros role Hr. left. destruct role; try done;
        cbn; rewrite ?Ed; destruct isMine; try done; exfalso; apply Hr; set_solver.
    + right. left. exists isMine, k. split; [|done]. unfold k.
      destruct (String.eqb_spec kind "up") as [E1|], (String.eqb_spec kind "down") as [E2|];
        cbn; rewrite ?E1, ?E2; set_solver.
  - destruct (isFile m) eqn:Ef, (system m) eqn:Esys; try (by left). right.
    exists i, m, (set_text txt true m), [TextRole; IsEditedRole].
    split_and!; try done; [|by right; right; eauto].
    intros role Hr. left. destruct role; try done; exfalso; apply Hr; set_solver.
  - destruct (isFile m) eqn:Ef, (system m) eqn:Esys; try (by left). cbn [orb].
    destruct (edited m) eqn:Ee; [by left|]. right.
    exists i, m, (set_text (text m) true m), [IsEditedRole].
    split_and!; try done; [|by right; right; eauto].
    intros role Hr. left. destruct role; try done; exfalso; apply Hr; set_solver.
Qed.

Lemma data_lookup s i m role : s !! i = Some m → data s i role = row_value m role.
Proof. intros E. unfold data. by rewrite E. Qed.

Lemma append_row_coherent m s : coherent s (append_row m s).2 (append_row m s).1.
Proof.
  apply coherent_insert_row; cbn; [done|rewrite length_app; cbn; lia| |intros; lia].
  intros i role Hi. unfold data. by rewrite lookup_app_l.
Qed.

(** C40: the screen follows the model. After every operation, a view that held
    the conversation and replays the emitted signals shows exactly the new
    conversation, in every role of every row; the one exception is deleting a
    message that had been edited. *)
Theorem view_follows_model o s :
  ¬ deletes_edited o s → coherent s (run_op o s).2 (run_op o s).1.
Proof.
  intros Hne. assert (o = Clear ∨ o ≠ Clear) as [-> | Hc] by (destruct o; auto).
  { apply coherent_reset. }
  destruct (run_op_shape o s Hc) as [(m & -> & _)|[->|Hch]].
  - apply append_row_coherent.
  - apply coherent_refl.
  - destruct Hch as (i & m & m' & roles & Hi & Hd & Hs & E & Hroles & _).
    rewrite E. cbn [fst snd]. pose proof (lookup_lt_Some _ _ _ Hi) as Hlt.
    apply coherent_changed; cbn; [by rewrite length_insert|].
    intros j role Hj Hout. destruct (decide (i = j)) as [<-|Hij].
    2: { unfold data. by rewrite list_lookup_insert_ne. }
    destruct Hout as [|Hout]; [done|].
    rewrite (data_lookup _ i m') by (by apply list_lookup_insert_eq).
    rewrite (data_lookup s i m) by done.
    by destruct (Hroles role Hout).
Qed.

(** the exception is real. Deleting an edited message leaves [IsEditedRole]
    out of the signal: the model says the tombstone is not edited, and a view
    that follows the signals goes on showing the edited mark. *)
Theorem delete_edited_stale_view id s i m :
  indexOfMid id s = Some i → s !! i = Some m → deleted m = false → edited m = true →
  let '(s', t) := run_op (Delete id) s in
  data s' i IsEditedRole = VBool false ∧
  ∃ f, replay t (read_all s) !! i = Some f ∧ f IsEditedRole = VBool true ∧
       f IsDeletedRole = VBool true.
Proof.
  intros Hi Hm Hd He. cbn [run_op]. unfold markDeletedByMid, change_row.
  rewrite Hi, Hm, Hd. pose proof (lookup_lt_Some _ _ _ Hm) as Hlt.
  assert (Ei : <[i := tombstone m]> s !! i = Some (tombstone m)) by (by apply list_lookup_insert_eq).
  split; [by rewrite (data_lookup _ i (tombstone m))|].
  cbn [replay on_signal]. eexists. split.
  { rewrite list_lookup_alter_eq, read_all_lookup_lt by done. done. }
  cbn -[decide tombstone_roles]. split.
  - rewrite decide_False by (unfold tombstone_roles; set_solver).
    rewrite (data_lookup s i m) by done. cbn. by rewrite Hd, He.
  - rewrite decide_True by (unfold tombstone_roles; set_solver).
    by rewrite (data_lookup _ i (tombstone m)).
Qed.

Lemma run_op_evolves o s : o ≠ Clear → evolves s (run_op o s).1.
Proof.
  intros Hc. destruct (run_op_shape o s Hc) as [(m & -> & _)|[->|Hch]].
  - apply evolves_app.
  - apply evolves_refl.
  - destruct Hch as (i & m & m' & roles & Hi & Hd & Hs & -> & _).
    by apply (evolves_change s i m).
Qed.

(** rows never move and tombstones are final. Through any sequence of
    operations short of clearing the conversation, a row keeps its position, its
    sender, time, direction, kind and id; and a deleted row is never changed
    again: no edit, reaction or second deletion brings anything back. *)
Theorem rows_stable os s :
  Clear ∉ os → evolves s (run_ops os s).
Proof.
  revert s. induction os as [|o os IH]; intros s Hc; [apply evolves_refl|].
  rewrite not_elem_of_cons in Hc. destruct Hc as [Ho Hos]. cbn [run_ops].
  eapply evolves_trans; [by apply run_op_evolves|by apply IH].
Qed.

(** What every row of a conversation satisfies. *)
Record row_ok (m : Message) : Prop := {
  ok_tombstone : deleted m = true →
    text m = "" ∧ filename m = "" ∧ mime m = "" ∧ localPath m = "" ∧
    myReaction m = "" ∧ peerReaction m = "";
  ok_reactions : myReaction m ∈ [""; "up"; "down"] ∧ peerReaction m ∈ [""; "up"; "down"];
  ok_edited : edited m = true → isFile m = false ∧ system m = false;
}.

Lemma run_op_rows_ok o s : Forall row_ok s → Forall row_ok (run_op o s).1.
Proof.
  intros Hs. assert (o = Clear ∨ o ≠ Clear) as [-> | Hc] by (destruct o; auto).
  { constructor. }
  destruct (run_op_shape o s Hc) as [(m & -> & Hd & He & R1 & R2)|[->|Hch]].
  - apply Forall_app. split; [done|]. constructor; [|constructor].
    split; rewrite ?Hd, ?He, ?R1, ?R2; [done|set_solver|done].
  - done.
  - destruct Hch as (i & m & m' & roles & Hi & Hd & _ & -> & _ & Hk). cbn [fst].
    apply Forall_insert; [done|].
    pose proof (proj1 (Forall_lookup _ _) Hs i m Hi) as [_ [Hm1 Hm2] Hm3].
    destruct Hk as [-> | [(b & k & Hk & ->)|(Hf & Hsys & t & ->)]].
    + split; [done|set_solver|exact Hm3].
    + split; cbn; [congruence|by destruct b|done].
    + split; cbn; [congruence|done|done].
Qed.

(** in every conversation the operations can build, a tombstone holds
    nothing of the message (no text, attachment or reaction), a reaction slot is
    empty, "up" or "down" whatever the peer sent, and only text rows are ever
    marked edited. *)
Theorem rows_well_formed os : Forall row_ok (run_ops os []).
Proof.
  assert (H : ∀ s, Forall row_ok s → Forall row_ok (run_ops os s)).
  { induction os as [|o os IH]; intros s Hs; [done|]. cbn. by apply IH, run_op_rows_ok. }
  by apply H.
Qed.

End MessageModel.
