(* ===== verification/UserModel.v ===== *)
(** * UserModel: the list of users (client/src/usermodel.cpp, usermodel.h)

    Every user ever seen, sorted without regard to case, with who is online and
    the unread counts.  Each operation comes with the signals it emits. *)

From S2P Require Import Prelude Platform ListModel.

Module UserModel.

Inductive Roles := NameRole | IsSelfRole | UnreadRole | OnlineRole.

#[export] Instance roles_eq_dec : EqDecision Roles.
Proof. solve_decision. Defined.

Inductive Value := VName (s : string) | VFlag (b : bool) | VCount (n : Z) | VInvalid.

Record State := mkState {
  m_users : list string;
  m_self : string;
  m_unread : gmap string Z;
  m_online : gset string;
}.

Definition newState : State := mkState [] "" ∅ ∅.

Definition row_value (s : State) (name : string) (role : Roles) : Value :=
  match role with
  | NameRole => VName name
  | IsSelfRole => VFlag (String.eqb name (m_self s))
  | UnreadRole => VCount (default 0%Z (m_unread s !! name))
  | OnlineRole => VFlag (bool_decide (name ∈ m_online s))
  end.

Definition data (s : State) (r : nat) (role : Roles) : Value :=
  match m_users s !! r with
  | None => VInvalid
  | Some name => row_value s name role
  end.

#[export] Instance user_model : ListModel State Roles Value :=
  {| rowCount s := length (m_users s); row_data := data |}.

Abbreviation trace := (list (Signal Roles * State)).

Definition set_users (l : list string) (s : State) : State :=
  mkState l (m_self s) (m_unread s) (m_online s).

Definition isOnline (name : string) (s : State) : bool := bool_decide (name ∈ m_online s).

(** [indexOf]: the first occurrence. *)
Fixpoint indexOf (name : string) (l : list string) : option nat :=
  match l with
  | [] => None
  | x :: l' => if String.eqb x name then Some 0 else S <$> indexOf name l'
  end.

Definition refreshRowFor (name : string) (s : State) : trace :=
  match indexOf name (m_users s) with
  | None => []
  | Some row => [(DataChanged row [UnreadRole; OnlineRole; IsSelfRole], s)]
  end.

Section Operations.
Context `{QStringOrder}.

(** [while (row < size && at(row).compare(name, CaseInsensitive) < 0) ++row]. *)
Fixpoint sorted_row (name : string) (l : list string) : nat :=
  match l with
  | [] => 0
  | x :: l' => if (compareCI x name <? 0)%Z then S (sorted_row name l') else 0
  end.

Definition insertUserSorted (name : string) (s : State) : State * trace :=
  let row := sorted_row name (m_users s) in
  let s' := set_users (take row (m_users s) ++ [name] ++ drop row (m_users s)) s in
  (s', [(RowsInserted row row, s')]).

Definition ensureUser (name : string) (s : State) : State * trace :=
  if decide (name = ""%string ∨ name ∈ m_users s) then (s, [])
  else insertUserSorted name s.

Fixpoint add_new (names : list string) (s : State) : State * trace :=
  match names with
  | [] => (s, [])
  | n :: rest =>
      let '(s1, t1) := if decide (n ∈ m_users s) then (s, []) else insertUserSorted n s in
      let '(s2, t2) := add_new rest s1 in
      (s2, t1 ++ t2)
  end.

Definition setOnlineUsers (names : list string) (s : State) : State * trace :=
  let nowOnline := list_to_set names : gset string in
  let '(s1, t1) := add_new names s in
  let wasOnline := m_online s1 in
  let s2 := mkState (m_users s1) (m_self s1) (m_unread s1) nowOnline in
  let changed := (wasOnline ∪ nowOnline) ∖ (wasOnline ∩ nowOnline) in
  (s2, t1 ++ mjoin ((λ n, refreshRowFor n s2) <$> qset_items changed)).

Definition setSelfName (name : string) (s : State) : State * trace :=
  let s1 := mkState (m_users s) name (m_unread s) (m_online s) in
  let '(s2, t) := ensureUser name s1 in
  (s2, t ++ refreshRowFor name s2).

Definition incrementUnread (peer : string) (s : State) : State * trace :=
  let '(s1, t) := ensureUser peer s in
  let s2 := mkState (m_users s1) (m_self s1)
              (<[peer := (default 0%Z (m_unread s1 !! peer) + 1)%Z]> (m_unread s1))
              (m_online s1) in
  (s2, t ++ refreshRowFor peer s2).

Definition clearUnread (peer : string) (s : State) : State * trace :=
  if (default 0 (m_unread s !! peer) =? 0)%Z then (s, []) else
  let s1 := mkState (m_users s) (m_self s) (<[peer := 0%Z]> (m_unread s)) (m_online s) in
  (s1, refreshRowFor peer s1).
End Operations.

(** ** Operations as data *)
Inductive Op :=
| SetOnlineUsers (names : list string)
| EnsureUser (name : string)
| SetSelfName (name : string)
| IncrementUnread (peer : string)
| ClearUnread (peer : string).

Section Facts.
Context `{QStringOrderLaws}.

Definition run_op (o : Op) (s : State) : State * trace :=
  match o with
  | SetOnlineUsers names => setOnlineUsers names s
  | EnsureUser name => ensureUser name s
  | SetSelfName name => setSelfName name s
  | IncrementUnread peer => incrementUnread peer s
  | ClearUnread peer => clearUnread peer s
  end.

Definition le_ci (a b : string) : Prop := (compareCI a b ≤ 0)%Z.

(** The list is sorted without regard to case and holds no name twice. *)
Record wf (s : State) : Prop := {
  wf_sorted : StronglySorted le_ci (m_users s);
  wf_nodup : NoDup (m_users s);
}.

Lemma le_ci_total a b : le_ci a b ∨ le_ci b a.
Proof. unfold le_ci. pose proof (compareCI_antisym a b). pose proof (compareCI_antisym b a). lia. Qed.

Lemma sorted_row_le name l : sorted_row name l ≤ length l.
Proof. induction l as [|x l IH]; cbn; [lia|]. case_match; lia. Qed.

Lemma insert_sorted name l :
  StronglySorted le_ci l →
  StronglySorted le_ci (take (sorted_row name l) l ++ [name] ++ drop (sorted_row name l) l).
Proof.
  induction 1 as [|x l Hl IH Hx]; [repeat constructor|]. cbn [sorted_row].
  destruct (Z.ltb_spec (compareCI x name) 0) as [Hlt|Hge].
  - cbn. constructor; [exact IH|].
    rewrite Forall_app, Forall_cons_iff. split_and!.
    + by apply Forall_take.
    + unfold le_ci. lia.
    + by apply Forall_drop.
  - cbn. constructor; [by constructor|].
    assert (le_ci name x) as Hnx.
    { unfold le_ci. pose proof (compareCI_antisym name x).
      pose proof (compareCI_antisym x name). lia. }
    constructor; [done|]. eapply Forall_impl; [exact Hx|].
    intros y Hy. unfold le_ci in *. by eapply compareCI_trans.
Qed.

Lemma insert_perm name s :
  m_users (insertUserSorted name s).1 ≡ₚ name :: m_users s.
Proof.
  cbn. rewrite <- Permutation_middle. by rewrite take_drop.
Qed.

Lemma insert_wf name s :
  (name ∉ m_users s) → wf s → wf (insertUserSorted name s).1.
Proof.
  intros Hn [Hs Hd]. split; [by apply insert_sorted|].
  rewrite insert_perm. by constructor.
Qed.

Lemma insert_coherent name s :
  coherent s (insertUserSorted name s).2 (insertUserSorted name s).1.
Proof.
  pose proof (sorted_row_le name (m_users s)) as Hr. cbn.
  set (r := sorted_row name (m_users s)) in *.
  assert (Ht : length (take r (m_users s)) = r) by (rewrite length_take; lia).
  apply coherent_insert_row; cbn.
  - done.
  - rewrite length_app, Ht. cbn. rewrite length_drop. lia.
  - intros i role Hi. unfold data. cbn.
    rewrite lookup_app_l, lookup_take_lt by lia. done.
  - intros i role Hi. unfold data. cbn. rewrite lookup_app_r, Ht by lia.
    replace (S i - r) with (S (i - r)) by lia. cbn.
    change (match drop r (m_users s) !! (i - r) with
            | Some name0 => row_value (set_users (take r (m_users s) ++ name :: drop r (m_users s)) s) name0 role
            | None => VInvalid
            end = match m_users s !! i with
                  | Some name0 => row_value s name0 role
                  | None => VInvalid
                  end).
    rewrite lookup_drop. by replace (r + (i - r)) with i by lia.
Qed.

Lemma indexOf_spec name l :
  NoDup l →
  match indexOf name l with
  | Some i => l !! i = Some name
  | None => name ∉ l
  end.
Proof.
  induction 1 as [|x l Hx Hl IH]; cbn; [apply not_elem_of_nil|].
  destruct (String.eqb_spec x name) as [->|Hne]; [done|].
  destruct (indexOf name l); cbn; [done|]. rewrite not_elem_of_cons. auto.
Qed.

(** Refreshing a list of names brings a view up to date that is right
    everywhere else. *)
Lemma refresh_view L s v :
  NoDup (m_users s) → length v = length (m_users s) →
  (∀ i name f role, m_users s !! i = Some name → v !! i = Some f →
     (name ∉ L) ∨ role = NameRole → f role = row_value s name role) →
  same_view (replay (mjoin ((λ n, refreshRowFor n s) <$> L)) v) (read_all s).
Proof.
  intros Hnd. revert v. induction L as [|n L IH]; intros v Hl Hv.
  - apply same_view_intro; [by rewrite read_all_length|].
    intros i f g Hf [Hi ->]%read_all_lookup role. cbn in Hi.
    destruct (lookup_lt_is_Some_2 _ _ Hi) as [name Hn]. cbn. unfold data. rewrite Hn.
    apply (Hv i); auto. left. apply not_elem_of_nil.
  - change (mjoin ((λ n, refreshRowFor n s) <$> n :: L))
      with (refreshRowFor n s ++ mjoin ((λ n, refreshRowFor n s) <$> L)).
    rewrite replay_app. pose proof (indexOf_spec n _ Hnd) as Hix. unfold refreshRowFor at 2.
    destruct (indexOf n (m_users s)) as [row|].
    + cbn [replay on_signal]. apply IH; [by rewrite length_alter|].
      intros i name f role Hi Hf Hor. destruct (decide (i = row)) as [->|Hne].
      * rewrite list_lookup_alter_eq in Hf. apply fmap_Some in Hf as (f0 & Hf0 & ->).
        assert (name = n) as -> by congruence. case_decide as Hr.
        { cbn. unfold data. by rewrite Hi. }
        apply (Hv row); auto. right. destruct role; try done; exfalso; apply Hr; set_solver.
      * rewrite list_lookup_alter_ne in Hf by done. apply (Hv i); [done..|].
        destruct Hor as [Hor|]; [left|by right]. rewrite not_elem_of_cons. split; [|done].
        intros ->. apply Hne. by eapply (NoDup_lookup (m_users s)).
    + cbn [replay]. apply IH; [done|]. intros i name f role Hi Hf Hor.
      apply (Hv i); [done..|]. destruct Hor as [Hor|]; [left|by right].
      rewrite not_elem_of_cons. split; [|done]. intros ->. apply Hix. by eapply list_elem_of_lookup_2.
Qed.

Lemma refresh_coherent L s s' :
  NoDup (m_users s) → m_users s' = m_users s →
  (∀ name role, name ∈ m_users s → (name ∉ L) ∨ role = NameRole →
     row_value s' name role = row_value s name role) →
  coherent s (mjoin ((λ n, refreshRowFor n s') <$> L)) s'.
Proof.
  intros Hnd Hu Hv. apply refresh_view; rewrite ?Hu; [done|by rewrite read_all_length|].
  intros i name f role Hi [_ ->]%read_all_lookup Hor. cbn. unfold data. rewrite Hi.
  symmetry. apply Hv; [by eapply list_elem_of_lookup_2|done].
Qed.

Lemma refresh_one_coherent n s s' :
  NoDup (m_users s) → m_users s' = m_users s →
  (∀ name role, name ∈ m_users s → name ≠ n ∨ role = NameRole →
     row_value s' name role = row_value s name role) →
  coherent s (refreshRowFor n s') s'.
Proof.
  intros Hnd Hu Hv. rewrite <- (app_nil_r (refreshRowFor n s')).
  apply (refresh_coherent [n] s s'); [done..|]. intros name role Hin Hor. apply Hv; [done|].
  destruct Hor as [Hor|]; [left|by right]. intros ->. apply Hor. by apply list_elem_of_singleton.
Qed.

(** ** Adding users *)
Record adds (s : State) (t : trace) (s' : State) : Prop := {
  adds_wf : wf s';
  adds_users : ∀ n, n ∈ m_users s → n ∈ m_users s';
  adds_rest : m_self s' = m_self s ∧ m_unread s' = m_unread s ∧ m_online s' = m_online s;
  adds_coherent : coherent s t s';
}.

Lemma adds_refl s : wf s → adds s [] s.
Proof. intros Hw. split; auto. apply coherent_refl. Qed.

Lemma adds_trans s1 t1 s2 t2 s3 : adds s1 t1 s2 → adds s2 t2 s3 → adds s1 (t1 ++ t2) s3.
Proof.
  intros [W1 U1 (R1 & R2 & R3) C1] [W2 U2 (R4 & R5 & R6) C2]. split; auto.
  - split_and!; congruence.
  - by eapply coherent_trans.
Qed.

Lemma insert_adds name s :
  (name ∉ m_users s) → wf s →
  adds s (insertUserSorted name s).2 (insertUserSorted name s).1 ∧
  name ∈ m_users (insertUserSorted name s).1.
Proof.
  intros Hn Hw. split; [split|].
  - by apply insert_wf.
  - intros n Hin. rewrite insert_perm. by right.
  - done.
  - apply insert_coherent.
  - rewrite insert_perm. by left.
Qed.

Lemma ensureUser_adds name s :
  wf s →
  adds s (ensureUser name s).2 (ensureUser name s).1 ∧
  (name ≠ ""%string → name ∈ m_users (ensureUser name s).1).
Proof.
  intros Hw. unfold ensureUser. case_decide as Hd.
  - split; [by apply adds_refl|]. cbn. tauto.
  - destruct (insert_adds name s) as [Ha Hin]; auto.
Qed.

Lemma add_new_adds names s :
  wf s →
  adds s (add_new names s).2 (add_new names s).1 ∧
  ∀ n, n ∈ names → n ∈ m_users (add_new names s).1.
Proof.
  revert s. induction names as [|n names IH]; intros s Hw.
  { split; [by apply adds_refl|]. intros n Hn. by apply not_elem_of_nil in Hn. }
  cbn [add_new].
  assert (∃ s1 t1, (if decide (n ∈ m_users s) then (s, []) else insertUserSorted n s) = (s1, t1)
    ∧ adds s t1 s1 ∧ n ∈ m_users s1) as (s1 & t1 & -> & Ha & Hin).
  { case_decide; [exists s, []; auto using adds_refl|].
    destruct (insert_adds n s) as [Ha Hin]; [done..|].
    destruct (insertUserSorted n s) as [s1 t1]. eauto. }
  destruct (IH s1 (adds_wf _ _ _ Ha)) as [Ha2 Hin2].
  destruct (add_new names s1) as [s2 t2]. cbn [fst snd] in *.
  split; [by eapply adds_trans|]. intros x [->|Hx]%elem_of_cons; [|by apply Hin2].
  by apply (adds_users _ _ _ Ha2).
Qed.

(** The operation that changes whose row is "me" while another one was. *)
Definition renames_self (o : Op) (s : State) : Prop :=
  ∃ name, o = SetSelfName name ∧ name ≠ m_self s ∧ m_self s ∈ m_users s.

Lemma row_value_same s s' name role :
  m_self s' = m_self s → m_unread s' !! name = m_unread s !! name →
  (name ∈ m_online s' ↔ name ∈ m_online s) →
  row_value s' name role = row_value s name role.
Proof.
  intros E1 E2 E3. destruct role; cbn; rewrite ?E1, ?E2; try done.
  f_equal. by apply bool_decide_ext.
Qed.

Lemma setOnlineUsers_ok names s :
  wf s →
  let '(s', t) := setOnlineUsers names s in
  wf s' ∧ coherent s t s' ∧ (∀ n, n ∈ m_users s ∨ n ∈ names → n ∈ m_users s') ∧
  m_unread s' = m_unread s ∧ m_self s' = m_self s ∧ m_online s' = list_to_set names.
Proof.
  intros Hw. unfold setOnlineUsers. destruct (add_new_adds names s Hw) as [Ha Hin].
  destruct (add_new names s) as [s1 t1]. cbn [fst snd] in *.
  destruct Ha as [[W1 W2] U (R1 & R2 & R3) C]. split_and!; try done.
  - eapply coherent_trans; [exact C|]. apply refresh_coherent; [done..|].
    intros name role Hn [Hor| ->]; [|done].
    rewrite qset_items_perm, elem_of_elements in Hor.
    apply row_value_same; cbn; [done..|].
    destruct (decide (name ∈ m_online s1)), (decide (name ∈ (list_to_set names : gset string)));
      try tauto; exfalso; apply Hor; set_solver.
  - intros n [Hn|Hn]; auto.
Qed.

Lemma setSelfName_ok name s :
  wf s →
  let '(s', t) := setSelfName name s in
  wf s' ∧ (∀ n, n ∈ m_users s → n ∈ m_users s') ∧ m_unread s' = m_unread s ∧
  (name = m_self s ∨ (m_self s ∉ m_users s) → coherent s t s').
Proof.
  intros Hw. unfold setSelfName.
  set (s0 := mkState (m_users s) name (m_unread s) (m_online s)).
  assert (W0 : wf s0) by (by destruct Hw; split).
  destruct (ensureUser_adds name s0 W0) as [Ha Hin].
  pose proof (eq_refl (ensureUser name s0)) as E. unfold ensureUser in E at 2.
  destruct (ensureUser name s0) as [s2 t]. cbn [fst snd] in *.
  destruct Ha as [W2 U (R1 & R2 & R3) C]. split_and!; [done|exact U|by rewrite R2|].
  intros Hor.
  assert (Hc0 : ∀ n role, n ∈ m_users s → n ≠ name → row_value s0 n role = row_value s n role).
  { intros n role Hn Hne. destruct role; try done. cbn. f_equal.
    destruct Hor as [->|Hs]; [done|].
    rewrite (proj2 (String.eqb_neq n name)), (proj2 (String.eqb_neq n (m_self s))); auto.
    by intros ->. }
  case_decide as Hd; injection E as -> ->.
  - apply (refresh_one_coherent name s s0); [apply Hw|done|].
    intros n role Hn [Hne| ->]; [by apply Hc0|done].
  - assert (Hnin : name ∉ m_users s) by tauto.
    eapply coherent_trans; [|apply (refresh_one_coherent name); [apply W2|done|done]].
    match goal with |- coherent _ ?tr _ => change tr with ([] ++ tr) end.
    eapply coherent_trans; [|exact C].
    apply same_view_intro; cbn [replay]; [by rewrite !read_all_length|].
    intros i f g [Hi ->]%read_all_lookup [_ ->]%read_all_lookup role. cbn in *. unfold data. cbn.
    destruct (m_users s !! i) as [n|] eqn:En; [|done]. symmetry.
    apply Hc0; [by eapply list_elem_of_lookup_2|]. intros ->. apply Hnin.
    by eapply list_elem_of_lookup_2.
Qed.

Lemma incrementUnread_ok peer s :
  wf s →
  let '(s', t) := incrementUnread peer s in
  wf s' ∧ coherent s t s' ∧ (∀ n, n ∈ m_users s → n ∈ m_users s') ∧
  (peer ≠ ""%string → peer ∈ m_users s') ∧
  m_unread s' = <[peer := (default 0%Z (m_unread s !! peer) + 1)%Z]> (m_unread s).
Proof.
  intros Hw. unfold incrementUnread. destruct (ensureUser_adds peer s Hw) as [Ha Hin].
  destruct (ensureUser peer s) as [s1 t]. cbn [fst snd] in *.
  destruct Ha as [[W1 W2] U (R1 & R2 & R3) C]. rewrite R2. split_and!; try done.
  eapply coherent_trans; [exact C|]. apply refresh_one_coherent; [done..|].
  intros n role Hn [Hne| ->]; [|done]. apply row_value_same; cbn; [done| |done].
  rewrite R2. by apply lookup_insert_ne.
Qed.

Lemma clearUnread_ok peer s :
  wf s →
  let '(s', t) := clearUnread peer s in
  wf s' ∧ coherent s t s' ∧ m_users s' = m_users s ∧
  ∀ n, default 0%Z (m_unread s' !! n)
       = if decide (n = peer) then 0%Z else default 0%Z (m_unread s !! n).
Proof.
  intros Hw. unfold clearUnread. destruct (Z.eqb_spec (default 0%Z (m_unread s !! peer)) 0).
  - split_and!; [done|apply coherent_refl|done|]. intros n. by case_decide; subst.
  - split_and!; [by destruct Hw; split| |done|].
    + apply refresh_one_coherent; [apply Hw|done|].
      intros n' role Hn [Hne| ->]; [|done]. apply row_value_same; cbn; [done| |done].
      by apply lookup_insert_ne.
    + intros n'. cbn. case_decide; subst; [by rewrite lookup_insert_eq|].
      by rewrite lookup_insert_ne.
Qed.

Definition run_ops (os : list Op) (s : State) : State :=
  foldl (λ s o, (run_op o s).1) s os.

Lemma run_op_ok o s :
  wf s →
  wf (run_op o s).1 ∧ (∀ n, n ∈ m_users s → n ∈ m_users (run_op o s).1) ∧
  (¬ renames_self o s → coherent s (run_op o s).2 (run_op o s).1).
Proof.
  intros Hw. destruct o as [names|name|name|peer|peer]; cbn [run_op].
  - pose proof (setOnlineUsers_ok names s Hw) as Hx.
    destruct (setOnlineUsers names s). naive_solver.
  - destruct (ensureUser_adds name s Hw) as [[W U _ C] _]. auto.
  - pose proof (setSelfName_ok name s Hw) as Hx. destruct (setSelfName name s) as [s' t].
    destruct Hx as (W & U & _ & C). split_and!; [done..|]. intros Hr. apply C.
    destruct (decide (name = m_self s)); [by left|right].
    intros Hin. apply Hr. by exists name.
  - pose proof (incrementUnread_ok peer s Hw) as Hx. destruct (incrementUnread peer s).
    naive_solver.
  - pose proof (clearUnread_ok peer s Hw) as Hx. destruct (clearUnread peer s) as [s' t].
    destruct Hx as (W & C & U & _). cbn in *. rewrite U. auto.
Qed.

(** whatever presence updates, messages and reads arrive, the user list
    stays sorted without regard to case and free of duplicates, no user is ever
    dropped from it, and an attached view follows it, unless the operation
    gives a new name to a self that was listed. *)
Theorem users_invariant os o :
  let s := run_ops os newState in
  wf s ∧ (∀ n, n ∈ m_users s → n ∈ m_users (run_op o s).1) ∧
  (¬ renames_self o s → coherent s (run_op o s).2 (run_op o s).1).
Proof.
  cbv zeta.
  assert (Hw : ∀ s, wf s → wf (run_ops os s)).
  { induction os as [|x os' IH]; intros s Hs; [done|]. cbn.
    apply IH. by apply run_op_ok. }
  assert (W : wf (run_ops os newState)) by (apply Hw; split; constructor).
  split; [done|]. by apply run_op_ok.
Qed.

(** a presence update marks online exactly the users it names, adds those
    never seen before, keeps everyone else in the list, and leaves every unread
    count alone. *)
Theorem presence_merges names s :
  wf s →
  let s' := (setOnlineUsers names s).1 in
  (∀ n, isOnline n s' = bool_decide (n ∈ names)) ∧
  (∀ n, n ∈ m_users s ∨ n ∈ names → n ∈ m_users s') ∧
  m_unread s' = m_unread s ∧ m_self s' = m_self s.
Proof.
  intros Hw. pose proof (setOnlineUsers_ok names s Hw) as Hx.
  destruct (setOnlineUsers names s) as [s' t]. cbn.
  destruct Hx as (_ & _ & U & R & S & O). split_and!; [|done..].
  intros n. unfold isOnline. rewrite O. apply bool_decide_ext. by rewrite elem_of_list_to_set.
Qed.

(** the exception is real. When a second account logs in and its name
    differs from a listed self, no signal covers the old self's row: the view
    goes on marking it as "me". *)
Theorem rename_self_stale_view name s i :
  wf s → m_users s !! i = Some (m_self s) → name ≠ m_self s → name ∈ m_users s →
  let '(s', t) := run_op (SetSelfName name) s in
  data s' i IsSelfRole = VFlag false ∧
  ∃ f, replay t (read_all s) !! i = Some f ∧ f IsSelfRole = VFlag true.
Proof.
  intros Hw Hi Hne Hin. cbn [run_op]. unfold setSelfName, ensureUser.
  rewrite decide_True by (by right). cbn [app].
  set (s0 := mkState _ _ _ _). split.
  { unfold data. cbn. rewrite Hi. cbn. by rewrite (proj2 (String.eqb_neq (m_self s) name)). }
  pose proof (lookup_lt_Some _ _ _ Hi) as Hlt.
  assert (Hf : read_all s !! i = Some (row_data s i)) by (by apply read_all_lookup_lt).
  exists (row_data s i). split.
  - unfold refreshRowFor. pose proof (indexOf_spec name (m_users s0) (wf_nodup _ Hw)) as Hix.
    destruct (indexOf name (m_users s0)) as [row|]; [|done]. cbn [replay on_signal].
    rewrite list_lookup_alter_ne; [done|]. intros ->. cbn in Hix. congruence.
  - cbn. unfold data. rewrite Hi. cbn. by rewrite String.eqb_refl.
Qed.
End Facts.
End UserModel.
