(* ===== verification/HistoryStore.v ===== *)
(** * HistoryStore: the local database (client/src/historystore.cpp, historystore.h)

    One SQLite file per local user.  A table is a list in id order or a map by its
    primary key, next to the columns it has (the migrations add columns to the
    files of older builds).  A statement fails when a table or column it names is
    missing, or when the engine says so: every operation takes the engine's
    answer, [ok], and [open] one answer per statement.  A NULL text reads as the
    empty string; only the columns for which NULL is told apart from it, the
    message ids, are options.  A text bound to a column that is NOT NULL is taken to be
    a string that is not null, as the callers give it; the one array that may be null
    there, the blob of a session, is refused by [saveSession]. *)

From Stdlib Require Import Strings.Ascii.
From S2P Require Import Prelude Platform.

Module HistoryStore.

Inductive Kind := KText | KFile | KSystem.

#[export] Instance kind_eq_dec : EqDecision Kind.
Proof. solve_decision. Defined.

(** A row of the table [history]. *)
Record HistoryRow := mkRow {
  h_peer : string;
  h_kind : Kind;
  h_sender : string;
  h_ts : Z;
  h_mine : bool;
  h_nonce : string;
  h_ct : string;
  h_msg_id : option string;
  h_filename : string;
  h_mime : string;
  h_size : Z;
  h_localpath : string;
  h_systext : string;
  h_deleted : bool;
  h_edited : bool;
}.

Record SessionRow := mkSessionRow {
  s_blob : bytes;
  s_peer_id : string;
  s_updated : Z;
  s_sent_since : Z;
}.

Inductive OutKind := OText | OFile | OHandshake | OVerifyAck.

Record OutboxRow := mkOut {
  o_id : Z;
  o_kind : OutKind;
  o_peer : string;
  o_body : string;
  o_srcPath : string;
  o_identity : string;
  o_mid : option string;
  o_ts : Z;
}.

(** peer_identity, my_identity, ts *)
Record VerificationRow := mkVerif {
  v_peer_identity : string;
  v_my_identity : string;
  v_ts : Z;
}.

(** The contents of one file: columns per table, then the tables. *)
Record Db := mkDb {
  schema : gmap string (list string);
  history : list HistoryRow;
  sessions : gmap string SessionRow;
  outbox : list OutboxRow;
  next_outbox : Z;
  received_files : gmap string (string * Z);
  reactions : gmap (string * string) (string * string);
  verification : gmap string VerificationRow;
  prekeys : option bytes;
}.

Definition empty_db : Db := mkDb ∅ [] ∅ [] 1 ∅ ∅ ∅ None.

(** The files by path, and the object's own state: the open file, the connection
    name and [m_ready]. *)
Record Store := mkStore {
  disk : gmap string Db;
  m_db : option string;
  m_connName : string;
  m_ready : bool;
}.

Definition newStore (d : gmap string Db) : Store := mkStore d None "" false.

(** ** Updates of the tables *)
Definition set_schema (x : gmap string (list string)) (d : Db) : Db :=
  mkDb x (history d) (sessions d) (outbox d) (next_outbox d) (received_files d) (reactions d)
    (verification d) (prekeys d).
Definition set_history (x : list HistoryRow) (d : Db) : Db :=
  mkDb (schema d) x (sessions d) (outbox d) (next_outbox d) (received_files d) (reactions d)
    (verification d) (prekeys d).
Definition set_sessions (x : gmap string SessionRow) (d : Db) : Db :=
  mkDb (schema d) (history d) x (outbox d) (next_outbox d) (received_files d) (reactions d)
    (verification d) (prekeys d).
Definition set_outbox (x : list OutboxRow) (next : Z) (d : Db) : Db :=
  mkDb (schema d) (history d) (sessions d) x next (received_files d) (reactions d)
    (verification d) (prekeys d).
Definition set_received (x : gmap string (string * Z)) (d : Db) : Db :=
  mkDb (schema d) (history d) (sessions d) (outbox d) (next_outbox d) x (reactions d)
    (verification d) (prekeys d).
Definition set_reactions (x : gmap (string * string) (string * string)) (d : Db) : Db :=
  mkDb (schema d) (history d) (sessions d) (outbox d) (next_outbox d) (received_files d) x
    (verification d) (prekeys d).
Definition set_verification (x : gmap string VerificationRow) (d : Db) : Db :=
  mkDb (schema d) (history d) (sessions d) (outbox d) (next_outbox d) (received_files d)
    (reactions d) x (prekeys d).
Definition set_prekeys (x : option bytes) (d : Db) : Db :=
  mkDb (schema d) (history d) (sessions d) (outbox d) (next_outbox d) (received_files d)
    (reactions d) (verification d) x.

(** ** Statements *)

(** A statement over the columns [cols] of [table] can run. *)
Definition has_cols (table : string) (cols : list string) (d : Db) : bool :=
  match schema d !! table with
  | None => false
  | Some have => bool_decide (Forall (λ c, c ∈ have) cols)
  end.

(** The database of the open connection. *)
Definition the_db (s : Store) : Db :=
  match m_db s with
  | None => empty_db
  | Some p => default empty_db (disk s !! p)
  end.

Definition put_db (d : Db) (s : Store) : Store :=
  match m_db s with
  | None => s
  | Some p => mkStore (<[p := d]> (disk s)) (m_db s) (m_connName s) (m_ready s)
  end.

(** [q.exec()] of a write: its answer and its effect. *)
Definition exec (ok : bool) (table : string) (cols : list string) (f : Db → Db) (s : Store)
    : bool * Store :=
  if ok && has_cols table cols (the_db s) then (true, put_db (f (the_db s)) s) else (false, s).

(** [q.exec()] of a query: whether there is a result to read. *)
Definition query (ok : bool) (table : string) (cols : list string) (s : Store) : bool :=
  ok && has_cols table cols (the_db s).

(** ** Opening *)
Section Open.
Context `{QCharClass}.

Definition safe_char (c : ascii) : ascii :=
  if isLetterOrNumber c || Ascii.eqb c "_" || Ascii.eqb c "-" then c else "_"%char.

Definition sanitise (localUser : string) : string :=
  let safe := String.string_of_list_ascii (safe_char <$> String.list_ascii_of_string localUser) in
  if String.eqb safe "" then "default" else safe.

Definition dbPath (baseDir localUser : string) : string :=
  baseDir +:+ "/history_" +:+ sanitise localUser +:+ ".db".

Definition closeIfOpen (s : Store) : Store := mkStore (disk s) None "" false.

(** [CREATE TABLE IF NOT EXISTS]. *)
Definition create_table (table : string) (cols : list string) (d : Db) : Db :=
  match schema d !! table with
  | Some _ => d
  | None => set_schema (<[table := cols]> (schema d)) d
  end.

(** [ALTER TABLE ... ADD COLUMN], whose answer the code does not look at: the
    column reads as NULL or its default in the rows there are. *)
Definition add_column (table col : string) (d : Db) : Db :=
  match schema d !! table with
  | Some have => if decide (col ∈ have) then d
                 else set_schema (<[table := have ++ [col]]> (schema d)) d
  | None => d
  end.

(** One migration: probe [PRAGMA table_info], add the column if it is missing.
    [probe] and [alter] are the engine's two answers. *)
Definition migrate (probe alter : bool) (table col : string) (d : Db) : Db :=
  let hasCol := probe && has_cols table [col] d in
  if hasCol then d else if alter then add_column table col d else d.

Definition history_cols : list string :=
  ["id"; "peer"; "kind"; "sender"; "ts"; "mine"; "nonce_hex"; "ct_hex"; "msg_id";
   "filename"; "mime"; "size"; "localpath"; "systext"].
Definition sessions_cols : list string :=
  ["peer"; "blob"; "peer_id"; "updated"; "sent_since"].
Definition outbox_cols : list string :=
  ["id"; "kind"; "peer"; "body"; "srcpath"; "identity"; "mid"; "ts"].
Definition received_cols : list string := ["msg_id"; "peer"; "ts"].
Definition reactions_cols : list string := ["msg_id"; "who"; "peer"; "kind"].
Definition verification_cols : list string := ["peer"; "peer_identity"; "my_identity"; "ts"].
Definition prekeys_cols : list string := ["id"; "blob"].

(** The columns that later builds gave to tables of the first one. *)
Definition later_columns (ans : nat → bool) (d : Db) : Db :=
  let d := migrate (ans 10) (ans 11) "sessions" "peer_id" d in
  let d := migrate (ans 12) (ans 13) "sessions" "sent_since" d in
  let d := migrate (ans 14) (ans 15) "history" "deleted" d in
  migrate (ans 16) (ans 17) "history" "edited" d.

(** The statements of [open] on the file, in order; [ans i] is the engine's
    answer to the [i]-th.  [None] for the result is [return false]; what was
    done before it stays done. *)
Definition open_tables (ans : nat → bool) (d : Db) : bool * Db :=
  if negb (ans 0) then (false, d) else
  let d := create_table "history" history_cols d in
  if negb (ans 1) then (false, d) else
  let d := create_table "sessions" sessions_cols d in
  if negb (ans 2) then (false, d) else
  let d := create_table "outbox" outbox_cols d in
  let d := migrate (ans 3) (ans 4) "outbox" "identity" d in
  let d := migrate (ans 5) (ans 6) "outbox" "mid" d in
  if negb (ans 7) then (false, d) else
  let d := create_table "received_files" received_cols d in
  if negb (ans 8) then (false, d) else
  let d := create_table "reactions" reactions_cols d in
  if negb (ans 9) then (false, d) else
  let d := create_table "verification" verification_cols d in
  (true, later_columns ans d).

(** [opened] is the answer of [m_db.open()]. *)
Definition open (baseDir localUser : string) (opened : bool) (ans : nat → bool) (s : Store)
    : bool * Store :=
  let s := closeIfOpen s in
  let conn := "local_history_" +:+ sanitise localUser in
  let path := dbPath baseDir localUser in
  if negb opened then (false, mkStore (disk s) None conn false) else
  let '(ok, d) := open_tables ans (default empty_db (disk s !! path)) in
  (ok, mkStore (<[path := d]> (disk s)) (Some path) conn ok).
End Open.

(** ** Conversation rows *)
Definition text_row (peer sender nonceHex ctHex : string) (ts : Z) (mine : bool) (msgId : string)
    : HistoryRow :=
  mkRow peer KText sender ts mine nonceHex ctHex
    (if String.eqb msgId "" then None else Some msgId) "" "" 0 "" "" false false.

Definition append_history (r : HistoryRow) (d : Db) : Db := set_history (history d ++ [r]) d.

Definition addTextRow (ok : bool) (peer sender nonceHex ctHex : string) (ts : Z) (mine : bool)
    (msgId : string) (s : Store) : bool * Store :=
  if negb (m_ready s) then (false, s) else
  exec ok "history" ["peer"; "kind"; "sender"; "ts"; "mine"; "nonce_hex"; "ct_hex"; "msg_id"]
    (append_history (text_row peer sender nonceHex ctHex ts mine msgId)) s.

Definition addFileRow (ok : bool) (peer sender msgId filename mime : string) (size : Z)
    (localPath : string) (ts : Z) (mine : bool) (s : Store) : bool * Store :=
  if negb (m_ready s) then (false, s) else
  exec ok "history"
    ["peer"; "kind"; "sender"; "ts"; "mine"; "msg_id"; "filename"; "mime"; "size"; "localpath"]
    (append_history
       (mkRow peer KFile sender ts mine "" "" (Some msgId) filename mime size localPath ""
          false false)) s.

Definition kSystemDedupWindowMs : Z := 5000.

Definition of_peer (peer : string) (rows : list HistoryRow) : list HistoryRow :=
  filter (λ r, h_peer r = peer) rows.

Definition is_system (text : string) (r : HistoryRow) : bool :=
  bool_decide (h_kind r = KSystem) && String.eqb (h_systext r) text.

(** Guard A: the peer's newest row is this very line. *)
Definition repeats_last (peer text : string) (rows : list HistoryRow) : bool :=
  match last (of_peer peer rows) with
  | None => false
  | Some r => is_system text r
  end.

(** Guard B: the newest identical line lies within the window. *)
Definition within_window (peer text : string) (ts : Z) (rows : list HistoryRow) : bool :=
  match last (filter (λ r, Is_true (is_system text r)) (of_peer peer rows)) with
  | None => false
  | Some r => (0 <=? ts - h_ts r)%Z && (ts - h_ts r <? kSystemDedupWindowMs)%Z
  end.

Definition system_row (peer text : string) (ts : Z) : HistoryRow :=
  mkRow peer KSystem "" ts false "" "" None "" "" 0 "" text false false.

(** [okA] and [okB] are the answers to the two guards' queries. *)
Definition addSystemRow (okA okB ok : bool) (peer text : string) (ts : Z) (s : Store)
    : bool * Store :=
  if negb (m_ready s) then (false, s) else
  let rows := history (the_db s) in
  if query okA "history" ["peer"; "kind"; "systext"; "id"] s && repeats_last peer text rows
  then (true, s) else
  if query okB "history" ["peer"; "kind"; "systext"; "ts"; "id"] s
     && within_window peer text ts rows
  then (true, s) else
  exec ok "history" ["peer"; "kind"; "sender"; "ts"; "mine"; "systext"]
    (append_history (system_row peer text ts)) s.

Definition has_id (msgId : string) (r : HistoryRow) : bool :=
  bool_decide (h_msg_id r = Some msgId).

Definition set_deleted (r : HistoryRow) : HistoryRow :=
  mkRow (h_peer r) (h_kind r) (h_sender r) (h_ts r) (h_mine r) (h_nonce r) (h_ct r) (h_msg_id r)
    (h_filename r) (h_mime r) (h_size r) (h_localpath r) (h_systext r) true (h_edited r).

Definition markDeleted (ok : bool) (msgId : string) (s : Store) : bool * Store :=
  if negb (m_ready s) || String.eqb msgId "" then (false, s) else
  exec ok "history" ["deleted"; "msg_id"]
    (λ d, set_history ((λ r, if has_id msgId r then set_deleted r else r) <$> history d) d) s.

Definition editable (msgId : string) (r : HistoryRow) : bool :=
  has_id msgId r && bool_decide (h_kind r = KText) && negb (h_deleted r).

Definition set_body (nonceHex ctHex : string) (r : HistoryRow) : HistoryRow :=
  mkRow (h_peer r) (h_kind r) (h_sender r) (h_ts r) (h_mine r) nonceHex ctHex (h_msg_id r)
    (h_filename r) (h_mime r) (h_size r) (h_localpath r) (h_systext r) (h_deleted r) true.

(** The answer is [numRowsAffected() > 0]. *)
Definition updateTextRow (ok : bool) (msgId nonceHex ctHex : string) (s : Store) : bool * Store :=
  if negb (m_ready s) || String.eqb msgId "" then (false, s) else
  let '(ran, s') :=
    exec ok "history" ["nonce_hex"; "ct_hex"; "edited"; "msg_id"; "kind"; "deleted"]
      (λ d, set_history
              ((λ r, if editable msgId r then set_body nonceHex ctHex r else r) <$> history d) d) s in
  if negb ran then (false, s') else
  (existsb (editable msgId) (history (the_db s)), s').

(** ** Reactions: the primary key is (msg_id, who), the value (peer, kind) *)
Definition setReaction (ok : bool) (peer mid who kind : string) (s : Store) : bool * Store :=
  if negb (m_ready s) || String.eqb mid "" || String.eqb who "" then (false, s) else
  if String.eqb kind "" then
    exec ok "reactions" ["msg_id"; "who"]
      (λ d, set_reactions (delete (mid, who) (reactions d)) d) s
  else
    exec ok "reactions" ["msg_id"; "who"; "peer"; "kind"]
      (λ d, set_reactions (<[(mid, who) := (peer, kind)]> (reactions d)) d) s.

Record ReactionRow := mkReaction { r_mid : string; r_who : string; r_kind : string }.

Definition reactionsForPeer `{SqlOrder} (ok : bool) (peer : string) (s : Store)
    : list ReactionRow :=
  if negb (m_ready s) then [] else
  if negb (query ok "reactions" ["msg_id"; "who"; "kind"; "peer"] s) then [] else
  (λ kv, mkReaction kv.1.1 kv.1.2 kv.2.2) <$>
    filter (λ kv, kv.2.1 = peer) (sql_scan (reactions (the_db s))).

(** ** Reading a conversation back *)
Record StoredRow := mkStored {
  sr_peer : string;
  sr_sender : string;
  sr_ts : Z;
  sr_mine : bool;
  sr_system : bool;
  sr_nonceHex : string;
  sr_ctHex : string;
  sr_isFile : bool;
  sr_msgId : string;
  sr_filename : string;
  sr_mime : string;
  sr_size : Z;
  sr_localPath : string;
  sr_systemText : string;
  sr_mid : string;
  sr_deleted : bool;
  sr_edited : bool;
}.

Definition read_row (peer : string) (r : HistoryRow) : StoredRow :=
  let id := default "" (h_msg_id r) in
  match h_kind r with
  | KText => mkStored peer (h_sender r) (h_ts r) (h_mine r) false (h_nonce r) (h_ct r) false ""
               "" "" 0 "" "" id (h_deleted r) (h_edited r)
  | KFile => mkStored peer (h_sender r) (h_ts r) (h_mine r) false "" "" true id (h_filename r)
               (h_mime r) (h_size r) (h_localpath r) "" id (h_deleted r) (h_edited r)
  | KSystem => mkStored peer (h_sender r) (h_ts r) (h_mine r) true "" "" false "" "" "" 0 ""
                 (h_systext r) "" (h_deleted r) (h_edited r)
  end.

(** [LIMIT ?]: a negative limit is no limit. *)
Definition sql_limit {A} (limit : Z) (l : list A) : list A :=
  if (limit <? 0)%Z then l else take (Z.to_nat limit) l.

Definition rowsForPeer (ok : bool) (peer : string) (limit : Z) (s : Store) : list StoredRow :=
  if negb (m_ready s) then [] else
  if negb (query ok "history" (history_cols ++ ["deleted"; "edited"]) s) then [] else
  read_row peer <$> sql_limit limit (of_peer peer (history (the_db s))).

(** The default of the header. *)
Definition kRowLimit : Z := 500.

(** ** Ratchet sessions *)

(** The column [blob] is NOT NULL.  The empty list is the null array that
    [exportSession] returns when there is no session: it is bound as NULL, and the
    statement fails. *)
Definition saveSession (ok : bool) (peer : string) (blob : bytes) (peerIdentityHex : string)
    (sentSinceRatchet now : Z) (s : Store) : bool * Store :=
  if negb (m_ready s) then (false, s) else
  if decide (blob = []) then (false, s) else
  exec ok "sessions" sessions_cols
    (λ d, set_sessions
            (<[peer := mkSessionRow blob peerIdentityHex now sentSinceRatchet]> (sessions d)) d) s.

Definition load_session_row (ok : bool) (col peer : string) (s : Store) : option SessionRow :=
  if negb (m_ready s) || negb (query ok "sessions" [col; "peer"] s) then None
  else sessions (the_db s) !! peer.

Definition loadSentSince (ok : bool) (peer : string) (s : Store) : Z :=
  match load_session_row ok "sent_since" peer s with None => 0 | Some r => s_sent_since r end.

Definition loadSession (ok : bool) (peer : string) (s : Store) : bytes :=
  match load_session_row ok "blob" peer s with None => [] | Some r => s_blob r end.

Definition loadPeerIdentity (ok : bool) (peer : string) (s : Store) : string :=
  match load_session_row ok "peer_id" peer s with None => "" | Some r => s_peer_id r end.

Definition sessionPeers `{SqlOrder} (ok : bool) (s : Store) : list string :=
  if negb (m_ready s) || negb (query ok "sessions" ["peer"] s) then []
  else (sql_scan (sessions (the_db s))).*1.

Definition clearSession (ok : bool) (peer : string) (s : Store) : bool * Store :=
  if negb (m_ready s) then (false, s) else
  exec ok "sessions" ["peer"] (λ d, set_sessions (delete peer (sessions d)) d) s.

(** ** The outbox: ids are AUTOINCREMENT, never reused *)
Definition push_outbox (kind : OutKind) (peer body srcPath identity : string)
    (mid : option string) (ts : Z) (d : Db) : Db :=
  set_outbox (outbox d ++ [mkOut (next_outbox d) kind peer body srcPath identity mid ts])
    (next_outbox d + 1) d.

(** The answer is [lastInsertId()], or -1. *)
Definition enqueue (ok : bool) (cols : list string) (f : Db → Db) (s : Store) : Z * Store :=
  if negb (m_ready s) then (-1, s)%Z else
  let '(ran, s') := exec ok "outbox" cols f s in
  if ran then (next_outbox (the_db s), s') else ((-1)%Z, s').

Definition enqueueOutboxText (ok : bool) (peer sealedBody : string) (ts : Z)
    (identityHex mid : string) (s : Store) : Z * Store :=
  enqueue ok ["kind"; "peer"; "body"; "srcpath"; "identity"; "mid"; "ts"]
    (push_outbox OText peer sealedBody "" identityHex
       (if String.eqb mid "" then None else Some mid) ts) s.

Definition enqueueOutboxFile (ok : bool) (peer srcPath : string) (ts : Z) (identityHex : string)
    (s : Store) : Z * Store :=
  enqueue ok ["kind"; "peer"; "body"; "srcpath"; "identity"; "ts"]
    (push_outbox OFile peer "" srcPath identityHex None ts) s.

Definition enqueueOutboxHandshake (ok : bool) (peer : string) (ts : Z) (identityHex : string)
    (s : Store) : Z * Store :=
  enqueue ok ["kind"; "peer"; "body"; "srcpath"; "identity"; "ts"]
    (push_outbox OHandshake peer "" "" identityHex None ts) s.

Definition enqueueOutboxVerifyAck (ok : bool) (peer : string) (ts : Z)
    (identityHex verifiedPeerIdentityHex : string) (s : Store) : Z * Store :=
  enqueue ok ["kind"; "peer"; "body"; "srcpath"; "identity"; "ts"]
    (push_outbox OVerifyAck peer verifiedPeerIdentityHex "" identityHex None ts) s.

(** [ORDER BY id ASC]: the list is in id order. *)
Definition loadOutbox (ok : bool) (s : Store) : list OutboxRow :=
  if negb (m_ready s) || negb (query ok "outbox" outbox_cols s) then []
  else outbox (the_db s).

Definition deleteOutboxRow (ok : bool) (id : Z) (s : Store) : bool * Store :=
  if negb (m_ready s) then (false, s) else
  exec ok "outbox" ["id"]
    (λ d, set_outbox (filter (λ r, o_id r ≠ id) (outbox d)) (next_outbox d) d) s.

Definition purgeOutbox (ok : bool) (s : Store) : Store :=
  if negb (m_ready s) then s else
  (exec ok "outbox" [] (λ d, set_outbox [] (next_outbox d) d) s).2.

(** ** Received files *)
Definition recordReceivedFile (ok : bool) (msgId peer : string) (ts : Z) (s : Store) : Store :=
  if negb (m_ready s) || String.eqb msgId "" then s else
  (exec ok "received_files" ["msg_id"; "peer"; "ts"]
     (λ d, match received_files d !! msgId with
           | Some _ => d
           | None => set_received (<[msgId := (peer, ts)]> (received_files d)) d
           end) s).2.

Definition receivedFileIds `{SqlOrder} (ok : bool) (s : Store) : list string :=
  if negb (m_ready s) || negb (query ok "received_files" ["msg_id"] s) then []
  else (sql_scan (received_files (the_db s))).*1.

(** ** Bilateral verification: two facts per peer, written independently *)
Definition upsert (peer : string) (fresh : VerificationRow)
    (upd : VerificationRow → VerificationRow) (d : Db) : Db :=
  set_verification
    (<[peer := match verification d !! peer with Some r => upd r | None => fresh end]>
       (verification d)) d.

Definition recordVerifiedPeerIdentity (ok : bool) (peer peerIdentityHex : string) (ts : Z)
    (s : Store) : bool * Store :=
  if negb (m_ready s) || String.eqb peer "" || String.eqb peerIdentityHex "" then (false, s) else
  exec ok "verification" verification_cols
    (upsert peer (mkVerif peerIdentityHex "" ts)
       (λ r, mkVerif peerIdentityHex (v_my_identity r) ts)) s.

Definition recordPeerAttestedMyIdentity (ok : bool) (peer myIdentityHex : string) (ts : Z)
    (s : Store) : bool * Store :=
  if negb (m_ready s) || String.eqb peer "" || String.eqb myIdentityHex "" then (false, s) else
  exec ok "verification" verification_cols
    (upsert peer (mkVerif "" myIdentityHex ts)
       (λ r, mkVerif (v_peer_identity r) myIdentityHex ts)) s.

Definition loadVerifiedPeerIdentities (ok : bool) (s : Store) : gmap string string :=
  if negb (m_ready s) || negb (query ok "verification" ["peer"; "peer_identity"] s) then ∅
  else filter (λ kv, kv.2 ≠ "") (v_peer_identity <$> verification (the_db s)).

Definition loadPeerAttestations (ok : bool) (s : Store) : gmap string string :=
  if negb (m_ready s) || negb (query ok "verification" ["peer"; "my_identity"] s) then ∅
  else filter (λ kv, kv.2 ≠ "") (v_my_identity <$> verification (the_db s)).

Definition clearVerification (ok : bool) (peer : string) (s : Store) : bool * Store :=
  if negb (m_ready s) || String.eqb peer "" then (false, s) else
  exec ok "verification" ["peer"]
    (λ d, set_verification (delete peer (verification d)) d) s.

(** ** Prekeys: the table is created on first use ([okC]) *)
Definition create_prekeys (okC : bool) (s : Store) : Store :=
  if okC then put_db (create_table "prekeys" prekeys_cols (the_db s)) s else s.

Definition savePrekeys (okC ok : bool) (blob : bytes) (s : Store) : bool * Store :=
  if negb (m_ready s) then (false, s) else
  exec ok "prekeys" prekeys_cols (set_prekeys (Some blob)) (create_prekeys okC s).

Definition loadPrekeys (okC ok : bool) (s : Store) : bytes * Store :=
  if negb (m_ready s) then ([], s) else
  let s' := create_prekeys okC s in
  (if query ok "prekeys" ["blob"; "id"] s' then default [] (prekeys (the_db s')) else [], s').

Definition close (s : Store) : Store := closeIfOpen s.

End HistoryStore.
