(* ===== verification/HistoryFacts.v ===== *)
(** * HistoryStore: schema upgrades, and what the tables promise *)

From Stdlib Require Import Strings.Ascii.
From S2P Require Import Prelude Platform HistoryStore.
Import HistoryStore.

(** ** Opening a file *)

(** The columns a table has after a successful [open] by this build. *)
Definition full_cols (table : string) : list string :=
  if String.eqb table "history" then history_cols ++ ["deleted"; "edited"]
  else if String.eqb table "sessions" then sessions_cols
  else if String.eqb table "outbox" then outbox_cols
  else if String.eqb table "received_files" then received_cols
  else if String.eqb table "reactions" then reactions_cols
  else verification_cols.

(** The columns of the oldest build that had the table. *)
Definition oldest_cols (table : string) : list string :=
  if String.eqb table "history" then history_cols
  else if String.eqb table "sessions" then ["peer"; "blob"; "updated"]
  else if String.eqb table "outbox" then ["id"; "kind"; "peer"; "body"; "srcpath"; "ts"]
  else full_cols table.

Definition tables : list string :=
  ["history"; "sessions"; "outbox"; "received_files"; "reactions"; "verification"].

(** A file written by some earlier build: each table is absent or has at least
    the columns it was first created with. *)
Definition older (d : Db) : Prop :=
  ∀ t, t ∈ tables → ∀ have, schema d !! t = Some have → Forall (λ c, c ∈ have) (oldest_cols t).

Definition complete (d : Db) : Prop :=
  ∀ t, t ∈ tables → has_cols t (full_cols t) d = true.

(** Everything but the schema. *)
Definition same_data (d d' : Db) : Prop := d' = set_schema (schema d') d.

Lemma same_data_refl d : same_data d d.
Proof. by destruct d. Qed.

Lemma same_data_trans d1 d2 d3 : same_data d1 d2 → same_data d2 d3 → same_data d1 d3.
Proof. unfold same_data. intros -> ->. done. Qed.

(** Schemas only grow. *)
Record grows (d d' : Db) : Prop := {
  grow_data : same_data d d';
  grow_cols : ∀ t have, schema d !! t = Some have →
    ∃ have', schema d' !! t = Some have' ∧ have ⊆ have';
}.

Lemma grows_refl d : grows d d.
Proof. split; [apply same_data_refl|]. intros t have Ht. exists have. done. Qed.

Lemma grows_trans d1 d2 d3 : grows d1 d2 → grows d2 d3 → grows d1 d3.
Proof.
  intros [S1 C1] [S2 C2]. split; [by eapply same_data_trans|].
  intros t have Ht. destruct (C1 t have Ht) as (h2 & E2 & Hs2).
  destruct (C2 t h2 E2) as (h3 & E3 & Hs3). exists h3. split; [done|]. by etrans.
Qed.

Lemma has_cols_grows t cols d d' : grows d d' → has_cols t cols d = true → has_cols t cols d' = true.
Proof.
  intros [_ Hc]. unfold has_cols. destruct (schema d !! t) as [have|] eqn:E; [|done].
  destruct (Hc t have E) as (have' & -> & Hs). rewrite !bool_decide_eq_true.
  intros Hh. eapply Forall_impl; [exact Hh|]. auto.
Qed.

Lemma has_cols_app t c1 c2 d :
  has_cols t (c1 ++ c2) d = has_cols t c1 d && has_cols t c2 d.
Proof.
  unfold has_cols. destruct (schema d !! t) as [have|]; [|done].
  rewrite <- bool_decide_and. apply bool_decide_ext. apply Forall_app.
Qed.

Lemma has_cols_sub t c1 c2 d :
  c1 ⊆ c2 → has_cols t c2 d = true → has_cols t c1 d = true.
Proof.
  unfold has_cols. destruct (schema d !! t) as [have|]; [|done].
  rewrite !bool_decide_eq_true, !Forall_forall. intros Hs Hh x Hx. by apply Hh, Hs.
Qed.

Lemma create_table_grows t cols d : grows d (create_table t cols d).
Proof.
  unfold create_table. destruct (schema d !! t) as [have|] eqn:E; [apply grows_refl|].
  split; [by destruct d|]. intros t' have' Ht. exists have'. split; [|done]. cbn.
  rewrite lookup_insert_ne; [done|]. congruence.
Qed.

(** A table is there after its creation, with at least the columns it had or is
    created with. *)
Lemma create_table_has t cols base d :
  base ⊆ cols → (∀ have, schema d !! t = Some have → Forall (λ c, c ∈ have) base) →
  has_cols t base (create_table t cols d) = true.
Proof.
  intros Hb Ho. unfold has_cols, create_table. destruct (schema d !! t) as [have|] eqn:E.
  - rewrite E. apply bool_decide_eq_true. by apply Ho.
  - cbn. rewrite lookup_insert_eq. apply bool_decide_eq_true, Forall_forall. auto.
Qed.

Lemma add_column_grows t c d : grows d (add_column t c d).
Proof.
  unfold add_column. destruct (schema d !! t) as [have|] eqn:E; [|apply grows_refl].
  case_decide; [apply grows_refl|]. split; [by destruct d|]. cbn. intros t' have' Ht.
  destruct (decide (t = t')) as [->|Hne].
  - rewrite E in Ht. injection Ht as <-. rewrite lookup_insert_eq. eexists. split; [done|].
    intros x Hx. apply elem_of_app. by left.
  - rewrite lookup_insert_ne by done. by exists have'.
Qed.

Lemma migrate_grows p a t c d : grows d (migrate p a t c d).
Proof.
  unfold migrate. destruct (p && _); [apply grows_refl|].
  destruct a; [apply add_column_grows|apply grows_refl].
Qed.

Lemma migrate_has t c base d :
  has_cols t base d = true → has_cols t (base ++ [c]) (migrate true true t c d) = true.
Proof.
  intros Hb. rewrite has_cols_app.
  rewrite (has_cols_grows t base d) by (auto using migrate_grows). cbn [andb].
  unfold migrate. cbn [andb]. destruct (has_cols t [c] d) eqn:Hc; [done|].
  unfold add_column, has_cols in *. destruct (schema d !! t) as [have|] eqn:E; [|done].
  case_decide as Hin.
  - rewrite E. apply bool_decide_eq_true. by repeat constructor.
  - cbn. rewrite lookup_insert_eq. apply bool_decide_eq_true.
    repeat constructor. apply elem_of_app. right. by left.
Qed.

Ltac grow_on :=
  repeat first
    [ apply create_table_grows | apply migrate_grows | apply grows_refl
    | eapply grows_trans; [|apply create_table_grows]
    | eapply grows_trans; [|apply migrate_grows] ].

(** Whatever the answers, [open] never loses a row or a column. *)
Lemma open_tables_grows ans d : grows d (open_tables ans d).2.
Proof. unfold open_tables, later_columns. repeat (case_match; [grow_on|]). cbn [snd]. grow_on. Qed.

Lemma older_create t cols d :
  t ∈ tables → oldest_cols t ⊆ cols → older d → older (create_table t cols d).
Proof.
  intros Ht Hb Ho t' Ht' have. unfold create_table. destruct (schema d !! t) as [h|] eqn:E.
  { by apply Ho. }
  cbn. destruct (decide (t = t')) as [->|Hne].
  - rewrite lookup_insert_eq. intros [= <-]. apply Forall_forall. auto.
  - rewrite lookup_insert_ne by done. by apply Ho.
Qed.

Lemma older_grows_cols t base d :
  older d → t ∈ tables → oldest_cols t = base →
  ∀ have, schema d !! t = Some have → Forall (λ c, c ∈ have) base.
Proof. intros Ho Ht <-. by apply Ho. Qed.

Lemma older_migrate p a t c d : older d → older (migrate p a t c d).
Proof.
  intros Ho t' Ht' have He. unfold migrate in He.
  destruct (p && _); [by apply (Ho t')|]. destruct a; [|by apply (Ho t')].
  unfold add_column in He. destruct (schema d !! t) as [h|] eqn:E; [|by apply (Ho t')].
  case_decide; [by apply (Ho t')|]. cbn in He. destruct (decide (t = t')) as [->|Hne].
  - rewrite lookup_insert_eq in He. injection He as <-.
    eapply Forall_impl; [by apply (Ho t' Ht' h)|]. intros x Hx. apply elem_of_app. by left.
  - rewrite lookup_insert_ne in He by done. by apply (Ho t').
Qed.

(** The three kinds of table: created in full, or created and migrated once or
    twice. *)
Lemma created_has t cols d :
  t ∈ tables → oldest_cols t ⊆ cols → older d →
  has_cols t (oldest_cols t) (create_table t cols d) = true.
Proof. intros Ht Hb Ho. apply create_table_has; [done|]. by apply Ho. Qed.

Ltac in_tables := apply (bool_decide_unpack _); vm_compute; exact I.
Ltac sub_cols := apply (bool_decide_unpack _); vm_compute; exact I.

(** The statements of [open], all answered. *)
Lemma tables_upgraded ans d :
  (∀ i, ans i = true) → older d →
  (open_tables ans d).1 = true ∧ complete (open_tables ans d).2 ∧
  same_data d (open_tables ans d).2.
Proof.
  intros Hans Ho. split_and!; [| |apply (grow_data _ _ (open_tables_grows ans d))].
  { unfold open_tables. by rewrite !Hans. }
  unfold open_tables, later_columns. rewrite !Hans. cbn [negb snd].
  set (d1 := create_table "history" _ d). set (d2 := create_table "sessions" _ d1).
  set (d3 := create_table "outbox" _ d2). set (d4 := migrate _ _ "outbox" "identity" d3).
  set (d5 := migrate _ _ "outbox" "mid" d4). set (d6 := create_table "received_files" _ d5).
  set (d7 := create_table "reactions" _ d6). set (d8 := create_table "verification" _ d7).
  set (d9 := migrate _ _ "sessions" "peer_id" d8).
  set (d10 := migrate _ _ "sessions" "sent_since" d9).
  set (d11 := migrate _ _ "history" "deleted" d10).
  set (d12 := migrate _ _ "history" "edited" d11).
  assert (O1 : older d1) by (apply older_create; [in_tables|sub_cols|done]).
  assert (O2 : older d2) by (apply older_create; [in_tables|sub_cols|done]).
  assert (O5 : older d5).
  { apply older_migrate, older_migrate, older_create; [in_tables|sub_cols|done]. }
  assert (O6 : older d6) by (apply older_create; [in_tables|sub_cols|done]).
  assert (O7 : older d7) by (apply older_create; [in_tables|sub_cols|done]).
  assert (Hh : has_cols "history" history_cols d10 = true).
  { apply (has_cols_grows "history" history_cols d1); [subst d2 d3 d4 d5 d6 d7 d8 d9 d10; grow_on|].
    apply (created_has "history"); [in_tables|sub_cols|done]. }
  assert (Hs : has_cols "sessions" ["peer"; "blob"; "updated"] d8 = true).
  { apply (has_cols_grows "sessions" _ d2); [subst d3 d4 d5 d6 d7 d8; grow_on|].
    apply (created_has "sessions"); [in_tables|sub_cols|done]. }
  assert (Hout : has_cols "outbox" (oldest_cols "outbox") d3 = true).
  { apply (created_has "outbox"); [in_tables|sub_cols|done]. }
  intros t Ht. unfold tables in Ht. rewrite !elem_of_cons in Ht.
  destruct Ht as [->|[->|[->|[->|[->|[->|Ht]]]]]]; [..|by apply not_elem_of_nil in Ht].
  - eapply has_cols_sub; [|apply migrate_has, migrate_has, Hh]. sub_cols.
  - apply (has_cols_grows _ _ d10); [subst d11 d12; grow_on|].
    eapply has_cols_sub; [|apply migrate_has, migrate_has, Hs]. sub_cols.
  - apply (has_cols_grows _ _ d5); [subst d6 d7 d8 d9 d10 d11 d12; grow_on|].
    eapply has_cols_sub; [|apply migrate_has, migrate_has, Hout]. sub_cols.
  - apply (has_cols_grows _ _ d6); [subst d7 d8 d9 d10 d11 d12; grow_on|].
    apply (created_has "received_files"); [in_tables|sub_cols|done].
  - apply (has_cols_grows _ _ d7); [subst d8 d9 d10 d11 d12; grow_on|].
    apply (created_has "reactions"); [in_tables|sub_cols|done].
  - apply (has_cols_grows _ _ d8); [subst d9 d10 d11 d12; grow_on|].
    apply (created_has "verification"); [in_tables|sub_cols|done].
Qed.

(** ** A store that works: open, ready, complete *)
Record working (s : Store) : Prop := {
  wk_ready : m_ready s = true;
  wk_open : ∃ p, m_db s = Some p ∧ is_Some (disk s !! p);
  wk_complete : complete (the_db s);
}.

Lemma the_db_put s d : (∃ p, m_db s = Some p) → the_db (put_db d s) = d.
Proof.
  intros [p E]. unfold the_db, put_db. rewrite E. cbn. by rewrite lookup_insert_eq.
Qed.

Lemma put_ready d s : m_ready (put_db d s) = m_ready s.
Proof. unfold put_db. by destruct (m_db s). Qed.

Lemma put_open d s : m_db (put_db d s) = m_db s.
Proof. unfold put_db. by destruct (m_db s) eqn:E. Qed.

Lemma working_put s d : working s → schema d = schema (the_db s) → working (put_db d s).
Proof.
  intros [Hr (p & E & Hp) Hc] Hs. split.
  - unfold put_db. by rewrite E.
  - exists p. unfold put_db. rewrite E. cbn. rewrite lookup_insert_eq. eauto.
  - rewrite the_db_put by eauto. unfold complete, has_cols in *. by rewrite Hs.
Qed.

Lemma working_cols t cols s :
  working s → t ∈ tables → cols ⊆ full_cols t → has_cols t cols (the_db s) = true.
Proof. intros Hw Ht Hs. eapply has_cols_sub; [exact Hs|]. by apply (wk_complete _ Hw). Qed.

(** A write on a working store: refused by the engine, or done. *)
Lemma exec_working ok t cols f s :
  working s → t ∈ tables → cols ⊆ full_cols t →
  exec ok t cols f s = if ok then (true, put_db (f (the_db s)) s) else (false, s).
Proof.
  intros Hw Ht Hs. unfold exec. rewrite (working_cols t cols s Hw Ht Hs). by destruct ok.
Qed.

Lemma query_working ok t cols s :
  working s → t ∈ tables → cols ⊆ full_cols t → query ok t cols s = ok.
Proof.
  intros Hw Ht Hs. unfold query. rewrite (working_cols t cols s Hw Ht Hs). by destruct ok.
Qed.

Lemma working_the_db s : working s → ∃ p, m_db s = Some p.
Proof. intros [_ (p & E & _) _]. by exists p. Qed.

Section Restart.
Context `{QCharClass}.

Lemma open_older base user ans s :
  (∀ i, ans i = true) → older (default empty_db (disk s !! dbPath base user)) →
  let '(ok, s') := open base user true ans s in
  ok = true ∧ working s' ∧
  same_data (default empty_db (disk s !! dbPath base user)) (the_db s').
Proof.
  intros Hans Hold. unfold open. cbn [negb disk closeIfOpen].
  destruct (tables_upgraded ans _ Hans Hold) as (E1 & E2 & E3).
  destruct (open_tables ans _) as [ok d']. cbn [fst snd] in *. subst ok. split; [done|].
  set (s' := mkStore _ _ _ _).
  assert (Hdb : the_db s' = d') by (unfold s', the_db; cbn; by rewrite lookup_insert_eq).
  rewrite Hdb. split; [|done]. split; [done| |by rewrite Hdb].
  exists (dbPath base user). cbn. rewrite lookup_insert_eq. eauto.
Qed.

Lemma complete_older d : complete d → older d.
Proof.
  intros Hc t Ht have Ehave. specialize (Hc t Ht). unfold has_cols in Hc. rewrite Ehave in Hc.
  apply bool_decide_eq_true in Hc. rewrite Forall_forall in *. intros c Hc'. apply Hc.
  revert Hc'. unfold tables in Ht. rewrite !elem_of_cons in Ht.
  destruct Ht as [->|[->|[->|[->|[->|[->|Ht]]]]]]; [..|by apply not_elem_of_nil in Ht].
  all: revert c; match goal with |- ∀ c, c ∈ ?a → c ∈ ?b => change (a ⊆ b) end; sub_cols.
Qed.

(** Closing and opening again as the same user finds the same database. *)
Lemma reopen_working base user ans s :
  working s → m_db s = Some (dbPath base user) → (∀ i, ans i = true) →
  let '(ok, s') := open base user true ans (close s) in
  ok = true ∧ working s' ∧ same_data (the_db s) (the_db s').
Proof.
  intros Hw Hp Hans. assert (Edb : the_db s = default empty_db (disk s !! dbPath base user))
    by (unfold the_db; by rewrite Hp).
  rewrite Edb. change (disk s) with (disk (close s)). apply open_older; [done|].
  cbn [disk close closeIfOpen]. rewrite <- Edb. apply complete_older, Hw.
Qed.

(** databases of every earlier build are upgraded. If the engine answers
    every statement, opening a user's file whose tables are missing or lack the
    columns that later builds added succeeds, loses no row, and leaves every table
    with every column the operations use. *)
Theorem open_upgrades base user ans s :
  (∀ i, ans i = true) → older (default empty_db (disk s !! dbPath base user)) →
  let '(ok, s') := open base user true ans s in
  ok = true ∧ working s' ∧
  same_data (default empty_db (disk s !! dbPath base user)) (the_db s').
Proof. apply open_older. Qed.

(** two nicknames can share one file. A character that is neither a letter,
    a digit, '_' nor '-' is replaced by '_', so a nickname that has it and the
    nickname that has '_' in its place open the same database. *)
Theorem nicknames_collide base (a b : string) c :
  isLetterOrNumber c = false → c ≠ "_"%char → c ≠ "-"%char →
  let with_c := a +:+ String c "" +:+ b in
  let with_underscore := a +:+ String "_" "" +:+ b in
  with_c ≠ with_underscore ∧
  dbPath base with_c = dbPath base with_underscore.
Proof.
  intros Hc Hne Hd. cbv zeta. split.
  - intros E. apply (f_equal String.list_ascii_of_string) in E.
    rewrite !list_ascii_app in E. apply app_inv_head in E. cbn in E. congruence.
  - unfold dbPath, sanitise. do 2 f_equal.
    rewrite !list_ascii_app, !fmap_app. cbn [String.list_ascii_of_string fmap list_fmap].
    assert (safe_char c = "_"%char) as ->.
    { unfold safe_char. rewrite Hc. rewrite (proj2 (Ascii.eqb_neq c "_")) by done.
      by rewrite (proj2 (Ascii.eqb_neq c "-")). }
    assert (safe_char "_" = "_"%char) as ->.
    { unfold safe_char. by destruct (isLetterOrNumber "_"). }
    done.
Qed.
End Restart.

(** ** System notes *)

Lemma put_db_history rows s :
  working s → history (the_db (put_db (set_history rows (the_db s)) s)) = rows.
Proof. intros Hw. by rewrite the_db_put by (by apply working_the_db). Qed.

Lemma addSystemRow_working peer text ts s :
  working s →
  addSystemRow true true true peer text ts s
  = if repeats_last peer text (history (the_db s)) then (true, s)
    else if within_window peer text ts (history (the_db s)) then (true, s)
    else (true, put_db (append_history (system_row peer text ts) (the_db s)) s).
Proof.
  intros Hw. unfold addSystemRow. rewrite (wk_ready _ Hw). cbn [negb].
  rewrite !(query_working _ "history") by (done || in_tables || sub_cols).
  rewrite (exec_working _ "history") by (done || in_tables || sub_cols). done.
Qed.

Lemma of_peer_snoc peer rows r :
  of_peer peer (rows ++ [r])
  = of_peer peer rows ++ (if decide (h_peer r = peer) then [r] else []).
Proof. unfold of_peer. by rewrite filter_app, filter_cons, filter_nil. Qed.

Lemma is_system_row peer text ts : is_system text (system_row peer text ts) = true.
Proof. unfold is_system. cbn. by rewrite String.eqb_refl. Qed.

(** Run the same note [n] times, at the times given. *)
Fixpoint storm (peer text : string) (times : list Z) (s : Store) : Store :=
  match times with
  | [] => s
  | t :: rest => storm peer text rest (addSystemRow true true true peer text t s).2
  end.

Lemma storm_idle peer text times s :
  working s → repeats_last peer text (history (the_db s)) = true →
  storm peer text times s = s.
Proof.
  intros Hw Hr. induction times as [|t times IH]; [done|]. cbn [storm].
  rewrite addSystemRow_working, Hr by done. apply IH.
Qed.

(** a storm of one note is one row. However often, and at whatever times, the
    same note is logged for a peer with nothing else logged in between, the table
    grows by at most one row, and no other row changes. *)
Theorem storm_collapses peer text times s :
  working s →
  history (the_db (storm peer text times s)) = history (the_db s) ∨
  ∃ t, t ∈ times ∧
    history (the_db (storm peer text times s)) = history (the_db s) ++ [system_row peer text t].
Proof.
  intros Hw. induction times as [|t times IH]; [by left|]. cbn [storm].
  rewrite addSystemRow_working by done.
  destruct (repeats_last _ _ _) eqn:Er.
  { cbn [snd]. rewrite storm_idle by done. by left. }
  destruct (within_window _ _ _ _) eqn:Ew; cbn [snd].
  { destruct IH as [IH|(t' & Ht & IH)]; [by left|right].
    exists t'. split; [by right|done]. }
  right. exists t. split; [by left|]. unfold append_history.
  assert (Hw' : working (put_db (set_history (history (the_db s) ++ [system_row peer text t])
                                  (the_db s)) s)) by (by apply working_put).
  rewrite storm_idle; [by apply put_db_history|done|].
  rewrite put_db_history by done. unfold repeats_last.
  rewrite of_peer_snoc, decide_True by done. rewrite last_snoc. apply is_system_row.
Qed.

(** No note repeats the row before it, and equal notes are never closer than the
    window. *)
Definition calm (rows : list HistoryRow) : Prop :=
  ∀ peer text,
    let lines := filter (λ r, Is_true (is_system text r)) (of_peer peer rows) in
    (∀ i r1 r2, lines !! i = Some r1 → lines !! S i = Some r2 →
       ¬ (0 ≤ h_ts r2 - h_ts r1 < kSystemDedupWindowMs)%Z).

Lemma calm_snoc rows r :
  calm rows →
  (h_kind r = KSystem → within_window (h_peer r) (h_systext r) (h_ts r) rows = false) →
  calm (rows ++ [r]).
Proof.
  intros Hc Hr peer text. cbv zeta. rewrite of_peer_snoc, filter_app.
  set (lines := filter _ (of_peer peer rows)).
  assert (Hnew : filter (λ r0, Is_true (is_system text r0))
                   (if decide (h_peer r = peer) then [r] else []) = []
    ∨ filter (λ r0, Is_true (is_system text r0))
        (if decide (h_peer r = peer) then [r] else []) = [r] ∧
      h_peer r = peer ∧ h_kind r = KSystem ∧ h_systext r = text).
  { case_decide as Hp; [|by left]. rewrite filter_cons, filter_nil. case_decide as Hs; [right|by left].
    unfold is_system in Hs. apply andb_prop_elim in Hs as [Hk Ht].
    apply bool_decide_unpack in Hk. apply Is_true_true, String.eqb_eq in Ht. done. }
  destruct Hnew as [->|(-> & Hp & Hk & Ht)].
  { rewrite app_nil_r. apply (Hc peer text). }
  intros i r1 r2 E1 E2.
  assert (S i ≤ length lines) as Hi.
  { apply lookup_lt_Some in E2. rewrite length_app in E2. cbn in E2. lia. }
  rewrite lookup_app_l in E1 by lia.
  destruct (decide (S i < length lines)) as [Hlt|Hge].
  { rewrite lookup_app_l in E2 by done. by apply (Hc peer text i r1 r2). }
  rewrite lookup_app_r in E2 by lia. replace (S i - length lines) with 0 in E2 by lia.
  injection E2 as <-. specialize (Hr Hk). rewrite Hp, Ht in Hr. unfold within_window in Hr.
  fold lines in Hr. assert (Hl : last lines = Some r1).
  { rewrite last_lookup. by replace (Nat.pred (length lines)) with i by lia. }
  rewrite Hl in Hr. lia.
Qed.

(** Changes that keep what the guards look at. *)
Lemma calm_map f rows :
  (∀ r, h_peer (f r) = h_peer r ∧ h_kind (f r) = h_kind r ∧ h_systext (f r) = h_systext r ∧
        h_ts (f r) = h_ts r) →
  calm rows → calm (f <$> rows).
Proof.
  intros Hf Hc peer text. cbv zeta.
  assert (E : filter (λ r, Is_true (is_system text r)) (of_peer peer (f <$> rows))
            = f <$> filter (λ r, Is_true (is_system text r)) (of_peer peer rows)).
  { unfold of_peer. induction rows as [|r rows IH]; [done|].
    cbn [fmap list_fmap]. rewrite !(filter_cons (λ r, h_peer r = peer)).
    destruct (Hf r) as (Hp & Hk & Ht & _). rewrite Hp.
    assert (Hc' : calm rows).
    { clear -Hc. intros p t. specialize (Hc p t). unfold of_peer in *.
      rewrite (filter_cons (λ r, h_peer r = p)) in Hc. case_decide; [|done].
      rewrite (filter_cons (λ r, Is_true (is_system t r))) in Hc. case_decide; [|done].
      intros i r1 r2 E1 E2. by apply (Hc (S i)). }
    specialize (IH Hc'). case_decide; [|done]. rewrite !filter_cons, IH.
    assert (is_system text (f r) = is_system text r) as ->
      by (unfold is_system; by rewrite Hk, Ht).
    by case_decide. }
  rewrite E. intros i r1 r2 E1 E2.
  apply list_lookup_fmap_Some in E1 as (x1 & -> & E1).
  apply list_lookup_fmap_Some in E2 as (x2 & -> & E2).
  destruct (Hf x1) as (_ & _ & _ & ->), (Hf x2) as (_ & _ & _ & ->).
  by apply (Hc peer text i x1 x2).
Qed.

(** The operations on conversation rows, each with the engine's answer to its
    last statement. *)
Inductive RowOp :=
| AddText (ok : bool) (peer sender nonceHex ctHex : string) (ts : Z) (mine : bool) (msgId : string)
| AddFile (ok : bool) (peer sender msgId filename mime : string) (size : Z) (localPath : string)
    (ts : Z) (mine : bool)
| AddSystem (ok : bool) (peer text : string) (ts : Z)
| MarkDeleted (ok : bool) (msgId : string)
| UpdateText (ok : bool) (msgId nonceHex ctHex : string).

Definition run_row_op (o : RowOp) (s : Store) : bool * Store :=
  match o with
  | AddText ok peer sender nonceHex ctHex ts mine msgId =>
      addTextRow ok peer sender nonceHex ctHex ts mine msgId s
  | AddFile ok peer sender msgId filename mime size localPath ts mine =>
      addFileRow ok peer sender msgId filename mime size localPath ts mine s
  | AddSystem ok peer text ts => addSystemRow true true ok peer text ts s
  | MarkDeleted ok msgId => markDeleted ok msgId s
  | UpdateText ok msgId nonceHex ctHex => updateTextRow ok msgId nonceHex ctHex s
  end.

Definition run_row_ops (os : list RowOp) (s : Store) : Store :=
  foldl (λ s o, (run_row_op o s).2) s os.

(** What one operation does to the table. *)
Lemma run_row_op_history o s :
  working s →
  working (run_row_op o s).2 ∧
  (history (the_db (run_row_op o s).2) = history (the_db s) ∨
   (∃ r, history (the_db (run_row_op o s).2) = history (the_db s) ++ [r] ∧
      (h_kind r = KSystem →
       within_window (h_peer r) (h_systext r) (h_ts r) (history (the_db s)) = false)) ∨
   ∃ f, history (the_db (run_row_op o s).2) = f <$> history (the_db s) ∧
     ∀ r, h_peer (f r) = h_peer r ∧ h_kind (f r) = h_kind r ∧ h_systext (f r) = h_systext r ∧
          h_ts (f r) = h_ts r).
Proof.
  intros Hw. pose proof (wk_ready _ Hw) as Hr.
  assert (Hput : ∀ rows, working (put_db (set_history rows (the_db s)) s)
                         ∧ history (the_db (put_db (set_history rows (the_db s)) s)) = rows).
  { intros rows. split; [by apply working_put|by apply put_db_history]. }
  destruct o as [ok p sn n c t m id|ok p sn id fn mi sz lp t m|ok p x t|ok id|ok id n c];
    cbn [run_row_op].
  - unfold addTextRow. rewrite Hr. cbn [negb].
    rewrite exec_working by (done || in_tables || sub_cols).
    destruct ok; cbn [snd]; [|by auto]. unfold append_history.
    split; [apply Hput|]. right. left. eexists. split; [apply Hput|done].
  - unfold addFileRow. rewrite Hr. cbn [negb].
    rewrite exec_working by (done || in_tables || sub_cols).
    destruct ok; cbn [snd]; [|by auto]. unfold append_history.
    split; [apply Hput|]. right. left. eexists. split; [apply Hput|done].
  - unfold addSystemRow. rewrite Hr. cbn [negb].
    rewrite !(query_working _ "history") by (done || in_tables || sub_cols).
    rewrite (exec_working _ "history") by (done || in_tables || sub_cols). cbn [andb].
    destruct (repeats_last _ _ _); [by auto|].
    destruct (within_window _ _ _ _) eqn:Ew; [by auto|].
    destruct ok; cbn [snd]; [|by auto]. unfold append_history.
    split; [apply Hput|]. right. left. eexists. split; [apply Hput|done].
  - unfold markDeleted. rewrite Hr. cbn [negb orb]. destruct (String.eqb id ""); [by auto|].
    rewrite exec_working by (done || in_tables || sub_cols).
    destruct ok; cbn [snd]; [|by auto]. split; [apply Hput|]. right. right.
    eexists. split; [apply Hput|]. intros r. cbv beta. by destruct (has_id id r).
  - unfold updateTextRow. rewrite Hr. cbn [negb orb]. destruct (String.eqb id ""); [by auto|].
    rewrite exec_working by (done || in_tables || sub_cols).
    destruct ok; cbn [negb snd]; [|by auto]. split; [apply Hput|]. right. right.
    eexists. split; [apply Hput|]. intros r. cbv beta. by destruct (editable id r).
Qed.

(** no note recurs within five seconds. In any table the operations build
    from a new file, whatever the interleaving of messages, files, notes, edits
    and deletions and whatever writes fail, two successive copies of the same note
    for the same peer are never stamped 0 to 4999 ms apart. *)
Theorem notes_never_flood os s :
  working s → history (the_db s) = [] → calm (history (the_db (run_row_ops os s))).
Proof.
  intros Hw Hh.
  assert (Hc : calm (history (the_db s))) by (rewrite Hh; intros p t i r1 r2 E; done).
  clear Hh. revert s Hw Hc. induction os as [|o os IH]; intros s Hw Hc; [done|].
  cbn [run_row_ops foldl]. destruct (run_row_op_history o s Hw) as [Hw' Hs].
  apply IH; [done|]. destruct Hs as [->|[(r & -> & Hr)|(f & -> & Hf)]].
  - done.
  - by apply calm_snoc.
  - by apply calm_map.
Qed.

(** ** Messages *)

Lemma rowsForPeer_working peer limit s :
  working s →
  rowsForPeer true peer limit s
  = read_row peer <$> sql_limit limit (of_peer peer (history (the_db s))).
Proof.
  intros Hw. unfold rowsForPeer. rewrite (wk_ready _ Hw). cbn [negb].
  by rewrite query_working by (done || in_tables || sub_cols).
Qed.

Lemma sql_limit_snoc {A} limit (l : list A) x :
  (Z.of_nat (length l) < limit)%Z → sql_limit limit (l ++ [x]) = sql_limit limit l ++ [x].
Proof.
  intros H. unfold sql_limit. destruct (Z.ltb_spec limit 0); [lia|].
  rewrite !take_ge by (rewrite ?length_app; cbn; lia). done.
Qed.

(** a stored message is replayed last in its own conversation and nowhere
    else, with its sealed body and its id, as long as the conversation is below
    the replay limit. *)
Theorem stored_text_is_replayed peer sender nonceHex ctHex ts mine msgId s peer' limit :
  working s →
  (Z.of_nat (length (of_peer peer' (history (the_db s)))) < limit)%Z →
  let '(ok, s') := addTextRow true peer sender nonceHex ctHex ts mine msgId s in
  ok = true ∧ working s' ∧
  rowsForPeer true peer' limit s' =
    rowsForPeer true peer' limit s ++
    (if decide (peer' = peer) then
       [mkStored peer sender ts mine false nonceHex ctHex false "" "" "" 0 "" "" msgId false false]
     else []).
Proof.
  intros Hw Hlim. unfold addTextRow. rewrite (wk_ready _ Hw). cbn [negb].
  rewrite exec_working by (done || in_tables || sub_cols).
  split; [done|]. split; [by apply working_put|]. unfold append_history.
  rewrite !rowsForPeer_working, put_db_history by (done || by apply working_put).
  rewrite of_peer_snoc. cbn [h_peer text_row].
  destruct (decide (peer = peer')) as [->|Hne]; [|rewrite decide_False by congruence].
  2: { by rewrite !app_nil_r. }
  rewrite decide_True by done. rewrite sql_limit_snoc by done. rewrite fmap_app.
  f_equal. cbn. by destruct (String.eqb_spec msgId "") as [->|].
Qed.

(** past the limit the newest messages are the ones left out. Once a peer
    has [limit] rows, storing another message does not change what is replayed:
    the conversation that reopens ends at the oldest [limit] rows. *)
Theorem newest_rows_not_replayed peer sender nonceHex ctHex ts mine msgId s limit :
  working s → (0 ≤ limit ≤ Z.of_nat (length (of_peer peer (history (the_db s)))))%Z →
  let '(ok, s') := addTextRow true peer sender nonceHex ctHex ts mine msgId s in
  ok = true ∧ rowsForPeer true peer limit s' = rowsForPeer true peer limit s.
Proof.
  intros Hw Hlim. unfold addTextRow. rewrite (wk_ready _ Hw). cbn [negb].
  rewrite exec_working by (done || in_tables || sub_cols).
  split; [done|]. unfold append_history.
  rewrite !rowsForPeer_working, put_db_history by (done || by apply working_put).
  rewrite of_peer_snoc. unfold sql_limit. destruct (Z.ltb_spec limit 0); [lia|].
  rewrite take_app_le by lia. done.
Qed.

Lemma has_id_Some id r : has_id id r = true ↔ h_msg_id r = Some id.
Proof. unfold has_id. apply bool_decide_eq_true. Qed.

(** No row to edit: nothing is counted and nothing changes. *)
Lemma none_editable msgId nonceHex ctHex rows :
  Forall (λ r, editable msgId r = false) rows →
  existsb (editable msgId) rows = false ∧
  (λ r, if editable msgId r then set_body nonceHex ctHex r else r) <$> rows = rows.
Proof.
  induction 1 as [|r l Hr _ [IH1 IH2]]; [done|]. cbn. rewrite Hr, IH1. by rewrite IH2.
Qed.

(** a stored deletion is final. After a message is marked deleted every row
    with its id carries the mark and still its sealed body, an edit of that id is
    refused, and the refused edit leaves the file as it was. *)
Theorem deleted_row_not_editable msgId nonceHex ctHex s :
  working s → msgId ≠ "" →
  let '(ok, s1) := markDeleted true msgId s in
  ok = true ∧
  history (the_db s1) = ((λ r, if has_id msgId r then set_deleted r else r) <$> history (the_db s)) ∧
  let '(ok2, s2) := updateTextRow true msgId nonceHex ctHex s1 in
  ok2 = false ∧ the_db s2 = the_db s1.
Proof.
  intros Hw Hid. unfold markDeleted. rewrite (wk_ready _ Hw).
  rewrite (proj2 (String.eqb_neq msgId "")) by done. cbn [negb orb].
  rewrite exec_working by (done || in_tables || sub_cols).
  set (rows := (λ r, if has_id msgId r then set_deleted r else r) <$> history (the_db s)).
  set (s1 := put_db _ s). assert (Hw1 : working s1) by (by apply working_put).
  assert (E1 : history (the_db s1) = rows) by (by apply put_db_history).
  split; [done|]. split; [done|].
  unfold updateTextRow. rewrite (wk_ready _ Hw1).
  rewrite (proj2 (String.eqb_neq msgId "")) by done. cbn [negb orb].
  rewrite exec_working by (done || in_tables || sub_cols). cbn [negb].
  assert (Hno : Forall (λ r, editable msgId r = false) rows).
  { unfold rows. apply Forall_fmap, Forall_true. intros r. cbn. unfold editable.
    destruct (has_id msgId r) eqn:E; [|by rewrite E]. cbn. by rewrite !andb_false_r. }
  destruct (none_editable msgId nonceHex ctHex rows Hno) as [N1 N2].
  rewrite E1, N1, N2. split; [done|].
  rewrite the_db_put by (by apply working_the_db). rewrite <- E1. by destruct (the_db s1).
Qed.

(** ** The outbox *)

(** Ids grow along the queue and stay below the next one. *)
Definition outbox_ok (d : Db) : Prop :=
  StronglySorted Z.lt (o_id <$> outbox d) ∧ Forall (λ r, (o_id r < next_outbox d)%Z) (outbox d).

Inductive OutOp :=
| QueueText (ok : bool) (peer sealedBody : string) (ts : Z) (identityHex mid : string)
| QueueFile (ok : bool) (peer srcPath : string) (ts : Z) (identityHex : string)
| QueueHandshake (ok : bool) (peer : string) (ts : Z) (identityHex : string)
| QueueVerifyAck (ok : bool) (peer : string) (ts : Z) (identityHex verified : string)
| DeleteRow (ok : bool) (id : Z)
| Purge (ok : bool).

Definition run_out_op (o : OutOp) (s : Store) : Store :=
  match o with
  | QueueText ok p b t i m => (enqueueOutboxText ok p b t i m s).2
  | QueueFile ok p x t i => (enqueueOutboxFile ok p x t i s).2
  | QueueHandshake ok p t i => (enqueueOutboxHandshake ok p t i s).2
  | QueueVerifyAck ok p t i v => (enqueueOutboxVerifyAck ok p t i v s).2
  | DeleteRow ok id => (deleteOutboxRow ok id s).2
  | Purge ok => purgeOutbox ok s
  end.

Lemma push_outbox_ok kind p b x i m t d :
  outbox_ok d → outbox_ok (push_outbox kind p b x i m t d).
Proof.
  intros [Hs Hf]. split; cbn.
  - rewrite fmap_app. cbn. apply StronglySorted_app. split_and!.
    + intros a c Ha Hc. apply list_elem_of_singleton in Hc as ->.
      apply list_elem_of_fmap in Ha as (r & -> & Hr).
      rewrite Forall_forall in Hf. by apply Hf.
    + done.
    + repeat constructor.
  - apply Forall_app. split.
    + eapply Forall_impl; [exact Hf|]. cbn. intros r Hr. lia.
    + repeat constructor. cbn. lia.
Qed.

Lemma filter_outbox_ok (P : OutboxRow → Prop) `{!∀ r, Decision (P r)} d :
  outbox_ok d → outbox_ok (set_outbox (filter P (outbox d)) (next_outbox d) d).
Proof.
  intros [Hs Hf]. split; cbn.
  - clear Hf. induction (outbox d) as [|r l IH]; [constructor|].
    rewrite fmap_cons in Hs. inversion Hs as [|? ? Hs' Hr]; subst.
    rewrite filter_cons. case_decide; [|by apply IH].
    rewrite fmap_cons. constructor; [by apply IH|]. rewrite Forall_forall in *. intros x Hx.
    apply Hr. apply list_elem_of_fmap in Hx as (y & -> & Hy).
    apply list_elem_of_fmap. exists y. split; [done|]. by apply list_elem_of_filter in Hy as [_ ?].
  - rewrite Forall_forall in *. intros r Hr. apply Hf. by apply list_elem_of_filter in Hr as [_ ?].
Qed.

Lemma enqueue_working ok cols f s :
  working s → cols ⊆ outbox_cols →
  enqueue ok cols f s = if ok then (next_outbox (the_db s), put_db (f (the_db s)) s) else ((-1)%Z, s).
Proof.
  intros Hw Hc. unfold enqueue. rewrite (wk_ready _ Hw). cbn [negb].
  rewrite exec_working by (done || in_tables). by destruct ok.
Qed.

Lemma run_out_op_ok o s :
  working s → outbox_ok (the_db s) → working (run_out_op o s) ∧ outbox_ok (the_db (run_out_op o s)).
Proof.
  intros Hw Ho. pose proof (working_the_db s Hw) as Hop.
  destruct o as [ok p b t i m|ok p x t i|ok p t i|ok p t i v|ok id|ok]; cbn [run_out_op];
    unfold enqueueOutboxText, enqueueOutboxFile, enqueueOutboxHandshake, enqueueOutboxVerifyAck,
      deleteOutboxRow, purgeOutbox.
  1-4: rewrite enqueue_working by (done || sub_cols); destruct ok; [|done]; cbn [snd];
    split; [by apply working_put|]; rewrite the_db_put by done; by apply push_outbox_ok.
  all: rewrite (wk_ready _ Hw); cbn [negb];
    rewrite exec_working by (done || in_tables || sub_cols); destruct ok; [|done]; cbn [snd];
    split; [by apply working_put|]; rewrite the_db_put by done.
  - by apply filter_outbox_ok.
  - split; constructor.
Qed.

(** the outbox is a queue. Whatever was queued, removed or purged before, a
    newly queued text gets an id no row of the queue has, appears last in the next
    load with its body, stamp and message id, leaves the rows before it alone, and
    deleting it by that id takes out that row and no other. *)
Theorem outbox_fifo os s peer body ts identity mid :
  working s → outbox_ok (the_db s) →
  let s0 := foldl (λ s o, run_out_op o s) s os in
  let '(id, s1) := enqueueOutboxText true peer body ts identity mid s0 in
  (id ∉ o_id <$> loadOutbox true s0) ∧
  loadOutbox true s1 = loadOutbox true s0 ++
    [mkOut id OText peer body "" identity (if String.eqb mid "" then None else Some mid) ts] ∧
  let '(ok, s2) := deleteOutboxRow true id s1 in
  ok = true ∧ loadOutbox true s2 = loadOutbox true s0.
Proof.
  intros Hw Ho. cbv zeta.
  assert (Hs0 : ∀ s, working s → outbox_ok (the_db s) →
    working (foldl (λ s o, run_out_op o s) s os) ∧
    outbox_ok (the_db (foldl (λ s o, run_out_op o s) s os))).
  { induction os as [|o os' IH]; intros x Hx Hox; [done|]. cbn.
    destruct (run_out_op_ok o x Hx Hox). by apply IH. }
  destruct (Hs0 s Hw Ho) as [Hw0 Ho0]. revert Hw0 Ho0.
  generalize (foldl (λ s o, run_out_op o s) s os). clear. intros s Hw [Hs Hf].
  pose proof (working_the_db s Hw) as Hop.
  unfold enqueueOutboxText. rewrite enqueue_working by (done || sub_cols).
  set (s1 := put_db _ s). assert (Hw1 : working s1) by (by apply working_put).
  assert (Hload : ∀ x, working x → loadOutbox true x = outbox (the_db x)).
  { intros x Hx. unfold loadOutbox. rewrite (wk_ready _ Hx). cbn [negb orb].
    by rewrite query_working by (done || in_tables || sub_cols). }
  assert (E1 : the_db s1 = push_outbox OText peer body "" identity
    (if String.eqb mid "" then None else Some mid) ts (the_db s)) by (by apply the_db_put).
  rewrite !Hload, E1 by done. split_and!.
  - rewrite list_elem_of_fmap. intros (r & Er & Hr).
    rewrite Forall_forall in Hf. specialize (Hf r Hr). lia.
  - done.
  - unfold deleteOutboxRow. rewrite (wk_ready _ Hw1). cbn [negb].
    rewrite exec_working by (done || in_tables || sub_cols). split; [done|].
    rewrite Hload by (by apply working_put). rewrite the_db_put by (by apply working_the_db).
    rewrite E1. cbn. rewrite filter_app, filter_cons, filter_nil.
    rewrite decide_False by (cbn; tauto). rewrite app_nil_r.
    apply filter_all. eapply Forall_impl; [exact Hf|]. cbn. lia.
Qed.

(** ** Bilateral verification *)

Lemma loads_verification s :
  working s →
  loadVerifiedPeerIdentities true s
    = filter (λ kv, kv.2 ≠ "") (v_peer_identity <$> verification (the_db s)) ∧
  loadPeerAttestations true s
    = filter (λ kv, kv.2 ≠ "") (v_my_identity <$> verification (the_db s)).
Proof.
  intros Hw. unfold loadVerifiedPeerIdentities, loadPeerAttestations.
  rewrite (wk_ready _ Hw). cbn [negb orb].
  by rewrite !query_working by (done || in_tables || sub_cols).
Qed.

(** One column of the upserted row, filtered of its empty entries. *)
Lemma upsert_column (col : VerificationRow → string) peer fresh upd d v :
  (∀ r, col (upd r) = v) → col fresh = v → v ≠ "" →
  filter (λ kv, kv.2 ≠ "") (col <$> verification (upsert peer fresh upd d))
  = <[peer := v]> (filter (λ kv, kv.2 ≠ "") (col <$> verification d)).
Proof.
  intros Hu Hf Hv. cbn. rewrite fmap_insert.
  assert (col match verification d !! peer with Some r => upd r | None => fresh end = v) as ->
    by (destruct (verification d !! peer); auto).
  by rewrite map_filter_insert_True.
Qed.

Lemma upsert_other_column (col : VerificationRow → string) peer fresh upd d :
  (∀ r, col (upd r) = col r) → col fresh = "" →
  filter (λ kv, kv.2 ≠ "") (col <$> verification (upsert peer fresh upd d))
  = filter (λ kv, kv.2 ≠ "") (col <$> verification d).
Proof.
  intros Hu Hf. cbn. rewrite fmap_insert. destruct (verification d !! peer) as [r|] eqn:E.
  - rewrite Hu. f_equal. apply insert_id. by rewrite lookup_fmap, E.
  - rewrite Hf. rewrite map_filter_insert_False by (cbn; tauto).
    f_equal. apply delete_id. by rewrite lookup_fmap, E.
Qed.

(** the two halves of a verification are independent and survive as they were
    recorded. Recording the peer's key we confirmed changes that entry of the first
    map and nothing of the second; recording the key the peer attested does the
    converse; forgetting a peer removes it from both and touches no other. *)
Theorem verification_independent peer hex ts s :
  working s → peer ≠ "" → hex ≠ "" →
  let v := loadVerifiedPeerIdentities true in
  let a := loadPeerAttestations true in
  let s1 := (recordVerifiedPeerIdentity true peer hex ts s).2 in
  let s2 := (recordPeerAttestedMyIdentity true peer hex ts s).2 in
  let s3 := (clearVerification true peer s).2 in
  (v s1 = <[peer := hex]> (v s) ∧ a s1 = a s) ∧
  (v s2 = v s ∧ a s2 = <[peer := hex]> (a s)) ∧
  (v s3 = delete peer (v s) ∧ a s3 = delete peer (a s)).
Proof.
  intros Hw Hp Hh. cbv zeta. pose proof (working_the_db s Hw) as Hop.
  unfold recordVerifiedPeerIdentity, recordPeerAttestedMyIdentity, clearVerification.
  rewrite (wk_ready _ Hw), (proj2 (String.eqb_neq peer "")), (proj2 (String.eqb_neq hex "")) by done.
  cbn [negb orb]. rewrite !exec_working by (done || in_tables || sub_cols). cbn [snd].
  destruct (loads_verification s Hw) as [-> ->].
  assert (Hput : ∀ d, schema d = schema (the_db s) →
    loadVerifiedPeerIdentities true (put_db d s)
      = filter (λ kv, kv.2 ≠ "") (v_peer_identity <$> verification d) ∧
    loadPeerAttestations true (put_db d s)
      = filter (λ kv, kv.2 ≠ "") (v_my_identity <$> verification d)).
  { intros d Hd. destruct (loads_verification (put_db d s)) as [-> ->];
      [by apply working_put|by rewrite the_db_put]. }
  assert (Hv := λ d Hd, proj1 (Hput d Hd)). assert (Ha := λ d Hd, proj2 (Hput d Hd)).
  rewrite !Hv, !Ha by done. split_and!.
  - by apply upsert_column.
  - by apply upsert_other_column.
  - by apply upsert_other_column.
  - by apply upsert_column.
  - cbn. by rewrite fmap_delete, map_filter_delete.
  - cbn. by rewrite fmap_delete, map_filter_delete.
Qed.

(** ** Sessions *)

(** a saved session comes back. After [saveSession] the peer's blob, the
    identity it is bound to and its send counter are the ones saved, those of every
    other peer are the ones there were, and clearing removes the peer's alone. *)
Theorem session_store_roundtrip peer blob id sent now s :
  working s → blob ≠ [] →
  let '(ok, s1) := saveSession true peer blob id sent now s in
  let '(ok2, s2) := clearSession true peer s1 in
  ok = true ∧ ok2 = true ∧ working s1 ∧
  (loadSession true peer s1, loadPeerIdentity true peer s1, loadSentSince true peer s1)
    = (blob, id, sent) ∧
  (loadSession true peer s2, loadPeerIdentity true peer s2, loadSentSince true peer s2)
    = ([], "", 0%Z) ∧
  ∀ p, p ≠ peer →
    loadSession true p s1 = loadSession true p s ∧ loadSession true p s2 = loadSession true p s ∧
    loadPeerIdentity true p s1 = loadPeerIdentity true p s ∧
    loadSentSince true p s1 = loadSentSince true p s.
Proof.
  intros Hw Hb. unfold saveSession, clearSession. rewrite (wk_ready _ Hw), decide_False by done.
  cbn [negb].
  rewrite exec_working by (done || in_tables || sub_cols).
  set (s1 := put_db _ s). assert (Hw1 : working s1) by (by apply working_put).
  rewrite (wk_ready _ Hw1). cbn [negb].
  rewrite exec_working by (done || in_tables || sub_cols).
  set (s2 := put_db _ s1). assert (Hw2 : working s2) by (by apply working_put).
  assert (Hl : ∀ col p x, working x → [col; "peer"] ⊆ sessions_cols →
    load_session_row true col p x = sessions (the_db x) !! p).
  { intros col p x Hx Hc. unfold load_session_row. rewrite (wk_ready _ Hx). cbn [negb orb].
    by rewrite query_working by (done || in_tables). }
  assert (E1 : sessions (the_db s1) = <[peer := mkSessionRow blob id now sent]> (sessions (the_db s)))
    by (unfold s1; by rewrite the_db_put by (by apply working_the_db)).
  assert (E2 : sessions (the_db s2) = delete peer (sessions (the_db s1)))
    by (unfold s2; by rewrite the_db_put by (by apply working_the_db)).
  split; [done|]. split; [done|]. split; [done|].
  unfold loadSession, loadPeerIdentity, loadSentSince.
  rewrite !Hl by (done || sub_cols). rewrite E2, E1, lookup_delete_eq, lookup_insert_eq.
  split; [done|]. split; [done|]. intros p Hne.
  rewrite !Hl by (done || sub_cols). rewrite E2, E1, lookup_delete_ne, lookup_insert_ne by done.
  done.
Qed.

(** ** Reactions *)
Section Reactions.
Context `{SqlOrder}.

Lemma reactions_in peer r s :
  working s →
  r ∈ reactionsForPeer true peer s ↔
  reactions (the_db s) !! (r_mid r, r_who r) = Some (peer, r_kind r).
Proof.
  intros Hw. unfold reactionsForPeer. rewrite (wk_ready _ Hw). cbn [negb].
  rewrite query_working by (done || in_tables || sub_cols). cbn [negb].
  rewrite list_elem_of_fmap. split.
  - intros ([[mid who] [p k]] & -> & Hin). apply list_elem_of_filter in Hin as [Hp Hin].
    rewrite sql_scan_perm in Hin. apply elem_of_map_to_list in Hin. cbn in *. by subst.
  - intros E. exists ((r_mid r, r_who r), (peer, r_kind r)). split; [by destruct r|].
    apply list_elem_of_filter. split; [done|]. rewrite sql_scan_perm.
    by apply elem_of_map_to_list.
Qed.

(** each side has at most one reaction on a message. Setting one replaces
    that side's, clearing it removes it, and every other reaction of the
    conversation is replayed as before. *)
Theorem one_reaction_per_side peer mid who kind s r :
  working s → mid ≠ "" → who ≠ "" →
  let '(ok, s1) := setReaction true peer mid who kind s in
  ok = true ∧
  (r ∈ reactionsForPeer true peer s1 ↔
   if decide (r_mid r = mid ∧ r_who r = who) then kind ≠ "" ∧ r_kind r = kind
   else r ∈ reactionsForPeer true peer s).
Proof.
  intros Hw Hm Hwho. unfold setReaction. rewrite (wk_ready _ Hw).
  rewrite (proj2 (String.eqb_neq mid "")), (proj2 (String.eqb_neq who "")) by done.
  cbn [negb orb]. destruct (String.eqb_spec kind "") as [->|Hk].
  - rewrite exec_working by (done || in_tables || sub_cols). split; [done|].
    rewrite reactions_in by (by apply working_put).
    rewrite the_db_put by (by apply working_the_db). cbn. case_decide as Hd.
    + destruct Hd as [-> ->]. rewrite lookup_delete_eq. split; [done|by intros []].
    + rewrite lookup_delete_ne; [by rewrite reactions_in|]. intros [= -> ->]. by apply Hd.
  - rewrite exec_working by (done || in_tables || sub_cols). split; [done|].
    rewrite reactions_in by (by apply working_put).
    rewrite the_db_put by (by apply working_the_db). cbn. case_decide as Hd.
    + destruct Hd as [-> ->]. rewrite lookup_insert_eq. split.
      * intros [= ->]. done.
      * by intros [_ ->].
    + rewrite lookup_insert_ne; [by rewrite reactions_in|]. intros [= -> ->]. by apply Hd.
Qed.
End Reactions.

(** ** Prekeys *)

(** the prekey blob is kept. What [savePrekeys] stores, creating its table on
    first use, [loadPrekeys] returns. *)
Theorem prekey_store_roundtrip blob okC s :
  working s → (okC = true ∨ has_cols "prekeys" prekeys_cols (the_db s) = true) →
  (∀ have, schema (the_db s) !! "prekeys" = Some have → Forall (λ c, c ∈ have) prekeys_cols) →
  let '(ok, s1) := savePrekeys okC true blob s in
  ok = true ∧ (loadPrekeys true true s1).1 = blob.
Proof.
  intros Hw Hok Hold. pose proof (working_the_db s Hw) as Hop.
  assert (Hcr : ∀ x c, m_ready x = true → (∃ p, m_db x = Some p) →
    (c = true ∨ has_cols "prekeys" prekeys_cols (the_db x) = true) →
    (∀ have, schema (the_db x) !! "prekeys" = Some have → Forall (λ c, c ∈ have) prekeys_cols) →
    has_cols "prekeys" prekeys_cols (the_db (create_prekeys c x)) = true ∧
    prekeys (the_db (create_prekeys c x)) = prekeys (the_db x) ∧
    (∃ p, m_db (create_prekeys c x) = Some p)).
  { clear. intros x c Hr [p Hp] Hc Ho. unfold create_prekeys. destruct c.
    - rewrite the_db_put by eauto. split_and!.
      + by apply create_table_has.
      + unfold create_table. by case_match.
      + rewrite put_open. eauto.
    - destruct Hc as [?|Hc]; [done|]. eauto. }
  destruct (Hcr s okC (wk_ready _ Hw) Hop Hok Hold) as (H1 & _ & Hop1).
  unfold savePrekeys. rewrite (wk_ready _ Hw). cbn [negb]. unfold exec. rewrite H1. cbn [andb].
  set (x := put_db _ _). split; [done|].
  assert (Ex : the_db x = set_prekeys (Some blob) (the_db (create_prekeys okC s)))
    by (by apply the_db_put).
  assert (Hx : has_cols "prekeys" prekeys_cols (the_db x) = true) by (by rewrite Ex).
  assert (Hrx : m_ready x = true).
  { unfold x. rewrite put_ready. unfold create_prekeys.
    destruct okC; rewrite ?put_ready; apply Hw. }
  assert (Hopx : ∃ p, m_db x = Some p) by (unfold x; by rewrite put_open).
  unfold loadPrekeys. rewrite Hrx. cbn [negb].
  destruct (Hcr x true Hrx Hopx (or_introl eq_refl)) as (H2 & E2 & _).
  { intros have Eh. unfold has_cols in Hx. rewrite Eh in Hx. by apply bool_decide_eq_true in Hx. }
  unfold query. cbn [fst andb].
  rewrite (has_cols_sub _ _ prekeys_cols) by (done || sub_cols). rewrite E2, Ex. done.
Qed.
