(* ===== verification/Localization.v ===== *)
(** * Localization: the texts shown to the user (client/src/localization.cpp)

    The dictionaries are data of the object; the lookup falls back to English
    and then to the key.  The language is kept in the application's settings. *)

From S2P Require Import Prelude.

Module Localization.

Inductive Language := English | Finnish | Swedish.

#[export] Instance language_eq_dec : EqDecision Language.
Proof. solve_decision. Defined.

Record State := mkState {
  m_lang : Language;
  m_en : gmap string string;
  m_fi : gmap string string;
  m_sv : gmap string string;
}.

(** [static_cast<int>(lang)] and back. *)
Definition lang_index (l : Language) : Z :=
  match l with English => 0 | Finnish => 1 | Swedish => 2 end.

Definition lang_of_index (i : Z) : option Language :=
  if (i =? 0)%Z then Some English
  else if (i =? 1)%Z then Some Finnish
  else if (i =? 2)%Z then Some Swedish
  else None.

Abbreviation Settings := (gmap string Z).

(** The constructor, given the dictionaries it builds. *)
Definition newState (en fi sv : gmap string string) (settings : Settings) : State :=
  let stored := default (lang_index English) (settings !! "ui/language") in
  mkState (default English (lang_of_index stored)) en fi sv.

(** [true]: [languageChanged] is emitted. *)
Definition setLanguage (lang : Language) (s : State) (settings : Settings)
    : bool * State * Settings :=
  if decide (lang = m_lang s) then (false, s, settings)
  else (true, mkState lang (m_en s) (m_fi s) (m_sv s),
        <["ui/language" := lang_index lang]> settings).

Definition nameOf (lang : Language) : string :=
  match lang with English => "English" | Finnish => "Suomi" | Swedish => "Svenska" end.

Definition mapFor (lang : Language) (s : State) : gmap string string :=
  match lang with Finnish => m_fi s | Swedish => m_sv s | English => m_en s end.

Definition tIn (lang : Language) (key : string) (s : State) : string :=
  match mapFor lang s !! key with
  | Some v => v
  | None => match m_en s !! key with Some v => v | None => key end
  end.

Definition t (key : string) (s : State) : string := tIn (m_lang s) key s.

(** A chosen language survives a restart: whatever sequence of choices follows a
    start, a new start on the settings they leave behind comes up in the language
    last in force. *)
Theorem language_survives_restart en fi sv settings choices :
  let '(s, st) :=
    fold_left (λ acc lang, let '(_, s', st') := setLanguage lang acc.1 acc.2 in (s', st'))
      choices (newState en fi sv settings, settings) in
  m_lang (newState en fi sv st) = m_lang s.
Proof.
  assert (H : ∀ s st, m_lang (newState en fi sv st) = m_lang s →
    let '(s', st') :=
      fold_left (λ acc lang, let '(_, s', st') := setLanguage lang acc.1 acc.2 in (s', st'))
        choices (s, st) in m_lang (newState en fi sv st') = m_lang s').
  { induction choices as [|l ls IH]; intros s st E; [done|]. cbn.
    unfold setLanguage at 2. case_decide as Hd; [by apply IH|]. apply IH.
    unfold newState. rewrite lookup_insert_eq. by destruct l. }
  specialize (H _ settings eq_refl). destruct (fold_left _ _ _) as [s st]. exact H.
Qed.

End Localization.
