(* ===== verification/Texts.v ===== *)
(** * Localization: the dictionaries (client/src/localization.cpp)

    The texts of [buildDictionaries], each language in two parts, written as the
    characters they denote.  Every text exists in every language, with the same place
    markers. *)

From S2P Require Import Prelude Localization.

Module Texts.

Definition dquote : string := String (Ascii.ascii_of_nat 34) EmptyString.
Definition line_feed : string := String (Ascii.ascii_of_nat 10) EmptyString.

Definition en_screens : list (string * string) :=
  [("online", "online");
   ("reconnecting", "reconnecting…");
   ("menu.viewSafety", "View safety number");
   ("menu.theme", "Theme…");
   ("menu.language", "Language…");
   ("menu.darkMode", "Dark mode");
   ("menu.switchUser", "Switch user…");
   ("menu.logout", "Log out");
   ("menu.export", "Export chat…");
   ("menu.shortcut", "Add to home screen…");
   ("menu.logs", "Diagnostic log…");
   ("log.title", "Diagnostic log");
   ("log.lines", "lines");
   ("log.empty", "No log lines captured yet.");
   ("log.copyAll", "Copy all");
   ("log.clear", "Clear");
   ("log.close", "Close");
   ("lang.title", "Language");
   ("lang.hint", "Choose the app language. Your choice is saved on this device.");
   ("theme.title", "Theme");
   ("theme.hint", "Pick a colour theme. Your choice is saved for " +:+ dquote +:+ "%1" +:+ dquote +:+ " on this device.");
   ("contacts.title", "Contacts");
   ("contacts.you", "you");
   ("contacts.offline", "offline");
   ("contacts.typing", "typing…");
   ("contacts.sendingFile", "sending a file…");
   ("conv.chattingWith", "Chatting with %1");
   ("conv.isTyping", "%1 is typing…");
   ("conv.isSendingFile", "%1 is sending a file…");
   ("conv.pickContact", "Pick a contact to start a private conversation.");
   ("conv.emptyHint", "Pick someone to chat with");
   ("composer.type", "Type a message…");
   ("composer.confirmFirst", "Confirm the safety-number change to continue…");
   ("composer.send", "Send");
   ("composer.attachTip", "Send a file or image");
   ("msg.deleted", "This message was deleted");
   ("menu.deleteForMe", "Delete for me");
   ("menu.deleteForEveryone", "Delete for everyone");
   ("menu.reactAgree", "Agree");
   ("menu.reactDisagree", "Disagree");
   ("menu.reactRemove", "Remove reaction");
   ("menu.edit", "Edit");
   ("menu.resend", "Resend");
   ("msg.edited", "edited");
   ("edit.title", "Edit message");
   ("edit.hint", "The new text is encrypted and updated on both sides. You need to be online to edit.");
   ("login.title", "Encrypted Chat");
   ("login.server", "Server URL");
   ("login.nickname", "Nickname");
   ("login.connect", "Connect");
   ("login.connecting", "Connecting…");
   ("login.password", "Password");
   ("login.passwordHint", "Choose a strong password");
   ("login.passwordHintLogin", "Enter your password");
   ("login.register", "Register");
   ("login.login", "Log in");
   ("login.haveAccount", "Already have an account? Log in");
   ("login.needAccount", "New here? Register");
   ("login.pwHelp", "Your password encrypts your identity key on this device. The server never sees it.");
   ("login.birthday", "Date of birth");
   ("login.birthdayHint", "1999-05-03");
   ("login.birthdayHelp", "Required to create a new account. Stored only as an irreversible hash, never as a date.");
   ("login.birthdayInvalid", "That date is not valid. Use the form 1999-05-03.");
   ("login.forgot", "Forgotten password?");
   ("recover.title", "Recover your password");
   ("recover.titleRevealed", "Your password");
   ("recover.introHello", "Enter your username and date of birth. You will then be asked to confirm with Windows Hello.");
   ("recover.introBio", "Enter your username and date of birth. You will then be asked to confirm with your fingerprint or device PIN.");
   ("recover.user", "Username");
   ("recover.dobHint", "Date of birth, e.g. 1999-05-03");
   ("recover.submit", "Submit");
   ("recover.waiting", "Waiting for authentication…");
   ("recover.warning", "Anyone who can see this screen can see your password. Close this as soon as you have noted it down.");
   ("recover.back", "Return to sign in");
   ("recover.close", "Close")].

Definition en_messages : list (string * string) :=
  [("login.helloLogin", "Log in with Windows Hello");
   ("login.bioLogin", "Log in with fingerprint or PIN");
   ("login.enableHello", "Enable Windows Hello login next time");
   ("login.enableBio", "Enable fingerprint / PIN login next time");
   ("lock.bioLoginTitle", "Log in to Encrypted Chat");
   ("lock.bioLoginSubtitle", "Confirm your identity to log in");
   ("lock.bioEnrollTitle", "Enable fingerprint login");
   ("lock.bioEnrollSubtitle", "Confirm to save your login for next time");
   ("err.wrongPassword", "Incorrect password. Your account was not changed.");
   ("err.noAccountHere", "No account found on this device for that name. Please Register first.");
   ("err.accountExistsLocally", "An account with that name already exists on this device. Please Log in instead.");
   ("err.identityNotPersisted", "Your identity could not be saved to persistent storage and may not survive a restart on this device.");
   ("err.identityUnreadable", "Could not read your saved identity. Please restart the app; your key was not changed.");
   ("err.registerFailed", "Registration failed while preparing your credentials. Please try again.");
   ("err.loginRejected", "The server ended this session (wrong password, reserved username, or signed in on another device). Please log in again.");
   ("err.pinSetFailed", "Could not set the PIN. Please try again.");
   ("err.noDeviceCredential", "No device lock is set up. Please set a screen lock (PIN, pattern, or fingerprint) in your device settings first.");
   ("err.pinRequired", "A fallback PIN is required. Please enter one.");
   ("err.resetNoAccount", "No account was found on this device to verify your password against.");
   ("lock.unlockDevice", "Unlock with device");
   ("lock.unlockHello", "Unlock with Windows Hello");
   ("lock.orEnterPin", "— or enter your PIN —");
   ("lock.forgotPin", "Forgot PIN?");
   ("lock.resetTitle", "Reset lock");
   ("lock.resetPrompt", "Enter your account password to reset the app lock.");
   ("settings.enableLock", "Enable app lock");
   ("settings.disableLock", "Disable app lock");
   ("settings.lockUsesDevice", "Unlock uses your device screen lock (fingerprint, face, or PIN).");
   ("settings.lockUsesHello", "Unlock uses Windows Hello, with your app PIN as a fallback.");
   ("settings.lockUsesPin", "Unlock uses your app PIN.");
   ("err.nameReserved", "This username is already registered to a different identity. Please choose another name.");
   ("err.badPassword", "Incorrect password for this username.");
   ("lock.title", "Locked");
   ("lock.enterPin", "Enter PIN");
   ("lock.wrongPin", "Wrong PIN, try again");
   ("lock.unlock", "Unlock");
   ("lock.useFingerprint", "Use fingerprint");
   ("lock.biometricTitle", "Unlock Encrypted Chat");
   ("lock.biometricSubtitle", "Confirm your identity to continue");
   ("settings.appLock", "App lock (PIN)");
   ("settings.setPin", "Set / change PIN");
   ("settings.removePin", "Remove PIN");
   ("settings.pinOn", "PIN lock is on");
   ("settings.pinOff", "PIN lock is off");
   ("settings.newPin", "New PIN");
   ("settings.confirmPin", "Confirm PIN");
   ("settings.currentPin", "Current PIN");
   ("settings.wrongCurrentPin", "Current PIN is incorrect");
   ("settings.pinMismatch", "PINs do not match");
   ("settings.lockNow", "Lock now");
   ("common.cancel", "Cancel");
   ("common.save", "Save");
   ("logout.title", "Log out?");
   ("logout.body", "You'll return to the login screen. Your identity and message history stay on this device, so logging back in as " +:+ dquote +:+ "%1" +:+ dquote +:+ " restores everything.");
   ("switch.title", "Switch user?");
   ("switch.body", "This returns to the login screen so someone else can sign in under their own name. " +:+ dquote +:+ "%1" +:+ dquote +:+ "'s identity and messages stay saved on this device, so you can switch back later and everything will be here.");
   ("safety.titlePeer", "Safety number with %1");
   ("safety.titleSelf", "Your safety number");
   ("safety.comparePeer", "Compare these numbers with %1 over a call or in person." +:+ line_feed +:+ "If they match on both devices, no one is intercepting your keys.");
   ("safety.selectHint", "Select a contact to see the safety number you share with them.");
   ("safety.bannerTitle", "⚠️ %1 may be a different person or device");
   ("safety.bannerBody", "%1's safety number changed. This happens when they reinstall, switch device, or a different person takes over this name -- but it can also mean someone is intercepting your messages. Compare the new safety number with %1 over a call or in person, then confirm the switch to continue. You cannot send messages until you do.");
   ("safety.view", "View safety number");
   ("safety.confirm", "I've verified — confirm & switch");
   ("export.title", "Export conversation with %1");
   ("export.pdf", "PDF document (*.pdf)");
   ("export.txt", "Text file (*.txt)");
   ("export.done", "Saved conversation with %1 to %2");
   ("export.saved", "Conversation with %1 saved.");
   ("export.empty", "There are no messages with %1 to export yet.");
   ("export.failed", "Could not save the export: %1");
   ("export.headerTitle", "Conversation with %1");
   ("export.headerExported", "Exported %1");
   ("export.headerParticipants", "Participants: %1 and %2");
   ("export.sentFile", "sent a file: %1 (%2)");
   ("export.systemLabel", "(system)");
   ("notif.newMessageTitle", "New message from %1");
   ("notif.newFileTitle", "New file from %1");
   ("notif.newFileBody", "%1 (%2)");
   ("notif.channelName", "Messages");
   ("notif.serviceRunning", "Encrypted Chat is running");
   ("notif.serviceBody", "Connected — you'll be notified of new messages.");
   ("shortcut.unsupported", "A home-screen shortcut could not be created on this device.");
   ("sys.cannotDecrypt", "🔒 An earlier message can no longer be decrypted (it was stored under a previous identity key).");
   ("sys.historyOpenFailed", "History could not be opened; messages will not be saved this session.");
   ("sys.noStorage", "No writable storage location was found; message history is disabled this session.");
   ("err.historyOpenFailed", "Local history could not be opened; your messages will not be stored on this device.");
   ("sys.fileFailed", "File transfer failed: %1");
   ("sys.reason.startDecrypt", "could not start decryption");
   ("sys.reason.openTemp", "could not open temp file")].

Definition fi_screens : list (string * string) :=
  [("online", "verkossa");
   ("reconnecting", "yhdistätään uudelleen…");
   ("menu.viewSafety", "Näytä turvanumero");
   ("menu.theme", "Teema…");
   ("menu.language", "Kieli…");
   ("menu.darkMode", "Tumma tila");
   ("menu.switchUser", "Vaihda käyttäjää…");
   ("menu.logout", "Kirjaudu ulos");
   ("menu.export", "Vie keskustelu…");
   ("menu.shortcut", "Lisää aloitusnäyttöön…");
   ("menu.logs", "Diagnostiikkaloki…");
   ("log.title", "Diagnostiikkaloki");
   ("log.lines", "riviä");
   ("log.empty", "Ei vielä lokirivejä.");
   ("log.copyAll", "Kopioi kaikki");
   ("log.clear", "Tyhjennä");
   ("log.close", "Sulje");
   ("lang.title", "Kieli");
   ("lang.hint", "Valitse sovelluksen kieli. Valintasi tallennetaan tähän laitteeseen.");
   ("theme.title", "Teema");
   ("theme.hint", "Valitse väriteema. Valintasi tallennetaan käyttäjälle " +:+ dquote +:+ "%1" +:+ dquote +:+ " tähän laitteeseen.");
   ("contacts.title", "Yhteystiedot");
   ("contacts.you", "sinä");
   ("contacts.offline", "poissa verkosta");
   ("contacts.typing", "kirjoittaa…");
   ("contacts.sendingFile", "lähettää tiedostoa…");
   ("conv.chattingWith", "Keskustelu käyttäjän %1 kanssa");
   ("conv.isTyping", "%1 kirjoittaa…");
   ("conv.isSendingFile", "%1 lähettää tiedostoa…");
   ("conv.pickContact", "Aloita yksityinen keskustelu valitsemalla yhteystieto.");
   ("conv.emptyHint", "Valitse kenen kanssa keskustelet");
   ("composer.type", "Kirjoita viesti…");
   ("composer.confirmFirst", "Vahvista turvanumeron muutos jatkaaksesi…");
   ("composer.send", "Lähetä");
   ("composer.attachTip", "Lähetä tiedosto tai kuva");
   ("msg.deleted", "Tämä viesti poistettiin");
   ("menu.deleteForMe", "Poista minulta");
   ("menu.deleteForEveryone", "Poista kaikilta");
   ("menu.reactAgree", "Samaa mieltä");
   ("menu.reactDisagree", "Eri mieltä");
   ("menu.reactRemove", "Poista reaktio");
   ("menu.edit", "Muokkaa");
   ("menu.resend", "Lähetä uudelleen");
   ("msg.edited", "muokattu");
   ("edit.title", "Muokkaa viestiä");
   ("edit.hint", "Uusi teksti salataan ja päivitetään molemmille osapuolille. Muokkaaminen edellyttää verkkoyhteyttä.");
   ("login.title", "Salattu keskustelu");
   ("login.server", "Palvelimen osoite");
   ("login.nickname", "Nimimerkki");
   ("login.connect", "Yhdistä");
   ("login.connecting", "Yhdistetään…");
   ("login.password", "Salasana");
   ("login.passwordHint", "Valitse vahva salasana");
   ("login.passwordHintLogin", "Syötä salasanasi");
   ("login.register", "Rekisteröidy");
   ("login.login", "Kirjaudu");
   ("login.haveAccount", "Onko sinulla jo tili? Kirjaudu");
   ("login.needAccount", "Uusi täällä? Rekisteröidy");
   ("login.pwHelp", "Salasanasi salaa henkilöllisyysavaimesi tällä laitteella. Palvelin ei koskaan näe sitä.");
   ("login.birthday", "Syntymäaika");
   ("login.birthdayHint", "1999-05-03");
   ("login.birthdayHelp", "Vaaditaan uuden tilin luomiseen. Tallennetaan vain peruuttamattomana tiivisteenä, ei koskaan päivämääränä.");
   ("login.birthdayInvalid", "Päivämäärä ei kelpaa. Käytä muotoa 1999-05-03.");
   ("login.forgot", "Unohtuiko salasana?");
   ("recover.title", "Palauta salasanasi");
   ("recover.titleRevealed", "Salasanasi");
   ("recover.introHello", "Anna käyttäjätunnuksesi ja syntymäaikasi. Sinua pyydetään sitten vahvistamaan Windows Hellolla.");
   ("recover.introBio", "Anna käyttäjätunnuksesi ja syntymäaikasi. Sinua pyydetään sitten vahvistamaan sormenjäljellä tai laitteen PIN-koodilla.");
   ("recover.user", "Käyttäjätunnus");
   ("recover.dobHint", "Syntymäaika, esim. 1999-05-03");
   ("recover.submit", "Lähetä");
   ("recover.waiting", "Odotetaan tunnistautumista…");
   ("recover.warning", "Kuka tahansa, joka näkee tämän ruudun, näkee salasanasi. Sulje heti kun olet kirjannut sen ylös.");
   ("recover.back", "Takaisin kirjautumiseen");
   ("recover.close", "Sulje")].

Definition fi_messages : list (string * string) :=
  [("login.helloLogin", "Kirjaudu Windows Hellolla");
   ("login.bioLogin", "Kirjaudu sormenjäljellä tai PIN-koodilla");
   ("login.enableHello", "Ota Windows Hello -kirjautuminen käyttöön ensi kerralla");
   ("login.enableBio", "Ota sormenjälki- tai PIN-kirjautuminen käyttöön ensi kerralla");
   ("lock.bioLoginTitle", "Kirjaudu salattuun keskusteluun");
   ("lock.bioLoginSubtitle", "Vahvista henkilöllisyytesi kirjautuaksesi");
   ("lock.bioEnrollTitle", "Ota sormenjälkikirjautuminen käyttöön");
   ("lock.bioEnrollSubtitle", "Vahvista tallentaaksesi kirjautumisen ensi kertaa varten");
   ("err.wrongPassword", "Väärä salasana. Tiliäsi ei muutettu.");
   ("err.noAccountHere", "Tältä laitteelta ei löytynyt tiliä tällä nimellä. Rekisteröidy ensin.");
   ("err.accountExistsLocally", "Tällä nimellä on jo tili tällä laitteella. Kirjaudu sen sijaan sisään.");
   ("err.identityNotPersisted", "Henkilöllisyyttäsi ei voitu tallentaa pysyvään muistiin, eikä se välttämättä säily uudelleenkäynnistyksessä tällä laitteella.");
   ("err.identityUnreadable", "Tallennettua henkilöllisyyttä ei voitu lukea. Käynnistä sovellus uudelleen; avaintasi ei muutettu.");
   ("err.registerFailed", "Rekisteröinti epäonnistui tunnistetietoja valmisteltaessa. Yritä uudelleen.");
   ("err.loginRejected", "Palvelin päätti istunnon (väärä salasana, varattu käyttäjänimi tai kirjautuminen toisella laitteella). Kirjaudu uudelleen.");
   ("err.pinSetFailed", "PIN-koodia ei voitu asettaa. Yritä uudelleen.");
   ("err.noDeviceCredential", "Laitteen lukitusta ei ole määritetty. Aseta ensin näytön lukitus (PIN, kuvio tai sormenjälki) laitteen asetuksissa.");
   ("err.pinRequired", "Vara-PIN vaaditaan. Syötä PIN-koodi.");
   ("err.resetNoAccount", "Tältä laitteelta ei löytynyt tiliä, jota vastaan salasana voitaisiin varmentaa.");
   ("lock.unlockDevice", "Avaa laitteella");
   ("lock.unlockHello", "Avaa Windows Hellolla");
   ("lock.orEnterPin", "— tai syötä PIN —");
   ("lock.forgotPin", "Unohditko PINin?");
   ("lock.resetTitle", "Nollaa lukitus");
   ("lock.resetPrompt", "Syötä tilisi salasana nollataksesi sovelluslukon.");
   ("settings.enableLock", "Ota sovelluslukko käyttöön");
   ("settings.disableLock", "Poista sovelluslukko käytöstä");
   ("settings.lockUsesDevice", "Avaus käyttää laitteesi näytönlukitusta (sormenjälki, kasvot tai PIN).");
   ("settings.lockUsesHello", "Avaus käyttää Windows Helloa, ja sovelluksen PIN toimii varana.");
   ("settings.lockUsesPin", "Avaus käyttää sovelluksen PIN-koodia.");
   ("err.nameReserved", "Tämä käyttäjänimi on jo rekisteröity toiselle henkilöllisyydelle. Valitse toinen nimi.");
   ("err.badPassword", "Väärä salasana tälle käyttäjänimelle.");
   ("lock.title", "Lukittu");
   ("lock.enterPin", "Syötä PIN");
   ("lock.wrongPin", "Väärä PIN, yritä uudelleen");
   ("lock.unlock", "Avaa lukitus");
   ("lock.useFingerprint", "Käytä sormenjälkeä");
   ("lock.biometricTitle", "Avaa Salattu keskustelu");
   ("lock.biometricSubtitle", "Vahvista henkilöllisyytesi jatkaaksesi");
   ("settings.appLock", "Sovelluslukko (PIN)");
   ("settings.setPin", "Aseta / vaihda PIN");
   ("settings.removePin", "Poista PIN");
   ("settings.pinOn", "PIN-lukko on päällä");
   ("settings.pinOff", "PIN-lukko on pois päältä");
   ("settings.newPin", "Uusi PIN");
   ("settings.confirmPin", "Vahvista PIN");
   ("settings.currentPin", "Nykyinen PIN");
   ("settings.wrongCurrentPin", "Nykyinen PIN on virheellinen");
   ("settings.pinMismatch", "PIN-koodit eivät täsmää");
   ("settings.lockNow", "Lukitse nyt");
   ("common.cancel", "Peruuta");
   ("common.save", "Tallenna");
   ("logout.title", "Kirjaudutaanko ulos?");
   ("logout.body", "Palaat kirjautumisruutuun. Henkilöllisyytesi ja viestihistoriasi säilyvät tässä laitteessa, joten kirjautumalla takaisin nimellä " +:+ dquote +:+ "%1" +:+ dquote +:+ " saat kaiken takaisin.");
   ("switch.title", "Vaihdetaanko käyttäjää?");
   ("switch.body", "Tämä palaa kirjautumisruutuun, jotta joku toinen voi kirjautua omalla nimellään. Käyttäjän " +:+ dquote +:+ "%1" +:+ dquote +:+ " henkilöllisyys ja viestit säilyvät tässä laitteessa, joten voit vaihtaa takaisin myöhemmin.");
   ("safety.titlePeer", "Turvanumero käyttäjän %1 kanssa");
   ("safety.titleSelf", "Oma turvanumerosi");
   ("safety.comparePeer", "Vertaa näitä numeroita käyttäjän %1 kanssa puhelimitse tai kasvotusten." +:+ line_feed +:+ "Jos ne täsmäävät molemmissa laitteissa, kukaan ei sieppaa avaimiasi.");
   ("safety.selectHint", "Valitse yhteystieto nähdäksesi hänen kanssaan jaetun turvanumeron.");
   ("safety.bannerTitle", "⚠️ %1 voi olla eri henkilö tai laite");
   ("safety.bannerBody", "Käyttäjän %1 turvanumero muuttui. Näin tapahtuu, kun hän asentaa sovelluksen uudelleen, vaihtaa laitetta tai joku toinen ottaa tämän nimen -- mutta se voi myös tarkoittaa, että joku sieppaa viestejäsi. Vertaa uutta turvanumeroa käyttäjän %1 kanssa puhelimitse tai kasvotusten ja vahvista sitten jatkaaksesi. Et voi lähettää viestejä ennen sitä.");
   ("safety.view", "Näytä turvanumero");
   ("safety.confirm", "Olen vahvistanut — vahvista ja vaihda");
   ("export.title", "Vie keskustelu käyttäjän %1 kanssa");
   ("export.pdf", "PDF-asiakirja (*.pdf)");
   ("export.txt", "Tekstitiedosto (*.txt)");
   ("export.done", "Keskustelu käyttäjän %1 kanssa tallennettiin sijaintiin %2");
   ("export.saved", "Keskustelu käyttäjän %1 kanssa tallennettu.");
   ("export.empty", "Käyttäjän %1 kanssa ei ole vielä viestejä vietäväksi.");
   ("export.failed", "Vientiä ei voitu tallentaa: %1");
   ("export.headerTitle", "Keskustelu käyttäjän %1 kanssa");
   ("export.headerExported", "Viety %1");
   ("export.headerParticipants", "Osallistujat: %1 ja %2");
   ("export.sentFile", "lähetti tiedoston: %1 (%2)");
   ("export.systemLabel", "(järjestelmä)");
   ("notif.newMessageTitle", "Uusi viesti käyttäjältä %1");
   ("notif.newFileTitle", "Uusi tiedosto käyttäjältä %1");
   ("notif.newFileBody", "%1 (%2)");
   ("notif.channelName", "Viestit");
   ("notif.serviceRunning", "Salattu keskustelu on käynnissä");
   ("notif.serviceBody", "Yhdistetty — saat ilmoituksen uusista viesteistä.");
   ("shortcut.unsupported", "Aloitusnäytön pikakuvaketta ei voitu luoda tässä laitteessa.");
   ("sys.cannotDecrypt", "🔒 Aiempaa viestiä ei voitu enää purkaa (se tallennettiin aiemmalla henkilöllisyysavaimella).");
   ("sys.historyOpenFailed", "Historiaa ei voitu avata; viestejä ei tallenneta tässä istunnossa.");
   ("sys.noStorage", "Kirjoitettavaa tallennussijaintia ei löytynyt; viestihistoria on poissa käytöstä tässä istunnossa.");
   ("err.historyOpenFailed", "Paikallista historiaa ei voitu avata; viestejäsi ei tallenneta tähän laitteeseen.");
   ("sys.fileFailed", "Tiedoston siirto epäonnistui: %1");
   ("sys.reason.startDecrypt", "purkua ei voitu aloittaa");
   ("sys.reason.openTemp", "väliaikaistiedostoa ei voitu avata")].

Definition sv_screens : list (string * string) :=
  [("online", "uppkopplad");
   ("reconnecting", "återansluter…");
   ("menu.viewSafety", "Visa säkerhetsnummer");
   ("menu.theme", "Tema…");
   ("menu.language", "Språk…");
   ("menu.darkMode", "Mörkt läge");
   ("menu.switchUser", "Byt användare…");
   ("menu.logout", "Logga ut");
   ("menu.export", "Exportera chatt…");
   ("menu.shortcut", "Lägg till på startskärmen…");
   ("menu.logs", "Diagnostiklogg…");
   ("log.title", "Diagnostiklogg");
   ("log.lines", "rader");
   ("log.empty", "Inga loggrader har fångats ännu.");
   ("log.copyAll", "Kopiera alla");
   ("log.clear", "Rensa");
   ("log.close", "Stäng");
   ("lang.title", "Språk");
   ("lang.hint", "Välj appspråk. Ditt val sparas på den här enheten.");
   ("theme.title", "Tema");
   ("theme.hint", "Välj ett färgtema. Ditt val sparas för " +:+ dquote +:+ "%1" +:+ dquote +:+ " på den här enheten.");
   ("contacts.title", "Kontakter");
   ("contacts.you", "du");
   ("contacts.offline", "frånkopplad");
   ("contacts.typing", "skriver…");
   ("contacts.sendingFile", "skickar en fil…");
   ("conv.chattingWith", "Chattar med %1");
   ("conv.isTyping", "%1 skriver…");
   ("conv.isSendingFile", "%1 skickar en fil…");
   ("conv.pickContact", "Välj en kontakt för att starta en privat konversation.");
   ("conv.emptyHint", "Välj vem du vill chatta med");
   ("composer.type", "Skriv ett meddelande…");
   ("composer.confirmFirst", "Bekräfta ändringen av säkerhetsnumret för att fortsätta…");
   ("composer.send", "Skicka");
   ("composer.attachTip", "Skicka en fil eller bild");
   ("msg.deleted", "Det här meddelandet raderades");
   ("menu.deleteForMe", "Radera för mig");
   ("menu.deleteForEveryone", "Radera för alla");
   ("menu.reactAgree", "Håller med");
   ("menu.reactDisagree", "Håller inte med");
   ("menu.reactRemove", "Ta bort reaktion");
   ("menu.edit", "Redigera");
   ("menu.resend", "Skicka igen");
   ("msg.edited", "redigerad");
   ("edit.title", "Redigera meddelande");
   ("edit.hint", "Den nya texten krypteras och uppdateras hos båda parter. Du måste vara online för att redigera.");
   ("login.title", "Krypterad chatt");
   ("login.server", "Serveradress");
   ("login.nickname", "Smeknamn");
   ("login.connect", "Anslut");
   ("login.connecting", "Ansluter…");
   ("login.password", "Lösenord");
   ("login.passwordHint", "Välj ett starkt lösenord");
   ("login.passwordHintLogin", "Ange ditt lösenord");
   ("login.register", "Registrera");
   ("login.login", "Logga in");
   ("login.haveAccount", "Har du redan ett konto? Logga in");
   ("login.needAccount", "Ny här? Registrera");
   ("login.pwHelp", "Ditt lösenord krypterar din identitetsnyckel på den här enheten. Servern ser det aldrig.");
   ("login.birthday", "Födelsedatum");
   ("login.birthdayHint", "1999-05-03");
   ("login.birthdayHelp", "Krävs för att skapa ett nytt konto. Lagras endast som en oåterkallelig hash, aldrig som ett datum.");
   ("login.birthdayInvalid", "Datumet är ogiltigt. Använd formen 1999-05-03.");
   ("login.forgot", "Glömt lösenordet?");
   ("recover.title", "Återställ ditt lösenord");
   ("recover.titleRevealed", "Ditt lösenord");
   ("recover.introHello", "Ange ditt användarnamn och födelsedatum. Du ombeds sedan bekräfta med Windows Hello.");
   ("recover.introBio", "Ange ditt användarnamn och födelsedatum. Du ombeds sedan bekräfta med fingeravtryck eller enhetens PIN.");
   ("recover.user", "Användarnamn");
   ("recover.dobHint", "Födelsedatum, t.ex. 1999-05-03");
   ("recover.submit", "Skicka");
   ("recover.waiting", "Väntar på autentisering…");
   ("recover.warning", "Alla som ser den här skärmen ser ditt lösenord. Stäng så snart du har antecknat det.");
   ("recover.back", "Tillbaka till inloggning");
   ("recover.close", "Stäng")].

Definition sv_messages : list (string * string) :=
  [("login.helloLogin", "Logga in med Windows Hello");
   ("login.bioLogin", "Logga in med fingeravtryck eller PIN");
   ("login.enableHello", "Aktivera Windows Hello-inloggning nästa gång");
   ("login.enableBio", "Aktivera fingeravtrycks- eller PIN-inloggning nästa gång");
   ("lock.bioLoginTitle", "Logga in i Krypterad chatt");
   ("lock.bioLoginSubtitle", "Bekräfta din identitet för att logga in");
   ("lock.bioEnrollTitle", "Aktivera fingeravtrycksinloggning");
   ("lock.bioEnrollSubtitle", "Bekräfta för att spara din inloggning till nästa gång");
   ("err.wrongPassword", "Fel lösenord. Ditt konto ändrades inte.");
   ("err.noAccountHere", "Inget konto hittades på den här enheten för det namnet. Registrera dig först.");
   ("err.accountExistsLocally", "Ett konto med det namnet finns redan på den här enheten. Logga in istället.");
   ("err.identityNotPersisted", "Din identitet kunde inte sparas i beständig lagring och kanske inte överlever en omstart på den här enheten.");
   ("err.identityUnreadable", "Kunde inte läsa din sparade identitet. Starta om appen; din nyckel ändrades inte.");
   ("err.registerFailed", "Registreringen misslyckades när dina uppgifter förbereddes. Försök igen.");
   ("err.loginRejected", "Servern avslutade sessionen (fel lösenord, reserverat användarnamn eller inloggning på en annan enhet). Logga in igen.");
   ("err.pinSetFailed", "Det gick inte att ställa in PIN-koden. Försök igen.");
   ("err.noDeviceCredential", "Inget enhetslås är inställt. Ställ först in ett skärmlås (PIN, mönster eller fingeravtryck) i enhetens inställningar.");
   ("err.pinRequired", "En reserv-PIN krävs. Ange en PIN-kod.");
   ("err.resetNoAccount", "Inget konto hittades på den här enheten att verifiera ditt lösenord mot.");
   ("lock.unlockDevice", "Lås upp med enheten");
   ("lock.unlockHello", "Lås upp med Windows Hello");
   ("lock.orEnterPin", "— eller ange din PIN —");
   ("lock.forgotPin", "Glömt PIN?");
   ("lock.resetTitle", "Återställ lås");
   ("lock.resetPrompt", "Ange ditt kontolösenord för att återställa applåset.");
   ("settings.enableLock", "Aktivera applås");
   ("settings.disableLock", "Inaktivera applås");
   ("settings.lockUsesDevice", "Upplåsning använder enhetens skärmlås (fingeravtryck, ansikte eller PIN).");
   ("settings.lockUsesHello", "Upplåsning använder Windows Hello, med din app-PIN som reserv.");
   ("settings.lockUsesPin", "Upplåsning använder din app-PIN.");
   ("err.nameReserved", "Det här användarnamnet är redan registrerat till en annan identitet. Välj ett annat namn.");
   ("err.badPassword", "Fel lösenord för det här användarnamnet.");
   ("lock.title", "Låst");
   ("lock.enterPin", "Ange PIN");
   ("lock.wrongPin", "Fel PIN, försök igen");
   ("lock.unlock", "Lås upp");
   ("lock.useFingerprint", "Använd fingeravtryck");
   ("lock.biometricTitle", "Lås upp Krypterad chatt");
   ("lock.biometricSubtitle", "Bekräfta din identitet för att fortsätta");
   ("settings.appLock", "Applås (PIN)");
   ("settings.setPin", "Ställ in / ändra PIN");
   ("settings.removePin", "Ta bort PIN");
   ("settings.pinOn", "PIN-lås är på");
   ("settings.pinOff", "PIN-lås är av");
   ("settings.newPin", "Ny PIN");
   ("settings.confirmPin", "Bekräfta PIN");
   ("settings.currentPin", "Nuvarande PIN");
   ("settings.wrongCurrentPin", "Nuvarande PIN är felaktig");
   ("settings.pinMismatch", "PIN-koderna matchar inte");
   ("settings.lockNow", "Lås nu");
   ("common.cancel", "Avbryt");
   ("common.save", "Spara");
   ("logout.title", "Logga ut?");
   ("logout.body", "Du kommer tillbaka till inloggningsskärmen. Din identitet och meddelandehistorik stannar på den här enheten, så att logga in igen som " +:+ dquote +:+ "%1" +:+ dquote +:+ " återställer allt.");
   ("switch.title", "Byt användare?");
   ("switch.body", "Detta återgår till inloggningsskärmen så att någon annan kan logga in med sitt eget namn. " +:+ dquote +:+ "%1" +:+ dquote +:+ ":s identitet och meddelanden stannar på den här enheten, så du kan byta tillbaka senare.");
   ("safety.titlePeer", "Säkerhetsnummer med %1");
   ("safety.titleSelf", "Ditt säkerhetsnummer");
   ("safety.comparePeer", "Jämför dessa nummer med %1 via ett samtal eller personligen." +:+ line_feed +:+ "Om de matchar på båda enheterna avlyssnar ingen dina nycklar.");
   ("safety.selectHint", "Välj en kontakt för att se säkerhetsnumret ni delar.");
   ("safety.bannerTitle", "⚠️ %1 kan vara en annan person eller enhet");
   ("safety.bannerBody", "%1:s säkerhetsnummer ändrades. Detta händer när någon installerar om, byter enhet eller när en annan person tar över namnet -- men det kan också betyda att någon avlyssnar dina meddelanden. Jämför det nya säkerhetsnumret med %1 via ett samtal eller personligen och bekräfta sedan för att fortsätta. Du kan inte skicka meddelanden förrän du gör det.");
   ("safety.view", "Visa säkerhetsnummer");
   ("safety.confirm", "Jag har verifierat — bekräfta och byt");
   ("export.title", "Exportera konversation med %1");
   ("export.pdf", "PDF-dokument (*.pdf)");
   ("export.txt", "Textfil (*.txt)");
   ("export.done", "Konversationen med %1 sparades till %2");
   ("export.saved", "Konversationen med %1 sparad.");
   ("export.empty", "Det finns inga meddelanden med %1 att exportera ännu.");
   ("export.failed", "Kunde inte spara exporten: %1");
   ("export.headerTitle", "Konversation med %1");
   ("export.headerExported", "Exporterad %1");
   ("export.headerParticipants", "Deltagare: %1 och %2");
   ("export.sentFile", "skickade en fil: %1 (%2)");
   ("export.systemLabel", "(system)");
   ("notif.newMessageTitle", "Nytt meddelande från %1");
   ("notif.newFileTitle", "Ny fil från %1");
   ("notif.newFileBody", "%1 (%2)");
   ("notif.channelName", "Meddelanden");
   ("notif.serviceRunning", "Krypterad chatt körs");
   ("notif.serviceBody", "Ansluten — du meddelas om nya meddelanden.");
   ("shortcut.unsupported", "En genväg på startskärmen kunde inte skapas på den här enheten.");
   ("sys.cannotDecrypt", "🔒 Ett tidigare meddelande kan inte längre dekrypteras (det lagrades med en tidigare identitetsnyckel).");
   ("sys.historyOpenFailed", "Historiken kunde inte öppnas; meddelanden sparas inte den här sessionen.");
   ("sys.noStorage", "Ingen skrivbar lagringsplats hittades; meddelandehistoriken är inaktiverad den här sessionen.");
   ("err.historyOpenFailed", "Den lokala historiken kunde inte öppnas; dina meddelanden lagras inte på den här enheten.");
   ("sys.fileFailed", "Filöverföringen misslyckades: %1");
   ("sys.reason.startDecrypt", "kunde inte starta dekryptering");
   ("sys.reason.openTemp", "kunde inte öppna tempfil")].

Definition en : list (string * string) := en_screens ++ en_messages.
Definition fi : list (string * string) := fi_screens ++ fi_messages.
Definition sv : list (string * string) := sv_screens ++ sv_messages.

(** [buildDictionaries], in the constructor. *)
Definition built (settings : Localization.Settings) : Localization.State :=
  Localization.newState (list_to_map en) (list_to_map fi) (list_to_map sv) settings.

(** ** What the dictionaries hold *)

(** The place markers of a text, %1 to %9. *)
Fixpoint markers (s : string) : gset string :=
  match s with
  | String a ((String d _) as rest) =>
      (if Ascii.eqb a (Ascii.ascii_of_nat 37) then {[String d EmptyString]} else ∅) ∪ markers rest
  | _ => ∅
  end.

Definition translated (m en : gmap string string) : bool :=
  bool_decide (dom m = dom en)
  && forallb (λ kv, bool_decide (kv.2 ≠ "") && bool_decide (markers kv.2 = markers (default "" (en !! kv.1))))
       (map_to_list m).

Lemma translated_spec m e key v :
  translated m e = true → e !! key = Some v →
  ∃ v', m !! key = Some v' ∧ v' ≠ "" ∧ markers v' = markers v.
Proof.
  intros [Hd Hall]%andb_true_iff He. apply bool_decide_eq_true in Hd.
  assert (key ∈ dom m) as [v' Hv]%elem_of_dom by (rewrite Hd; apply elem_of_dom; by exists v).
  exists v'. split; [done|]. rewrite forallb_forall in Hall.
  destruct (proj1 (andb_true_iff _ _) (Hall (key, v') ltac:(by apply list_elem_of_In, elem_of_map_to_list))) as [H1 H2].
  apply bool_decide_eq_true in H1, H2. cbn in *. by rewrite He in H2.
Qed.

Lemma all_translated lang : translated (Localization.mapFor lang (built ∅)) (list_to_map en) = true.
Proof. destruct lang; by vm_compute. Qed.

(** Every text of the application exists in every language: whatever the language chosen
    and kept in the settings, looking a text up gives the one of that language, which is
    not empty and takes the same arguments as the English one. *)
Theorem every_text_translated settings lang key v :
  Localization.m_en (built settings) !! key = Some v →
  let shown := Localization.tIn lang key (built settings) in
  Localization.mapFor lang (built settings) !! key = Some shown ∧ shown ≠ "" ∧
  markers shown = markers v.
Proof.
  intros Hv. cbv zeta. change (Localization.m_en (built settings)) with (Localization.m_en (built ∅)) in Hv.
  destruct (translated_spec _ _ key v (all_translated lang) Hv) as (v' & E1 & E2 & E3).
  assert (Localization.mapFor lang (built settings) !! key = Some v') as E4 by (by destruct lang).
  unfold Localization.tIn. rewrite E4. exact (conj eq_refl (conj E2 E3)).
Qed.

End Texts.
