(* ===== verification/Accounts.v ===== *)
(** * ChatClient: the identity file of an account (client/src/chatclient.cpp)

    [identityDirs], [hasLocalIdentity] and [establishIdentity]: where the identity
    of a nickname is looked for, how registering creates it and logging in opens
    it, and the migration of a raw key file of an earlier build. *)

From S2P Require Import Prelude Platform Kdf Ratchet X3dh CryptoBox Persist.

Module Accounts.

(** [return true], or the key of the error shown before [return false]. *)
Inductive Outcome :=
| Established
| AccountExistsLocally
| IdentityNotPersisted
| WrongPassword
| IdentityUnreadable
| NoAccountHere.

Fixpoint dedupe (seen candidates : list string) : list string :=
  match candidates with
  | [] => []
  | d :: rest =>
      if decide (d = ""%string ∨ d ∈ seen) then dedupe seen rest
      else d :: dedupe (seen ++ [d]) rest
  end.

(** [candidates]: the four writable locations, in the order of the code. *)
Definition identityDirs (candidates : list string) : list string := dedupe [] candidates.

(** [d + "/" + name] *)
Definition in_dir (d name : string) : string := d +:+ "/" +:+ name.

Definition ekey (nick : string) : string := nick +:+ ".ekey".
Definition rkey (nick : string) : string := nick +:+ ".key".

(** [QFile::exists]. *)
Definition exists_file (path : string) (fs : Files) : bool := bool_decide (is_Some (fs !! path)).

Definition hasLocalIdentity `{QTrim} (dirs : list string) (nickname : string) (fs : Files) : bool :=
  let nick := trimmed nickname in
  if String.eqb nick "" then false else
  existsb (λ d, exists_file (in_dir d (ekey nick)) fs || exists_file (in_dir d (rkey nick)) fs)
    dirs.

(** The first directory with a file of the account the build recognises. *)
Definition recognised (nick : string) (fs : Files) (d : string) : bool :=
  let p := in_dir d (ekey nick) in exists_file p fs && isEncryptedIdentityFile p fs.

Definition find_encrypted (dirs : list string) (nick : string) (fs : Files) : option string :=
  find (recognised nick fs) dirs.

Definition find_raw (dirs : list string) (nick : string) (fs : Files) : option string :=
  find (λ d, exists_file (in_dir d (rkey nick)) fs) dirs.

Section Establish.
Context `{Sodium} `{QtText}.

(** What one save draws and finds: salt, nonce, and how much the file takes. *)
Record Attempt := mkAttempt {
  a_salt : bytes;
  a_nonce : bytes;
  a_room : option nat;
}.

(** [saveIdentityEncrypted] and the read-back through a throwaway box. *)
Definition save_verified (p password : string) (att : Attempt) (fs : Files) (box : CryptoBox)
    : bool * Files :=
  let '(saved, fs1) :=
    saveIdentityEncrypted p password (a_salt att) (a_nonce att) (a_room att) fs box in
  if negb saved then (false, fs1) else
  let '(loaded, probe) := loadIdentityEncrypted p password fs1 newBox in
  (loaded && String.eqb (publicKeyHex probe) (publicKeyHex box), fs1).

Fixpoint save_first (dirs : list string) (nick password : string) (att : string → Attempt)
    (fs : Files) (box : CryptoBox) : bool * Files :=
  match dirs with
  | [] => (false, fs)
  | d :: rest =>
      let p := in_dir d (ekey nick) in
      let '(ok, fs1) := save_verified p password (att d) fs box in
      if ok then (true, fs1) else save_first rest nick password att fs1 box
  end.

(** [rnd]: the octets of a new identity; [removed]: whether the raw key file
    could be deleted. *)
Definition establishIdentity (dirs : list string) (nick password : string) (isRegister : bool)
    (rnd : bytes) (att : string → Attempt) (removed : bool) (fs : Files) (box : CryptoBox)
    : Outcome * Files * CryptoBox :=
  let existingEnc := find_encrypted dirs nick fs in
  let existingRaw := find_raw dirs nick fs in
  if isRegister then
    match existingEnc, existingRaw with
    | None, None =>
        let box1 := generateIdentity rnd box in
        let '(saved, fs1) := save_first dirs nick password att fs box1 in
        (if saved then Established else IdentityNotPersisted, fs1, box1)
    | _, _ => (AccountExistsLocally, fs, box)
    end
  else
    match existingEnc with
    | Some d =>
        let '(ok, box1) := loadIdentityEncrypted (in_dir d (ekey nick)) password fs box in
        (if ok then Established else WrongPassword, fs, box1)
    | None =>
        match existingRaw with
        | Some d =>
            let raw := in_dir d (rkey nick) in
            let '(ok, box1) := loadIdentity raw fs box in
            if negb ok then (IdentityUnreadable, fs, box1) else
            let '(saved, fs1) :=
              save_verified (in_dir d (ekey nick)) password (att d) fs box1 in
            (Established, if saved && removed then delete raw fs1 else fs1, box1)
        | None => (NoAccountHere, fs, box)
        end
    end.
End Establish.

End Accounts.
