(* ===== verification/AccountsFacts.v ===== *)
(** * The identity file of an account: what logging in finds *)

From S2P Require Import Prelude Platform Kdf Ratchet RatchetFacts X3dh X3dhFacts.
From S2P Require Import CryptoBox CryptoBoxFacts PrekeyFacts Persist PersistFacts.
From S2P Require Import Accounts.

Import Accounts.

(** ** File names *)

(** The wrapped and the raw file of an account are never one file. *)
Lemma ekey_rkey d d' nick : in_dir d (ekey nick) ≠ in_dir d' (rkey nick).
Proof.
  unfold in_dir, ekey, rkey. intros H%(f_equal String.list_ascii_of_string)%(f_equal (@rev _)).
  rewrite !list_ascii_app, !rev_app_distr in H. cbn in H. discriminate.
Qed.

(** Two directories, two files. *)
Lemma in_dir_inj d d' name : in_dir d name = in_dir d' name → d = d'.
Proof.
  unfold in_dir. intros H%(f_equal String.list_ascii_of_string).
  rewrite !list_ascii_app in H. rewrite !app_assoc in H.
  apply list_ascii_inj. by apply app_inv_tail, app_inv_tail in H.
Qed.

Lemma find_none {A} (f : A → bool) l : find f l = None ↔ ∀ x, x ∈ l → f x = false.
Proof.
  induction l as [|x l IH]; cbn.
  - split; [intros _ x Hx; by apply not_elem_of_nil in Hx|done].
  - destruct (f x) eqn:E.
    + split; [done|]. intros H. rewrite H in E; [done|by left].
    + rewrite IH. split; [|by intros H y Hy; apply H; right].
      intros H y [->|Hy]%elem_of_cons; auto.
Qed.

Section Accounts.
Context `{SodiumLaws} `{QtTextLaws}.

(** What a save needs to draw; the file either cannot be opened for writing or
    takes everything. *)
Definition attempt_ok (a : Attempt) : Prop :=
  length (a_salt a) = 16 ∧ length (a_nonce a) = 24 ∧
  (a_room a = None ∨ ∃ r, a_room a = Some r ∧ (97 ≤ r)).

Lemma new_identity_loaded rnd b :
  length rnd = 32 →
  identity_loaded (generateIdentity rnd b) ∧ m_identityVersion (generateIdentity rnd b) = 2%Z.
Proof.
  intros Hr. unfold generateIdentity, X3DH.generateIdentity.
  destruct (seed_keys rnd Hr) as (pk & sk & x & -> & _).
  destruct (adopt_seed_loaded rnd b Hr) as [_ Hl]. split; [done|].
  by rewrite adopt_seed_ok.
Qed.

Lemma wrapped_length path pw salt nonce r fs b k :
  identity_loaded b → length salt = 16 → length nonce = 24 →
  argon2id32 kWrapCtx (toUtf8 pw) salt = Some k →
  ∃ blob, length blob = 97 ∧ take 8 blob = kWrapMagic ∧
    at_u8 blob 8 = m_identityVersion b ∧
    saveIdentityEncrypted path pw salt nonce (Some r) fs b
    = (length (take r blob) =? length blob, <[path := take r blob]> fs).
Proof.
  intros Hb Hs Hn Hk. unfold saveIdentityEncrypted.
  rewrite (loaded_private_length b Hb), Hk. cbn [negb Nat.eqb].
  eexists. split_and!; [| | |done].
  - rewrite !length_app, secretbox_length, Hs, Hn.
    destruct (loaded_has_seed b Hb) as [(-> & _ & ->)|(-> & _ & _)]; [done|].
    by rewrite (loaded_private_length b Hb).
  - by rewrite take_app_exact.
  - rewrite at_u8_app by done.
    by destruct (loaded_has_seed b Hb) as [(-> & -> & _)|(-> & -> & _)].
Qed.

(** Saving and reading back: the file is the saved one, or nothing happened. *)
Lemma save_verified_spec p pw att fs box :
  identity_loaded box → attempt_ok att →
  match save_verified p pw att fs box with
  | (true, fs1) =>
      saveIdentityEncrypted p pw (a_salt att) (a_nonce att) (a_room att) fs box = (true, fs1)
  | (false, fs1) => fs1 = fs
  end.
Proof.
  intros Hb (Hs & Hn & Hr). unfold save_verified.
  destruct (saveIdentityEncrypted _ _ _ _ _ _ _) as [saved fs1] eqn:E.
  destruct saved; cbn [negb].
  - destruct (unwrap_saved p pw _ _ _ _ _ box newBox Hb Hs Hn E) as (pr & -> & Hsame & _).
    destruct Hsame as (_ & _ & _ & _ & Hpub). unfold publicKeyHex. rewrite Hpub.
    by rewrite String.eqb_refl.
  - destruct Hr as [Hr|(r & Hr & Hle)]; rewrite Hr in E.
    { rewrite save_unopened in E. by injection E as <-. }
    destruct (argon2id32 kWrapCtx (toUtf8 pw) (a_salt att)) as [k|] eqn:Ek.
    + destruct (wrapped_length p pw _ _ r fs box k Hb Hs Hn Ek) as (blob & Hl & _ & _ & Hsv).
      rewrite Hsv, take_ge, Nat.eqb_refl in E by lia. done.
    + unfold saveIdentityEncrypted in E. rewrite Ek in E.
      destruct (negb _); by injection E as <-.
Qed.

Lemma save_first_spec dirs nick pw att fs box fs1 :
  identity_loaded box → (∀ d, attempt_ok (att d)) →
  save_first dirs nick pw att fs box = (true, fs1) →
  ∃ d, d ∈ dirs ∧
    saveIdentityEncrypted (in_dir d (ekey nick)) pw (a_salt (att d)) (a_nonce (att d))
      (a_room (att d)) fs box = (true, fs1).
Proof.
  intros Hb Ha. revert fs. induction dirs as [|d dirs IH]; intros fs Hs; [done|].
  cbn in Hs. pose proof (save_verified_spec (in_dir d (ekey nick)) pw (att d) fs box Hb (Ha d)).
  destruct (save_verified _ _ _ _ _) as [[|] fs2].
  - injection Hs as <-. exists d. split; [by left|done].
  - subst fs2. destruct (IH fs Hs) as (d' & ? & ?). exists d'. split; [by right|done].
Qed.
(** What [find_encrypted] sees depends on the files it looks at. *)
Lemma recognised_frame nick d fs fs' :
  fs' !! in_dir d (ekey nick) = fs !! in_dir d (ekey nick) →
  recognised nick fs' d = recognised nick fs d.
Proof. intros E. unfold recognised, exists_file, isEncryptedIdentityFile. by rewrite E. Qed.

(** After a save in [d] of a version 2 identity, [d] is where it is found. *)
Lemma find_saved dirs d nick pw salt nonce room fs fs1 box :
  identity_loaded box → m_identityVersion box = 2%Z → length salt = 16 → length nonce = 24 →
  d ∈ dirs → find_encrypted dirs nick fs = None →
  saveIdentityEncrypted (in_dir d (ekey nick)) pw salt nonce room fs box = (true, fs1) →
  find_encrypted dirs nick fs1 = Some d.
Proof.
  intros Hb Hv Hs Hn Hd Hf Hsave. unfold find_encrypted in *.
  destruct (saved_recognised _ _ _ _ _ _ _ _ Hb Hs Hn Hsave) as [Hex Hrec].
  rewrite Hv in Hrec.
  assert (Hfd : recognised nick fs1 d = true).
  { unfold recognised. rewrite Hrec. unfold exists_file. by rewrite bool_decide_true. }
  assert (Hother : ∀ x, x ∈ dirs → recognised nick fs1 x = true → x = d).
  { intros x Hx Hfx. destruct (decide (x = d)) as [|Hne]; [done|].
    rewrite find_none in Hf. specialize (Hf x Hx).
    rewrite (recognised_frame nick x fs) in Hfx; [congruence|].
    eapply save_frame; [exact Hsave|]. intros E. by apply in_dir_inj in E. }
  destruct (find (recognised nick fs1) dirs) as [x|] eqn:E.
  - apply find_some in E as [Hx Hfx]. f_equal. apply Hother; [by apply list_elem_of_In|done].
  - rewrite find_none in E. by rewrite E in Hfd.
Qed.

(** C15: registering creates an account that can be logged in to, if no file is cut
    short.  Suppose that each directory either refuses the file or takes all of it (the
    code does not look at what [write] returns, and a short write breaks this, see
    [short_write_shadows_account]).  Then when registration reports success, logging in
    later with the same password, from any state of the client, finds the file, opens
    it, and yields the very identity that was created; no file is changed. *)
Theorem register_then_login dirs nick pw rnd att rm fs box fs1 box1 rnd' att' rm' b :
  (∀ d, attempt_ok (att d)) → length rnd = 32 →
  establishIdentity dirs nick pw true rnd att rm fs box = (Established, fs1, box1) →
  ∃ b', establishIdentity dirs nick pw false rnd' att' rm' fs1 b = (Established, fs1, b') ∧
        same_identity b' box1 ∧ m_identityVersion b' = 2%Z.
Proof.
  intros Ha Hr. unfold establishIdentity at 1.
  destruct (find_encrypted dirs nick fs) eqn:Ef; [done|].
  destruct (find_raw dirs nick fs) eqn:Er; [done|].
  destruct (new_identity_loaded rnd box Hr) as [Hl Hv].
  destruct (save_first _ _ _ _ _ _) as [[|] fs2] eqn:Es; [|done]. intros [= <- <-].
  destruct (save_first_spec _ _ _ _ _ _ _ Hl Ha Es) as (d & Hd & Hsave).
  destruct (Ha d) as (Hs & Hn & _).
  pose proof (find_saved _ _ _ _ _ _ _ _ _ _ Hl Hv Hs Hn Hd Ef Hsave) as Hf.
  destruct (unwrap_saved _ _ _ _ _ _ _ _ b Hl Hs Hn Hsave) as (b' & Hload & Hsame & _).
  exists b'. unfold establishIdentity. rewrite Hf, Hload. split_and!; [done..|].
  destruct Hsame as [-> _]. exact Hv.
Qed.

Lemma failed_plain_load path fs b b' : loadIdentity path fs b = (false, b') → b' = b.
Proof.
  unfold loadIdentity. destruct (fs !! path) as [raw|]; [|by intros [= <-]].
  destruct (_ && _) eqn:E.
  - apply andb_true_iff in E as [E%Nat.eqb_eq _].
    destruct (negb _); [by intros [= <-]|]. rewrite adopt_seed_ok; [done|].
    rewrite length_take, length_drop. lia.
  - destruct (negb _); [by intros [= <-]|done].
Qed.

(** a refused login is harmless. Whatever the reason (no account, a wrong
    password, an unreadable key), the files and the client's identity are as they
    were; nothing is created, overwritten or half loaded. *)
Theorem refused_login_changes_nothing dirs nick pw rnd att rm fs b o fs' b' :
  establishIdentity dirs nick pw false rnd att rm fs b = (o, fs', b') → o ≠ Established →
  fs' = fs ∧ b' = b.
Proof.
  unfold establishIdentity. intros He Ho. destruct (find_encrypted _ _ _) as [d|].
  - destruct (loadIdentityEncrypted _ _ _ _) as [ok b1] eqn:E.
    destruct ok; injection He as <- <- <-; [done|].
    split; [done|]. by eapply failed_load_changes_nothing.
  - destruct (find_raw _ _ _) as [d|]; [|by injection He as <- <- <-].
    destruct (loadIdentity _ _ _) as [ok b1] eqn:E. destruct ok; cbn [negb] in He.
    + destruct (save_verified _ _ _ _ _). by injection He as <- <- <-.
    + injection He as <- <- <-. split; [done|]. by eapply failed_plain_load.
Qed.
(** ** Raw keys of earlier builds *)

(** The account [nick] as an earlier build left it: one raw 32-octet key, in [d],
    and nothing else. *)
Record legacy_account (d : string) (dirs : list string) (nick : string) (key : bytes)
    (fs : Files) : Prop := {
  la_dir : d ∈ dirs;
  la_raw : fs !! in_dir d (rkey nick) = Some key;
  la_key : length key = 32;
  la_only : ∀ d', d' ∈ dirs → d' ≠ d → fs !! in_dir d' (rkey nick) = None;
  la_no_enc : ∀ d', d' ∈ dirs → fs !! in_dir d' (ekey nick) = None;
}.

Lemma no_enc_not_found dirs nick fs :
  (∀ d, d ∈ dirs → fs !! in_dir d (ekey nick) = None) → find_encrypted dirs nick fs = None.
Proof.
  intros Hn. apply find_none. intros d Hd. unfold recognised, exists_file.
  rewrite bool_decide_false; [done|]. rewrite (Hn d Hd). by intros [].
Qed.

Lemma legacy_found d dirs nick key fs :
  legacy_account d dirs nick key fs → find_raw dirs nick fs = Some d.
Proof.
  intros [Hd Hr _ Ho _]. unfold find_raw. destruct (find _ dirs) as [x|] eqn:E.
  - apply find_some in E as [Hx Hfx]. f_equal. apply list_elem_of_In in Hx.
    destruct (decide (x = d)) as [|Hne]; [done|].
    unfold exists_file in Hfx. rewrite (Ho x Hx Hne) in Hfx. done.
  - rewrite find_none in E. specialize (E d Hd). unfold exists_file in E.
    rewrite Hr in E. apply bool_decide_eq_false in E. destruct E. by eexists.
Qed.

(** What the migration of a legacy account leaves on the disk. *)
Lemma migration_result d dirs nick key fs pw rnd att b fs1 b1 :
  legacy_account d dirs nick key fs → attempt_ok (att d) →
  establishIdentity dirs nick pw false rnd att true fs b = (Established, fs1, b1) →
  fs1 !! in_dir d (rkey nick) = None →
  b1 = adopt_legacy key b ∧
  (∃ fs', saveIdentityEncrypted (in_dir d (ekey nick)) pw (a_salt (att d)) (a_nonce (att d))
            (a_room (att d)) fs b1 = (true, fs') ∧ fs1 = delete (in_dir d (rkey nick)) fs').
Proof.
  intros Hla Ha. pose proof Hla as [Hd Hr Hk Ho Hn]. unfold establishIdentity.
  rewrite (no_enc_not_found _ _ _ Hn), (legacy_found _ _ _ _ _ Hla).
  unfold loadIdentity. rewrite Hr, Hk. cbn [andb Nat.eqb Nat.add negb].
  pose proof (adopt_legacy_loaded key b Hk) as Hl.
  pose proof (save_verified_spec (in_dir d (ekey nick)) pw (att d) fs _ Hl Ha) as Hsv.
  destruct (save_verified _ _ _ _ _) as [[|] fs']; cbn [andb]; intros [= <- <-] Hgone.
  - split; [done|]. eauto.
  - subst fs'. congruence.
Qed.

Lemma migrated_not_found d dirs nick key fs pw att b fs' :
  legacy_account d dirs nick key fs → attempt_ok (att d) →
  saveIdentityEncrypted (in_dir d (ekey nick)) pw (a_salt (att d)) (a_nonce (att d))
    (a_room (att d)) fs (adopt_legacy key b) = (true, fs') →
  let fs1 := delete (in_dir d (rkey nick)) fs' in
  find_encrypted dirs nick fs1 = None ∧ find_raw dirs nick fs1 = None ∧
  fs1 !! in_dir d (ekey nick) = fs' !! in_dir d (ekey nick).
Proof.
  intros [Hd Hr Hk Ho Hn] (Hs & Hno & _) Hsave fs1.
  pose proof (adopt_legacy_loaded key b Hk) as Hl.
  destruct (saved_recognised _ _ _ _ _ _ _ _ Hl Hs Hno Hsave) as [_ Hrec].
  change (m_identityVersion (adopt_legacy key b)) with 1%Z in Hrec.
  assert (He : ∀ d', fs1 !! in_dir d' (ekey nick) = fs' !! in_dir d' (ekey nick)).
  { intros d'. apply lookup_delete_ne. intros E. symmetry in E. by apply ekey_rkey in E. }
  split_and!; [| |apply He].
  - apply find_none. intros d' Hd'. destruct (decide (d' = d)) as [->|Hne].
    + rewrite (recognised_frame nick d fs') by apply He. unfold recognised. rewrite Hrec.
      apply andb_false_r.
    + unfold recognised, exists_file. rewrite He.
      rewrite (save_frame _ _ _ _ _ _ _ _ _ (in_dir d' (ekey nick)) Hsave)
        by (intros E; by apply in_dir_inj in E).
      rewrite (Hn d' Hd'), bool_decide_false; [done|by intros []].
  - apply find_none. intros d' Hd'. unfold exists_file. apply bool_decide_eq_false.
    destruct (decide (d' = d)) as [->|Hne].
    + unfold fs1. rewrite lookup_delete_eq. by intros [].
    + unfold fs1. rewrite lookup_delete_ne by (intros E; by apply in_dir_inj in E).
      rewrite (save_frame _ _ _ _ _ _ _ _ _ (in_dir d' (rkey nick)) Hsave)
        by (intros E; symmetry in E; by apply ekey_rkey in E).
      rewrite (Ho d' Hd' Hne). by intros [].
Qed.
(** C38: a migrated legacy account can no longer be logged in to. Logging in to an
    account that has a raw key migrates it: the key is wrapped under the password,
    read back, and the raw file removed. Every later login, with that password or
    another, is answered "no account here": the wrapped file is there, holds the
    key and opens with the password, but is not recognised. *)
Theorem migrated_account_locked_out d dirs nick key fs pw rnd att b fs1 b1 :
  legacy_account d dirs nick key fs → attempt_ok (att d) →
  establishIdentity dirs nick pw false rnd att true fs b = (Established, fs1, b1) →
  fs1 !! in_dir d (rkey nick) = None →
  (∃ b2, loadIdentityEncrypted (in_dir d (ekey nick)) pw fs1 newBox = (true, b2) ∧
         m_privateKey b2 = key) ∧
  ∀ pw' rnd' att' rm' b',
    establishIdentity dirs nick pw' false rnd' att' rm' fs1 b' = (NoAccountHere, fs1, b').
Proof.
  intros Hla Ha He Hgone.
  destruct (migration_result _ _ _ _ _ _ _ _ _ _ _ Hla Ha He Hgone) as (-> & fs' & Hs & ->).
  destruct (migrated_not_found _ _ _ _ _ _ _ _ _ Hla Ha Hs) as (Hf & Hr & Hsame).
  pose proof (adopt_legacy_loaded key b (la_key _ _ _ _ _ Hla)) as Hl.
  destruct Ha as (Hsalt & Hnonce & _). split.
  - destruct (unwrap_saved _ _ _ _ _ _ _ _ newBox Hl Hsalt Hnonce Hs)
      as (b2 & Hload & (_ & _ & _ & Hp & _) & _).
    exists b2. split; [|done]. unfold loadIdentityEncrypted in *. by rewrite Hsame.
  - intros pw' rnd' att' rm' b'. unfold establishIdentity. by rewrite Hf, Hr.
Qed.

(** registering over a migrated account destroys it. Told that there is no
    account, the user can register the nickname again: if the first directory is
    where the account was and takes the file, the registration succeeds and its
    new identity replaces the wrapped file, the only copy of the key. *)
Theorem registration_overwrites_migrated d dirs nick key fs pw rnd att b fs1 b1
    pw' rnd' att' rm' b' k r :
  legacy_account d (d :: dirs) nick key fs → attempt_ok (att d) →
  establishIdentity (d :: dirs) nick pw false rnd att true fs b = (Established, fs1, b1) →
  fs1 !! in_dir d (rkey nick) = None →
  attempt_ok (att' d) → a_room (att' d) = Some r → length rnd' = 32 →
  argon2id32 kWrapCtx (toUtf8 pw') (a_salt (att' d)) = Some k →
  ∃ fs2 b2 b3,
    establishIdentity (d :: dirs) nick pw' true rnd' att' rm' fs1 b' = (Established, fs2, b2) ∧
    fs2 !! in_dir d (rkey nick) = None ∧
    fs2 !! in_dir d (ekey nick) ≠ fs1 !! in_dir d (ekey nick) ∧
    loadIdentityEncrypted (in_dir d (ekey nick)) pw' fs2 newBox = (true, b3) ∧
    m_identitySeed b3 = rnd'.
Proof.
  intros Hla Ha He Hgone Ha' Hroom Hr Hk.
  destruct (migration_result _ _ _ _ _ _ _ _ _ _ _ Hla Ha He Hgone) as (-> & fs' & Hs & E1).
  destruct (migrated_not_found _ _ _ _ _ _ _ _ _ Hla Ha Hs) as (Hf & Hfr & Hsame).
  rewrite <- E1 in *. clear He.
  destruct (new_identity_loaded rnd' b' Hr) as [Hl2 Hv2].
  pose proof Ha' as (Hs2 & Hn2 & [Hbad|(r' & Er & Hr')]); [congruence|].
  rewrite Hroom in Er. injection Er as <-.
  destruct (wrapped_length (in_dir d (ekey nick)) pw' _ _ r fs1 _ k Hl2 Hs2 Hn2 Hk)
    as (blob & Lb & _ & Hver & Hsave).
  rewrite take_ge, Nat.eqb_refl in Hsave by lia. rewrite <- Hroom in Hsave.
  set (fs2 := <[in_dir d (ekey nick):=blob]> fs1) in *.
  destruct (unwrap_saved _ _ _ _ _ _ _ _ newBox Hl2 Hs2 Hn2 Hsave)
    as (b3 & Hload & Hsame3 & _).
  exists fs2, (generateIdentity rnd' b'), b3. split_and!; [| | |done|].
  - unfold establishIdentity. rewrite Hf, Hfr. cbn [save_first]. unfold save_verified.
    rewrite Hsave. cbn [negb]. rewrite Hload. cbn [andb]. unfold publicKeyHex.
    destruct Hsame3 as (_ & _ & _ & _ & ->). by rewrite String.eqb_refl.
  - unfold fs2. rewrite lookup_insert_ne by apply ekey_rkey. done.
  - unfold fs2. rewrite lookup_insert_eq, Hsame.
    destruct Ha as (Hs1 & Hn1 & _).
    pose proof (adopt_legacy_loaded key b (la_key _ _ _ _ _ Hla)) as Hl1.
    destruct (saved_recognised _ _ _ _ _ _ _ _ Hl1 Hs1 Hn1 Hs) as [_ Hrec1].
    destruct (saved_recognised _ _ _ _ _ _ _ _ Hl2 Hs2 Hn2 Hsave) as [_ Hrec2].
    unfold isEncryptedIdentityFile in Hrec1, Hrec2. unfold fs2 in Hrec2.
    rewrite lookup_insert_eq, Hv2 in Hrec2. intros E. rewrite <- E in Hrec1.
    rewrite Hrec1 in Hrec2. done.
  - destruct Hsame3 as (_ & -> & _). unfold generateIdentity, X3DH.generateIdentity.
    destruct (seed_keys rnd' Hr) as (pk & sk & x & -> & _). by rewrite adopt_seed_ok.
Qed.

(** a short write shadows the account. A registration that could write only
    part of the file in one directory, and all of it in the next, reports
    success; but the first file begins like a wrapped identity, so every login
    stops at it and answers "wrong password". *)
Theorem short_write_shadows_account d1 d2 dirs nick pw rnd att rm fs box fs1 box1 r k
    pw' rnd' att' rm' b :
  d1 ≠ d2 → fs !! in_dir d2 (ekey nick) = None →
  length (a_salt (att d1)) = 16 → length (a_nonce (att d1)) = 24 →
  a_room (att d1) = Some r → (9 ≤ r < 97) →
  argon2id32 kWrapCtx (toUtf8 pw) (a_salt (att d1)) = Some k →
  attempt_ok (att d2) → length rnd = 32 →
  establishIdentity [d1; d2] nick pw true rnd att rm fs box = (Established, fs1, box1) →
  (∃ b2, loadIdentityEncrypted (in_dir d2 (ekey nick)) pw fs1 newBox = (true, b2) ∧
         same_identity b2 box1) ∧
  establishIdentity ([d1; d2] ++ dirs) nick pw' false rnd' att' rm' fs1 b
  = (WrongPassword, fs1, b).
Proof.
  intros Hne Hd2 Hs1 Hn1 Hroom Hr Hk Ha2 Hrnd. unfold establishIdentity at 1.
  destruct (find_encrypted _ _ fs) eqn:Ef; [done|].
  destruct (find_raw _ _ fs) eqn:Er; [done|].
  destruct (new_identity_loaded rnd box Hrnd) as [Hl Hv].
  destruct (wrapped_length (in_dir d1 (ekey nick)) pw _ _ r fs _ k Hl Hs1 Hn1 Hk)
    as (blob & Lb & Hmagic & Hver & Hsave1).
  assert (Hshort : length (take r blob) = r) by (rewrite length_take; lia).
  cbn [save_first]. unfold save_verified at 1. rewrite Hroom, Hsave1, Hshort.
  rewrite (proj2 (Nat.eqb_neq r (length blob))) by lia. cbn [negb].
  set (fsA := <[in_dir d1 (ekey nick):=take r blob]> fs).
  pose proof (save_verified_spec (in_dir d2 (ekey nick)) pw (att d2) fsA _ Hl Ha2) as Hsv.
  destruct (save_verified _ _ _ _ _) as [[|] fs2]; [|done]. intros [= <- <-].
  destruct Ha2 as (Hs2 & Hn2 & _). split.
  { destruct (unwrap_saved _ _ _ _ _ _ _ _ newBox Hl Hs2 Hn2 Hsv) as (b2 & ? & ? & _); eauto. }
  assert (E1 : fs2 !! in_dir d1 (ekey nick) = Some (take r blob)).
  { rewrite (save_frame _ _ _ _ _ _ _ _ _ (in_dir d1 (ekey nick)) Hsv)
      by (intros E; by apply in_dir_inj in E).
    unfold fsA. by rewrite lookup_insert_eq. }
  assert (Hrec : recognised nick fs2 d1 = true).
  { unfold recognised, exists_file, isEncryptedIdentityFile. rewrite E1.
    rewrite bool_decide_true by eauto. cbn [andb].
    rewrite take_take, Nat.min_l by lia. rewrite length_take, Lb, decide_False by lia.
    rewrite take_take, Nat.min_l, Hmagic, bool_decide_true by (done || lia). cbn [negb].
    assert (at_u8 (take (8 + 1) blob) 8 = at_u8 blob 8) as ->.
    { unfold at_u8. by rewrite nth_firstn. }
    by rewrite Hver, Hv. }
  unfold establishIdentity, find_encrypted. cbn [app find]. rewrite Hrec.
  unfold loadIdentityEncrypted. rewrite E1, Hshort, decide_True by lia. done.
Qed.
End Accounts.
