(* ===== verification/Settings.v ===== *)
(** * QSettings: the application's persistent settings

    A key maps to a variant.  A read gives the value itself when it has the type
    asked for; what Qt makes of a value of another type is a parameter, and a key
    that is absent reads as the default. *)

From S2P Require Import Prelude Platform.

Inductive Variant := VBool (b : bool) | VInt (n : Z) | VText (s : string) | VBytes (b : bytes).

Abbreviation Settings := (gmap string Variant).

(** [QVariant]'s conversions from another type. *)
Class QVariantCasts := {
  cast_bool : Variant → bool;
  cast_int : Variant → Z;
  cast_text : Variant → string;
  cast_bytes : Variant → bytes;
}.

Section Reads.
Context `{QVariantCasts}.

Definition read_bool (key : string) (dflt : bool) (s : Settings) : bool :=
  match s !! key with
  | None => dflt
  | Some (VBool b) => b
  | Some v => cast_bool v
  end.

Definition read_int (key : string) (dflt : Z) (s : Settings) : Z :=
  match s !! key with
  | None => dflt
  | Some (VInt n) => n
  | Some v => cast_int v
  end.

Definition read_text (key : string) (s : Settings) : string :=
  match s !! key with
  | None => ""
  | Some (VText t) => t
  | Some v => cast_text v
  end.

Definition read_bytes (key : string) (s : Settings) : bytes :=
  match s !! key with
  | None => []
  | Some (VBytes b) => b
  | Some v => cast_bytes v
  end.

(** A read sees the last write of its key, and no other. *)
Lemma read_bool_set key d v s : read_bool key d (<[key := VBool v]> s) = v.
Proof. unfold read_bool. by rewrite lookup_insert_eq. Qed.

Lemma read_int_set key d v s : read_int key d (<[key := VInt v]> s) = v.
Proof. unfold read_int. by rewrite lookup_insert_eq. Qed.

Lemma read_text_set key v s : read_text key (<[key := VText v]> s) = v.
Proof. unfold read_text. by rewrite lookup_insert_eq. Qed.

Lemma read_bytes_set key v s : read_bytes key (<[key := VBytes v]> s) = v.
Proof. unfold read_bytes. by rewrite lookup_insert_eq. Qed.

Lemma read_text_gone key s : read_text key (delete key s) = "".
Proof. unfold read_text. by rewrite lookup_delete_eq. Qed.

Lemma read_other key key' v s :
  key ≠ key' →
  (∀ d, read_bool key' d (<[key := v]> s) = read_bool key' d s) ∧
  (∀ d, read_int key' d (<[key := v]> s) = read_int key' d s) ∧
  read_text key' (<[key := v]> s) = read_text key' s ∧
  read_bytes key' (<[key := v]> s) = read_bytes key' s.
Proof.
  intros Hk. unfold read_bool, read_int, read_text, read_bytes.
  by rewrite lookup_insert_ne.
Qed.

Lemma read_other_gone key key' s :
  key ≠ key' →
  (∀ d, read_bool key' d (delete key s) = read_bool key' d s) ∧
  (∀ d, read_int key' d (delete key s) = read_int key' d s) ∧
  read_text key' (delete key s) = read_text key' s ∧
  read_bytes key' (delete key s) = read_bytes key' s.
Proof.
  intros Hk. unfold read_bool, read_int, read_text, read_bytes.
  by rewrite lookup_delete_ne.
Qed.
End Reads.
