(* ===== verification/AppLock.v ===== *)
(** * AppLock: the platform's prompt and the login vault (client/src/applock.cpp)

    The Windows Hello build, and the builds without a backend.  The COM calls are
    arguments: whether each succeeds and what it returns.  The Android bodies only
    marshal to Java and are not modelled. *)

From S2P Require Import Prelude Platform Settings.

Module AppLock.

(** ** Waiting for a WinRT operation *)

(** What [get_Status] answers: a failure, or the status. *)
Inductive Poll := PollFailed | Status (n : Z).

Definition AS_Completed : Z := 1.
Definition AS_Canceled : Z := 2.
Definition AS_Error : Z := 3.
Definition UCV_Verified : Z := 0.
Definition UCV_Available : Z := 0.

(** One [IAsyncOperation]: can it be asked for its status, what it answers to the
    [i]-th question, and its result. *)
Record AsyncOp := mkOp {
  op_info : bool;
  op_poll : nat → Poll;
  op_result : option Z;
}.

Inductive Wait := Completed | GaveUp | OutOfFuel.

(** The loop: the answer, the polls made and the milliseconds slept. *)
Fixpoint await_loop (fuel : nat) (capMs : Z) (poll : nat → Poll) (polls : nat) (waited : Z)
    : Wait * nat * Z :=
  match fuel with
  | O => (OutOfFuel, polls, waited)
  | S f =>
      match poll polls with
      | PollFailed => (GaveUp, S polls, waited)
      | Status n =>
          if (n =? AS_Completed)%Z then (Completed, S polls, waited)
          else if (n =? AS_Error)%Z || (n =? AS_Canceled)%Z then (GaveUp, S polls, waited)
          else if (capMs <=? waited)%Z then (GaveUp, S polls, waited)
          else await_loop f capMs poll (S polls) (waited + 25)
      end
  end.

Definition await_fuel (capMs : Z) : nat := S (S (Z.to_nat (capMs / 25))).

Definition awaitEnumResult (op : AsyncOp) (capMs : Z) : Z :=
  if negb (op_info op) then -1 else
  match (await_loop (await_fuel capMs) capMs (op_poll op) 0 0).1.1 with
  | Completed => default (-1)%Z (op_result op)
  | GaveUp | OutOfFuel => -1
  end.

(** ** The verification prompt *)

(** What the system answers: the message string, the interop factory and its
    operation, the statics and theirs. *)
Record HelloEnv := mkHello {
  he_api : bool;
  he_msg : bool;
  he_class : bool;
  he_interop : bool;
  he_interop_op : option AsyncOp;
  he_statics : bool;
  he_statics_op : option AsyncOp;
}.

Definition checkAvailabilityBlocking (statics : bool) (op : option AsyncOp) : bool :=
  if negb statics then false else
  match op with
  | Some o => (awaitEnumResult o 2000 =? UCV_Available)%Z
  | None => false
  end.

(** [static int cached] is the second result. *)
Definition biometricAvailable (hello cached apiOk statics : bool) (op : option AsyncOp)
    : bool * bool :=
  if negb hello then (false, cached) else
  if cached then (true, cached) else
  if negb apiOk then (false, cached) else
  let result := checkAvailabilityBlocking statics op in
  (result, result || cached).

(** (verified, the prompts shown). *)
Definition runHelloVerification (env : HelloEnv) : bool * nat :=
  if negb (he_msg env) then (false, 0) else
  let '(verified, interopShown) :=
    if he_class env && he_interop env then
      match he_interop_op env with
      | Some op => (awaitEnumResult op 120000, true)
      | None => ((-1)%Z, false)
      end
    else ((-1)%Z, false) in
  let '(verified, shown) :=
    if interopShown then (verified, 1)
    else if he_statics env then
      match he_statics_op env with
      | Some op => (awaitEnumResult op 120000, 1)
      | None => (verified, 0)
      end
    else (verified, 0) in
  ((verified =? UCV_Verified)%Z, shown).

(** [requestUnlock]: the same steps inline; whether [onBiometricSucceeded] is
    queued, and the prompts shown. *)
Definition requestUnlock (hello client : bool) (env : HelloEnv) : bool * nat :=
  if negb hello || negb (he_api env) then (false, 0) else
  let '(verified, shown) := runHelloVerification env in
  (verified && client, shown).

(** ** The login vault *)

(** Crypt32, resolved at run time: whether it is there, and its two calls, [None]
    for a failure. *)
Class Dpapi := {
  crypt32_ok : bool;
  CryptProtectData : bytes → option bytes;
  CryptUnprotectData : bytes → option bytes;
}.

(** What was wrapped for a user unwraps for that user. *)
Class DpapiLaws `{Dpapi} := {
  unprotect_protect p w : CryptProtectData p = Some w → CryptUnprotectData w = Some p;
}.

(** The empty array for a failure. *)
Definition dpapiWrap `{Dpapi} (plain : bytes) : bytes :=
  if negb crypt32_ok then [] else default [] (CryptProtectData plain).

Definition dpapiUnwrap `{Dpapi} (blob : bytes) : bytes :=
  if negb crypt32_ok || bool_decide (blob = []) then []
  else default [] (CryptUnprotectData blob).

Definition vaultBlobKey (nick : string) : string := "biologin/" +:+ nick +:+ "/blob".
Definition vaultOnKey (nick : string) : string := "biologin/" +:+ nick +:+ "/on".

Section Vault.
Context `{QtText} `{Dpapi} `{QVariantCasts}.

Definition loginAvailable (hello cached apiOk statics : bool) (op : option AsyncOp)
    : bool * bool :=
  if hello then biometricAvailable hello cached apiOk statics op else (false, cached).

Definition hasLoginEnrolled (hello : bool) (nick : string) (s : Settings) : bool :=
  hello && read_bool (vaultOnKey nick) false s
  && negb (bool_decide (read_bytes (vaultBlobKey nick) s = [])).

Definition enrollLogin (hello : bool) (nick password : string) (s : Settings) : Settings :=
  if negb hello then s else
  let wrapped := dpapiWrap (toUtf8 password) in
  if decide (wrapped = []) then s
  else <[vaultOnKey nick := VBool true]> (<[vaultBlobKey nick := VBytes wrapped]> s).

(** What the worker thread captured. *)
Record Prompt := mkPrompt { capturedNick : string; wrapped : bytes }.

Definition loginWithBiometric (hello : bool) (nick : string) (s : Settings) : option Prompt :=
  if negb hello then None else
  let w := read_bytes (vaultBlobKey nick) s in
  if decide (w = []) then None else Some (mkPrompt nick w).

(** The worker: the arguments of the queued [onBiometricLoginUnlocked]. *)
Definition answerPrompt (client : bool) (env : HelloEnv) (p : Prompt)
    : option (string * string) :=
  if negb (he_api env) then None else
  if negb (runHelloVerification env).1 then None else
  let pw := dpapiUnwrap (wrapped p) in
  if decide (pw = []) then None else
  if negb client then None else Some (capturedNick p, fromUtf8 pw).

Definition clearLogin (hello : bool) (nick : string) (s : Settings) : Settings :=
  if negb hello then s else delete (vaultOnKey nick) (delete (vaultBlobKey nick) s).
End Vault.

End AppLock.
