(* ===== verification/AppLockFacts.v ===== *)
(** * The Windows Hello calls: bounded waits and a single prompt *)

From S2P Require Import Prelude Platform Settings AppLock.

Import AppLock.

(** A blob that was made unwraps to what was put in. *)
Lemma dpapi_roundtrip `{DpapiLaws} p : dpapiWrap p ≠ [] → dpapiUnwrap (dpapiWrap p) = p.
Proof.
  unfold dpapiWrap, dpapiUnwrap. destruct crypt32_ok; [|done]. cbn [negb orb].
  destruct (CryptProtectData p) as [w|] eqn:E; [|done]. cbn. intros Hw.
  rewrite bool_decide_false by done. by rewrite (unprotect_protect p w).
Qed.

(** After [polls] polls, [25 * polls] milliseconds have been slept. *)
Lemma await_loop_bounds fuel capMs poll polls :
  (0 ≤ capMs)%Z → (25 * Z.of_nat polls < capMs + 25)%Z →
  (capMs / 25 + 2 ≤ Z.of_nat (polls + fuel))%Z →
  let '(r, n, waited) := await_loop fuel capMs poll polls (25 * Z.of_nat polls) in
  r ≠ OutOfFuel ∧ (waited < capMs + 25)%Z ∧ waited = (25 * (Z.of_nat n - 1))%Z.
Proof.
  intros Hc. revert polls. induction fuel as [|fuel IH]; intros polls Hp Hf; cbn [await_loop].
  - exfalso. rewrite Nat.add_0_r in Hf.
    pose proof (Z.div_mod capMs 25 ltac:(lia)). pose proof (Z.mod_pos_bound capMs 25 ltac:(lia)). lia.
  - destruct (poll polls) as [|n]; [split; [done|lia]|].
    destruct (n =? AS_Completed)%Z; [split; [done|lia]|].
    destruct (_ || _); [split; [done|lia]|].
    destruct (Z.leb_spec capMs (25 * Z.of_nat polls)); [split; [done|lia]|].
    replace (25 * Z.of_nat polls + 25)%Z with (25 * Z.of_nat (S polls))%Z by lia.
    apply IH; lia.
Qed.

(** waiting for the system ends. Whatever an operation answers, the loop makes at
    most [capMs / 25 + 2] polls and sleeps less than [capMs] and one step, and its
    fuel never runs out; a positive answer is the result of a completed operation. *)
Theorem await_terminates op capMs :
  (0 ≤ capMs)%Z →
  let '(r, polls, waited) := await_loop (await_fuel capMs) capMs (op_poll op) 0 0 in
  r ≠ OutOfFuel ∧ (Z.of_nat polls ≤ capMs / 25 + 2)%Z ∧ (waited < capMs + 25)%Z ∧
  ((0 ≤ awaitEnumResult op capMs)%Z → r = Completed ∧ op_result op = Some (awaitEnumResult op capMs)).
Proof.
  intros Hc. pose proof (Z.div_pos capMs 25 Hc ltac:(lia)) as Hd.
  pose proof (await_loop_bounds (await_fuel capMs) capMs (op_poll op) 0 Hc) as Hb.
  unfold awaitEnumResult.
  change (25 * Z.of_nat 0)%Z with 0%Z in Hb. unfold await_fuel in *.
  destruct (await_loop _ capMs (op_poll op) 0 0) as [[r polls] waited].
  destruct Hb as (H1 & H2 & ->); [lia|lia|]. split_and!; [done| |done|].
  - pose proof (Z.div_mod capMs 25 ltac:(lia)). pose proof (Z.mod_pos_bound capMs 25 ltac:(lia)). lia.
  - destruct (op_info op); [|cbn; lia]. cbn [negb fst].
    destruct r; [|lia|lia]. destruct (op_result op); [done|cbn; lia].
Qed.

(** one click, one prompt. A verification shows at most one prompt, and it is only
    reported verified when the operation of the prompt shown completed with the
    answer "verified". *)
Theorem hello_prompts_once env :
  let '(verified, shown) := runHelloVerification env in
  shown ≤ 1 ∧
  (verified = true → shown = 1 ∧ ∃ op,
     (he_interop_op env = Some op ∨ he_statics_op env = Some op) ∧
     awaitEnumResult op 120000 = UCV_Verified).
Proof.
  unfold runHelloVerification. destruct (he_msg env); [|split; [lia|done]]. cbn [negb].
  destruct (he_class env && he_interop env); [destruct (he_interop_op env) as [op|]|];
    [split; [lia|]; intros Hv%Z.eqb_eq; eauto| |].
  all: destruct (he_statics env); [|split; [lia|done]].
  all: destruct (he_statics_op env) as [op|]; [|split; [lia|done]].
  all: split; [lia|]; intros Hv%Z.eqb_eq; eauto.
Qed.
