(* ===== verification/Bridge.v ===== *)
(** * The login vault of Android (client/src/applock.cpp and BiometricHelper.java)

    On Android the bridge passes every call to Java.  The password of one account is kept
    sealed in the preferences, under a key of the Android key store that works only inside
    an authorised prompt; a prompt is answered later, by the user, and the answer is posted
    to the client.  The key store and its cipher are parameters. *)

From S2P Require Import Prelude Platform.

(** AES-GCM inside the key store; [None] for a cipher that throws. *)
Class Keystore := {
  Key : Type;
  generateKey : nat → Key;
  doSeal : Key → bytes → bytes → option bytes;
  doOpen : Key → bytes → bytes → option bytes;
}.

Class KeystoreLaws `{Keystore} := {
  open_seal k iv p ct : doSeal k iv p = Some ct → doOpen k iv ct = Some p;
}.

(** [getBytes(UTF_8)] and [new String(_, UTF_8)] of Java, and the octets that
    [GetStringUTFChars] gives for a Java string. *)
Class JavaText := {
  java_getBytes : string → bytes;
  java_newString : bytes → string;
  GetStringUTFChars : string → bytes;
}.

Module AndroidLock.
Section Android.
Context `{QtText} `{JavaText} `{Keystore}.

(** The device: its API level, whether the activity is there, what the system says of its
    sensors, and whether a new fingerprint has made the key unusable. *)
Record Device := mkDevice {
  SDK_INT : Z;
  activity : bool;
  sensors : bool;
  invalidated : bool;
}.

Definition VERSION_P : Z := 28.

Inductive Prompt :=
| AskUnlock
| AskEnroll (nick password : string) (key : Key) (iv : bytes)
| AskLogin (key : Key) (iv ct : bytes).

(** What the Qt thread has been asked to run. *)
Inductive Posted :=
| onBiometricSucceeded
| onBiometricLoginUnlocked (nick password : string).

Record State := mkState {
  s_client : bool;
  s_loginNick : string;
  p_nick : option string;
  p_iv : option bytes;
  p_ct : option bytes;
  alias : option Key;
  generated : nat;
  flag_secure : bool;
  prompts : list Prompt;
  posted : list Posted;
}.

Definition set_client (c : bool) (s : State) : State :=
  mkState (s_client s || c) (s_loginNick s) (p_nick s) (p_iv s) (p_ct s) (alias s) (generated s)
    (flag_secure s) (prompts s) (posted s).
Definition set_login_nick (n : string) (s : State) : State :=
  mkState (s_client s) n (p_nick s) (p_iv s) (p_ct s) (alias s) (generated s)
    (flag_secure s) (prompts s) (posted s).
Definition ask (p : Prompt) (s : State) : State :=
  mkState (s_client s) (s_loginNick s) (p_nick s) (p_iv s) (p_ct s) (alias s) (generated s)
    (flag_secure s) (prompts s ++ [p]) (posted s).
Definition post (p : Posted) (s : State) : State :=
  mkState (s_client s) (s_loginNick s) (p_nick s) (p_iv s) (p_ct s) (alias s) (generated s)
    (flag_secure s) (prompts s) (posted s ++ [p]).
Definition take_prompt (i : nat) (s : State) : State :=
  mkState (s_client s) (s_loginNick s) (p_nick s) (p_iv s) (p_ct s) (alias s) (generated s)
    (flag_secure s) (delete i (prompts s)) (posted s).

(** ** BiometricHelper *)
Definition canAuthenticate (d : Device) : bool := sensors d.

(** [if (activity == null || SDK_INT < P) return]. *)
Definition authenticate (d : Device) (s : State) : State :=
  if negb (activity d) || (SDK_INT d <? VERSION_P)%Z then s else ask AskUnlock s.

Definition java_setSecure (secure : bool) (s : State) : State :=
  mkState (s_client s) (s_loginNick s) (p_nick s) (p_iv s) (p_ct s) (alias s) (generated s)
    secure (prompts s) (posted s).

Definition java_hasLoginEnrolled (nick : string) (s : State) : bool :=
  bool_decide (p_nick s = Some nick) && bool_decide (is_Some (p_iv s))
  && bool_decide (is_Some (p_ct s)) && bool_decide (is_Some (alias s)).

(** The key that was there is deleted before the new one is generated. *)
Definition createLoginKey (s : State) : Key * State :=
  let k := generateKey (generated s) in
  (k, mkState (s_client s) (s_loginNick s) (p_nick s) (p_iv s) (p_ct s) (Some k)
        (S (generated s)) (flag_secure s) (prompts s) (posted s)).

(** [iv] is what the cipher draws at its initialisation. *)
Definition java_enrollLogin (d : Device) (nick password : string) (iv : bytes) (s : State) : State :=
  if negb (activity d) || (SDK_INT d <? VERSION_P)%Z then s else
  let '(k, s1) := createLoginKey s in ask (AskEnroll nick password k iv) s1.

Definition java_clearLogin (s : State) : State :=
  mkState (s_client s) (s_loginNick s) None None None None (generated s)
    (flag_secure s) (prompts s) (posted s).

Definition java_loginWithBiometric (d : Device) (nick : string) (s : State) : State :=
  if negb (activity d) || (SDK_INT d <? VERSION_P)%Z then s else
  if negb (bool_decide (p_nick s = Some nick)) then s else
  match p_iv s, p_ct s, alias s with
  | Some iv, Some ct, Some k =>
      if invalidated d then java_clearLogin s else ask (AskLogin k iv ct) s
  | _, _, _ => s
  end.

(** ** The callbacks *)
Definition jni_onAuthSucceeded (s : State) : State :=
  if negb (s_client s) then s else post onBiometricSucceeded s.

Definition jni_onLoginUnlocked (password : string) (s : State) : State :=
  if negb (s_client s) then s
  else post (onBiometricLoginUnlocked (s_loginNick s) (fromUtf8 (GetStringUTFChars password))) s.

(** The user authorises the prompt [i]; a cipher that throws is only logged. *)
Definition authorise (i : nat) (s : State) : State :=
  match prompts s !! i with
  | None => s
  | Some AskUnlock => jni_onAuthSucceeded (take_prompt i s)
  | Some (AskEnroll nick password k iv) =>
      let s1 := take_prompt i s in
      match doSeal k iv (java_getBytes password) with
      | None => s1
      | Some ct => mkState (s_client s1) (s_loginNick s1) (Some nick) (Some iv) (Some ct)
                     (alias s1) (generated s1) (flag_secure s1) (prompts s1) (posted s1)
      end
  | Some (AskLogin k iv ct) =>
      match doOpen k iv ct with
      | None => take_prompt i s
      | Some pt => jni_onLoginUnlocked (java_newString pt) (take_prompt i s)
      end
  end.

(** The user dismisses it. *)
Definition dismiss (i : nat) (s : State) : State := take_prompt i s.

(** ** The bridge *)
Definition biometricAvailable (d : Device) : bool := activity d && canAuthenticate d.

Definition requestUnlock (d : Device) (client : bool) (s : State) : State :=
  let s1 := set_client client s in if negb (activity d) then s1 else authenticate d s1.

Definition setSecure (d : Device) (secure : bool) (s : State) : State :=
  if negb (activity d) then s else java_setSecure secure s.

Definition loginAvailable (d : Device) : bool := biometricAvailable d.

Definition hasLoginEnrolled (d : Device) (nick : string) (s : State) : bool :=
  activity d && java_hasLoginEnrolled nick s.

Definition enrollLogin (d : Device) (client : bool) (nick password : string) (iv : bytes)
    (s : State) : State :=
  let s1 := set_client client s in
  if negb (activity d) then s1 else java_enrollLogin d nick password iv s1.

Definition loginWithBiometric (d : Device) (client : bool) (nick : string) (s : State) : State :=
  let s1 := set_login_nick nick (set_client client s) in
  if negb (activity d) then s1 else java_loginWithBiometric d nick s1.

Definition clearLogin (d : Device) (nick : string) (s : State) : State :=
  if negb (activity d) then s else java_clearLogin s.

(** A device on which the bridge works. *)
Definition usable (d : Device) : Prop :=
  activity d = true ∧ (VERSION_P ≤ SDK_INT d)%Z ∧ invalidated d = false.

(** ** What a prompt gives *)

Lemma authorise_last s p :
  take_prompt (length (prompts s)) (ask p s) = s ∧ prompts (ask p s) !! length (prompts s) = Some p.
Proof.
  split; [|cbn; by rewrite lookup_app_r, Nat.sub_diag by lia]. destruct s. unfold take_prompt, ask. cbn.
  f_equal. rewrite delete_take_drop, take_app_length, drop_app_ge by lia.
  replace (S (length prompts0) - length prompts0) with 1 by lia. cbn. by rewrite app_nil_r.
Qed.

Lemma usable_prompts d : usable d → negb (activity d) || (SDK_INT d <? VERSION_P)%Z = false.
Proof. intros (-> & Hs & _). cbn. by apply Z.ltb_ge. Qed.

Lemma enroll_asks d nick pw iv s :
  usable d →
  enrollLogin d true nick pw iv s =
  ask (AskEnroll nick pw (generateKey (generated s)) iv) (createLoginKey (set_client true s)).2.
Proof.
  intros Hd. unfold enrollLogin, java_enrollLogin. rewrite usable_prompts by done.
  by destruct Hd as (-> & _).
Qed.

Lemma login_asks d nick iv ct k s :
  usable d → p_nick s = Some nick → p_iv s = Some iv → p_ct s = Some ct → alias s = Some k →
  loginWithBiometric d true nick s = ask (AskLogin k iv ct) (set_login_nick nick (set_client true s)).
Proof.
  intros Hd En Ei Ec Ea. unfold loginWithBiometric, java_loginWithBiometric.
  rewrite usable_prompts by done. destruct Hd as (-> & _ & Hi). cbn.
  by rewrite En, Ei, Ec, Ea, bool_decide_true, Hi.
Qed.

Lemma authorise_asked s p :
  authorise (length (prompts s)) (ask p s) =
  match p with
  | AskUnlock => jni_onAuthSucceeded s
  | AskEnroll nick password k iv =>
      match doSeal k iv (java_getBytes password) with
      | None => s
      | Some ct => mkState (s_client s) (s_loginNick s) (Some nick) (Some iv) (Some ct)
                     (alias s) (generated s) (flag_secure s) (prompts s) (posted s)
      end
  | AskLogin k iv ct =>
      match doOpen k iv ct with
      | None => s
      | Some pt => jni_onLoginUnlocked (java_newString pt) s
      end
  end.
Proof.
  destruct (authorise_last s p) as [Ht Hl]. unfold authorise. rewrite Hl.
  by destruct p; rewrite Ht.
Qed.

Lemma dismiss_asked s p : dismiss (length (prompts s)) (ask p s) = s.
Proof. apply authorise_last. Qed.
End Android.

(** C34: What is enrolled is what logs in.  Once the prompt of an enrolment is authorised, the
    account is the enrolled one of the device and no other is; a biometric login that the
    user then authorises posts the account with the very password, provided the password
    survives the passage through Java's strings. *)
Theorem android_vault_roundtrip `{QtText} `{JavaText} `{KeystoreLaws} d nick pw iv ct s :
  usable d →
  doSeal (generateKey (generated s)) iv (java_getBytes pw) = Some ct →
  fromUtf8 (GetStringUTFChars (java_newString (java_getBytes pw))) = pw →
  let n := length (prompts s) in
  let s1 := authorise n (enrollLogin d true nick pw iv s) in
  hasLoginEnrolled d nick s1 = true
  ∧ (∀ other, other ≠ nick → hasLoginEnrolled d other s1 = false)
  ∧ posted (authorise n (loginWithBiometric d true nick s1)) =
    posted s ++ [onBiometricLoginUnlocked nick pw].
Proof.
  intros Hd Hs Hp n. cbv zeta. rewrite enroll_asks by done.
  set (s0 := (createLoginKey (set_client true s)).2).
  change n with (length (prompts s0)). rewrite authorise_asked, Hs.
  set (s1 := mkState _ _ _ _ _ _ _ _ _ _). split_and!.
  - unfold hasLoginEnrolled, java_hasLoginEnrolled. cbn. by rewrite (proj1 Hd), bool_decide_true.
  - intros other Ho. unfold hasLoginEnrolled, java_hasLoginEnrolled. cbn.
    rewrite (bool_decide_false (Some nick = Some other)) by congruence. by rewrite andb_false_r.
  - rewrite (login_asks d nick iv ct (generateKey (generated s)) s1) by done.
    change (length (prompts s0)) with (length (prompts (set_login_nick nick (set_client true s1)))).
    rewrite authorise_asked, (open_seal _ _ _ _ Hs).
    unfold jni_onLoginUnlocked. cbn. by rewrite orb_true_r, Hp.
Qed.

(** An enrolment the user cancels breaks the login that was there.  The key is replaced
    before the prompt is shown: dismissed, the vault still says the first account is
    enrolled and still prompts for it, and an authorised prompt posts nothing, for as long
    as the new key does not open what the old one sealed. *)
Theorem cancelled_enrolment_breaks_vault `{QtText} `{JavaText} `{Keystore} d nick other pw iv iv0 ct0 s :
  usable d →
  hasLoginEnrolled d nick s = true → p_iv s = Some iv0 → p_ct s = Some ct0 →
  doOpen (generateKey (generated s)) iv0 ct0 = None →
  let n := length (prompts s) in
  let s1 := dismiss n (enrollLogin d true other pw iv s) in
  let s2 := loginWithBiometric d true nick s1 in
  hasLoginEnrolled d nick s1 = true ∧ length (prompts s2) = S n
  ∧ posted (authorise n s2) = posted s ∧ hasLoginEnrolled d nick (authorise n s2) = true.
Proof.
  intros Hd He Ei Ec Ho n. cbv zeta. rewrite enroll_asks by done.
  set (s0 := (createLoginKey (set_client true s)).2).
  change n with (length (prompts s0)). rewrite dismiss_asked.
  unfold hasLoginEnrolled, java_hasLoginEnrolled in He.
  rewrite !andb_true_iff, !bool_decide_eq_true in He. destruct He as (_ & ((En & _) & _) & _).
  assert (∀ s', p_nick s' = Some nick → is_Some (p_iv s') → is_Some (p_ct s') →
            is_Some (alias s') → hasLoginEnrolled d nick s' = true) as Hen.
  { intros s' ????. unfold hasLoginEnrolled, java_hasLoginEnrolled.
    by rewrite (proj1 Hd), !bool_decide_true. }
  rewrite (login_asks d nick iv0 ct0 (generateKey (generated s)) s0) by done.
  change (length (prompts s0)) with (length (prompts (set_login_nick nick (set_client true s0)))).
  rewrite authorise_asked, Ho. split_and!; [|cbn; rewrite length_app; cbn; lia|done|];
    apply Hen; cbn; rewrite ?Ei, ?Ec; eauto.
Qed.

(** On the device there is one login, whoever it is cleared for. *)
Lemma clearing_is_global `{Keystore} d nick other s :
  activity d = true → hasLoginEnrolled d nick (clearLogin d other s) = false.
Proof. intros Ha. unfold hasLoginEnrolled, clearLogin, java_hasLoginEnrolled. by rewrite Ha. Qed.
End AndroidLock.
