(* ===== verification/Lock.v ===== *)
(** * ChatClient: the app lock (client/src/chatclient.cpp)

    The PIN, the lock's state machine and the reset with the login password.  The
    settings keep the verifier of the PIN and the flag; [m_locked] and
    [m_sessionActive] are members.  [android] is the build.  [secure] is FLAG_SECURE of
    the window as [AppLock::setSecure] leaves it: on Android the Java side sets it
    (modelled in [Bridge.v]), and on a desktop the function does nothing, so that the
    flag is never set there. *)

From S2P Require Import Prelude Platform Settings Kdf Ratchet X3dh CryptoBox Persist.
From S2P Require Import Accounts.

Module Lock.

Record State := mkState {
  settings : Settings;
  m_nick : string;
  m_locked : bool;
  m_sessionActive : bool;
  secure : bool;
}.

(** Signals and calls, in order. *)
Inductive Event :=
| LockStateChanged
| PinStateChanged
| ErrorOccurred (key : string)
| ReestablishPcs (reason : string)
| ShowPrompt.

Definition kVerifier : string := "lock/pinVerifier".
Definition kSalt : string := "lock/pinSalt".
Definition kEnabled : string := "lock/enabled".

Definition set_settings (x : Settings) (s : State) : State :=
  mkState x (m_nick s) (m_locked s) (m_sessionActive s) (secure s).
Definition set_secure (x : bool) (s : State) : State :=
  mkState (settings s) (m_nick s) (m_locked s) (m_sessionActive s) x.

(** [AppLock::setSecure]. *)
Definition setSecure (android x : bool) (s : State) : State :=
  if android then set_secure x s else s.

(** [if (m_locked) { m_locked = false; emit lockStateChanged(); }] *)
Definition unlock (s : State) : State * list Event :=
  if m_locked s
  then (mkState (settings s) (m_nick s) false (m_sessionActive s) (secure s), [LockStateChanged])
  else (s, []).

Definition forget_pin (s : State) : State :=
  set_settings (delete kSalt (delete kVerifier (settings s))) s.

Section Operations.
Context `{Sodium} `{QtText} `{QVariantCasts}.

Definition hasPin (s : State) : bool :=
  negb (String.eqb (read_text kVerifier (settings s)) "")
  && negb (String.eqb (read_text kSalt (settings s)) "").

Definition lockEnabled (s : State) : bool := read_bool kEnabled false (settings s).

(** The constructor, and [setSecure] in [create]: the app does not start locked. *)
Definition newState (android : bool) (stored : Settings) : State :=
  let c := mkState stored "" false false false in setSecure android (lockEnabled c) c.

Definition usesOsCredential (android : bool) : bool := android.

Definition store_pin (v salt : string) (s : State) : State :=
  set_settings (<[kSalt := VText salt]> (<[kVerifier := VText v]> (settings s))) s.

(** [salt]: the octets drawn. *)
Definition setPin (pin : string) (salt : bytes) (s : State) : State * list Event :=
  if String.eqb pin "" then
    let '(s1, ev) := unlock (forget_pin s) in (s1, ev ++ [PinStateChanged])
  else
    match deriveVerifier pin salt with
    | None => (s, [ErrorOccurred "err.pinSetFailed"])
    | Some (v, sHex) => (store_pin v sHex s, [PinStateChanged])
    end.

Definition clearPin (s : State) : State * list Event := setPin "" [] s.

(** Forget the flag and the PIN, and show the app. *)
Definition lock_off (android : bool) (s : State) : State * list Event :=
  let s1 := forget_pin (set_settings (<[kEnabled := VBool false]> (settings s)) s) in
  let '(s2, ev) := unlock s1 in
  (setSecure android false s2, ev ++ [PinStateChanged]).

Definition setLockEnabled (android biometric enabled : bool) (pin : string) (salt : bytes)
    (s : State) : State * list Event :=
  if negb enabled then lock_off android s
  else if android then
    if negb biometric then (s, [ErrorOccurred "err.noDeviceCredential"])
    else
      let s1 := forget_pin (set_settings (<[kEnabled := VBool true]> (settings s)) s) in
      (setSecure android true s1, [PinStateChanged])
  else if String.eqb pin "" then (s, [ErrorOccurred "err.pinRequired"])
  else
    match deriveVerifier pin salt with
    | None => (s, [ErrorOccurred "err.pinSetFailed"])
    | Some (v, sHex) =>
        let s1 := store_pin v sHex s in
        (setSecure android true (set_settings (<[kEnabled := VBool true]> (settings s1)) s1),
         [PinStateChanged])
    end.

(** [dirs]: [identityDirs()]. *)
Definition resetLockWithPassword (android : bool) (dirs : list string) (fs : Files) (password : string)
    (s : State) : bool * State * list Event :=
  let nick := if String.eqb (m_nick s) "" then read_text "login/lastNickname" (settings s)
              else m_nick s in
  if String.eqb nick "" then (false, s, [ErrorOccurred "err.resetNoAccount"]) else
  match Accounts.find_encrypted dirs nick fs with
  | None => (false, s, [ErrorOccurred "err.resetNoAccount"])
  | Some d =>
      if negb (loadIdentityEncrypted (Accounts.in_dir d (Accounts.ekey nick)) password fs
                 newBox).1
      then (false, s, [ErrorOccurred "err.wrongPassword"])
      else let '(s1, ev) := lock_off android s in (true, s1, ev)
  end.

(** [sodium_memcmp] over [a.size()] octets. *)
Definition same_hex (candidate stored : string) : bool :=
  negb (String.eqb candidate "")
  && (String.length candidate =? String.length stored)
  && bool_decide (mem_read (length (toLatin1 candidate)) (toLatin1 candidate)
                  = mem_read (length (toLatin1 candidate)) (toLatin1 stored)).

Definition verifyPin (pin : string) (s : State) : bool * State * list Event :=
  let storedV := read_text kVerifier (settings s) in
  let storedS := read_text kSalt (settings s) in
  if String.eqb storedV "" || String.eqb storedS "" then (false, s, []) else
  if same_hex (deriveVerifierWithSalt pin storedS) storedV then
    let '(s1, ev) := unlock s in
    (true, s1, ev ++ (if m_locked s then [ReestablishPcs "unlock/pin"] else []))
  else (false, s, []).

Definition lockNow (s : State) : State * list Event :=
  if negb (lockEnabled s) then (s, [])
  else if negb (m_sessionActive s) then (s, [])
  else if negb (m_locked s)
  then (mkState (settings s) (m_nick s) true (m_sessionActive s) (secure s), [LockStateChanged])
  else (s, []).

Definition requestBiometricUnlock (s : State) : list Event :=
  if negb (m_locked s) || negb (lockEnabled s) then [] else [ShowPrompt].

Definition onBiometricSucceeded (s : State) : State * list Event :=
  if m_locked s then
    let '(s1, ev) := unlock s in (s1, ev ++ [ReestablishPcs "unlock/biometric"])
  else (s, []).

(** The lines of [login] and of [registerAccount] that the reset depends on: the
    nickname, which is [trimmed] already, and what the settings remember of it. *)
Definition set_nick (nick : string) (s : State) : State :=
  mkState (settings s) nick (m_locked s) (m_sessionActive s) (secure s).

Definition remember_login (serverUrl : string) (s : State) : State :=
  set_settings (<["login/lastServerUrl" := VText serverUrl]>
                  (<["login/lastNickname" := VText (m_nick s)]> (settings s))) s.

(** The lines of [onConnected] and of [logout] that concern the lock. *)
Definition sessionStarts (s : State) : State :=
  mkState (settings s) (m_nick s) (m_locked s) true (secure s).

Definition sessionEnds (s : State) : State * list Event :=
  unlock (mkState (settings s) (m_nick s) (m_locked s) false (secure s)).

Inductive AppState := Suspended | Hidden | Inactive | Active.

(** [onApplicationStateChanged], the flush and reload of sessions aside. *)
Definition onApplicationStateChanged (android : bool) (st : AppState) (s : State)
    : State * list Event :=
  if android then
    match st with
    | Suspended | Inactive => lockNow s
    | Hidden | Active => (s, [])
    end
  else (s, []).
End Operations.

End Lock.
