(* ===== verification/LockFacts.v ===== *)
(** * The app lock: what locks, what unlocks *)

From S2P Require Import Prelude Platform Settings Kdf Ratchet X3dh X3dhFacts CryptoBox.
From S2P Require Import Persist PersistFacts Accounts Lock.

Import Lock.

(** ** The operations as data *)
Inductive LockOp :=
| SetPin (pin : string) (salt : bytes)
| SetLockEnabled (biometric enabled : bool) (pin : string) (salt : bytes)
| ResetLock (dirs : list string) (fs : Files) (password : string)
| VerifyPin (pin : string)
| LockNow
| BiometricSucceeded
| SessionStarts
| SessionEnds
| StateChanged (st : AppState)
| SetNick (nick : string)
| RememberLogin (serverUrl : string)
| Restart.

Section Locking.
Context `{Sodium} `{QtText} `{QVariantCasts}.

Definition run_lock_op (android : bool) (o : LockOp) (s : State) : State :=
  match o with
  | SetPin pin salt => (setPin pin salt s).1
  | SetLockEnabled bio en pin salt => (setLockEnabled android bio en pin salt s).1
  | ResetLock dirs fs pw => (resetLockWithPassword android dirs fs pw s).1.2
  | VerifyPin pin => (verifyPin pin s).1.2
  | LockNow => (lockNow s).1
  | BiometricSucceeded => (onBiometricSucceeded s).1
  | SessionStarts => sessionStarts s
  | SessionEnds => (sessionEnds s).1
  | StateChanged st => (onApplicationStateChanged android st s).1
  | SetNick nick => set_nick nick s
  | RememberLogin serverUrl => remember_login serverUrl s
  | Restart => newState android (settings s)
  end.

Definition run_lock (android : bool) (os : list LockOp) (s : State) : State :=
  foldl (λ s o, run_lock_op android o s) s os.

(** The lock is over a live session and enabled; the window is secure exactly while
    the lock is enabled and the build is that of Android. *)
Record guarded (android : bool) (s : State) : Prop := {
  gd_locked : m_locked s = true → m_sessionActive s = true ∧ lockEnabled s = true;
  gd_secure : secure s = android && lockEnabled s;
}.

Lemma unlock_result s :
  settings (unlock s).1 = settings s ∧ m_sessionActive (unlock s).1 = m_sessionActive s ∧
  secure (unlock s).1 = secure s ∧ m_locked (unlock s).1 = false.
Proof. unfold unlock. by destruct (m_locked s) eqn:E. Qed.

Lemma forget_pin_enabled s : lockEnabled (forget_pin s) = lockEnabled s.
Proof.
  unfold lockEnabled, forget_pin. cbn [settings set_settings].
  rewrite (proj1 (read_other_gone kSalt kEnabled _ ltac:(done))).
  apply (read_other_gone kVerifier kEnabled _ ltac:(done)).
Qed.

Lemma store_pin_enabled v salt s : lockEnabled (store_pin v salt s) = lockEnabled s.
Proof.
  unfold lockEnabled, store_pin. cbn [settings set_settings].
  rewrite (proj1 (read_other kSalt kEnabled _ _ ltac:(done))).
  apply (read_other kVerifier kEnabled _ _ ltac:(done)).
Qed.

Lemma set_enabled b s :
  lockEnabled (set_settings (<[kEnabled := VBool b]> (settings s)) s) = b.
Proof. apply read_bool_set. Qed.

Lemma setSecure_result android x s :
  settings (setSecure android x s) = settings s ∧
  m_locked (setSecure android x s) = m_locked s ∧
  m_sessionActive (setSecure android x s) = m_sessionActive s ∧
  secure (setSecure android x s) = if android then x else secure s.
Proof. by destruct android. Qed.

(** A call of [setSecure] with what the flag of the lock now is. *)
Lemma secure_guarded android x s s1 :
  guarded android s → (m_locked s1 = true → m_sessionActive s1 = true ∧ x = true) →
  lockEnabled s1 = x → secure s1 = secure s → guarded android (setSecure android x s1).
Proof.
  intros [_ Hs] Hl He Hk. destruct (setSecure_result android x s1) as (E1 & E2 & E3 & E4).
  split; unfold lockEnabled in *; rewrite ?E1, ?E2, ?E3, ?E4, He; [done|].
  destruct android; [done|]. by rewrite Hk, Hs.
Qed.

Lemma lock_off_guarded android s : guarded android s → guarded android (lock_off android s).1.
Proof.
  intros Hg. unfold lock_off.
  set (s1 := forget_pin (set_settings (<[kEnabled:=VBool false]> (settings s)) s)).
  pose proof (unlock_result s1) as (E1 & _ & E3 & E4).
  destruct (unlock s1) as [s2 ev]. cbn [fst] in *.
  apply (secure_guarded _ _ s); [done|congruence| |by rewrite E3].
  unfold lockEnabled. rewrite E1. etransitivity; [apply forget_pin_enabled|apply set_enabled].
Qed.

Lemma unlock_guarded android s :
  secure s = android && lockEnabled s → guarded android (unlock s).1.
Proof.
  intros Hs. destruct (unlock_result s) as (E1 & _ & E3 & E4).
  split; [congruence|]. rewrite E3. unfold lockEnabled. by rewrite E1.
Qed.

Lemma lockNow_guarded android s : guarded android s → guarded android (lockNow s).1.
Proof.
  intros Hg. unfold lockNow. destruct (lockEnabled s) eqn:E; [|exact Hg].
  destruct (m_sessionActive s) eqn:Ea; [|exact Hg].
  destruct (m_locked s) eqn:Em; [exact Hg|].
  split; [by intros _|apply Hg].
Qed.

Lemma setPin_guarded android pin salt s :
  guarded android s → guarded android (setPin pin salt s).1.
Proof.
  intros [Hl Hs]. unfold setPin. destruct (String.eqb pin "").
  - destruct (unlock (forget_pin s)) as [s1 ev] eqn:E.
    change s1 with (s1, ev).1. rewrite <- E. apply unlock_guarded.
    by rewrite forget_pin_enabled.
  - destruct (deriveVerifier pin salt) as [[v sHex]|]; [|by split].
    split; cbn [fst]; rewrite ?store_pin_enabled; done.
Qed.

Lemma setLockEnabled_guarded android bio en pin salt s :
  guarded android s → guarded android (setLockEnabled android bio en pin salt s).1.
Proof.
  intros Hg. unfold setLockEnabled. destruct en; cbn [negb]; [|by apply lock_off_guarded].
  pose proof (gd_locked _ _ Hg) as Hl. destruct android.
  - destruct bio; cbn [negb fst]; [|done]. apply (secure_guarded _ _ s); [done| | |done].
    + intros Hm. split; [by apply Hl|done].
    + etransitivity; [apply forget_pin_enabled|apply set_enabled].
  - destruct (String.eqb pin ""); [done|].
    destruct (deriveVerifier pin salt) as [[v sHex]|]; [|done]. cbn [fst].
    apply (secure_guarded _ _ s); [done| |apply set_enabled|done].
    intros Hm. split; [by apply Hl|done].
Qed.

Lemma newState_guarded android stored : guarded android (newState android stored).
Proof.
  unfold newState. set (c := mkState stored "" false false false).
  destruct (setSecure_result android (lockEnabled c) c) as (E1 & E2 & _ & E4).
  split; unfold lockEnabled in *; rewrite ?E1, ?E2, ?E4; [done|]. by destruct android.
Qed.

Lemma remember_login_enabled url s : lockEnabled (remember_login url s) = lockEnabled s.
Proof.
  unfold lockEnabled, remember_login. cbn [settings set_settings].
  rewrite (proj1 (read_other "login/lastServerUrl" kEnabled _ _ ltac:(done))).
  apply (read_other "login/lastNickname" kEnabled _ _ ltac:(done)).
Qed.


(** clearing the PIN of an enabled desktop lock shuts the user out. The flag stays
    set, so the app still locks, and then no PIN opens it. *)
Theorem cleared_pin_locks_out s :
  lockEnabled s = true → m_sessionActive s = true →
  let s1 := (clearPin s).1 in
  let s2 := (lockNow s1).1 in
  m_locked s1 = false ∧ hasPin s1 = false ∧ m_locked s2 = true ∧
  ∀ pin, verifyPin pin s2 = (false, s2, []).
Proof.
  intros He Ha s1 s2.
  assert (E : settings s1 = settings (forget_pin s) ∧ m_locked s1 = false ∧ m_sessionActive s1 = true).
  { unfold s1, clearPin, setPin. cbn [String.eqb].
    pose proof (unlock_result (forget_pin s)) as (U1 & U2 & _ & U4).
    destruct (unlock (forget_pin s)). cbn in *. by rewrite U2. }
  destruct E as (E1 & E2 & E3).
  assert (Hv : read_text kVerifier (settings s1) = "").
  { rewrite E1. unfold forget_pin. cbn [settings set_settings].
    rewrite (proj1 (proj2 (proj2 (read_other_gone kSalt kVerifier _ ltac:(done))))).
    apply read_text_gone. }
  assert (Hl : lockEnabled s1 = true).
  { unfold lockEnabled. rewrite E1. etransitivity; [apply forget_pin_enabled|done]. }
  assert (E' : settings s2 = settings s1 ∧ m_locked s2 = true).
  { unfold s2, lockNow. by rewrite Hl, E3, E2. }
  destruct E' as [E4 E5]. unfold hasPin, verifyPin. rewrite Hv.
  split_and!; [done..|]. intros pin. by rewrite E4, Hv.
Qed.
End Locking.

Section Pin.
Context `{SodiumLaws} `{QtTextLaws} `{!QtHexLaws} `{QVariantCasts}.

(** Two hexadecimal texts compare equal only if they are texts of the same octets. *)
Lemma same_hex_spec a b :
  a ≠ [] → length a = length b → same_hex (hexStr a) (hexStr b) = bool_decide (a = b).
Proof.
  intros Ha Hl. unfold same_hex. rewrite !hexStr_length, Hl, Nat.eqb_refl.
  rewrite hexStr_nonempty by done. cbn [negb andb].
  unfold hexStr. rewrite !toLatin1_fromLatin1.
  assert (length (toHex b) = length (toHex a)) as Hlen by (by rewrite !toHex_length, Hl).
  rewrite !mem_read_exact by done.
  apply bool_decide_ext. split; [|by intros ->]. intros E. apply (f_equal fromHex) in E.
  by rewrite !fromHex_toHex in E.
Qed.

(** the PIN opens the lock, and only the PIN. Once a desktop lock is enabled with a
    PIN over a live session, locking the app and entering a PIN unlocks it if Argon2id
    gives the same verifier, and otherwise changes nothing. *)
Theorem pin_opens_lock bio pin salt s k pin' k' :
  pin ≠ "" → length salt = 16 → m_sessionActive s = true → m_locked s = false →
  argon2id32 kVerifyCtx (toUtf8 pin) salt = Some k →
  argon2id32 kVerifyCtx (toUtf8 pin') salt = Some k' →
  let s1 := (setLockEnabled false bio true pin salt s).1 in
  let s2 := (lockNow s1).1 in
  m_locked s2 = true ∧ hasPin s2 = true ∧
  verifyPin pin' s2
  = if decide (k' = k)
    then (true, s1, [LockStateChanged; ReestablishPcs "unlock/pin"]) else (false, s2, []).
Proof.
  intros Hp Hs Ha Hm Hk Hk' s1 s2.
  assert (Lk : length k = 32 ∧ length k' = 32).
  { split; [by apply (pwhash_length (kVerifyCtx ++ toUtf8 pin) salt)
           |by apply (pwhash_length (kVerifyCtx ++ toUtf8 pin') salt)]. }
  destruct Lk as [Lk Lk'].
  assert (E1 : s1 = set_settings (<[kEnabled := VBool true]>
      (settings (store_pin (hexStr k) (hexStr salt) s))) (store_pin (hexStr k) (hexStr salt) s)).
  { unfold s1, setLockEnabled. destruct (String.eqb_spec pin ""); [done|].
    cbn [negb]. unfold deriveVerifier. by rewrite Hk. }
  assert (E2 : s2 = mkState (settings s1) (m_nick s1) true true (secure s1)).
  { unfold s2, lockNow.
    assert (lockEnabled s1 = true) as -> by (rewrite E1; apply read_bool_set).
    rewrite E1. cbn. by rewrite Ha, Hm. }
  assert (Ev : read_text kVerifier (settings s2) = hexStr k
             ∧ read_text kSalt (settings s2) = hexStr salt).
  { rewrite E2, E1. cbn. split.
    - rewrite (proj1 (proj2 (proj2 (read_other kEnabled kVerifier _ _ ltac:(done))))).
      rewrite (proj1 (proj2 (proj2 (read_other kSalt kVerifier _ _ ltac:(done))))).
      apply read_text_set.
    - rewrite (proj1 (proj2 (proj2 (read_other kEnabled kSalt _ _ ltac:(done))))).
      apply read_text_set. }
  destruct Ev as [Ev Es]. unfold hasPin, verifyPin. rewrite Ev, Es.
  rewrite !hexStr_nonempty by (intros E; by rewrite E in * ). cbn [negb andb orb].
  split; [by rewrite E2|]. split; [done|].
  unfold deriveVerifierWithSalt. rewrite unhexStr_hexStr, Hs, Hk'. cbn [negb Nat.eqb].
  rewrite same_hex_spec by first [by intros E; rewrite E in *|by rewrite Lk, Lk'].
  rewrite E2. unfold unlock. cbn [m_locked settings m_nick m_sessionActive secure app].
  case_decide as Hd; [rewrite bool_decide_true by done|by rewrite bool_decide_false].
  do 2 f_equal. rewrite E1. unfold set_settings, store_pin. cbn. by rewrite Ha, Hm.
Qed.
(** ** Where the stored PIN comes from *)

(** What [verifyPin] compares with. *)
Definition stored_pin (s : State) : string * string :=
  (read_text kVerifier (settings s), read_text kSalt (settings s)).

Lemma hasPin_stored s s' : stored_pin s = stored_pin s' → hasPin s = hasPin s'.
Proof. unfold stored_pin, hasPin. by intros [= -> ->]. Qed.

Lemma stored_forgotten s : hasPin (forget_pin s) = false.
Proof.
  unfold hasPin, forget_pin. cbn [settings set_settings].
  by rewrite (proj1 (proj2 (proj2 (read_other_gone kSalt kVerifier _ ltac:(done))))), read_text_gone.
Qed.

Lemma stored_store v salt s : stored_pin (store_pin v salt s) = (v, salt).
Proof.
  unfold stored_pin, store_pin. cbn [settings set_settings].
  rewrite (proj1 (proj2 (proj2 (read_other kSalt kVerifier _ _ ltac:(done))))).
  by rewrite !read_text_set.
Qed.

Lemma stored_other key v s : key ≠ kVerifier → key ≠ kSalt →
  stored_pin (set_settings (<[key := v]> (settings s)) s) = stored_pin s.
Proof.
  intros Hv Hs. unfold stored_pin. cbn [settings set_settings].
  by rewrite (proj1 (proj2 (proj2 (read_other key kVerifier v _ Hv)))),
    (proj1 (proj2 (proj2 (read_other key kSalt v _ Hs)))).
Qed.

Lemma stored_same s s' : settings s' = settings s → stored_pin s' = stored_pin s.
Proof. unfold stored_pin. by intros ->. Qed.

(** The operation sets this PIN, with the salt drawn for it. *)
Definition sets_pin (android : bool) (o : LockOp) (pin : string) (salt : bytes) : Prop :=
  pin ≠ "" ∧ (o = SetPin pin salt ∨ android = false ∧ ∃ bio, o = SetLockEnabled bio true pin salt).

(** The operation leaves the PIN as it is: it neither sets one nor removes it.  A reset
    removes it when it succeeds. *)
Definition keeps_pin (android : bool) (o : LockOp) : Prop :=
  match o with
  | SetPin pin salt => pin ≠ "" ∧ argon2id32 kVerifyCtx (toUtf8 pin) salt = None
  | SetLockEnabled bio enabled pin salt =>
      enabled = true ∧
      if android then bio = false
      else pin = "" ∨ argon2id32 kVerifyCtx (toUtf8 pin) salt = None
  | _ => True
  end.

(** What an operation makes of the stored PIN. *)
Inductive pin_step (android : bool) (o : LockOp) (s s' : State) : Prop :=
| PinGone : hasPin s' = false → pin_step android o s s'
| PinKept : keeps_pin android o → stored_pin s' = stored_pin s → pin_step android o s s'
| PinSet pin salt k : sets_pin android o pin salt →
    argon2id32 kVerifyCtx (toUtf8 pin) salt = Some k →
    stored_pin s' = (hexStr k, hexStr salt) → pin_step android o s s'.

Lemma unlock_settings s : settings (unlock s).1 = settings s.
Proof. apply unlock_result. Qed.

Lemma lock_off_no_pin android s : hasPin (lock_off android s).1 = false.
Proof.
  unfold lock_off. set (s0 := set_settings _ _).
  pose proof (unlock_settings (forget_pin s0)) as Hu. destruct (unlock (forget_pin s0)) as [s2 ev].
  cbn [fst] in *. rewrite <- (stored_forgotten s0). apply hasPin_stored, stored_same.
  by rewrite (proj1 (setSecure_result _ _ _)).
Qed.

Lemma deriveVerifier_Some pin salt v sHex :
  deriveVerifier pin salt = Some (v, sHex) →
  ∃ k, argon2id32 kVerifyCtx (toUtf8 pin) salt = Some k ∧ v = hexStr k ∧ sHex = hexStr salt.
Proof. unfold deriveVerifier. destruct (argon2id32 _ _ _); [|done]. intros [= <- <-]. eauto. Qed.

Lemma deriveVerifier_None pin salt :
  deriveVerifier pin salt = None → argon2id32 kVerifyCtx (toUtf8 pin) salt = None.
Proof. unfold deriveVerifier. by destruct (argon2id32 _ _ _). Qed.

Lemma setPin_step android pin salt s :
  pin_step android (SetPin pin salt) s (setPin pin salt s).1.
Proof.
  unfold setPin. destruct (String.eqb_spec pin "") as [->|Hp].
  - apply PinGone. pose proof (unlock_settings (forget_pin s)) as Hu.
    destruct (unlock (forget_pin s)) as [s1 ev]. cbn [fst] in *.
    rewrite <- (stored_forgotten s). by apply hasPin_stored, stored_same.
  - destruct (deriveVerifier pin salt) as [[v sHex]|] eqn:Ed.
    + apply deriveVerifier_Some in Ed as (k & Hk & -> & ->).
      eapply PinSet; [|exact Hk|apply stored_store]. split; [done|by left].
    + apply PinKept; [|done]. split; [done|by apply deriveVerifier_None].
Qed.

Lemma setLockEnabled_step android bio en pin salt s :
  pin_step android (SetLockEnabled bio en pin salt) s (setLockEnabled android bio en pin salt s).1.
Proof.
  unfold setLockEnabled. destruct en; cbn [negb]; [|apply PinGone, lock_off_no_pin]. destruct android.
  - destruct bio; cbn [negb fst]; [|by apply PinKept]. apply PinGone.
    set (s0 := set_settings _ _). rewrite <- (stored_forgotten s0).
    by apply hasPin_stored, stored_same, setSecure_result.
  - destruct (String.eqb_spec pin "") as [->|Hp]; [apply PinKept; [split; [done|by left]|done]|].
    destruct (deriveVerifier pin salt) as [[v sHex]|] eqn:Ed.
    + apply deriveVerifier_Some in Ed as (k & Hk & -> & ->). cbn [fst].
      eapply PinSet; [|exact Hk|].
      * split; [done|]. right. split; [done|by exists bio].
      * etransitivity; [apply stored_other; done|apply stored_store].
    + apply PinKept; [|done]. split; [done|right; by apply deriveVerifier_None].
Qed.

Lemma lock_op_pin android o s : pin_step android o s (run_lock_op android o s).
Proof.
  destruct o; cbn [run_lock_op]; [apply setPin_step|apply setLockEnabled_step| |
    apply PinKept; [done|]..].
  - unfold resetLockWithPassword. destruct (String.eqb _ ""); [by apply PinKept|].
    destruct (Accounts.find_encrypted _ _ _); [|by apply PinKept].
    destruct (negb _); [by apply PinKept|]. apply PinGone.
    pose proof (lock_off_no_pin android s) as Hn. by destruct (lock_off android s).
  - apply stored_same. unfold verifyPin. destruct (_ || _); [done|].
    destruct (same_hex _ _); [|done]. pose proof (unlock_settings s) as Hu. by destruct (unlock s).
  - apply stored_same. unfold lockNow. by repeat case_match.
  - apply stored_same. unfold onBiometricSucceeded. destruct (m_locked s); [|done].
    pose proof (unlock_settings s) as Hu. by destruct (unlock s).
  - done.
  - apply stored_same. etransitivity; [apply unlock_settings|done].
  - apply stored_same. unfold onApplicationStateChanged, lockNow. by repeat case_match.
  - done.
  - set (s1 := set_settings (<["login/lastNickname" := VText (m_nick s)]> (settings s)) s).
    etransitivity; [by apply (stored_other "login/lastServerUrl" (VText serverUrl) s1)|].
    by apply stored_other.
  - apply stored_same. by destruct android.
Qed.

(** The stored PIN is the one set last. *)
Definition pin_from (android : bool) (os : list LockOp) (pin : string) (salt k : bytes) : Prop :=
  ∃ os1 o os2, os = os1 ++ o :: os2 ∧ sets_pin android o pin salt ∧
    Forall (keeps_pin android) os2 ∧ argon2id32 kVerifyCtx (toUtf8 pin) salt = Some k.

Lemma stored_pin_origin android stored os :
  let s0 := newState android stored in let s := run_lock android os s0 in
  hasPin s0 = false → hasPin s = true →
  ∃ pin salt k, pin_from android os pin salt k ∧ stored_pin s = (hexStr k, hexStr salt).
Proof.
  intros s0. cbv zeta. intros H0'. induction os as [|o os IH] using rev_ind; [cbn; congruence|].
  unfold run_lock in *. rewrite foldl_app. cbn [foldl]. set (s := foldl _ s0 os) in *. intros Hp.
  destruct (lock_op_pin android o s) as [Hg|Hk Hs|pin salt k Hset Hk Hs]; [congruence| |].
  - rewrite Hs. destruct IH as (pin & salt & k & (os1 & x & os2 & -> & Hset & Hkeep & Ha) & E).
    { by rewrite <- (hasPin_stored _ _ Hs). }
    exists pin, salt, k. split; [|done]. exists os1, x, (os2 ++ [o]). split_and!; [|done| |done].
    + by rewrite <- app_assoc.
    + apply Forall_app. split; [done|]. by constructor.
  - exists pin, salt, k. split; [|done]. by exists os, o, [].
Qed.

(** ** What opens a locked app *)

(** The password opens the box in which the file keeps the secret of an account. *)
Definition opens (blob : bytes) (password : string) : Prop :=
  take 8 blob = kWrapMagic ∧
  ∃ wrapKey secret, argon2id32 kWrapCtx (toUtf8 password) (take 16 (drop 9 blob)) = Some wrapKey ∧
    secretbox_open_easy wrapKey (take 24 (drop 25 blob)) (drop 49 blob) = Some secret.

(** The account of the device: the one logged in to, or the last. *)
Definition account (s : State) : string :=
  if String.eqb (m_nick s) "" then read_text "login/lastNickname" (settings s) else m_nick s.

(** [os]: what led to the state [s] in which the app is locked. *)
Inductive opened_by (android : bool) (os : list LockOp) (s : State) : LockOp → Prop :=
| ByPin pin pin0 salt k : pin_from android os pin0 salt k →
    argon2id32 kVerifyCtx (toUtf8 pin) salt = Some k → opened_by android os s (VerifyPin pin)
| ByPassword dirs fs password d blob : account s ≠ "" → d ∈ dirs →
    fs !! Accounts.in_dir d (Accounts.ekey (account s)) = Some blob → opens blob password →
    opened_by android os s (ResetLock dirs fs password)
| ByPrompt : opened_by android os s BiometricSucceeded
| ByTurningOff bio pin salt : opened_by android os s (SetLockEnabled bio false pin salt)
| ByClearing salt : opened_by android os s (SetPin "" salt)
| ByEnd o : o = SessionEnds ∨ o = Restart →
    m_sessionActive (run_lock_op android o s) = false → opened_by android os s o.

Lemma same_hex_empty v : same_hex "" v = false.
Proof. done. Qed.

Lemma verifyPin_opens android stored os pin s :
  s = run_lock android os (newState android stored) → hasPin (newState android stored) = false →
  (verifyPin pin s).1.1 = true → opened_by android os s (VerifyPin pin).
Proof.
  intros -> Hnew. set (s := run_lock _ _ _). unfold verifyPin. destruct (_ || _) eqn:Hh; [done|].
  destruct (stored_pin_origin android stored os Hnew) as (pin0 & salt & k & Hfrom & Hst).
  { apply orb_false_iff in Hh as [Hv Hs]. fold s. unfold hasPin. by rewrite Hv, Hs. }
  fold s in Hst. injection Hst as -> ->. unfold deriveVerifierWithSalt. rewrite unhexStr_hexStr.
  destruct (negb _); [by rewrite same_hex_empty|].
  destruct (argon2id32 kVerifyCtx (toUtf8 pin) salt) as [k'|] eqn:Hk';
    [|by rewrite same_hex_empty].
  destruct Hfrom as (os1 & x & os2 & -> & Hset & Hkeep & Hk).
  pose proof (pwhash_length _ _ _ Hk) as Lk. pose proof (pwhash_length _ _ _ Hk') as Lk'.
  rewrite same_hex_spec by first [by intros ->|congruence].
  case_bool_decide as Hd; [|done]. intros _. apply (ByPin _ _ _ pin pin0 salt k); [|congruence].
  by exists os1, x, os2.
Qed.

Lemma loaded_opens path pw fs box b :
  loadIdentityEncrypted path pw fs box = (true, b) → ∃ blob, fs !! path = Some blob ∧ opens blob pw.
Proof.
  unfold loadIdentityEncrypted. destruct (fs !! path) as [blob|]; [|done].
  destruct (decide _); [done|]. destruct (bool_decide (take 8 blob = kWrapMagic)) eqn:Hm; [|done].
  apply bool_decide_eq_true in Hm. cbn [negb]. destruct (_ && _); [done|].
  destruct (argon2id32 _ _ _) as [key|] eqn:Ha; [|done].
  destruct (secretbox_open_easy _ _ _) as [secret|] eqn:Ho; [|done]. intros _.
  exists blob. split; [done|]. split; [done|]. by exists key, secret.
Qed.

Lemma resetLock_opens android os dirs fs pw s :
  (resetLockWithPassword android dirs fs pw s).1.1 = true →
  opened_by android os s (ResetLock dirs fs pw).
Proof.
  unfold resetLockWithPassword. fold (account s). destruct (String.eqb_spec (account s) ""); [done|].
  destruct (Accounts.find_encrypted dirs (account s) fs) as [d|] eqn:Ef; [|done].
  destruct (loadIdentityEncrypted _ _ _ _) as [[] b] eqn:El; [|done]. intros _.
  apply loaded_opens in El as (blob & Hb & Ho). apply find_some in Ef as [Hd _].
  apply (ByPassword _ _ _ _ _ _ d blob); [done|by apply list_elem_of_In|done|done].
Qed.

(** C25: a locked app is opened by a credential.  Start the app on a device that has no
    PIN and do anything ([os]); if it is then locked and an operation opens it, then
    either the PIN entered has the very Argon2id key of the PIN that was set last; or the
    password entered opens the sealed secret in the identity file of the account; or the
    platform called back that its own prompt succeeded; or the lock or the PIN was
    turned off in the settings, for which this code asks nothing more; or the session is
    gone. *)
Theorem unlock_needs_credential android stored os o :
  hasPin (newState android stored) = false →
  let s := run_lock android os (newState android stored) in
  m_locked s = true → m_locked (run_lock_op android o s) = false → opened_by android os s o.
Proof.
  intros Hnew. cbv zeta. set (s := run_lock _ _ _). intros Hm.
  destruct o as [pin salt|bio en pin salt|dirs fs pw|pin| | | | |st| | |]; cbn [run_lock_op].
  - unfold setPin. destruct (String.eqb_spec pin "") as [->|]; [by constructor|].
    destruct (deriveVerifier pin salt) as [[]|]; cbn; congruence.
  - unfold setLockEnabled. destruct en; [|by constructor]. cbn [negb].
    destruct android; [destruct bio; cbn; congruence|].
    destruct (String.eqb pin ""); [cbn; congruence|].
    destruct (deriveVerifier pin salt) as [[]|]; cbn; congruence.
  - intros Ho. apply resetLock_opens. revert Ho. unfold resetLockWithPassword.
    repeat (case_match; cbn; try congruence).
  - intros Ho. apply (verifyPin_opens _ stored); [done..|]. revert Ho. unfold verifyPin.
    repeat (case_match; cbn; try congruence).
  - unfold lockNow. repeat (case_match; cbn; try congruence).
  - by constructor.
  - cbn. congruence.
  - intros _. apply ByEnd; [by left|]. cbn [run_lock_op]. unfold sessionEnds.
    by rewrite (proj1 (proj2 (unlock_result _))).
  - unfold onApplicationStateChanged, lockNow. repeat (case_match; cbn; try congruence).
  - cbn. congruence.
  - cbn. congruence.
  - intros _. apply ByEnd; [by right|]. by destruct android.
Qed.
End Pin.
