(* ===== verification/Recovery.v ===== *)
(** * ChatClient: password recovery and biometric login (client/src/chatclient.cpp)

    The birthday verifier in the settings, the throttled check, and the two uses of
    the login vault: revealing the password and logging in with it.  The prompt is
    answered later, so a [World] is the client with the prompts in flight. *)

From S2P Require Import Prelude Platform Settings AppLock Kdf Ratchet X3dh CryptoBox.
From S2P Require Import Persist.
From S2P Require Import Accounts.

(** [QDate::fromString] by format, and [toString] in the ISO form; a date is (year,
    month, day). *)
Class QDates := {
  date_from : string → string → option (Z * Z * Z);
  iso_text : Z * Z * Z → string;
}.

Module Recovery.

Record State := mkState {
  settings : Settings;
  m_nick : string;
  m_revealOnly : bool;
  m_bioLoginServerUrl : string;
  m_bioEnrollPassword : string;
  m_bioEnrollPending : bool;
}.

(** The messages of [passwordRecoveryFailed]. *)
Inductive Failure :=
| NoUsername
| NotADate
| LockedFor (minutes : Z)
| NothingEnrolled
| LockedNow
| NoMatch
| NothingReleased.

Inductive Event :=
| RecoveryFailed (f : Failure)
| BirthdayMatched (nick : string)
| BirthdayWrong (nick : string)
| PasswordRevealed (password : string)
| LoginWith (url nick password : string)
| BiometricLoginChanged.

Definition set_settings (x : Settings) (s : State) : State :=
  mkState x (m_nick s) (m_revealOnly s) (m_bioLoginServerUrl s) (m_bioEnrollPassword s)
    (m_bioEnrollPending s).
Definition set_reveal (x : bool) (s : State) : State :=
  mkState (settings s) (m_nick s) x (m_bioLoginServerUrl s) (m_bioEnrollPassword s)
    (m_bioEnrollPending s).
Definition set_url (x : string) (s : State) : State :=
  mkState (settings s) (m_nick s) (m_revealOnly s) x (m_bioEnrollPassword s)
    (m_bioEnrollPending s).
Definition set_enroll (pw : string) (pending : bool) (s : State) : State :=
  mkState (settings s) (m_nick s) (m_revealOnly s) (m_bioLoginServerUrl s) pw pending.

Definition dobVerifierKey (n : string) : string := "recovery/" +:+ n +:+ "/dobVerifier".
Definition dobSaltKey (n : string) : string := "recovery/" +:+ n +:+ "/dobSalt".
Definition failKey (n : string) : string := "recovery/" +:+ n +:+ "/failures".
Definition untilKey (n : string) : string := "recovery/" +:+ n +:+ "/lockedUntil".

Definition formats : list string :=
  ["yyyy-MM-dd"; "d.M.yyyy"; "dd.MM.yyyy"; "d/M/yyyy"; "dd/MM/yyyy"; "yyyy/MM/dd"; "d-M-yyyy"].

Definition later (d today : Z * Z * Z) : bool :=
  let '(y, m, dd) := d in
  let '(y', m', dd') := today in
  (y' <? y)%Z || (y =? y')%Z && ((m' <? m)%Z || (m =? m')%Z && (dd' <? dd)%Z).

Section Operations.
Context `{Sodium} `{QtText} `{QVariantCasts} `{QTrim} `{QDates}.

(** The first format that gives a date decides. *)
Fixpoint first_date (fs : list string) (text : string) : option (Z * Z * Z) :=
  match fs with
  | [] => None
  | f :: rest => match date_from f text with Some d => Some d | None => first_date rest text end
  end.

Definition normalizeBirthday (today : Z * Z * Z) (birthday : string) : string :=
  let text := trimmed birthday in
  if String.eqb text "" then "" else
  match first_date formats text with
  | None => ""
  | Some d => if later d today || (d.1.1 <? 1900)%Z then "" else iso_text d
  end.

Definition storeBirthdayVerifier (nick isoDate : string) (salt : bytes) (s : Settings)
    : Settings :=
  match deriveVerifier isoDate salt with
  | None => s
  | Some (v, sHex) => <[dobSaltKey nick := VText sHex]> (<[dobVerifierKey nick := VText v]> s)
  end.

(** [diff |= a[i] ^ b[i]] over [a.size()] octets. *)
Fixpoint hex_diff (a b : bytes) : Z :=
  match a with
  | [] => 0
  | x :: a' => Z.lor (Z.lxor (byte_val x) (byte_val (default Byte.x00 (head b))))
                     (hex_diff a' (tail b))
  end.

Definition checkBirthday (nick isoDate : string) (s : Settings) : bool :=
  let storedV := read_text (dobVerifierKey nick) s in
  let storedS := read_text (dobSaltKey nick) s in
  if String.eqb storedV "" || String.eqb storedS "" then false else
  let candidate := deriveVerifierWithSalt isoDate storedS in
  if String.eqb candidate "" || negb (String.length candidate =? String.length storedV)
  then false
  else (hex_diff (toLatin1 candidate) (toLatin1 storedV) =? 0)%Z.

Definition passwordRecoveryAvailable (hello : bool) (nickname : string) (s : Settings) : bool :=
  let n := trimmed nickname in
  if String.eqb n "" then false
  else if negb (AppLock.hasLoginEnrolled hello n s) then false
  else negb (String.eqb (read_text (dobVerifierKey n) s) "").

Definition lastServerUrl (s : State) : string := read_text "login/lastServerUrl" (settings s).

(** [now] in seconds; the prompt is the one [AppLock::loginWithBiometric] shows. *)
Definition recoverPassword (hello : bool) (now : Z) (today : Z * Z * Z)
    (serverUrl nickname birthday : string) (s : State)
    : option AppLock.Prompt * State * list Event :=
  let n := trimmed nickname in
  if String.eqb n "" then (None, s, [RecoveryFailed NoUsername]) else
  let iso := normalizeBirthday today birthday in
  if String.eqb iso "" then (None, s, [RecoveryFailed NotADate]) else
  let lockedUntil := read_int (untilKey n) 0 (settings s) in
  if (now <? lockedUntil)%Z
  then (None, s, [RecoveryFailed (LockedFor ((lockedUntil - now + 59) / 60))]) else
  if negb (AppLock.hasLoginEnrolled hello n (settings s))
  then (None, s, [RecoveryFailed NothingEnrolled]) else
  if negb (checkBirthday n iso (settings s)) then
    let failures := (read_int (failKey n) 0 (settings s) + 1)%Z in
    let st := <[failKey n := VInt failures]> (settings s) in
    if (5 <=? failures)%Z then
      let st := <[failKey n := VInt 0]> (<[untilKey n := VInt (now + 15 * 60)]> st) in
      (None, set_settings st s, [BirthdayWrong n; RecoveryFailed LockedNow])
    else (None, set_settings st s, [BirthdayWrong n; RecoveryFailed NoMatch])
  else
    let st := delete (untilKey n) (<[failKey n := VInt 0]> (settings s)) in
    let url := if String.eqb (trimmed serverUrl) "" then lastServerUrl s else trimmed serverUrl in
    let s1 := set_url url (set_reveal true (set_settings st s)) in
    (AppLock.loginWithBiometric hello n st, s1, [BirthdayMatched n]).

Definition biometricLogin (hello : bool) (serverUrl nick : string) (s : State)
    : option AppLock.Prompt * State :=
  let n := trimmed nick in
  if String.eqb n "" || String.eqb (trimmed serverUrl) "" then (None, s) else
  if negb (AppLock.hasLoginEnrolled hello n (settings s)) then (None, s) else
  (AppLock.loginWithBiometric hello n (settings s), set_url (trimmed serverUrl) s).

Definition requestBiometricLoginEnroll (password : string) (s : State) : State :=
  set_enroll password (negb (String.eqb password "")) s.

Definition disableBiometricLogin (hello : bool) (nick : string) (s : State)
    : State * list Event :=
  (set_settings (AppLock.clearLogin hello (trimmed nick) (settings s)) s,
   [BiometricLoginChanged]).

Definition onBiometricLoginUnlocked (nick password : string) (s : State)
    : State * list Event :=
  if String.eqb password "" then
    if m_revealOnly s then (set_reveal false s, [RecoveryFailed NothingReleased]) else (s, [])
  else if m_revealOnly s then (set_reveal false s, [PasswordRevealed password])
  else
    let url := if String.eqb (m_bioLoginServerUrl s) "" then lastServerUrl s
               else m_bioLoginServerUrl s in
    let n := if String.eqb (trimmed nick) "" then m_nick s else trimmed nick in
    if String.eqb url "" || String.eqb n "" then (s, []) else (s, [LoginWith url n password]).

(** The confirmed-login hook of the "keys" frame. *)
Definition enrollConfirmed `{AppLock.Dpapi} (hello : bool) (s : State) : State * list Event :=
  if m_bioEnrollPending s && negb (String.eqb (m_bioEnrollPassword s) "")
     && negb (String.eqb (m_nick s) "")
  then (set_enroll "" false
          (set_settings (AppLock.enrollLogin hello (m_nick s) (m_bioEnrollPassword s) (settings s))
             s), [BiometricLoginChanged])
  else (s, []).

(** The lines of [logout] that concern the vault. *)
Definition dropEnroll (s : State) : State := set_enroll "" false s.

(** [registerAccount] up to the answer of [establishIdentity], the database and the
    verifier kept for the hello aside: the birthday is
    recorded and the login fields are kept before the account is looked for. *)
Definition recordBirthday (today : Z * Z * Z) (birthday nick : string) (salt : bytes)
    (s : Settings) : Settings :=
  let iso := normalizeBirthday today birthday in
  if String.eqb iso "" then s else storeBirthdayVerifier nick iso salt s.

Definition registerLocally (today : Z * Z * Z) (serverUrl nickname password birthday : string)
    (salt : bytes) (dirs : list string) (rnd : bytes) (att : string → Accounts.Attempt)
    (removed : bool) (fs : Files) (box : CryptoBox) (s : State)
    : Accounts.Outcome * Files * CryptoBox * State :=
  let n := trimmed nickname in
  let st := recordBirthday today birthday n salt (settings s) in
  let st := <["login/lastServerUrl" := VText serverUrl]>
              (<["login/lastNickname" := VText n]> st) in
  let s1 := mkState st n (m_revealOnly s) (m_bioLoginServerUrl s) (m_bioEnrollPassword s)
              (m_bioEnrollPending s) in
  let '(o, fs1, box1) := Accounts.establishIdentity dirs n password true rnd att removed fs box in
  (o, fs1, box1, s1).
End Operations.

End Recovery.
