(* ===== verification/RecoveryFacts.v ===== *)
(** * Password recovery: what it takes to see a password *)

From S2P Require Import Prelude Platform Settings AppLock AppLockFacts Kdf Ratchet X3dh.
From S2P Require Import X3dhFacts CryptoBox.
From S2P Require Import Persist PersistFacts Accounts AccountsFacts Recovery.

Import Recovery.

(** ** Keys of the settings *)
Lemma key_suffix_inj p (n n' a b : string) :
  p +:+ n +:+ a = p +:+ n' +:+ b → String.length a = String.length b → n = n' ∧ a = b.
Proof.
  intros E Hl. apply (f_equal String.list_ascii_of_string) in E.
  rewrite !list_ascii_app in E. apply app_inv_head in E.
  assert (∀ s, length (String.list_ascii_of_string s) = String.length s) as Hlen
    by (induction s as [|c s IH]; [done|by apply (f_equal S)]).
  apply app_inj_2 in E as [En Ea]; [|by rewrite !Hlen].
  by apply list_ascii_inj in En, Ea.
Qed.

(** No key of one kind is a key of another, whatever the nicknames. *)
Lemma fail_until_keys n n' : failKey n ≠ untilKey n'.
Proof.
  unfold failKey, untilKey. intros E%(f_equal String.list_ascii_of_string)%(f_equal (@rev _)).
  rewrite !list_ascii_app, !rev_app_distr in E. cbn in E. discriminate.
Qed.

Lemma failKey_inj n n' : failKey n = failKey n' → n = n'.
Proof. intros E. by destruct (key_suffix_inj "recovery/" n n' _ _ E eq_refl). Qed.

Lemma untilKey_inj n n' : untilKey n = untilKey n' → n = n'.
Proof. intros E. by destruct (key_suffix_inj "recovery/" n n' _ _ E eq_refl). Qed.

Section Worlds.
Context `{Sodium} `{QtText} `{QVariantCasts} `{QTrim} `{QDates} `{AppLock.Dpapi}.

(** ** The client with its prompts *)
Record World := mkWorld {
  client_state : State;
  prompts : list AppLock.Prompt;
}.

Inductive RecoveryOp :=
| Recover (now : Z) (today : Z * Z * Z) (serverUrl nickname birthday : string)
| BiometricLogin (serverUrl nick : string)
| AnswerPrompt (i : nat) (env : AppLock.HelloEnv)
| RequestEnroll (password : string)
| EnrollConfirmed
| DisableBiometric (nick : string)
| LogOut.

Definition with_prompt (p : option AppLock.Prompt) (s : State) (w : World) : World :=
  mkWorld s (prompts w ++ option_list p).

(** [AnswerPrompt i env]: the user answers the [i]-th prompt; a dismissed one, or one
    whose blob does not unwrap, delivers nothing. *)
Definition run_recovery_op (hello : bool) (o : RecoveryOp) (w : World) : World * list Event :=
  let s := client_state w in
  match o with
  | Recover now today url nick bday =>
      let '(p, s1, ev) := recoverPassword hello now today url nick bday s in
      (with_prompt p s1 w, ev)
  | BiometricLogin url nick =>
      let '(p, s1) := biometricLogin hello url nick s in (with_prompt p s1 w, [])
  | AnswerPrompt i env =>
      match prompts w !! i with
      | None => (w, [])
      | Some p =>
          let rest := take i (prompts w) ++ drop (S i) (prompts w) in
          match AppLock.answerPrompt true env p with
          | None => (mkWorld s rest, [])
          | Some (nick, pw) =>
              let '(s1, ev) := onBiometricLoginUnlocked nick pw s in (mkWorld s1 rest, ev)
          end
      end
  | RequestEnroll pw => (mkWorld (requestBiometricLoginEnroll pw s) (prompts w), [])
  | EnrollConfirmed => let '(s1, ev) := enrollConfirmed hello s in (mkWorld s1 (prompts w), ev)
  | DisableBiometric nick =>
      let '(s1, ev) := disableBiometricLogin hello nick s in (mkWorld s1 (prompts w), ev)
  | LogOut => (mkWorld (dropEnroll s) (prompts w), [])
  end.

Fixpoint run_recovery (hello : bool) (os : list RecoveryOp) (w : World) : World * list Event :=
  match os with
  | [] => (w, [])
  | o :: rest =>
      let '(w1, ev1) := run_recovery_op hello o w in
      let '(w2, ev2) := run_recovery hello rest w1 in (w2, ev1 ++ ev2)
  end.

Definition is_reveal (e : Event) : bool :=
  match e with PasswordRevealed _ => true | _ => false end.
Definition is_match (e : Event) : bool :=
  match e with BirthdayMatched _ => true | _ => false end.
Definition is_wrong (n : string) (e : Event) : bool :=
  match e with BirthdayWrong n' => bool_decide (n' = n) | _ => false end.

Definition count (f : Event → bool) (ev : list Event) : nat :=
  length (List.filter f ev).

Lemma count_app f ev1 ev2 : count f (ev1 ++ ev2) = count f ev1 + count f ev2.
Proof. unfold count. by rewrite List.filter_app, length_app. Qed.

(** The credit for one reveal. *)
Definition credit (s : State) : nat := if m_revealOnly s then 1 else 0.

Lemma op_credit hello o w :
  let '(w1, ev) := run_recovery_op hello o w in
  count is_reveal ev + credit (client_state w1) ≤ count is_match ev + credit (client_state w).
Proof.
  destruct o; cbn [run_recovery_op].
  - unfold recoverPassword. destruct (String.eqb (trimmed nickname) ""); [done|].
    destruct (String.eqb _ ""); [done|]. destruct (now <? _)%Z; [done|].
    destruct (negb _); [done|]. destruct (negb _).
    + destruct (5 <=? _)%Z; done.
    + cbn. lia.
  - unfold biometricLogin. destruct (_ || _); [done|]. by destruct (negb _).
  - destruct (prompts w !! i) as [p|]; [|done].
    destruct (AppLock.answerPrompt true env p) as [[nick pw]|]; [|done].
    unfold onBiometricLoginUnlocked, credit.
    destruct (String.eqb pw ""), (m_revealOnly (client_state w)) eqn:E; cbn; rewrite ?E; try lia.
    destruct (_ || _); cbn; rewrite ?E; lia.
  - apply Nat.le_refl.
  - unfold enrollConfirmed. destruct (_ && _); apply Nat.le_refl.
  - apply Nat.le_refl.
  - apply Nat.le_refl.
Qed.

(** ** The throttle *)

(** Wrong birthdays still allowed for [n] until [horizon]. *)
Definition guesses_left (n : string) (horizon : Z) (st : Settings) : Z :=
  if (horizon <=? read_int (untilKey n) 0 st)%Z then 0
  else Z.max 1 (5 - read_int (failKey n) 0 st).

Lemma guesses_same n h st st' :
  st' !! failKey n = st !! failKey n → st' !! untilKey n = st !! untilKey n →
  guesses_left n h st' = guesses_left n h st.
Proof. intros E1 E2. unfold guesses_left, read_int. by rewrite E1, E2. Qed.

Lemma vault_keys n n' :
  failKey n ≠ AppLock.vaultBlobKey n' ∧ failKey n ≠ AppLock.vaultOnKey n' ∧
  untilKey n ≠ AppLock.vaultBlobKey n' ∧ untilKey n ≠ AppLock.vaultOnKey n'.
Proof. done. Qed.

Lemma enrollLogin_frame hello nick pw st n h :
  guesses_left n h (AppLock.enrollLogin hello nick pw st) = guesses_left n h st.
Proof.
  destruct (vault_keys n nick) as (K1 & K2 & K3 & K4). unfold AppLock.enrollLogin.
  destruct (negb hello); [done|]. case_decide; [done|].
  apply guesses_same; by rewrite !lookup_insert_ne.
Qed.

Lemma clearLogin_frame hello nick st n h :
  guesses_left n h (AppLock.clearLogin hello nick st) = guesses_left n h st.
Proof.
  destruct (vault_keys n nick) as (K1 & K2 & K3 & K4). unfold AppLock.clearLogin.
  destruct (negb hello); [done|]. apply guesses_same; by rewrite !lookup_delete_ne.
Qed.

Lemma unlocked_frame nick pw s :
  settings (onBiometricLoginUnlocked nick pw s).1 = settings s.
Proof.
  unfold onBiometricLoginUnlocked. destruct (String.eqb pw ""), (m_revealOnly s); try done.
  all: by destruct (_ || _).
Qed.

Lemma unlocked_not_wrong n nick pw s :
  count (is_wrong n) (onBiometricLoginUnlocked nick pw s).2 = 0.
Proof.
  unfold onBiometricLoginUnlocked. destruct (String.eqb pw ""), (m_revealOnly s); try done.
  all: by destruct (_ || _).
Qed.

(** One attempt at [now < horizon <= now + 15 * 60]. *)
Lemma recover_guesses hello now today url nick bday s n h :
  (now < h ≤ now + 15 * 60)%Z → (∀ m, BirthdayMatched m ∉ (recoverPassword hello now today url nick bday s).2) →
  let '(_, s1, ev) := recoverPassword hello now today url nick bday s in
  (Z.of_nat (count (is_wrong n) ev) + guesses_left n h (settings s1)
   ≤ guesses_left n h (settings s))%Z.
Proof.
  intros Hh. unfold recoverPassword. generalize (trimmed nick) as u. intros u.
  destruct (String.eqb u ""); [done|]. destruct (String.eqb _ ""); [done|].
  destruct (Z.ltb_spec now (read_int (untilKey u) 0 (settings s))); [done|].
  destruct (negb _); [done|]. destruct (negb _).
  2:{ intros Hn. exfalso. apply (Hn u). by left. }
  intros _. destruct (decide (u = n)) as [->|Hne].
  - assert (Hbefore : guesses_left n h (settings s)
                      = Z.max 1 (5 - read_int (failKey n) 0 (settings s))).
    { unfold guesses_left.
      destruct (Z.leb_spec h (read_int (untilKey n) 0 (settings s))); [lia|done]. }
    rewrite Hbefore. destruct (Z.leb_spec 5 (read_int (failKey n) 0 (settings s) + 1)).
    + unfold guesses_left. cbn [settings set_settings].
      rewrite (proj1 (proj2 (read_other (failKey n) (untilKey n) _ _ (fail_until_keys n n)))).
      rewrite read_int_set. rewrite (proj2 (Z.leb_le h (now + 15 * 60))) by lia.
      unfold count. cbn. rewrite bool_decide_true by done. cbn. lia.
    + unfold guesses_left at 1. cbn [settings set_settings].
      rewrite read_int_set.
      rewrite (proj1 (proj2 (read_other (failKey n) (untilKey n) _ _ (fail_until_keys n n)))).
      destruct (Z.leb_spec h (read_int (untilKey n) 0 (settings s))); [lia|].
      unfold count. cbn. rewrite bool_decide_true by done. cbn. lia.
  - assert (Hf : failKey u ≠ failKey n) by (intros E%failKey_inj; done).
    assert (Hu : untilKey u ≠ untilKey n) by (intros E%untilKey_inj; done).
    pose proof (fail_until_keys u n). pose proof (fail_until_keys n u).
    assert (Hc : ∀ f, count (is_wrong n) [BirthdayWrong u; RecoveryFailed f] = 0).
    { intros f. unfold count. cbn. by rewrite bool_decide_false. }
    destruct (5 <=? _)%Z; rewrite Hc; cbn [settings set_settings];
      rewrite (guesses_same n h (settings s)); rewrite ?lookup_insert_ne by done; done || lia.
Qed.

Definition in_window (a : Z) (o : RecoveryOp) : Prop :=
  match o with Recover now _ _ _ _ => (a ≤ now < a + 15 * 60)%Z | _ => True end.

(** C27: guessing is throttled. Whatever else happens, for one nickname at most five wrong
    birthdays are checked within any quarter of an hour in which none is matched. *)
Theorem recovery_rate_limit hello os w n a :
  Forall (in_window a) os → (0 ≤ read_int (failKey n) 0 (settings (client_state w)))%Z →
  (∀ m, BirthdayMatched m ∉ (run_recovery hello os w).2) →
  count (is_wrong n) (run_recovery hello os w).2 ≤ 5.
Proof.
  intros Hw Hf Hn.
  enough (Z.of_nat (count (is_wrong n) (run_recovery hello os w).2)
          ≤ guesses_left n (a + 15 * 60) (settings (client_state w)))%Z as He
    by (unfold guesses_left in He; destruct (_ <=? _)%Z in He; lia).
  clear Hf. revert w Hn. induction Hw as [|o os Ho Hw IH]; intros w Hn.
  { cbn. unfold guesses_left. destruct (_ <=? _)%Z; lia. }
  cbn [run_recovery] in *.
  assert (Hstep : ∀ w1 ev, run_recovery_op hello o w = (w1, ev) →
    (∀ m, BirthdayMatched m ∉ ev) →
    (Z.of_nat (count (is_wrong n) ev) + guesses_left n (a + 15 * 60) (settings (client_state w1))
     ≤ guesses_left n (a + 15 * 60) (settings (client_state w)))%Z).
  { clear IH Hn. intros w1 ev E Hev. destruct o; cbn [run_recovery_op] in E.
    - pose proof (recover_guesses hello now today serverUrl nickname birthday (client_state w) n
                    (a + 15 * 60) ltac:(cbn in Ho; lia)) as Hg.
      destruct (recoverPassword _ _ _ _ _ _ _) as [[p s1] ev1]. injection E as <- <-. by apply Hg.
    - unfold biometricLogin in E.
      destruct (_ || _); [injection E as <- <-; cbn; lia|].
      destruct (negb _); injection E as <- <-; cbn; lia.
    - destruct (prompts w !! i) as [p|]; [|injection E as <- <-; cbn; lia].
      destruct (AppLock.answerPrompt true env p) as [[nick pw]|];
        [|injection E as <- <-; cbn; lia].
      pose proof (unlocked_frame nick pw (client_state w)) as Hs.
      pose proof (unlocked_not_wrong n nick pw (client_state w)) as Hc.
      destruct (onBiometricLoginUnlocked _ _ _) as [s1 ev1]. injection E as <- <-.
      cbn [fst snd client_state] in *. rewrite Hc, Hs. lia.
    - injection E as <- <-. cbn. lia.
    - unfold enrollConfirmed in E. destruct (_ && _); injection E as <- <-; cbn; [|lia].
      rewrite enrollLogin_frame. lia.
    - injection E as <- <-. cbn. rewrite clearLogin_frame. lia.
    - injection E as <- <-. cbn. lia. }
  destruct (run_recovery_op hello o w) as [w1 ev1]. specialize (IH w1).
  destruct (run_recovery hello os w1) as [w2 ev2]. cbn [snd] in *. rewrite count_app.
  assert (∀ m, BirthdayMatched m ∉ ev2) as Hn2.
  { intros m Hm. apply (Hn m), elem_of_app. by right. }
  assert (∀ m, BirthdayMatched m ∉ ev1) as Hn1.
  { intros m Hm. apply (Hn m), elem_of_app. by left. }
  specialize (IH Hn2). specialize (Hstep w1 ev1 eq_refl Hn1). lia.
Qed.
End Worlds.

(** ** A birthday that matches *)
Section Birthdays.
Context `{SodiumLaws} `{QtTextLaws} `{!QtHexLaws} `{QVariantCasts} `{QTrim} `{QDates}.
Context `{AppLock.DpapiLaws}.

Lemma hex_diff_self a : hex_diff a a = 0%Z.
Proof.
  induction a as [|x a IH]; [done|]. cbn [hex_diff head tail default from_option].
  by rewrite Z.lxor_nilpotent, IH.
Qed.

(** A stored birthday matches itself. *)
Lemma stored_birthday_matches nick iso salt k s :
  length salt = 16 → argon2id32 kVerifyCtx (toUtf8 iso) salt = Some k →
  read_text (dobVerifierKey nick) s = hexStr k → read_text (dobSaltKey nick) s = hexStr salt →
  checkBirthday nick iso s = true.
Proof.
  intros Hs Hk Ev Es.
  assert (Lk : length k = 32) by (by apply (pwhash_length (kVerifyCtx ++ toUtf8 iso) salt)).
  unfold checkBirthday. rewrite Ev, Es.
  rewrite !hexStr_nonempty by (intros E; by rewrite E in * ). cbn [orb].
  unfold deriveVerifierWithSalt. rewrite unhexStr_hexStr, Hs, Hk. cbn [negb Nat.eqb].
  rewrite hexStr_nonempty by (intros E; by rewrite E in * ).
  rewrite Nat.eqb_refl. cbn [negb orb]. by rewrite hex_diff_self.
Qed.

Lemma recorded_birthday nick iso salt k s :
  argon2id32 kVerifyCtx (toUtf8 iso) salt = Some k →
  read_text (dobVerifierKey nick) (storeBirthdayVerifier nick iso salt s) = hexStr k ∧
  read_text (dobSaltKey nick) (storeBirthdayVerifier nick iso salt s) = hexStr salt.
Proof.
  intros Hk. unfold storeBirthdayVerifier, deriveVerifier. rewrite Hk.
  split; [|apply read_text_set].
  assert (dobSaltKey nick ≠ dobVerifierKey nick) as Hne.
  { unfold dobSaltKey, dobVerifierKey.
    intros E%(f_equal String.list_ascii_of_string)%(f_equal (@rev _)).
    rewrite !list_ascii_app, !rev_app_distr in E. cbn in E. discriminate. }
  rewrite (proj1 (proj2 (proj2 (read_other _ (dobVerifierKey nick) _ _ Hne)))).
  apply read_text_set.
Qed.

Lemma login_fields_frame key a b s :
  "login/lastServerUrl" ≠ key → "login/lastNickname" ≠ key →
  read_text key (<["login/lastServerUrl" := VText a]> (<["login/lastNickname" := VText b]> s))
  = read_text key s.
Proof. intros K1 K2. unfold read_text. by rewrite !lookup_insert_ne. Qed.

(** a failed registration replaces the recovery birthday. Registering a nickname
    that already has an account here is refused and touches neither its files nor the
    keys in memory, and yet from then on the birthday given in the refused attempt is
    the one that password recovery accepts. *)
Theorem refused_registration_sets_birthday today url nickname pw bday salt dirs rnd att rm fs box
    s iso k :
  normalizeBirthday today bday = iso → iso ≠ "" → length salt = 16 →
  argon2id32 kVerifyCtx (toUtf8 iso) salt = Some k →
  Accounts.find_encrypted dirs (trimmed nickname) fs ≠ None →
  ∃ s1, registerLocally today url nickname pw bday salt dirs rnd att rm fs box s
        = (Accounts.AccountExistsLocally, fs, box, s1) ∧
        checkBirthday (trimmed nickname) iso (settings s1) = true.
Proof.
  intros Hi Hne Hs Hk Hf. unfold registerLocally, Accounts.establishIdentity.
  destruct (Accounts.find_encrypted dirs (trimmed nickname) fs) as [d|]; [|done].
  eexists. split; [done|]. cbn [settings]. unfold recordBirthday. rewrite Hi.
  destruct (String.eqb_spec iso ""); [done|].
  destruct (recorded_birthday (trimmed nickname) iso salt k (settings s) Hk) as [Ev Es].
  apply (stored_birthday_matches _ _ salt k); [done..| |].
  - by rewrite login_fields_frame by done.
  - by rewrite login_fields_frame by done.
Qed.

(** The vault gives back what was put in. *)
Lemma enrolled_read nick pw s :
  AppLock.dpapiWrap (toUtf8 pw) ≠ [] →
  AppLock.hasLoginEnrolled true nick (AppLock.enrollLogin true nick pw s) = true ∧
  AppLock.loginWithBiometric true nick (AppLock.enrollLogin true nick pw s)
  = Some (AppLock.mkPrompt nick (AppLock.dpapiWrap (toUtf8 pw))).
Proof.
  intros Hw. unfold AppLock.enrollLogin. cbn [negb]. rewrite decide_False by done.
  assert (AppLock.vaultOnKey nick ≠ AppLock.vaultBlobKey nick) as Hne.
  { unfold AppLock.vaultOnKey, AppLock.vaultBlobKey.
    intros E%(f_equal String.list_ascii_of_string)%(f_equal (@rev _)).
    rewrite !list_ascii_app, !rev_app_distr in E. cbn in E. discriminate. }
  unfold AppLock.hasLoginEnrolled, AppLock.loginWithBiometric. cbn [negb andb].
  rewrite read_bool_set.
  rewrite (proj2 (proj2 (proj2 (read_other _ (AppLock.vaultBlobKey nick) _ _ Hne)))).
  rewrite read_bytes_set, decide_False by done. by rewrite bool_decide_false.
Qed.

Lemma answered_prompt nick pw env :
  toUtf8 pw ≠ [] → AppLock.dpapiWrap (toUtf8 pw) ≠ [] →
  AppLock.he_api env = true → (AppLock.runHelloVerification env).1 = true →
  AppLock.answerPrompt true env (AppLock.mkPrompt nick (AppLock.dpapiWrap (toUtf8 pw)))
  = Some (nick, pw).
Proof.
  intros Hp Hw Ha Hv. unfold AppLock.answerPrompt. rewrite Ha, Hv. cbn [negb AppLock.wrapped].
  rewrite dpapi_roundtrip by done. rewrite decide_False by done.
  by rewrite fromUtf8_toUtf8.
Qed.

(** a biometric login types the enrolled password. Once a login with opt-in is
    confirmed, the account is enrolled, and a biometric login of it that the user
    answers runs the ordinary login with that password at the given server. *)
Theorem enrolled_login_roundtrip pw url env w :
  m_revealOnly (client_state w) = false → prompts w = [] →
  m_nick (client_state w) ≠ "" → trimmed (m_nick (client_state w)) = m_nick (client_state w) →
  trimmed url ≠ "" → pw ≠ "" → toUtf8 pw ≠ [] → AppLock.dpapiWrap (toUtf8 pw) ≠ [] →
  AppLock.he_api env = true → (AppLock.runHelloVerification env).1 = true →
  let '(w', ev) := run_recovery true
    [RequestEnroll pw; EnrollConfirmed; BiometricLogin url (m_nick (client_state w));
     AnswerPrompt 0 env] w in
  ev = [BiometricLoginChanged; LoginWith (trimmed url) (m_nick (client_state w)) pw] ∧
  AppLock.hasLoginEnrolled true (m_nick (client_state w)) (settings (client_state w')) = true ∧
  m_bioEnrollPassword (client_state w') = "" ∧ prompts w' = [].
Proof.
  destruct w as [s ps]. cbn [client_state prompts].
  intros Hr -> Hn Ht Hu Hpw Hutf Hw Hapi Hver.
  set (st := AppLock.enrollLogin true (m_nick s) pw (settings s)).
  destruct (enrolled_read (m_nick s) pw (settings s) Hw) as [He Hl]. fold st in He, Hl.
  set (s2 := mkState st (m_nick s) false (m_bioLoginServerUrl s) "" false).
  assert (E1 : run_recovery_op true EnrollConfirmed
      (mkWorld (requestBiometricLoginEnroll pw s) []) = (mkWorld s2 [], [BiometricLoginChanged])).
  { cbn. unfold enrollConfirmed, requestBiometricLoginEnroll.
    destruct (String.eqb_spec pw ""); [done|]. cbn.
    destruct (String.eqb_spec pw ""); [done|]. destruct (String.eqb_spec (m_nick s) ""); [done|].
    cbn. unfold s2, set_enroll. cbn. by rewrite Hr. }
  assert (E2 : run_recovery_op true (BiometricLogin url (m_nick s)) (mkWorld s2 [])
    = (mkWorld (set_url (trimmed url) s2)
         [AppLock.mkPrompt (m_nick s) (AppLock.dpapiWrap (toUtf8 pw))], [])).
  { cbn. unfold biometricLogin. rewrite Ht.
    destruct (String.eqb_spec (m_nick s) ""); [done|].
    destruct (String.eqb_spec (trimmed url) ""); [done|].
    change (settings s2) with st. by rewrite He, Hl. }
  assert (E3 : run_recovery_op true (AnswerPrompt 0 env)
      (mkWorld (set_url (trimmed url) s2)
         [AppLock.mkPrompt (m_nick s) (AppLock.dpapiWrap (toUtf8 pw))])
    = (mkWorld (set_url (trimmed url) s2) [], [LoginWith (trimmed url) (m_nick s) pw])).
  { cbn [run_recovery_op prompts client_state lookup list_lookup].
    rewrite answered_prompt by done. unfold onBiometricLoginUnlocked.
    destruct (String.eqb_spec pw ""); [done|].
    change (m_revealOnly (set_url (trimmed url) s2)) with false. cbv iota.
    change (m_bioLoginServerUrl (set_url (trimmed url) s2)) with (trimmed url). rewrite Ht.
    destruct (String.eqb_spec (trimmed url) ""); [done|].
    rewrite !(proj2 (String.eqb_neq (m_nick s) "") Hn). cbn [orb].
    by rewrite (proj2 (String.eqb_neq (trimmed url) "") Hu). }
  cbn [run_recovery]. change (run_recovery_op true (RequestEnroll pw) (mkWorld s [])) with
    (mkWorld (requestBiometricLoginEnroll pw s) [], @nil Event). cbv beta iota.
  rewrite E1, E2, E3. done.
Qed.

(** an abandoned recovery turns the next login into a reveal. If a matched recovery
    is left by dismissing the prompt, the next biometric login, of any account enrolled
    on the device, shows that account's password on screen and does not log in. *)
Theorem abandoned_recovery_reveals now today url nick bday s p url2 nick2 pw2 env env2 w ev1 :
  recoverPassword true now today url nick bday s = (Some p, client_state w, ev1) →
  prompts w = [p] →
  (AppLock.runHelloVerification env).1 = false →
  trimmed nick2 = nick2 → nick2 ≠ "" → trimmed url2 ≠ "" →
  read_bytes (AppLock.vaultBlobKey nick2) (settings (client_state w))
    = AppLock.dpapiWrap (toUtf8 pw2) →
  AppLock.hasLoginEnrolled true nick2 (settings (client_state w)) = true →
  pw2 ≠ "" → toUtf8 pw2 ≠ [] → AppLock.he_api env2 = true →
  (AppLock.runHelloVerification env2).1 = true →
  let '(w', ev) := run_recovery true
    [AnswerPrompt 0 env; BiometricLogin url2 nick2; AnswerPrompt 0 env2] w in
  ev = [PasswordRevealed pw2] ∧ prompts w' = [] ∧ m_revealOnly (client_state w') = false.
Proof.
  intros Hr Hp Henv Ht Hn Hu Hblob Hen Hpw Hutf Hapi Hver.
  assert (Hreveal : m_revealOnly (client_state w) = true).
  { unfold recoverPassword in Hr. destruct (String.eqb (trimmed nick) ""); [done|].
    destruct (String.eqb _ ""); [done|]. destruct (now <? _)%Z; [done|].
    destruct (negb _); [done|]. destruct (negb _); [by destruct (5 <=? _)%Z|].
    by injection Hr as _ <- _. }
  destruct w as [st ps]. cbn [prompts client_state] in *. subst ps.
  assert (Hw : AppLock.dpapiWrap (toUtf8 pw2) ≠ []).
  { unfold AppLock.hasLoginEnrolled in Hen. rewrite Hblob in Hen. intros E. rewrite E in Hen.
    by rewrite andb_comm in Hen. }
  assert (E1 : run_recovery_op true (AnswerPrompt 0 env) (mkWorld st [p]) = (mkWorld st [], [])).
  { cbn. unfold AppLock.answerPrompt. rewrite Henv. by destruct (negb _). }
  assert (E2 : run_recovery_op true (BiometricLogin url2 nick2) (mkWorld st [])
    = (mkWorld (set_url (trimmed url2) st)
         [AppLock.mkPrompt nick2 (AppLock.dpapiWrap (toUtf8 pw2))], [])).
  { cbn. unfold biometricLogin. rewrite Ht.
    destruct (String.eqb_spec nick2 ""); [done|]. destruct (String.eqb_spec (trimmed url2) ""); [done|].
    rewrite Hen. cbn [orb negb]. unfold AppLock.loginWithBiometric. cbn [negb].
    rewrite Hblob, decide_False by done. done. }
  assert (E3 : run_recovery_op true (AnswerPrompt 0 env2)
      (mkWorld (set_url (trimmed url2) st) [AppLock.mkPrompt nick2 (AppLock.dpapiWrap (toUtf8 pw2))])
    = (mkWorld (set_reveal false (set_url (trimmed url2) st)) [], [PasswordRevealed pw2])).
  { cbn [run_recovery_op prompts client_state lookup list_lookup].
    rewrite answered_prompt by done. unfold onBiometricLoginUnlocked.
    destruct (String.eqb_spec pw2 ""); [done|].
    change (m_revealOnly (set_url (trimmed url2) st)) with (m_revealOnly st). by rewrite Hreveal. }
  cbn [run_recovery]. rewrite E1, E2, E3. done.
Qed.
End Birthdays.
