(* ===== verification/Chat.v ===== *)
(** * ChatClient: what the client keeps across restarts (client/src/chatclient.cpp)

    The part of the controller that ties the box, the store, the message list and
    the user list together: opening a conversation, deleting and reacting, saving
    and restoring sessions, and the queue of what was composed offline.  Frames
    sent to the relay are an output of the operation.  Each call of the store takes
    the engine's answer; [now] and the random octets are arguments. *)

From Stdlib Require Import Strings.Ascii.
From S2P Require Import Prelude Platform Kdf Ratchet X3dh CryptoBox Persist MessageModel.
From S2P Require Import UserModel HistoryStore Localization.

Module ChatClient.

Inductive PendingKind := PText | PFile | PHandshake | PVerifyAck.

(** [struct PendingOut]. *)
Record PendingOut := mkPending {
  p_dbId : Z;
  p_kind : PendingKind;
  p_peer : string;
  p_plaintext : string;
  p_srcPath : string;
  p_peerIdentity : string;
  p_mid : string;
  p_ts : Z;
}.

(** The data members these operations use; [m_connected] says that the socket is in
    its connected state. *)
Record Client := mkClient {
  m_nick : string;
  m_crypto : CryptoBox;
  m_history : HistoryStore.Store;
  m_messages : list MessageModel.Message;
  m_users : UserModel.State;
  m_activePeer : string;
  m_peerKeys : gmap string string;
  m_outbox : list PendingOut;
  m_sentSinceRatchet : gmap string Z;
  m_connected : bool;
}.

(** The frames these operations send. *)
Inductive Out :=
| GetKey (nick : string)
| DeleteFrame (from to mid : string)
| ReactionFrame (from to mid kind : string)
| PublishPrekeys (spk spk_sig : string) (opks : gmap Z string).

Definition set_crypto (x : CryptoBox) (c : Client) : Client :=
  mkClient (m_nick c) x (m_history c) (m_messages c) (m_users c) (m_activePeer c)
    (m_peerKeys c) (m_outbox c) (m_sentSinceRatchet c) (m_connected c).
Definition set_store (x : HistoryStore.Store) (c : Client) : Client :=
  mkClient (m_nick c) (m_crypto c) x (m_messages c) (m_users c) (m_activePeer c)
    (m_peerKeys c) (m_outbox c) (m_sentSinceRatchet c) (m_connected c).
Definition set_messages (x : list MessageModel.Message) (c : Client) : Client :=
  mkClient (m_nick c) (m_crypto c) (m_history c) x (m_users c) (m_activePeer c)
    (m_peerKeys c) (m_outbox c) (m_sentSinceRatchet c) (m_connected c).
Definition set_user_list (x : UserModel.State) (c : Client) : Client :=
  mkClient (m_nick c) (m_crypto c) (m_history c) (m_messages c) x (m_activePeer c)
    (m_peerKeys c) (m_outbox c) (m_sentSinceRatchet c) (m_connected c).
Definition set_active (x : string) (c : Client) : Client :=
  mkClient (m_nick c) (m_crypto c) (m_history c) (m_messages c) (m_users c) x
    (m_peerKeys c) (m_outbox c) (m_sentSinceRatchet c) (m_connected c).
Definition set_queue (x : list PendingOut) (c : Client) : Client :=
  mkClient (m_nick c) (m_crypto c) (m_history c) (m_messages c) (m_users c) (m_activePeer c)
    (m_peerKeys c) x (m_sentSinceRatchet c) (m_connected c).
Definition set_sent (x : gmap string Z) (c : Client) : Client :=
  mkClient (m_nick c) (m_crypto c) (m_history c) (m_messages c) (m_users c) (m_activePeer c)
    (m_peerKeys c) (m_outbox c) x (m_connected c).

(** ** The conversation on screen *)
Section Conversation.
Context `{Sodium} `{QtText} `{SqlOrder}.

(** One stored row, replayed. *)
Definition replay_row (loc : Localization.State) (box : CryptoBox) (now : Z)
    (r : HistoryStore.StoredRow) (ms : list MessageModel.Message)
    : list MessageModel.Message :=
  if HistoryStore.sr_system r then
    (MessageModel.addSystem (HistoryStore.sr_systemText r) now ms).1
  else if HistoryStore.sr_isFile r then
    (MessageModel.appendFileMessage (HistoryStore.sr_sender r) (HistoryStore.sr_msgId r)
       (HistoryStore.sr_filename r) (HistoryStore.sr_mime r) (HistoryStore.sr_size r)
       (HistoryStore.sr_localPath r) (HistoryStore.sr_mine r) (HistoryStore.sr_ts r) now ms).1
  else
    let plaintext :=
      default "" (localOpen (HistoryStore.sr_nonceHex r) (HistoryStore.sr_ctHex r) box) in
    if String.eqb plaintext "" then
      (MessageModel.addSystem (Localization.t "sys.cannotDecrypt" loc) now ms).1
    else
      let ms1 := (MessageModel.addMessage (HistoryStore.sr_sender r) plaintext
                    (HistoryStore.sr_ts r) (HistoryStore.sr_mine r)
                    (HistoryStore.sr_mid r) ms).1 in
      if HistoryStore.sr_edited r
      then (MessageModel.markEditedByMid (HistoryStore.sr_mid r) ms1).1.2 else ms1.

(** [now i] is the clock when the [i]-th row is replayed. *)
Fixpoint replay_rows (loc : Localization.State) (box : CryptoBox) (now : nat → Z)
    (rows : list HistoryStore.StoredRow) (ms : list MessageModel.Message)
    : list MessageModel.Message :=
  match rows with
  | [] => ms
  | r :: rest =>
      replay_rows loc box (λ i, now (S i)) rest (replay_row loc box (now 0) r ms)
  end.

Definition replay_reactions (reacts : list HistoryStore.ReactionRow)
    (ms : list MessageModel.Message) : list MessageModel.Message :=
  fold_left (λ ms r, (MessageModel.applyReaction (HistoryStore.r_mid r)
                        (String.eqb (HistoryStore.r_who r) "me")
                        (HistoryStore.r_kind r) ms).1.2) reacts ms.

(** [okRows] and [okReacts] are the engine's answers. *)
Definition loadConversation (loc : Localization.State) (okRows okReacts : bool)
    (now : nat → Z) (peer : string) (c : Client) : Client :=
  let rows := HistoryStore.rowsForPeer okRows peer HistoryStore.kRowLimit (m_history c) in
  let ms := replay_rows loc (m_crypto c) now rows (MessageModel.clear (m_messages c)).1 in
  set_messages
    (replay_reactions (HistoryStore.reactionsForPeer okReacts peer (m_history c)) ms) c.

Definition setActivePeer (loc : Localization.State) (okRows okReacts : bool)
    (now : nat → Z) (peer : string) (c : Client) : Client * list Out :=
  if String.eqb (m_activePeer c) peer then (c, []) else
  let c := set_active peer c in
  if String.eqb peer "" then
    (set_messages (MessageModel.clear (m_messages c)).1 c, [])
  else
    let '(c, outs) :=
      match m_peerKeys c !! peer with
      | Some key => (set_crypto (ensureSharedKey peer key (m_crypto c)).2 c, [])
      | None => (c, [GetKey peer])
      end in
    let c := set_user_list (UserModel.clearUnread peer (m_users c)).1 c in
    (loadConversation loc okRows okReacts now peer c, outs).
End Conversation.

(** ** Deletions and reactions *)

Definition deleteForMe (ok : bool) (mid : string) (c : Client) : Client :=
  if String.eqb mid "" then c else
  let c := set_messages (MessageModel.markDeletedByMid mid (m_messages c)).1.2 c in
  set_store (HistoryStore.markDeleted ok mid (m_history c)).2 c.

Definition deleteForEveryone (ok : bool) (mid : string) (c : Client) : Client * list Out :=
  if String.eqb mid "" then (c, []) else
  match MessageModel.indexOfMid mid (m_messages c) with
  | None => (set_store (HistoryStore.markDeleted ok mid (m_history c)).2 c, [])
  | Some row =>
      if negb (MessageModel.isMineAt (Z.of_nat row) (m_messages c)) then
        (deleteForMe ok mid c, [])
      else
        let c := set_messages (MessageModel.markDeletedByMid mid (m_messages c)).1.2 c in
        let c := set_store (HistoryStore.markDeleted ok mid (m_history c)).2 c in
        (c, if m_connected c then [DeleteFrame (m_nick c) (m_activePeer c) mid] else [])
  end.

(** An inbound [delete] frame. *)
Definition onDelete (ok : bool) (from mid : string) (c : Client) : Client :=
  if String.eqb mid "" then c else
  let c := set_messages (MessageModel.markDeletedByMid mid (m_messages c)).1.2 c in
  set_store (HistoryStore.markDeleted ok mid (m_history c)).2 c.

Definition sendReaction (ok : bool) (mid kind : string) (c : Client) : Client * list Out :=
  if String.eqb mid "" then (c, []) else
  let k := if String.eqb kind "up" || String.eqb kind "down" then kind else "" in
  let c := set_messages (MessageModel.applyReaction mid true k (m_messages c)).1.2 c in
  let c := set_store (HistoryStore.setReaction ok (m_activePeer c) mid "me" k (m_history c)).2 c in
  (c, if m_connected c then [ReactionFrame (m_nick c) (m_activePeer c) mid k] else []).

(** An inbound [reaction] frame. *)
Definition onReaction (ok : bool) (from mid kind : string) (c : Client) : Client :=
  if String.eqb from "" || String.eqb mid "" then c else
  let c := set_store (HistoryStore.setReaction ok from mid "peer" kind (m_history c)).2 c in
  set_messages (MessageModel.applyReaction mid false kind (m_messages c)).1.2 c.

(** ** Sessions *)
Section Sessions.
Context `{Sodium} `{QtText} `{QDataStream} `{QHashOrder} `{QStringOrder} `{SqlOrder}.

Definition persistSession (ok : bool) (peer : string) (now : Z) (c : Client) : Client :=
  if HistoryStore.m_ready (m_history c) then
    set_store (HistoryStore.saveSession ok peer (exportSession peer (m_crypto c))
                 (peerIdentityHex peer (m_crypto c))
                 (default 0%Z (m_sentSinceRatchet c !! peer)) now (m_history c)).2 c
  else c.

(** [m_peerKeys] is visited in the order of its keys' hashes; [ok p] is the
    engine's answer for the peer [p]. *)
Definition persistAllSessions (ok : string → bool) (now : Z) (c : Client) : Client :=
  if negb (HistoryStore.m_ready (m_history c)) then c else
  fold_left (λ c peer,
    let blob := exportSession peer (m_crypto c) in
    if decide (blob = []) then c else
    set_store (HistoryStore.saveSession (ok peer) peer blob (peerIdentityHex peer (m_crypto c))
                 (default 0%Z (m_sentSinceRatchet c !! peer)) now (m_history c)).2 c)
    (qset_items (dom (m_peerKeys c))) c.

(** One stored session; [ans i] is the engine's answer to its [i]-th statement. *)
Definition restoreSession (ans : nat → bool) (peer : string) (c : Client) : Client :=
  let peerId := HistoryStore.loadPeerIdentity (ans 0) peer (m_history c) in
  let c1 := if String.eqb peerId "" then c
            else set_crypto (setPeerIdentity peer peerId (m_crypto c)).2 c in
  let c2 :=
    match importSession peer (HistoryStore.loadSession (ans 1) peer (m_history c1))
            (m_crypto c1) with
    | None => set_store (HistoryStore.clearSession (ans 2) peer (m_history c1)).2 c1
    | Some box =>
        let c' := set_crypto box c1 in
        let savedCount := HistoryStore.loadSentSince (ans 3) peer (m_history c') in
        if (0 <? savedCount)%Z then
          set_sent (<[peer := Z.max (default 0%Z (m_sentSinceRatchet c' !! peer)) savedCount]>
                      (m_sentSinceRatchet c')) c'
        else c'
    end in
  set_user_list (UserModel.ensureUser peer (m_users c2)).1 c2.

Definition restoreAllSessions (okPeers : bool) (ans : string → nat → bool) (c : Client)
    : Client :=
  if negb (HistoryStore.m_ready (m_history c)) then c else
  fold_left (λ c peer, restoreSession (ans peer) peer c)
    (HistoryStore.sessionPeers okPeers (m_history c)) c.
End Sessions.

(** ** Prekeys *)
Definition kSpkMaxAgeMs : Z := 7 * 24 * 60 * 60 * 1000.
Definition kSpkGraceMs : Z := 2 * 24 * 60 * 60 * 1000.
Definition kPrekeyLowWaterMark : Z := 8.
Definition kPrekeyBatchSize : Z := 32.

Section Prekeys.
Context `{Sodium} `{QtText} `{QDataStream}.

Definition oneTimePrekeyCount (b : CryptoBox) : Z := Z.of_nat (size (m_opkPriv b)).

(** [if (m_history.isReady()) m_history.savePrekeys(...)]: the answers of the engine
    to creating the table and to the write. *)
Definition store_prekeys (okC ok : bool) (c : Client) : Client :=
  if HistoryStore.m_ready (m_history c)
  then set_store (HistoryStore.savePrekeys okC ok (serialisePrekeys (m_crypto c))
                    (m_history c)).2 c
  else c.

(** The pool on disk, when the box has none. *)
Definition restore_pool (okC ok : bool) (now : Z) (c : Client) : Client :=
  if negb (hasPrekeys (m_crypto c)) && HistoryStore.m_ready (m_history c) then
    let '(blob, st) := HistoryStore.loadPrekeys okC ok (m_history c) in
    let c1 := set_store st c in
    if decide (blob = []) then c1
    else match restorePrekeys blob now (m_crypto c1) with
         | Some box => set_crypto box c1
         | None => c1
         end
  else c.

(** [ans i] is the engine's answer to the [i]-th statement; [rnd] and [rnds] are the
    octets of a new signed prekey and of the new pool. *)
Definition publishPrekeysIfNeeded (ans : nat → bool) (force : bool) (rnd : bytes)
    (rnds : nat → bytes) (now : Z) (c : Client) : Client * list Out :=
  if negb (m_connected c) then (c, []) else
  if negb (hasX3dhIdentity (m_crypto c)) then (c, []) else
  let c := restore_pool (ans 0) (ans 1) now c in
  let needNew := force || negb (hasPrekeys (m_crypto c))
                 || (oneTimePrekeyCount (m_crypto c) <=? kPrekeyLowWaterMark)%Z in
  if negb needNew then (c, []) else
  match generatePrekeys kPrekeyBatchSize rnd rnds now (m_crypto c) with
  | None => (c, [])
  | Some box =>
      let c := store_prekeys (ans 2) (ans 3) (set_crypto box c) in
      (c, [PublishPrekeys (signedPrekeyPublicHex (m_crypto c))
             (signedPrekeySignatureHex (m_crypto c)) (oneTimePrekeyPublicsHex (m_crypto c))])
  end.

(** The prekey part of [onConnected]: rotation when it is due, then publication.
    [rndR] are the octets of the rotated key; [rnd1], [rnds1] and [rnd2], [rnds2]
    those of the two calls of [publishPrekeysIfNeeded]; [now] is the handler's clock,
    [clock] the one its callees read. *)
Definition onConnectedPrekeys (ansS ans1 ans2 : nat → bool) (rndR rnd1 rnd2 : bytes)
    (rnds1 rnds2 : nat → bytes) (now clock : Z) (c : Client) : Client * list Out :=
  let '(c1, outs1) :=
    if hasX3dhIdentity (m_crypto c) && hasPrekeys (m_crypto c) then
      let '(rotated, box1) := rotateSignedPrekeyIfDue kSpkMaxAgeMs now rndR clock (m_crypto c) in
      let '(dropped, box2) := dropExpiredPreviousPrekey kSpkGraceMs now box1 in
      let c := set_crypto box2 c in
      if rotated || dropped then
        let c := store_prekeys (ansS 0) (ansS 1) c in
        if rotated then publishPrekeysIfNeeded ans1 true rnd1 rnds1 clock c else (c, [])
      else (c, [])
    else (c, []) in
  let '(c2, outs2) := publishPrekeysIfNeeded ans2 false rnd2 rnds2 clock c1 in
  (c2, outs1 ++ outs2).
End Prekeys.

(** ** The queue of what was composed offline *)
Section Outbox.
Context `{Sodium} `{QtText}.

(** [mid] is the fresh UUID, [nonce] the octets of the seal.  The id is not
    passed to [enqueueOutboxText], whose default is the empty string. *)
Definition queueOutbox (okHist okOut : bool) (mid : string) (nonce : bytes)
    (peer plaintext : string) (ts : Z) (c : Client) : string * Client :=
  let sealedPair := localSeal plaintext nonce (m_crypto c) in
  let hist1 :=
    match sealedPair with
    | Some (histNonce, histCt) =>
        (HistoryStore.addTextRow okHist peer (m_nick c) histNonce histCt ts true mid
           (m_history c)).2
    | None => m_history c
    end in
  let '(dbId, hist2) :=
    match sealedPair with
    | Some (histNonce, histCt) =>
        if HistoryStore.m_ready hist1 then
          HistoryStore.enqueueOutboxText okOut peer (histNonce +:+ ":" +:+ histCt) ts
            (publicKeyHex (m_crypto c)) "" hist1
        else ((-1)%Z, hist1)
    | None => ((-1)%Z, hist1)
    end in
  (mid, set_queue (m_outbox c ++ [mkPending dbId PText peer plaintext "" "" mid ts])
          (set_store hist2 c)).

(** [srcPath]: the local path of the URL, or the URL itself. *)
Definition queueOutboxFile (okOut : bool) (peer srcPath : string) (ts : Z) (c : Client)
    : Client :=
  let '(dbId, hist1) :=
    if HistoryStore.m_ready (m_history c) then
      HistoryStore.enqueueOutboxFile okOut peer srcPath ts (publicKeyHex (m_crypto c))
        (m_history c)
    else ((-1)%Z, m_history c) in
  set_queue (m_outbox c ++ [mkPending dbId PFile peer "" srcPath "" "" ts])
    (set_store hist1 c).

(** [left(colon)] and [mid(colon + 1)] at the first colon. *)
Fixpoint split_colon (s : string) : option (string * string) :=
  match s with
  | EmptyString => None
  | String x s' =>
      if Ascii.eqb x ":" then Some (EmptyString, s')
      else match split_colon s' with
           | Some (l, r) => Some (String x l, r)
           | None => None
           end
  end.

(** The text of a queued body; [None] when it cannot be opened. *)
Definition open_body (body : string) (box : CryptoBox) : option string :=
  match split_colon body with
  | Some (nonceHex, ctHex) =>
      if String.eqb nonceHex "" then None else
      let plain := default "" (localOpen nonceHex ctHex box) in
      if String.eqb plain "" then None else Some plain
  | None => None
  end.

(** What becomes of one row; [None] drops it. *)
Definition restore_item (box : CryptoBox) (r : HistoryStore.OutboxRow) : option PendingOut :=
  let id := HistoryStore.o_id r in
  let peer := HistoryStore.o_peer r in
  let ts := HistoryStore.o_ts r in
  let mine := publicKeyHex box in
  let identity := HistoryStore.o_identity r in
  match HistoryStore.o_kind r with
  | HistoryStore.OText =>
      match open_body (HistoryStore.o_body r) box with
      | Some plain =>
          Some (mkPending id PText peer plain "" "" (default "" (HistoryStore.o_mid r)) ts)
      | None => None
      end
  | HistoryStore.OFile =>
      if negb (String.eqb identity "") && String.eqb identity mine
      then Some (mkPending id PFile peer "" (HistoryStore.o_srcPath r) "" "" ts) else None
  | HistoryStore.OHandshake =>
      if String.eqb identity "" || String.eqb identity mine
      then Some (mkPending id PHandshake peer "" "" "" "" ts) else None
  | HistoryStore.OVerifyAck =>
      if String.eqb identity "" || String.eqb identity mine
      then Some (mkPending id PVerifyAck peer "" "" (HistoryStore.o_body r) "" ts) else None
  end.

(** [okDel id] is the engine's answer to deleting the row [id]. *)
Definition restore_row (okDel : Z → bool) (r : HistoryStore.OutboxRow) (c : Client) : Client :=
  match restore_item (m_crypto c) r with
  | Some po => set_queue (m_outbox c ++ [po]) c
  | None =>
      if (0 <=? HistoryStore.o_id r)%Z then
        set_store (HistoryStore.deleteOutboxRow (okDel (HistoryStore.o_id r))
                     (HistoryStore.o_id r) (m_history c)).2 c
      else c
  end.

Definition restoreOutbox (okLoad : bool) (okDel : Z → bool) (c : Client) : Client :=
  if negb (HistoryStore.m_ready (m_history c)) then c else
  fold_left (λ c r, restore_row okDel r c) (HistoryStore.loadOutbox okLoad (m_history c)) c.
End Outbox.

End ChatClient.
