(* ===== verification/ChatFacts.v ===== *)
(** * ChatClient: reopening a conversation *)

From S2P Require Import Prelude Platform Kdf Ratchet X3dh CryptoBox Persist PersistFacts.
From S2P Require Import MessageModel HistoryStore HistoryFacts Localization Chat.

Import ChatClient.

(** ** Rows on screen up to their badges *)
Section Content.
Import MessageModel.

(** Two rows differ at most in the edit marker and the reactions. *)
Definition same_content (m m' : Message) : Prop :=
  ∃ mine_r peer_r ed,
    m' = mkMessage (sender m) (text m) (ts m) (mine m) (system m) (isFile m) (msgId m)
           (filename m) (mime m) (fsize m) (localPath m) (mid m) (deleted m) mine_r peer_r ed.

Lemma same_content_refl m : same_content m m.
Proof. destruct m. by do 3 eexists. Qed.

Lemma same_contents_refl ms : Forall2 same_content ms ms.
Proof. apply Forall_Forall2_diag, Forall_true, same_content_refl. Qed.

Lemma insert_same_content ms i m m' :
  ms !! i = Some m → same_content m m' → Forall2 same_content ms (<[i:=m']> ms).
Proof.
  intros Hi Hm. apply Forall2_same_length_lookup_2; [by rewrite length_insert|].
  intros j x y Hx Hy. destruct (decide (i = j)) as [<-|Hne].
  - rewrite list_lookup_insert_eq in Hy by (by eapply lookup_lt_Some). congruence.
  - rewrite list_lookup_insert_ne in Hy by done.
    assert (x = y) as -> by congruence. apply same_content_refl.
Qed.

Lemma markEdited_content id ms : Forall2 same_content ms (markEditedByMid id ms).1.2.
Proof.
  unfold markEditedByMid. destruct (indexOfMid id ms) as [i|]; [|apply same_contents_refl].
  destruct (ms !! i) as [m|] eqn:E; [|apply same_contents_refl].
  destruct (_ || _); [apply same_contents_refl|].
  destruct (edited m); [apply same_contents_refl|]. cbn.
  eapply insert_same_content; [done|]. by do 3 eexists.
Qed.

Lemma applyReaction_content id isMine kind ms :
  Forall2 same_content ms (applyReaction id isMine kind ms).1.2.
Proof.
  unfold applyReaction. destruct (indexOfMid id ms) as [i|]; [|apply same_contents_refl].
  destruct (ms !! i) as [m|] eqn:E; [|apply same_contents_refl].
  destruct (deleted m); [apply same_contents_refl|]. cbn.
  eapply insert_same_content; [done|]. by do 3 eexists.
Qed.
End Content.

(** ** What a stored row looks like on screen *)
Section Reopen.
Context `{Sodium} `{QtText} `{SqlOrder}.
Import MessageModel.

(** The text of a stored row under the current key, empty if it does not open. *)
Definition stored_text (box : CryptoBox) (r : HistoryStore.StoredRow) : string :=
  default ""%string (localOpen (HistoryStore.sr_nonceHex r) (HistoryStore.sr_ctHex r) box).

(** A row on screen shows a stored row: a live row with the stored sender, time,
    side and id, and the decrypted text; or a note. *)
Inductive shows (loc : Localization.State) (box : CryptoBox) (r : HistoryStore.StoredRow) (m : Message)
    : Prop :=
| shows_system :
    HistoryStore.sr_system r = true → system m = true → isFile m = false →
    text m = HistoryStore.sr_systemText r → deleted m = false → shows loc box r m
| shows_file :
    HistoryStore.sr_system r = false → HistoryStore.sr_isFile r = true →
    system m = false → isFile m = true → sender m = HistoryStore.sr_sender r →
    mine m = HistoryStore.sr_mine r → rowMid m = HistoryStore.sr_msgId r →
    filename m = HistoryStore.sr_filename r → mime m = HistoryStore.sr_mime r →
    fsize m = HistoryStore.sr_size r → localPath m = HistoryStore.sr_localPath r →
    deleted m = false → shows loc box r m
| shows_text :
    HistoryStore.sr_system r = false → HistoryStore.sr_isFile r = false →
    stored_text box r ≠ ""%string → system m = false → isFile m = false →
    text m = stored_text box r → sender m = HistoryStore.sr_sender r →
    ts m = HistoryStore.sr_ts r → mine m = HistoryStore.sr_mine r →
    rowMid m = HistoryStore.sr_mid r → deleted m = false → shows loc box r m
| shows_unreadable :
    HistoryStore.sr_system r = false → HistoryStore.sr_isFile r = false →
    stored_text box r = ""%string → system m = true → isFile m = false →
    text m = Localization.t "sys.cannotDecrypt" loc → deleted m = false → shows loc box r m.

Lemma shows_content loc box r m m' : shows loc box r m → same_content m m' → shows loc box r m'.
Proof.
  intros Hs (a & b & e & ->).
  destruct Hs; [by apply shows_system|by apply shows_file|by apply shows_text
               |by apply shows_unreadable].
Qed.

Lemma shows_contents loc box rows ms ms' :
  Forall2 (shows loc box) rows ms → Forall2 same_content ms ms' →
  Forall2 (shows loc box) rows ms'.
Proof.
  intros Hs. revert ms'. induction Hs as [|r m rows ms Hr _ IH]; intros ms' Hm;
    inversion Hm; subst; constructor; eauto using shows_content.
Qed.

Lemma replay_row_shows loc box now r pre ms :
  Forall2 (shows loc box) pre ms →
  Forall2 (shows loc box) (pre ++ [r]) (replay_row loc box now r ms).
Proof.
  intros Hpre. unfold replay_row. fold (stored_text box r).
  assert (Happ : ∀ m, shows loc box r m → Forall2 (shows loc box) (pre ++ [r]) (ms ++ [m])).
  { intros m Hm. apply Forall2_app; [done|]. constructor; [done|constructor]. }
  destruct (HistoryStore.sr_system r) eqn:Es; [by apply Happ, shows_system|].
  destruct (HistoryStore.sr_isFile r) eqn:Ef; [by apply Happ, shows_file|].
  destruct (String.eqb_spec (stored_text box r) "") as [E|E];
    [by apply Happ, shows_unreadable|].
  assert (Ht : Forall2 (shows loc box) (pre ++ [r])
    (addMessage (HistoryStore.sr_sender r) (stored_text box r) (HistoryStore.sr_ts r)
       (HistoryStore.sr_mine r) (HistoryStore.sr_mid r) ms).1).
  { apply Happ, shows_text; try done. unfold rowMid. cbn.
    destruct (String.eqb_spec (HistoryStore.sr_mid r) "") as [->|]; done. }
  destruct (HistoryStore.sr_edited r); [|done].
  eapply shows_contents; [exact Ht|apply markEdited_content].
Qed.

Lemma replay_rows_show loc box now rows pre ms :
  Forall2 (shows loc box) pre ms →
  Forall2 (shows loc box) (pre ++ rows) (replay_rows loc box now rows ms).
Proof.
  revert now pre ms. induction rows as [|r rows IH]; intros now pre ms Hpre; cbn.
  { by rewrite app_nil_r. }
  rewrite (cons_middle r pre rows), app_assoc. by apply IH, replay_row_shows.
Qed.

Lemma replay_reactions_show loc box rows reacts ms :
  Forall2 (shows loc box) rows ms → Forall2 (shows loc box) rows (replay_reactions reacts ms).
Proof.
  unfold replay_reactions. revert ms.
  induction reacts as [|x reacts IH]; intros ms Hs; [done|]. cbn.
  apply IH. eapply shows_contents; [exact Hs|apply applyReaction_content].
Qed.

Lemma loadConversation_shows loc okRows okReacts now peer c :
  Forall2 (shows loc (m_crypto c))
    (HistoryStore.rowsForPeer okRows peer HistoryStore.kRowLimit (m_history c))
    (m_messages (loadConversation loc okRows okReacts now peer c)).
Proof. apply replay_reactions_show, (replay_rows_show _ _ _ _ []). constructor. Qed.
End Reopen.

(** ** Opening a conversation again *)
Section ReopenTheorems.
Context `{Sodium} `{QtText} `{SqlOrder}.

(** a conversation comes back row for row. After a conversation is opened, the
    list on screen is exactly the stored rows the store returned, in their order:
    every text that opens under the current identity with its words, sender, time,
    side and id, whatever edits and reactions were applied after it; a placeholder
    for a text that does not open; files and notes as stored; and every row is
    live. *)
Theorem reopened_conversation loc okRows okReacts now peer c :
  Forall2 (shows loc (m_crypto c))
    (HistoryStore.rowsForPeer okRows peer HistoryStore.kRowLimit (m_history c))
    (m_messages (loadConversation loc okRows okReacts now peer c)).
Proof. apply loadConversation_shows. Qed.

Lemma deleteForMe_store mid c :
  working (m_history c) → mid ≠ ""%string →
  working (m_history (deleteForMe true mid c)) ∧
  HistoryStore.history (HistoryStore.the_db (m_history (deleteForMe true mid c)))
  = (λ r, if HistoryStore.has_id mid r then HistoryStore.set_deleted r else r) <$>
      HistoryStore.history (HistoryStore.the_db (m_history c)).
Proof.
  intros Hw Hm. unfold deleteForMe. rewrite (proj2 (String.eqb_neq mid "")) by done.
  cbn [m_history set_store set_messages]. unfold HistoryStore.markDeleted.
  rewrite (wk_ready _ Hw), (proj2 (String.eqb_neq mid "")) by done. cbn [negb orb].
  rewrite exec_working by (done || in_tables || sub_cols). cbn [snd].
  split; [by apply working_put|]. by apply put_db_history.
Qed.

Lemma of_peer_map f peer rows :
  (∀ r, HistoryStore.h_peer (f r) = HistoryStore.h_peer r) →
  HistoryStore.of_peer peer (f <$> rows) = f <$> HistoryStore.of_peer peer rows.
Proof.
  intros Hf. unfold HistoryStore.of_peer. induction rows as [|r rows IH]; [done|].
  rewrite fmap_cons, !filter_cons, Hf, IH. by case_decide.
Qed.

(** a deleted message comes back. Deleting a message marks its stored row, but
    opening the conversation again replays the row without looking at the mark:
    the words that were deleted are on screen, in a live row under the same id. *)
Theorem deleted_message_reappears loc okReacts now peer mid c i row :
  working (m_history c) → mid ≠ ""%string →
  HistoryStore.of_peer peer (HistoryStore.history (HistoryStore.the_db (m_history c))) !! i
    = Some row →
  (Z.of_nat i < HistoryStore.kRowLimit)%Z →
  HistoryStore.h_kind row = HistoryStore.KText → HistoryStore.h_msg_id row = Some mid →
  let words := default ""%string
    (localOpen (HistoryStore.h_nonce row) (HistoryStore.h_ct row) (m_crypto c)) in
  words ≠ ""%string →
  let c1 := deleteForMe true mid c in
  let c2 := loadConversation loc true okReacts now peer c1 in
  (∃ r, HistoryStore.rowsForPeer true peer HistoryStore.kRowLimit (m_history c1) !! i = Some r ∧
        HistoryStore.sr_deleted r = true) ∧
  ∃ m, m_messages c2 !! i = Some m ∧ MessageModel.text m = words ∧
       MessageModel.deleted m = false ∧ MessageModel.rowMid m = mid.
Proof.
  intros Hw Hm Hrow Hi Hk Hid words Hwords c1 c2.
  destruct (deleteForMe_store mid c Hw Hm) as [Hw1 Hh]. fold c1 in Hw1, Hh.
  set (r := HistoryStore.read_row peer (HistoryStore.set_deleted row)).
  assert (Hr : HistoryStore.rowsForPeer true peer HistoryStore.kRowLimit (m_history c1) !! i
               = Some r).
  { rewrite rowsForPeer_working, Hh, of_peer_map by
      (done || (intros x; by destruct (HistoryStore.has_id mid x))).
    unfold HistoryStore.sql_limit. rewrite list_lookup_fmap.
    destruct (Z.ltb_spec HistoryStore.kRowLimit 0) as [Hneg|_]; [done|].
    rewrite lookup_take_lt by (unfold HistoryStore.kRowLimit in *; lia).
    rewrite list_lookup_fmap, Hrow. cbn. by rewrite (proj2 (has_id_Some mid row)). }
  assert (Ek : r = HistoryStore.read_row peer (HistoryStore.set_deleted row)) by done.
  unfold HistoryStore.read_row in Ek. cbn in Ek. rewrite Hk, Hid in Ek.
  split; [exists r; split; [done|by rewrite Ek]|].
  destruct (Forall2_lookup_l _ _ _ _ _
              (loadConversation_shows loc true okReacts now peer c1) Hr) as (m & Hmm & Hs).
  exists m. split; [exact Hmm|].
  assert (Et : stored_text (m_crypto c1) r = words).
  { unfold stored_text. rewrite Ek. unfold c1, deleteForMe.
    by rewrite (proj2 (String.eqb_neq mid "")). }
  rewrite Ek in Hs, Et. destruct Hs; try done; [|congruence].
  split_and!; [congruence|done|done].
Qed.
End ReopenTheorems.
