(* ===== verification/ChatSessions.v ===== *)
(** * ChatClient: sessions across restarts *)

From S2P Require Import Prelude Platform Kdf Ratchet RatchetFacts Conversation X3dh.
From S2P Require Import CryptoBox CryptoBoxFacts Persist PersistFacts UserModel.
From S2P Require Import HistoryStore HistoryFacts Chat.

Import ChatClient.

Section Sessions.
Context `{SodiumLaws} `{QtTextLaws} `{QDataStreamLaws} `{QHashOrder} `{QStringOrder}
  `{SqlOrder}.

(** The stored session of a peer. *)
Definition stored (p : string) (c : Client) : option HistoryStore.SessionRow :=
  HistoryStore.sessions (HistoryStore.the_db (m_history c)) !! p.

(** The box after the peer's identity is taken from the row. *)
Definition seeded (p : string) (row : HistoryStore.SessionRow) (b : CryptoBox) : CryptoBox :=
  if String.eqb (HistoryStore.s_peer_id row) "" then b
  else (setPeerIdentity p (HistoryStore.s_peer_id row) b).2.

Lemma setPeerIdentity_frame p hex b :
  m_publicKey (setPeerIdentity p hex b).2 = m_publicKey b ∧
  m_sessions (setPeerIdentity p hex b).2 = m_sessions b ∧
  ∀ q, q ≠ p → m_peerIdentity (setPeerIdentity p hex b).2 !! q = m_peerIdentity b !! q.
Proof.
  unfold setPeerIdentity. destruct (negb _); [done|]. cbn. split_and!; [done..|].
  intros q Hq. by rewrite lookup_insert_ne.
Qed.

Lemma seeded_frame p row b :
  m_publicKey (seeded p row b) = m_publicKey b ∧ m_sessions (seeded p row b) = m_sessions b ∧
  ∀ q, q ≠ p → m_peerIdentity (seeded p row b) !! q = m_peerIdentity b !! q.
Proof. unfold seeded. destruct (String.eqb _ _); [done|]. apply setPeerIdentity_frame. Qed.

Lemma load_row_working col p s :
  working s → [col; "peer"%string] ⊆ HistoryStore.sessions_cols →
  HistoryStore.load_session_row true col p s
  = HistoryStore.sessions (HistoryStore.the_db s) !! p.
Proof.
  intros Hw Hc. unfold HistoryStore.load_session_row. rewrite (wk_ready _ Hw). cbn [negb orb].
  by rewrite query_working by (done || in_tables).
Qed.

(** What restoring one peer does, the user list aside. *)
Lemma restoreSession_result p row c :
  working (m_history c) → stored p c = Some row →
  let c' := restoreSession (λ _, true) p c in
  let b1 := seeded p row (m_crypto c) in
  working (m_history c') ∧
  match imported p (HistoryStore.s_blob row) b1 with
  | Some s =>
      m_crypto c' = put_session p s b1 ∧ m_history c' = m_history c ∧
      m_sentSinceRatchet c' =
        (if (0 <? HistoryStore.s_sent_since row)%Z
         then <[p := Z.max (default 0%Z (m_sentSinceRatchet c !! p))
                       (HistoryStore.s_sent_since row)]> (m_sentSinceRatchet c)
         else m_sentSinceRatchet c)
  | None =>
      m_crypto c' = b1 ∧ m_sentSinceRatchet c' = m_sentSinceRatchet c ∧
      HistoryStore.sessions (HistoryStore.the_db (m_history c'))
      = delete p (HistoryStore.sessions (HistoryStore.the_db (m_history c)))
  end.
Proof.
  intros Hw Hrow. unfold stored in Hrow. cbn zeta. unfold restoreSession.
  unfold HistoryStore.loadPeerIdentity, HistoryStore.loadSession, HistoryStore.loadSentSince.
  rewrite (load_row_working "peer_id" p (m_history c)) by (done || sub_cols).
  rewrite Hrow. cbv beta iota.
  set (c1 := if String.eqb (HistoryStore.s_peer_id row) "" then c else _).
  assert (E1 : m_crypto c1 = seeded p row (m_crypto c))
    by (unfold c1, seeded; by destruct (String.eqb _ _)).
  assert (E2 : m_history c1 = m_history c) by (unfold c1; by destruct (String.eqb _ _)).
  assert (E3 : m_sentSinceRatchet c1 = m_sentSinceRatchet c)
    by (unfold c1; by destruct (String.eqb _ _)).
  rewrite !E2, E1. rewrite load_row_working by (done || sub_cols). rewrite Hrow.
  rewrite imported_spec.
  destruct (imported p (HistoryStore.s_blob row) (seeded p row (m_crypto c))) as [s|].
  - cbn [option_fmap option_map fmap]. cbn [m_history set_crypto].
    rewrite E2, load_row_working by (done || sub_cols). rewrite Hrow.
    cbn [m_sentSinceRatchet set_crypto]. rewrite E3.
    destruct (0 <? HistoryStore.s_sent_since row)%Z; cbn; rewrite ?E2, ?E3; by split_and!.
  - cbn [option_fmap option_map fmap]. cbn [m_history m_crypto m_sentSinceRatchet set_store
      set_user_list]. rewrite E1, E3. unfold HistoryStore.clearSession.
    rewrite (wk_ready _ Hw). cbn [negb].
    rewrite exec_working by (done || in_tables || sub_cols). cbn [snd].
    split; [by apply working_put|]. split; [done|]. split; [done|].
    by rewrite the_db_put by (by apply working_the_db).
Qed.
(** The client as one peer sees it. *)
Record same_for (q : string) (c c' : Client) : Prop := {
  sf_session : m_sessions (m_crypto c') !! q = m_sessions (m_crypto c) !! q;
  sf_identity : m_peerIdentity (m_crypto c') !! q = m_peerIdentity (m_crypto c) !! q;
  sf_key : m_publicKey (m_crypto c') = m_publicKey (m_crypto c);
  sf_stored : stored q c' = stored q c;
  sf_sent : m_sentSinceRatchet c' !! q = m_sentSinceRatchet c !! q;
}.

Lemma same_for_refl q c : same_for q c c.
Proof. done. Qed.

Lemma same_for_trans q c1 c2 c3 : same_for q c1 c2 → same_for q c2 c3 → same_for q c1 c3.
Proof. intros [] []. split; congruence. Qed.

(** Restoring one peer does not concern another. *)
Lemma restoreSession_frame p q row c :
  working (m_history c) → stored p c = Some row → q ≠ p →
  same_for q c (restoreSession (λ _, true) p c).
Proof.
  intros Hw Hrow Hq. destruct (restoreSession_result p row c Hw Hrow) as [_ Hr].
  destruct (seeded_frame p row (m_crypto c)) as (F1 & F2 & F3).
  set (c' := restoreSession _ p c) in *.
  destruct (imported _ _ _) as [s|]; destruct Hr as (E1 & E2 & E3).
  - split; unfold stored; rewrite ?E1, ?E2, ?E3; cbn.
    + by rewrite F2, lookup_insert_ne.
    + by apply F3.
    + exact F1.
    + done.
    + destruct (0 <? _)%Z; [by rewrite lookup_insert_ne|done].
  - split; unfold stored; rewrite ?E1, ?E2, ?E3; cbn.
    + by rewrite F2.
    + by apply F3.
    + exact F1.
    + by rewrite lookup_delete_ne.
    + done.
Qed.

(** A peer's session after its row has been looked at. *)
Definition settled (p : string) (c c' : Client) : Prop :=
  match stored p c with
  | None => same_for p c c'
  | Some row =>
      match imported p (HistoryStore.s_blob row) (seeded p row (m_crypto c)) with
      | Some s => m_sessions (m_crypto c') !! p = Some s ∧ stored p c' = Some row ∧
                  default 0%Z (m_sentSinceRatchet c' !! p)
                  = (if (0 <? HistoryStore.s_sent_since row)%Z
                     then Z.max (default 0%Z (m_sentSinceRatchet c !! p))
                            (HistoryStore.s_sent_since row)
                     else default 0%Z (m_sentSinceRatchet c !! p))
      | None => m_sessions (m_crypto c') !! p = m_sessions (m_crypto c) !! p ∧
                stored p c' = None
      end
  end.

Lemma seeded_imported p row c1 c2 :
  same_for p c1 c2 →
  imported p (HistoryStore.s_blob row) (seeded p row (m_crypto c2))
  = imported p (HistoryStore.s_blob row) (seeded p row (m_crypto c1)).
Proof.
  intros [_ Hi Hk _ _]. apply imported_ext.
  - destruct (seeded_frame p row (m_crypto c1)) as [-> _].
    by destruct (seeded_frame p row (m_crypto c2)) as [-> _].
  - unfold seeded, setPeerIdentity. destruct (String.eqb _ _); [done|].
    destruct (negb _); [done|]. cbn. by rewrite !lookup_insert_eq.
Qed.

Lemma settled_after p c1 c2 c3 : same_for p c2 c3 → settled p c1 c2 → settled p c1 c3.
Proof.
  unfold settled. intros Hs. destruct (stored p c1) as [row|].
  - destruct (imported _ _ _); destruct Hs as [E1 _ _ E4 E5]; rewrite E1, E4, ?E5; done.
  - intros H'. by eapply same_for_trans.
Qed.

Lemma settled_before p c1 c2 c3 : same_for p c1 c2 → settled p c2 c3 → settled p c1 c3.
Proof.
  intros Hs. unfold settled. rewrite <- (sf_stored _ _ _ Hs).
  destruct (stored p c2) as [row|]; [|intros H'; by eapply same_for_trans].
  rewrite (seeded_imported p row c1 c2 Hs).
  destruct Hs as [E1 _ _ _ E5]. rewrite <- E1, <- E5. done.
Qed.

Lemma restoreSession_settles p row c :
  working (m_history c) → stored p c = Some row →
  settled p c (restoreSession (λ _, true) p c).
Proof.
  intros Hw Hrow. destruct (restoreSession_result p row c Hw Hrow) as [_ Hr].
  unfold settled. rewrite Hrow. set (c' := restoreSession _ p c) in *.
  destruct (seeded_frame p row (m_crypto c)) as (F1 & F2 & F3).
  destruct (imported _ _ _) as [s|]; destruct Hr as (E1 & E2 & E3); unfold stored in *.
  - rewrite E1, E2, E3. cbn. rewrite lookup_insert_eq. split; [done|]. split; [done|].
    destruct (0 <? _)%Z; [by rewrite lookup_insert_eq|done].
  - rewrite E1, E3. by rewrite F2, lookup_delete_eq.
Qed.

Lemma restore_fold ps c :
  NoDup ps → working (m_history c) → (∀ p, p ∈ ps → is_Some (stored p c)) →
  let c' := fold_left (λ c p, restoreSession (λ _, true) p c) ps c in
  working (m_history c') ∧
  (∀ p, p ∈ ps → settled p c c') ∧ (∀ q, q ∉ ps → same_for q c c').
Proof.
  intros Hnd. revert c. induction Hnd as [|p ps Hp Hnd IH]; intros c Hw Hst; cbn.
  { split; [done|]. split; [|done]. intros q Hq. by apply not_elem_of_nil in Hq. }
  destruct (Hst p) as [row Hrow]; [by left|].
  destruct (restoreSession_result p row c Hw Hrow) as [Hw1 _].
  set (c1 := restoreSession (λ _, true) p c) in *.
  assert (Hfr : ∀ q, q ≠ p → same_for q c c1) by (intros; by eapply restoreSession_frame).
  destruct (IH c1 Hw1) as (Hw2 & Hset & Hsame).
  { intros q Hq. assert (q ≠ p) as Hne by congruence.
    rewrite (sf_stored _ _ _ (Hfr q Hne)). apply Hst. by right. }
  split; [done|]. split.
  - intros q [->|Hq]%elem_of_cons.
    + eapply settled_after; [by apply Hsame|]. by eapply restoreSession_settles.
    + assert (q ≠ p) as Hne by congruence. eapply settled_before; [by apply Hfr|]. by apply Hset.
  - intros q [Hne Hq]%not_elem_of_cons. eapply same_for_trans; [by apply Hfr|by apply Hsame].
Qed.

Lemma sessionPeers_working s :
  working s →
  HistoryStore.sessionPeers true s ≡ₚ (map_to_list (HistoryStore.sessions (HistoryStore.the_db s))).*1.
Proof.
  intros Hw. unfold HistoryStore.sessionPeers. rewrite (wk_ready _ Hw). cbn [negb orb].
  rewrite query_working by (done || in_tables || sub_cols). cbn [negb].
  by rewrite sql_scan_perm.
Qed.

Lemma restoreAll_settles c :
  working (m_history c) →
  let c' := restoreAllSessions true (λ _ _, true) c in
  working (m_history c') ∧ ∀ p, settled p c c'.
Proof.
  intros Hw. unfold restoreAllSessions. rewrite (wk_ready _ Hw). cbn [negb].
  pose proof (sessionPeers_working _ Hw) as Hp. set (ps := HistoryStore.sessionPeers _ _) in *.
  assert (Hin : ∀ p, p ∈ ps ↔ is_Some (stored p c)).
  { intros p. rewrite Hp. rewrite list_elem_of_fmap. split.
    - intros ([q row] & -> & Hq%elem_of_map_to_list). by eexists.
    - intros [row Hrow]. exists (p, row). split; [done|]. by apply elem_of_map_to_list. }
  destruct (restore_fold ps c) as (Hw' & Hs & Hsame); [|done|by intros p; apply Hin|].
  { rewrite Hp. apply NoDup_fst_map_to_list. }
  split; [done|]. intros p. destruct (decide (p ∈ ps)) as [|Hn]; [by apply Hs|].
  unfold settled. destruct (stored p c) eqn:E; [|by apply Hsame].
  exfalso. apply Hn, Hin. by rewrite E.
Qed.
(** C37: a stored session is resumed or removed. After the sessions are restored,
    every session left in the database is live in the box, exactly as its blob
    says; a blob the box refuses (another identity of ours, another or an unknown
    key of the peer, a damaged blob) is removed from the database and whatever
    session there was stays. *)
Theorem restore_resumes_or_clears c :
  working (m_history c) →
  let c' := restoreAllSessions true (λ _ _, true) c in
  (∀ p row, stored p c' = Some row →
     stored p c = Some row ∧ is_Some (m_sessions (m_crypto c') !! p) ∧
     m_sessions (m_crypto c') !! p
     = imported p (HistoryStore.s_blob row) (seeded p row (m_crypto c))) ∧
  (∀ p row, stored p c = Some row →
     imported p (HistoryStore.s_blob row) (seeded p row (m_crypto c)) = None →
     stored p c' = None ∧ m_sessions (m_crypto c') !! p = m_sessions (m_crypto c) !! p).
Proof.
  intros Hw c'. destruct (restoreAll_settles c Hw) as [_ Hs]. fold c' in Hs. split.
  - intros p row Hrow. specialize (Hs p). unfold settled in Hs.
    destruct (stored p c) as [row0|] eqn:E; [|destruct Hs; congruence].
    destruct (imported p _ (seeded p row0 (m_crypto c))) as [s|] eqn:Ei; [|destruct Hs; congruence].
    destruct Hs as (E1 & E2 & _). rewrite E2 in Hrow. injection Hrow as <-.
    rewrite E1, Ei. eauto.
  - intros p row Hrow Hi. specialize (Hs p). unfold settled in Hs. rewrite Hrow, Hi in Hs.
    by destruct Hs.
Qed.
End Sessions.

(** ** A restart in the middle of a conversation *)
Section Restart.
Context `{SodiumLaws} `{QtTextLaws} `{!QtHexLaws} `{QDataStreamLaws} `{QHashOrder}
  `{QStringOrder} `{SqlOrder} `{QCharClass}.

Lemma persistSession_stored peer now c s :
  working (m_history c) → m_sessions (m_crypto c) !! peer = Some s →
  let c1 := persistSession true peer now c in
  working (m_history c1) ∧ m_crypto c1 = m_crypto c ∧
  HistoryStore.m_db (m_history c1) = HistoryStore.m_db (m_history c) ∧
  stored peer c1 = Some (HistoryStore.mkSessionRow (exportSession peer (m_crypto c))
    (peerIdentityHex peer (m_crypto c)) now (default 0%Z (m_sentSinceRatchet c !! peer))).
Proof.
  intros Hw Hs. unfold persistSession. rewrite (wk_ready _ Hw). cbn zeta.
  cbn [m_history m_crypto set_store]. unfold HistoryStore.saveSession.
  rewrite (wk_ready _ Hw), decide_False by by eapply exported_nonempty. cbn [negb].
  rewrite exec_working by (done || in_tables || sub_cols). cbn [snd].
  split; [by apply working_put|]. split; [done|]. split; [apply put_open|].
  unfold stored. cbn [m_history set_store]. rewrite the_db_put by (by apply working_the_db).
  apply lookup_insert_eq.
Qed.

(** C6: a conversation survives a restart. A client saves the session with a peer
    and ends. Another run of the client, with the same identity and nothing else
    in memory, opens the same database and restores: it holds the very session and
    send counter, and every message from then on, in either direction, is read as
    if nothing had happened. *)
Theorem conversation_survives_restart base user ans now me peer c c0 s pid b2 s2 k used evs :
  working (m_history c) → (∀ i, ans i = true) →
  HistoryStore.m_db (m_history c) = Some (HistoryStore.dbPath base user) →
  m_sessions (m_crypto c) !! peer = Some s → session_storable s →
  m_peerIdentity (m_crypto c) !! peer = Some pid → length pid = 32 →
  length (m_publicKey (m_crypto c)) = 32 →
  (0 ≤ default 0 (m_sentSinceRatchet c !! peer))%Z →
  m_publicKey (m_crypto c0) = m_publicKey (m_crypto c) → m_sentSinceRatchet c0 !! peer = None →
  m_sessions b2 !! me = Some s2 → linked k s s2 →
  (k + Z.of_nat (length evs) + kMaxSkip < 2 ^ 32)%Z →
  DHs_pub s ∈ used → DHs_pub s2 ∈ used → fresh_script used evs →
  let '(ok, st) := HistoryStore.open base user true ans
                     (HistoryStore.close (m_history (persistSession true peer now c))) in
  let c2 := restoreAllSessions true (λ _ _, true) (set_store st c0) in
  ok = true ∧ m_sessions (m_crypto c2) !! peer = Some s ∧
  default 0%Z (m_sentSinceRatchet c2 !! peer) = default 0%Z (m_sentSinceRatchet c !! peer) ∧
  converse me peer evs (m_crypto c2) b2 = expected (ready s) (ready s2) evs.
Proof.
  intros Hw Hans Hdb Hs Hst Hp Lp Lk Hn Hk0 Hsent Hb2 Hl Hc U1 U2 Hf.
  destruct (persistSession_stored peer now c s Hw Hs) as (Hw1 & _ & Hdb1 & Hrow).
  set (c1 := persistSession true peer now c) in *.
  pose proof (reopen_working base user ans (m_history c1) Hw1 (eq_trans Hdb1 Hdb) Hans) as Hopen.
  destruct (HistoryStore.open _ _ _ _ _) as [ok st]. destruct Hopen as (-> & Hw2 & Hsame).
  destruct (restoreAll_settles (set_store st c0) Hw2) as [_ Hset].
  specialize (Hset peer). set (c2 := restoreAllSessions _ _ _) in *.
  assert (Erow : stored peer (set_store st c0) = stored peer c1).
  { unfold stored. cbn [m_history set_store]. rewrite Hsame. done. }
  unfold settled in Hset. rewrite Erow, Hrow in Hset. cbn [HistoryStore.s_blob] in Hset.
  assert (Eid : peerIdentityHex peer (m_crypto c) = hexStr pid)
    by (unfold peerIdentityHex; by rewrite Hp).
  set (row := HistoryStore.mkSessionRow _ _ _ _) in *.
  assert (Eseed : m_peerIdentity (seeded peer row (m_crypto (set_store st c0))) !! peer = Some pid).
  { unfold seeded, row. cbn [HistoryStore.s_peer_id]. rewrite Eid.
    destruct (String.eqb_spec (hexStr pid) "") as [E|_].
    - apply (f_equal String.length) in E. rewrite hexStr_length, Lp in E. done.
    - unfold setPeerIdentity. rewrite unhexStr_hexStr, Lp. cbn. apply lookup_insert_eq. }
  destruct (seeded_frame peer row (m_crypto (set_store st c0))) as (Ekey & _ & _).
  assert (Hpid : pid ≠ []) by (intros E; by rewrite E in Lp).
  assert (Ei : imported peer (exportSession peer (m_crypto c))
                 (seeded peer row (m_crypto (set_store st c0))) = Some s).
  { unfold imported. rewrite (import_exported peer (m_crypto c) _ s pid).
    - apply lookup_insert_eq.
    - done.
    - done.
    - done.
    - done.
    - unfold fits. lia.
    - unfold fits. lia.
    - by rewrite Ekey.
    - done. }
  rewrite Ei in Hset. destruct Hset as (Esess & _ & Ecount).
  split; [done|]. split; [done|]. split.
  { rewrite Ecount. cbn [m_sentSinceRatchet set_store HistoryStore.s_sent_since row].
    rewrite Hsent. cbn [default]. unfold row. cbn [HistoryStore.s_sent_since].
    destruct (Z.ltb_spec 0 (default 0%Z (m_sentSinceRatchet c !! peer))); lia. }
  by apply (converse_linked me peer evs k used _ _ s s2).
Qed.
End Restart.
