(* ===== verification/ChatOutbox.v ===== *)
(** * ChatClient: the queue of what was composed offline *)

From Stdlib Require Import Strings.Ascii.
From S2P Require Import Prelude Platform Kdf Ratchet X3dh CryptoBox Persist PersistFacts.
From S2P Require Import HistoryStore HistoryFacts Chat.

Import ChatClient.

(** ** Restoring the queue *)
Section Restore.
Context `{Sodium} `{QtText}.
Implicit Types (c : Client) (r : HistoryStore.OutboxRow).

Definition queue_table (c : Client) : list HistoryStore.OutboxRow :=
  HistoryStore.outbox (HistoryStore.the_db (m_history c)).

(** The ids of the rows that are given up. *)
Definition given_up (box : CryptoBox) (rows : list HistoryStore.OutboxRow) : list Z :=
  HistoryStore.o_id <$> filter (λ r, restore_item box r = None) rows.

Lemma given_up_cons box r rows :
  given_up box (r :: rows)
  = match restore_item box r with
    | Some _ => given_up box rows
    | None => HistoryStore.o_id r :: given_up box rows
    end.
Proof.
  unfold given_up. rewrite filter_cons. destruct (restore_item box r) as [po|] eqn:E.
  - by rewrite decide_False.
  - by rewrite decide_True.
Qed.

Lemma restore_row_drop r c :
  working (m_history c) → restore_item (m_crypto c) r = None → (0 ≤ HistoryStore.o_id r)%Z →
  let c' := restore_row (λ _, true) r c in
  working (m_history c') ∧ m_crypto c' = m_crypto c ∧ m_outbox c' = m_outbox c ∧
  queue_table c' = filter (λ x, HistoryStore.o_id x ≠ HistoryStore.o_id r) (queue_table c).
Proof.
  intros Hw Hi Hid. unfold restore_row. rewrite Hi.
  rewrite (proj2 (Z.leb_le _ _)) by done. cbn zeta. unfold HistoryStore.deleteOutboxRow.
  rewrite (wk_ready _ Hw). cbn [negb].
  rewrite exec_working by (done || in_tables || sub_cols). cbn [snd].
  split; [by apply working_put|]. split; [done|]. split; [done|].
  unfold queue_table. cbn [m_history set_store].
  by rewrite the_db_put by (by apply working_the_db).
Qed.

Lemma restore_rows_fold rows c :
  working (m_history c) → Forall (λ r, (0 ≤ HistoryStore.o_id r)%Z) rows →
  let c' := fold_left (λ c r, restore_row (λ _, true) r c) rows c in
  working (m_history c') ∧ m_crypto c' = m_crypto c ∧
  m_outbox c' = m_outbox c ++ omap (restore_item (m_crypto c)) rows ∧
  queue_table c'
  = filter (λ x, HistoryStore.o_id x ∉ given_up (m_crypto c) rows) (queue_table c).
Proof.
  intros Hw Hid. revert c Hw. induction Hid as [|r rows Hr _ IH]; intros c Hw.
  { cbn [fold_left omap list_omap]. rewrite app_nil_r. split_and!; try done. symmetry. apply filter_all.
    apply Forall_true. intros x. apply not_elem_of_nil. }
  rewrite given_up_cons. cbn [fold_left omap list_omap].
  destruct (restore_item (m_crypto c) r) as [po|] eqn:Ei.
  - assert (Er : restore_row (λ _, true) r c = set_queue (m_outbox c ++ [po]) c)
      by (unfold restore_row; by rewrite Ei).
    rewrite Er. destruct (IH (set_queue (m_outbox c ++ [po]) c) Hw) as (W & C & O & T).
    split; [done|]. split; [done|]. split; [|exact T].
    rewrite O. cbn. by rewrite <- app_assoc.
  - destruct (restore_row_drop r c Hw Ei Hr) as (W1 & C1 & O1 & T1).
    destruct (IH _ W1) as (W & C & O & T). split; [done|]. split; [congruence|].
    rewrite O, T, O1, C1, T1. split; [done|]. rewrite list_filter_filter.
    apply list_filter_iff. intros x. rewrite elem_of_cons. tauto.
Qed.

(** With ids that are not repeated, giving up by id gives up those rows alone. *)
Lemma filter_given_up box rows :
  NoDup (HistoryStore.o_id <$> rows) →
  filter (λ x, HistoryStore.o_id x ∉ given_up box rows) rows
  = filter (λ x, is_Some (restore_item box x)) rows.
Proof.
  intros Hnd. apply filter_ext_in. intros x [i Hx]%list_elem_of_lookup_1. unfold given_up.
  rewrite list_elem_of_fmap. split.
  - intros Hn. destruct (restore_item box x) as [po|] eqn:E; [by eexists|].
    destruct Hn. exists x. split; [done|]. apply list_elem_of_filter. split; [done|].
    by eapply list_elem_of_lookup_2.
  - intros [po Hpo] (y & Ey & [Hy Hin]%list_elem_of_filter).
    apply list_elem_of_lookup_1 in Hin as [j Hj].
    assert (i = j) as <-.
    { apply (NoDup_lookup _ i j (HistoryStore.o_id x) Hnd); rewrite list_lookup_fmap, ?Hx, ?Hj; cbn; congruence. }
    congruence.
Qed.

Lemma sorted_NoDup (l : list Z) : StronglySorted Z.lt l → NoDup l.
Proof.
  induction 1 as [|x l _ IH Hx]; constructor; [|done]. rewrite Forall_forall in Hx.
  intros Hin. specialize (Hx x Hin). lia.
Qed.

Lemma loadOutbox_working s :
  working s → HistoryStore.loadOutbox true s = HistoryStore.outbox (HistoryStore.the_db s).
Proof.
  intros Hw. unfold HistoryStore.loadOutbox. rewrite (wk_ready _ Hw). cbn [negb orb].
  by rewrite query_working by (done || in_tables || sub_cols).
Qed.

Lemma restoreOutbox_spec c :
  working (m_history c) → outbox_ok (HistoryStore.the_db (m_history c)) →
  Forall (λ r, (0 ≤ HistoryStore.o_id r)%Z) (queue_table c) →
  let c' := restoreOutbox true (λ _, true) c in
  working (m_history c') ∧ m_crypto c' = m_crypto c ∧
  m_outbox c' = m_outbox c ++ omap (restore_item (m_crypto c)) (queue_table c) ∧
  queue_table c' = filter (λ r, is_Some (restore_item (m_crypto c) r)) (queue_table c).
Proof.
  intros Hw [Hs _] Hid. unfold restoreOutbox. rewrite (wk_ready _ Hw). cbn [negb].
  rewrite loadOutbox_working by done. fold (queue_table c).
  destruct (restore_rows_fold (queue_table c) c Hw Hid) as (W & C & O & T).
  split; [done|]. split; [done|]. split; [done|]. rewrite T.
  apply filter_given_up, sorted_NoDup, Hs.
Qed.

(** the restored queue and the stored queue agree. Restoring appends, in order,
    one item for each stored row that can still be sent, and removes from the
    database exactly the rows that cannot; a file is queued again only from a row
    stamped with the identity in force, never from one without a stamp. *)
Theorem restored_queue_mirrors_disk c :
  working (m_history c) → outbox_ok (HistoryStore.the_db (m_history c)) →
  Forall (λ r, (0 ≤ HistoryStore.o_id r)%Z) (queue_table c) →
  let c' := restoreOutbox true (λ _, true) c in
  m_outbox c' = m_outbox c ++ omap (restore_item (m_crypto c)) (queue_table c) ∧
  queue_table c' = filter (λ r, is_Some (restore_item (m_crypto c) r)) (queue_table c) ∧
  ∀ po, po ∈ omap (restore_item (m_crypto c)) (queue_table c) → p_kind po = PFile →
    ∃ r, r ∈ queue_table c' ∧ HistoryStore.o_kind r = HistoryStore.OFile ∧
         p_dbId po = HistoryStore.o_id r ∧ p_srcPath po = HistoryStore.o_srcPath r ∧
         HistoryStore.o_identity r = publicKeyHex (m_crypto c) ∧
         HistoryStore.o_identity r ≠ ""%string.
Proof.
  intros Hw Ho Hid. destruct (restoreOutbox_spec c Hw Ho Hid) as (_ & _ & O & T).
  set (c' := restoreOutbox _ _ c) in *. split; [done|]. split; [done|].
  intros po (r & Hr & Hpo)%list_elem_of_omap Hk. exists r. rewrite T. split.
  { apply list_elem_of_filter. split; [by eexists|done]. }
  unfold restore_item in Hpo. destruct (HistoryStore.o_kind r) eqn:E.
  - destruct (open_body _ _); [|done]. injection Hpo as <-. done.
  - destruct (String.eqb_spec (HistoryStore.o_identity r) "") as [|Hne]; [done|].
    destruct (String.eqb_spec (HistoryStore.o_identity r) (publicKeyHex (m_crypto c)));
      [|done]. injection Hpo as <-. done.
  - destruct (_ || _); [|done]. injection Hpo as <-. done.
  - destruct (_ || _); [|done]. injection Hpo as <-. done.
Qed.
End Restore.

(** ** Texts composed offline *)
Section Queue.
Context `{SodiumLaws} `{QtTextLaws} `{!QtHexLaws} `{QCharClass}.

(** One composed text: its id, the nonce of its seal, the peer, the words, the time. *)
Record Draft := mkDraft {
  d_mid : string;
  d_nonce : bytes;
  d_peer : string;
  d_text : string;
  d_ts : Z;
}.

Definition queue_draft (d : Draft) (c : Client) : Client :=
  (queueOutbox true true (d_mid d) (d_nonce d) (d_peer d) (d_text d) (d_ts d) c).2.

Definition queue_all (ds : list Draft) (c : Client) : Client :=
  fold_left (λ c d, queue_draft d c) ds c.

Lemma split_colon_app l r :
  Forall is_hex_digit (String.list_ascii_of_string l) →
  split_colon (l +:+ ":" +:+ r) = Some (l, r).
Proof.
  induction l as [|x l IH]; intros Hl; [done|]. inversion Hl as [|? ? Hx Hl']; subst.
  change (String x l +:+ ":" +:+ r) with (String x (l +:+ ":" +:+ r)).
  remember (l +:+ ":" +:+ r) as rest eqn:Er. cbn [split_colon].
  destruct (Ascii.eqb_spec x ":") as [->|_]; [done|]. by rewrite (IH Hl').
Qed.

(** A queued text opens again, under any box with the same private key. *)
Lemma open_queued t nonce b b' n ct :
  t ≠ ""%string → nonce ≠ [] → m_privateKey b' = m_privateKey b →
  localSeal t nonce b = Some (n, ct) → open_body (n +:+ ":" +:+ ct) b' = Some t.
Proof.
  intros Ht Hn Hk Hs. unfold localSeal in Hs. case_decide as Hp; [done|].
  injection Hs as <- <-. unfold open_body. rewrite split_colon_app by apply hexStr_digits.
  destruct (String.eqb_spec (hexStr nonce) "") as [E|_].
  { apply (f_equal String.length) in E. rewrite hexStr_length in E. by destruct nonce. }
  unfold localOpen, localKey. rewrite Hk, decide_False by done.
  rewrite !unhexStr_hexStr, xchacha_open, fromUtf8_toUtf8. cbn.
  by destruct (String.eqb_spec t "").
Qed.

(** An item without its message id. *)
Definition forget_mid (po : PendingOut) : PendingOut :=
  mkPending (p_dbId po) (p_kind po) (p_peer po) (p_plaintext po) (p_srcPath po)
    (p_peerIdentity po) "" (p_ts po).

(** The stored queue is the queue in memory, ids aside, for every later box with the
    same private key. *)
Record queue_stored (c : Client) : Prop := {
  qs_working : working (m_history c);
  qs_ok : outbox_ok (HistoryStore.the_db (m_history c));
  qs_next : (0 ≤ HistoryStore.next_outbox (HistoryStore.the_db (m_history c)))%Z;
  qs_ids : Forall (λ r, (0 ≤ HistoryStore.o_id r)%Z) (queue_table c);
  qs_rows : Forall2 (λ po r, ∀ b', m_privateKey b' = m_privateKey (m_crypto c) →
               restore_item b' r = Some (forget_mid po)) (m_outbox c) (queue_table c);
}.

Lemma queue_draft_result d c :
  working (m_history c) → m_privateKey (m_crypto c) ≠ [] →
  ∃ n ct,
    localSeal (d_text d) (d_nonce d) (m_crypto c) = Some (n, ct) ∧
    let db := HistoryStore.the_db (m_history c) in
    let id := HistoryStore.next_outbox db in
    let c' := queue_draft d c in
    working (m_history c') ∧ HistoryStore.m_db (m_history c') = HistoryStore.m_db (m_history c) ∧
    m_crypto c' = m_crypto c ∧
    m_outbox c' = m_outbox c ++ [mkPending id PText (d_peer d) (d_text d) "" "" (d_mid d) (d_ts d)] ∧
    HistoryStore.the_db (m_history c')
    = HistoryStore.push_outbox HistoryStore.OText (d_peer d) (n +:+ ":" +:+ ct) ""
        (publicKeyHex (m_crypto c)) None (d_ts d)
        (HistoryStore.append_history (HistoryStore.text_row (d_peer d) (m_nick c) n ct (d_ts d)
           true (d_mid d)) db).
Proof.
  intros Hw Hk. destruct (localOpen_localSeal (d_text d) (d_nonce d) _ Hk) as (n & ct & Hs & _).
  exists n, ct. split; [done|]. cbn zeta. unfold queue_draft, queueOutbox. rewrite Hs.
  unfold HistoryStore.addTextRow. rewrite (wk_ready _ Hw). cbn [negb].
  rewrite exec_working by (done || in_tables || sub_cols). cbn [snd].
  set (s1 := HistoryStore.put_db _ _).
  assert (Hw1 : working s1) by (by apply working_put).
  rewrite (wk_ready _ Hw1). unfold HistoryStore.enqueueOutboxText.
  rewrite enqueue_working by (done || sub_cols). cbn [snd m_history set_queue set_store].
  pose proof (working_the_db _ Hw) as Hop. pose proof (working_the_db _ Hw1) as Hop1.
  assert (E1 : HistoryStore.the_db s1 = HistoryStore.append_history
    (HistoryStore.text_row (d_peer d) (m_nick c) n ct (d_ts d) true (d_mid d))
    (HistoryStore.the_db (m_history c))) by (by apply the_db_put).
  rewrite the_db_put, E1 by done. split; [apply working_put; [done|by rewrite E1]|].
  split; [rewrite put_open; apply put_open|]. done.
Qed.

Lemma queue_draft_stored d c :
  queue_stored c → m_privateKey (m_crypto c) ≠ [] → d_text d ≠ ""%string → d_nonce d ≠ [] →
  queue_stored (queue_draft d c).
Proof.
  intros [Hw Ho Hn Hid Hr] Hk Ht Hnonce.
  destruct (queue_draft_result d c Hw Hk) as (n & ct & Hs & W & _ & C & O & D).
  set (c' := queue_draft d c) in *. cbn zeta in *. split; unfold queue_table; rewrite ?D, ?C, ?O.
  - done.
  - by apply push_outbox_ok.
  - cbn. lia.
  - cbn. apply Forall_app. split; [done|]. by repeat constructor.
  - cbn. apply Forall2_app; [done|]. constructor; [|constructor]. intros b' Hb'.
    unfold restore_item. cbn. by erewrite open_queued by done.
Qed.

Lemma queue_all_stored ds c :
  queue_stored c → m_privateKey (m_crypto c) ≠ [] →
  Forall (λ d, d_text d ≠ ""%string ∧ d_nonce d ≠ []) ds →
  queue_stored (queue_all ds c) ∧ m_crypto (queue_all ds c) = m_crypto c ∧
  HistoryStore.m_db (m_history (queue_all ds c)) = HistoryStore.m_db (m_history c) ∧
  p_mid <$> m_outbox (queue_all ds c) = (p_mid <$> m_outbox c) ++ (d_mid <$> ds) ∧
  p_plaintext <$> m_outbox (queue_all ds c) = (p_plaintext <$> m_outbox c) ++ (d_text <$> ds).
Proof.
  intros Hq Hk Hds. revert c Hq Hk. induction Hds as [|d ds [Ht Hn] _ IH]; intros c Hq Hk.
  { cbn. by rewrite !app_nil_r. }
  destruct (queue_draft_result d c (qs_working _ Hq) Hk) as (n & ct & _ & _ & B & C & O & _).
  change (queue_all (d :: ds) c) with (queue_all ds (queue_draft d c)).
  destruct (IH (queue_draft d c)) as (Q & C' & B' & M & P); [by apply queue_draft_stored|congruence|].
  split; [done|]. split; [congruence|]. split; [congruence|].
  rewrite M, P, O, !fmap_app, <- !app_assoc. done.
Qed.

(** C14: what was composed offline is sent after a restart, but under another id.
    Texts queued while offline are each sealed in the database; a later run with the
    same identity restores them all, in order, with their peers, words and times,
    and gives none up. The ids they were queued, shown and stored under are not
    among what is restored: the frames will carry new ones. *)
Theorem queued_texts_survive_restart base user ans ds c c0 :
  queue_stored c → m_outbox c = [] → m_privateKey (m_crypto c) ≠ [] →
  Forall (λ d, d_text d ≠ ""%string ∧ d_nonce d ≠ []) ds →
  HistoryStore.m_db (m_history c) = Some (HistoryStore.dbPath base user) →
  (∀ i, ans i = true) → m_outbox c0 = [] →
  m_privateKey (m_crypto c0) = m_privateKey (m_crypto c) →
  let c1 := queue_all ds c in
  let '(ok, st) := HistoryStore.open base user true ans (HistoryStore.close (m_history c1)) in
  let c2 := restoreOutbox true (λ _, true) (set_store st c0) in
  ok = true ∧ p_plaintext <$> m_outbox c1 = d_text <$> ds ∧ p_mid <$> m_outbox c1 = d_mid <$> ds ∧
  m_outbox c2 = forget_mid <$> m_outbox c1 ∧ queue_table c2 = queue_table c1.
Proof.
  intros Hq He Hk Hds Hdb Hans He0 Hk0 c1.
  destruct (queue_all_stored ds c Hq Hk Hds) as (Q & C & B & M & P).
  fold c1 in Q, C, B, M, P. rewrite He in M, P. destruct Q as [Hw1 Ho1 _ Hid1 Hr1].
  pose proof (reopen_working base user ans (m_history c1) Hw1 (eq_trans B Hdb) Hans) as Hopen.
  destruct (HistoryStore.open _ _ _ _ _) as [ok st]. destruct Hopen as (-> & Hw2 & Hsame).
  assert (Et : queue_table (set_store st c0) = queue_table c1).
  { unfold queue_table. cbn [m_history set_store]. by rewrite Hsame. }
  assert (Hrows : omap (restore_item (m_crypto c0)) (queue_table c1)
                  = forget_mid <$> m_outbox c1).
  { rewrite C in Hr1. clear -Hr1 Hk0. induction Hr1 as [|po r pos rs Hpo _ IH]; [done|].
    cbn [omap list_omap]. rewrite (Hpo _ Hk0), IH. done. }
  assert (Hall : Forall (λ r, is_Some (restore_item (m_crypto c0) r)) (queue_table c1)).
  { rewrite C in Hr1. clear -Hr1 Hk0. induction Hr1 as [|po r pos rs Hpo _ IH]; constructor; [|done].
    rewrite (Hpo _ Hk0). by eexists. }
  destruct (restoreOutbox_spec (set_store st c0)) as (_ & _ & O & T); [done| |by rewrite Et|].
  { cbn [m_history set_store]. rewrite Hsame. exact Ho1. }
  split; [done|]. split; [done|]. split; [done|].
  rewrite O, T, Et. cbn [m_outbox m_crypto set_store]. rewrite He0, Hrows.
  split; [done|]. by apply filter_all.
Qed.
End Queue.
