(* ===== verification/Export.v ===== *)
(** * ChatClient: exporting a conversation (client/src/chatclient.cpp)

    The stored rows of a conversation become lines, the lines a text or an HTML document,
    and the document is written where the user chose. *)

From stdpp Require Import pretty.
From S2P Require Import Prelude Platform Kdf Ratchet X3dh CryptoBox Persist HistoryStore.
From S2P Require Import Localization Accounts Chat.

(** What Qt formats and prints: a time as "yyyy-MM-dd HH:mm:ss", the lower case of a text,
    [double(n) / d] with one digit, the PDF of an HTML document. *)
Class QExport := {
  stamp : Z → string;
  toLower : string → string;
  fixed1 : Z → Z → string;
  print_pdf : string → bytes;
}.

Module Transcript.
Import ChatClient.

(** ** [QString::arg] of several texts, in one pass *)

(** A template in pieces: literal text, and place markers of one or two digits. *)
Inductive Piece := Lit (s : string) | Mark (n : nat) (s : string).

Definition digit (c : Ascii.ascii) : option nat :=
  let n := Ascii.nat_of_ascii c in
  if (48 <=? n) && (n <=? 57) then Some (n - 48) else None.

Fixpoint pieces (s : string) : list Piece :=
  match s with
  | EmptyString => []
  | String a rest =>
      match rest with
      | String d rest' =>
          match (if Ascii.eqb a (Ascii.ascii_of_nat 37) then digit d else None) with
          | Some n =>
              match rest' with
              | String e rest'' =>
                  match digit e with
                  | Some m => Mark (10 * n + m) (String a (String d (String e EmptyString))) :: pieces rest''
                  | None => Mark n (String a (String d EmptyString)) :: pieces rest'
                  end
              | EmptyString => [Mark n s]
              end
          | None => Lit (String a EmptyString) :: pieces rest
          end
      | EmptyString => [Lit s]
      end
  end.

Definition marks (ps : list Piece) : list nat :=
  merge_sort (≤) (remove_dups (omap (λ p, match p with Mark n _ => Some n | Lit _ => None end) ps)).

(** The lowest marker takes the first argument, the next the second, and so on. *)
Definition arg (args : list string) (template : string) : string :=
  let ps := pieces template in
  let ms := marks ps in
  String.concat "" ((λ p, match p with
                          | Lit s => s
                          | Mark n s => match list_find (λ m, m = n) ms with
                                        | Some (i, _) => default s (args !! i)
                                        | None => s
                                        end
                          end) <$> ps).

(** ** HTML *)
Definition ampersand : string := "&amp;".

Definition escape_char (c : Ascii.ascii) : string :=
  match Ascii.nat_of_ascii c with
  | 38 => "&amp;"
  | 60 => "&lt;"
  | 62 => "&gt;"
  | 34 => "&quot;"
  | 39 => "&#39;"
  | _ => String c EmptyString
  end.

Fixpoint htmlEscape (s : string) : string :=
  match s with
  | EmptyString => EmptyString
  | String c rest => escape_char c +:+ htmlEscape rest
  end.

(** ** Writing *)

(** What the destination does: whether it opens and the error otherwise, how many octets
    [write] takes, and how many of them are there once it is closed; the errors of the
    flush in [close] are ignored. *)
Record Sink := mkSink {
  k_opens : bool;
  k_error : string;
  k_takes : nat;
  k_keeps : nat;
}.

(** [localPath] and [uri] are [toLocalFile()] and [toString()] of the URL. *)
Definition writeToChosenDestination (k : Sink) (localPath uri : string) (b : bytes) (fs : Files)
    : option string * Files :=
  if negb (String.eqb localPath "") then
    if negb (k_opens k) then (Some (k_error k), fs)
    else
      let fs1 := <[localPath := take (k_keeps k) b]> fs in
      if negb (k_takes k =? length b) then (Some ("could not write all data to " +:+ localPath), fs1)
      else (None, fs1)
  else if String.eqb uri "" then (Some "no destination was chosen", fs)
  else if negb (k_opens k) then
    (Some (if String.eqb (k_error k) "" then "could not open the chosen location" else k_error k), fs)
  else
    let fs1 := <[uri := take (k_keeps k) b]> fs in
    if negb (k_takes k =? length b) then
      (Some "could not write all data to the chosen location", fs1)
    else (None, fs1).

(** ** Lines *)
Record Line := mkLine {
  l_ts : string;
  l_who : string;
  l_body : string;
  l_system : bool;
  l_deleted : bool;
}.

Inductive Result := ExportFinished (peer path : string) | ExportError (text : string).

(** [QPrinter] at work: whether the temporary file can be made and read again. *)
Record Printer := mkPrinter { p_created : bool; p_reopens : bool; p_error : string }.

Definition kExportLimit : Z := 100000.

Section Document.
Context `{Sodium} `{QtText} `{QTrim} `{QExport}.
Context (loc : Localization.State) (windows printsupport : bool).

Definition humanReadableSize (n : Z) : string :=
  if (n <? 1024)%Z then pretty n +:+ " B"
  else if (n <? 1024 * 1024)%Z then fixed1 n 1024 +:+ " KB"
  else if (n <? 1024 * 1024 * 1024)%Z then fixed1 n (1024 * 1024) +:+ " MB"
  else fixed1 n (1024 * 1024 * 1024) +:+ " GB".

Definition line_of (me peer : string) (box : CryptoBox) (r : HistoryStore.StoredRow) : Line :=
  let ts := stamp (HistoryStore.sr_ts r) in
  if HistoryStore.sr_system r then
    mkLine ts (Localization.t "export.systemLabel" loc) (HistoryStore.sr_systemText r) true false
  else
    let who := if HistoryStore.sr_mine r then me
               else if String.eqb (HistoryStore.sr_sender r) "" then peer
               else HistoryStore.sr_sender r in
    let body :=
      if HistoryStore.sr_deleted r then Localization.t "msg.deleted" loc
      else if HistoryStore.sr_isFile r then
        arg [HistoryStore.sr_filename r; humanReadableSize (HistoryStore.sr_size r)]
          (Localization.t "export.sentFile" loc)
      else
        let plain :=
          default "" (localOpen (HistoryStore.sr_nonceHex r) (HistoryStore.sr_ctHex r) box) in
        if String.eqb plain "" then Localization.t "sys.cannotDecrypt" loc else plain in
    mkLine ts who body false (HistoryStore.sr_deleted r).

(** ** The documents *)
Definition nl : string :=
  if windows then String (Ascii.ascii_of_nat 13) (String (Ascii.ascii_of_nat 10) EmptyString)
  else String (Ascii.ascii_of_nat 10) EmptyString.

Definition repeated (c : string) : string := String.concat "" (replicate 60 c).

Definition text_line (l : Line) : string :=
  "[" +:+ l_ts l +:+ "] " +:+ l_who l +:+ (if l_system l then " " else ": ") +:+ l_body l +:+ nl.

Definition text_document (me peer nowStamp : string) (lines : list Line) : string :=
  repeated "=" +:+ nl
  +:+ "  " +:+ arg [peer] (Localization.t "export.headerTitle" loc) +:+ nl
  +:+ repeated "=" +:+ nl
  +:+ "  " +:+ arg [me; peer] (Localization.t "export.headerParticipants" loc) +:+ nl
  +:+ "  " +:+ arg [nowStamp] (Localization.t "export.headerExported" loc) +:+ nl
  +:+ repeated "-" +:+ nl
  +:+ nl
  +:+ String.concat "" (text_line <$> lines).

Definition quote : string := String (Ascii.ascii_of_nat 34) EmptyString.
Definition styled (tag style body : string) : string :=
  "<" +:+ tag +:+ " style=" +:+ quote +:+ style +:+ quote +:+ ">" +:+ body +:+ "</" +:+ tag +:+ ">".

Definition titleColor : string := "#0b7c72".
Definition peerColor : string := "#3b3b7a".
Definition bodyColor : string := "#111418".
Definition metaColor : string := "#6b7280".
Definition stampColor : string := "#9aa0a6".
Definition mutedItalic : string := "#9aa0a6".

Definition html_line (me : string) (l : Line) : string :=
  let stamp := styled "span" ("font-size:10pt;color:" +:+ stampColor
                              +:+ ";font-family:'Consolas',monospace;")
                 ("[" +:+ htmlEscape (l_ts l) +:+ "]") in
  if l_system l then
    styled "p" "font-size:13pt;margin:5pt 0;"
      (stamp +:+ " " +:+ styled "i" ("color:" +:+ mutedItalic +:+ ";font-weight:bold;")
                           (htmlEscape (l_body l)))
  else
    let whoColor := if String.eqb (l_who l) me then titleColor else peerColor in
    let who := styled "span" ("font-size:13pt;color:" +:+ whoColor +:+ ";font-weight:bold;")
                 (htmlEscape (l_who l) +:+ ":") in
    let body := if l_deleted l
                then styled "span" ("font-size:14pt;color:" +:+ mutedItalic +:+ ";font-style:italic;")
                       (htmlEscape (l_body l))
                else styled "span" ("font-size:14pt;color:" +:+ bodyColor +:+ ";font-weight:bold;")
                       (htmlEscape (l_body l)) in
    styled "p" "font-size:13pt;margin:5pt 0;" (stamp +:+ " " +:+ who +:+ " " +:+ body).

Definition html_document (me peer nowStamp : string) (lines : list Line) : string :=
  "<html><head></head><body style=" +:+ quote
  +:+ "font-family:'Segoe UI',Helvetica,Arial,sans-serif;" +:+ quote +:+ ">"
  +:+ styled "h1" ("font-size:23pt;font-weight:bold;color:" +:+ titleColor +:+ ";margin:0 0 2pt 0;")
        (htmlEscape (arg [peer] (Localization.t "export.headerTitle" loc)))
  +:+ styled "p" ("font-size:11pt;color:" +:+ metaColor +:+ ";margin:0 0 8pt 0;")
        (htmlEscape (arg [me; peer] (Localization.t "export.headerParticipants" loc)) +:+ "<br/>"
         +:+ htmlEscape (arg [nowStamp] (Localization.t "export.headerExported" loc)))
  +:+ "<hr/>"
  +:+ String.concat "" (html_line me <$> lines)
  +:+ "</body></html>".

(** ** Exporting *)
Definition export_failed (why : string) : Result :=
  ExportError (arg [why] (Localization.t "export.failed" loc)).

(** The bytes to write, or the reason why there are none. *)
Definition render (asPdf : bool) (p : Printer) (me peer nowStamp : string) (lines : list Line)
    : string + bytes :=
  if asPdf then
    if negb printsupport
    then inl "PDF export is not available in this build (printsupport module missing)"
    else if negb (p_created p) then inl "could not create a temporary file"
    else
      let pdf := print_pdf (html_document me peer nowStamp lines) in
      if bool_decide (pdf = []) then inl "PDF could not be written"
      else if negb (p_reopens p) then inl (p_error p)
      else inr pdf
  else inr (toUtf8 (text_document me peer nowStamp lines)).

(** [rowsOk]: the engine's answer to the query; [nowMs]: the clock. *)
Definition exportConversation (rowsOk : bool) (p : Printer) (k : Sink) (nowMs : Z)
    (peer format localPath uri : string) (c : Client) (fs : Files) : Result * Files :=
  let empty := ExportError (arg [peer] (Localization.t "export.empty" loc)) in
  if String.eqb peer "" then (empty, fs) else
  let rows := HistoryStore.rowsForPeer rowsOk peer kExportLimit (m_history c) in
  if bool_decide (rows = []) then (empty, fs) else
  if String.eqb localPath "" && String.eqb uri ""
  then (export_failed "no destination was chosen", fs) else
  let me := if String.eqb (m_nick c) "" then "me" else m_nick c in
  let asPdf := String.eqb (toLower (trimmed format)) "pdf" in
  match render asPdf p me peer (stamp nowMs) (line_of me peer (m_crypto c) <$> rows) with
  | inl why => (export_failed why, fs)
  | inr b =>
      match writeToChosenDestination k localPath uri b fs with
      | (Some err, fs1) => (export_failed err, fs1)
      | (None, fs1) => (ExportFinished peer localPath, fs1)
      end
  end.
End Document.
End Transcript.
