(* ===== verification/ExportFacts.v ===== *)
(** * Exporting a conversation: what the document holds *)

From S2P Require Import Prelude Platform Kdf Ratchet X3dh CryptoBox Persist MessageModel.
From S2P Require Import HistoryStore Localization Accounts Chat ChatFacts Export.

Import ChatClient Transcript.

(** ** Escaping *)

(** The five entities, read back. *)
Definition entities : list (string * Ascii.ascii) :=
  [("&amp;", Ascii.ascii_of_nat 38); ("&lt;", Ascii.ascii_of_nat 60);
   ("&gt;", Ascii.ascii_of_nat 62); ("&quot;", Ascii.ascii_of_nat 34);
   ("&#39;", Ascii.ascii_of_nat 39)].

Definition drop_string (n : nat) (s : string) : string := String.substring n (String.length s - n) s.

Fixpoint starts (e s : string) : bool :=
  match e, s with
  | EmptyString, _ => true
  | String a e', String b s' => Ascii.eqb a b && starts e' s'
  | _, _ => false
  end.

Fixpoint unescape (fuel : nat) (s : string) : string :=
  match fuel, s with
  | S fuel', String c rest =>
      match list_find (λ e, Is_true (starts e.1 s)) entities with
      | Some (_, (e, x)) => String x (unescape fuel' (drop_string (String.length e) s))
      | None => String c (unescape fuel' rest)
      end
  | _, _ => EmptyString
  end.

Lemma substring_all s : String.substring 0 (String.length s) s = s.
Proof. induction s as [|c s IH]; cbn; [done|]. by rewrite IH. Qed.

Lemma drop_string_app a b : drop_string (String.length a) (a +:+ b) = b.
Proof.
  unfold drop_string. induction a as [|c a IH]; [|exact IH].
  change ("" +:+ b) with b. cbn [String.length]. rewrite Nat.sub_0_r. apply substring_all.
Qed.

Lemma unescape_char fuel c s :
  unescape (S fuel) (escape_char c +:+ s) = String c (unescape fuel s).
Proof.
  destruct c as [[] [] [] [] [] [] [] []]; try reflexivity.
  all: match goal with |- context [escape_char ?c] =>
         let e := eval vm_compute in (escape_char c) in
         rewrite <- (drop_string_app e s) at 2; reflexivity end.
Qed.

Lemma unescape_escape fuel s :
  String.length s ≤ fuel → unescape fuel (htmlEscape s) = s.
Proof.
  revert fuel. induction s as [|c s IH]; intros [|fuel] Hf; cbn in Hf; try done; [lia|].
  cbn [htmlEscape]. rewrite unescape_char, IH by lia. done.
Qed.

(** The characters that would be markup. *)
Definition markup (c : Ascii.ascii) : bool :=
  existsb (Ascii.eqb c) (Ascii.ascii_of_nat <$> [60; 62; 34; 39]).

Definition chars : string → list Ascii.ascii := String.list_ascii_of_string.

Lemma chars_app a b : chars (a +:+ b) = chars a ++ chars b.
Proof. unfold chars. induction a as [|c a IH]; [done|]. cbn. by rewrite <- IH. Qed.

Lemma escape_char_plain c : forallb (λ c, negb (markup c)) (chars (escape_char c)) = true.
Proof. by destruct c as [[] [] [] [] [] [] [] []]. Qed.

Lemma escape_plain s : forallb (λ c, negb (markup c)) (chars (htmlEscape s)) = true.
Proof.
  induction s as [|c s IH]; [done|]. cbn [htmlEscape].
  rewrite chars_app, forallb_app, escape_char_plain. exact IH.
Qed.

(** Tags of a piece of HTML, by their opening brackets. *)
Definition tags (s : string) : nat :=
  length (List.filter (Ascii.eqb (Ascii.ascii_of_nat 60)) (chars s)).

Lemma tags_app a b : tags (a +:+ b) = tags a + tags b.
Proof. unfold tags. by rewrite chars_app, List.filter_app, length_app. Qed.

Lemma tags_escape s : tags (htmlEscape s) = 0.
Proof.
  unfold tags. pose proof (escape_plain s) as Hp. induction (chars (htmlEscape s)) as [|c l IH]; [done|].
  cbn in Hp. apply andb_true_iff in Hp as [Hc Hl]. cbn.
  destruct (Ascii.eqb_spec (Ascii.ascii_of_nat 60) c) as [<-|]; [done|by apply IH].
Qed.

Lemma tags_concat l : tags (String.concat "" l) = sum_list (tags <$> l).
Proof.
  induction l as [|a [|b l] IH]; [done| |].
  - change (tags a = tags a + 0). lia.
  - change (String.concat "" (a :: b :: l)) with (a +:+ "" +:+ String.concat "" (b :: l)).
    rewrite !tags_app, IH. done.
Qed.

Lemma tags_styled tag style body :
  tags (styled tag style body) = 2 + 2 * tags tag + tags style + tags body.
Proof.
  unfold styled. rewrite !tags_app.
  change (tags "<") with 1. change (tags " style=") with 0. change (tags quote) with 0.
  change (tags ">") with 0. change (tags "</") with 1. lia.
Qed.

Lemma tags_line me l : tags (html_line me l) = if l_system l then 6 else 8.
Proof.
  unfold html_line.
  destruct (l_system l); [|destruct (String.eqb (l_who l) me), (l_deleted l)];
    repeat (rewrite tags_styled || rewrite tags_app || rewrite tags_escape); by vm_compute.
Qed.

Section Documents.
Context `{Sodium} `{QtText} `{SqlOrder} `{QTrim} `{QExport}.
Context (loc : Localization.State).

(** C33: Nothing in a conversation is taken for markup.  The PDF is laid out from HTML whose
    tags are those of the program, a fixed number for every line, whatever the names, the
    messages and the titles hold; and escaping loses nothing: a reader of HTML gets the
    text back. *)
Theorem html_holds_only_text me peer nowStamp lines s :
  tags (html_document loc me peer nowStamp lines)
  = 12 + sum_list ((λ l, if l_system l then 6 else 8) <$> lines)
  ∧ unescape (String.length s) (htmlEscape s) = s.
Proof.
  split; [|by apply unescape_escape]. unfold html_document.
  repeat (rewrite tags_styled || rewrite tags_app || rewrite tags_escape). rewrite tags_concat.
  assert (∀ l, tags <$> (html_line me <$> l) = (λ l, if l_system l then 6 else 8) <$> l) as ->.
  { intros l. rewrite <- list_fmap_compose. apply list_fmap_ext. intros ? ? _. apply tags_line. }
  generalize (sum_list ((λ l, if l_system l then 6 else 8) <$> lines)). intros k.
  repeat match goal with |- context [tags ?x] =>
    let v := eval vm_compute in (tags x) in change (tags x) with v end.
  lia.
Qed.

(** ** The lines and the screen *)

(** What the line of a row on screen says. *)
Record transcribes (m : MessageModel.Message) (l : Line) : Prop := {
  tr_words : l_deleted l = false → MessageModel.isFile m = false →
             l_body l = MessageModel.text m;
  tr_file : l_deleted l = false → MessageModel.isFile m = true →
            l_body l = arg [MessageModel.filename m; humanReadableSize (MessageModel.fsize m)]
                         (Localization.t "export.sentFile" loc);
  tr_deleted : l_deleted l = true → l_body l = Localization.t "msg.deleted" loc;
}.

Lemma line_transcribes me peer box r m :
  shows loc box r m → transcribes m (line_of loc me peer box r).
Proof.
  intros Hs. unfold line_of. fold (stored_text box r).
  destruct Hs as [Es Em Ef Et|Es Er Em Ef E1 E2 E3 En E4 Ez|Es Er Ht Em Ef Et|Es Er Ht Em Ef Et];
    rewrite Es, ?Er; cbn; split; cbn; try congruence; intros Hd; rewrite ?Hd, ?En, ?Ez; try done.
  - by rewrite (proj2 (String.eqb_neq _ _) Ht).
  - rewrite Ht. cbn. congruence.
Qed.

Lemma view_rows ok peer (st : HistoryStore.Store) :
  HistoryStore.rowsForPeer ok peer HistoryStore.kRowLimit st
  = take 500 (HistoryStore.rowsForPeer ok peer kExportLimit st).
Proof.
  unfold HistoryStore.rowsForPeer. case_match; [done|]. case_match; [done|].
  unfold HistoryStore.sql_limit, HistoryStore.kRowLimit, kExportLimit.
  rewrite <- fmap_take. change (500 <? 0)%Z with false. change (100000 <? 0)%Z with false.
  cbv iota. rewrite take_take. do 2 f_equal.
Qed.

(** The export goes on where the screen stops.  The rows on screen after a conversation is
    opened are the first lines of its export, one for one: the same words, the same notes,
    the same placeholder where a text does not open, and files by name and size.  A row
    marked deleted reads as the tombstone in the export. *)
Theorem export_continues_view rowsOk okReacts now me peer c :
  let screen := m_messages (loadConversation loc rowsOk okReacts now peer c) in
  let lines := line_of loc me peer (m_crypto c)
                 <$> HistoryStore.rowsForPeer rowsOk peer kExportLimit (m_history c) in
  Forall2 transcribes screen (take 500 lines) ∧
  length screen = Nat.min 500 (length lines).
Proof.
  cbv zeta. set (screen := m_messages _).
  pose proof (loadConversation_shows loc rowsOk okReacts now peer c) as Hs. fold screen in Hs.
  rewrite view_rows in Hs. set (rows := HistoryStore.rowsForPeer _ _ kExportLimit _) in *.
  split.
  - rewrite <- fmap_take. apply Forall2_fmap_r, Forall2_flip.
    eapply Forall2_impl; [exact Hs|]. intros r m. apply line_transcribes.
  - rewrite <- (Forall2_length _ _ _ Hs), length_take, length_fmap. done.
Qed.

(** An export is reported finished by what [write] took.  The octets reach the disk when
    the file is closed, and an error then is not asked for: with a full disk a text export
    is announced as saved while the file holds only part of it, or nothing. *)
Theorem unflushed_export_finishes windows printsupport rowsOk p k nowMs peer format localPath uri c fs :
  peer ≠ "" → localPath ≠ "" → String.eqb (toLower (trimmed format)) "pdf" = false →
  HistoryStore.rowsForPeer rowsOk peer kExportLimit (m_history c) ≠ [] → k_opens k = true →
  ∃ document,
    k_takes k = length document →
    exportConversation loc windows printsupport rowsOk p k nowMs peer format localPath uri c fs
    = (ExportFinished peer localPath, <[localPath := take (k_keeps k) document]> fs).
Proof.
  intros Hp%String.eqb_neq Hl%String.eqb_neq Hf Hr Hk. eexists. intros Ht.
  unfold exportConversation. rewrite Hp, bool_decide_false, Hl by done. cbn [andb]. cbv zeta.
  rewrite Hf. cbn [render]. unfold writeToChosenDestination. rewrite Hl, Hk. cbn [negb].
  rewrite Ht, Nat.eqb_refl. done.
Qed.
End Documents.
