(* ===== verification/Preferences.v ===== *)
(** * ChatClient: appearance and safety numbers (client/src/chatclient.cpp)

    The theme of a user and the brightness of the device, kept in the settings, the login
    fields remembered, and the numbers two users compare. *)

From S2P Require Import Prelude Platform Settings Kdf Ratchet X3dh CryptoBox Persist.
From S2P Require Import PersistFacts HistoryStore Chat.

(** [QVariant::toInt] with its [ok]. *)
Class QVariantInt := { to_int : Variant → option Z; to_int_int n : to_int (VInt n) = Some n }.

Module Preferences.
Import ChatClient.

(** The state is the nickname and the settings of the device. *)
Section Theme.
Context `{QtText} `{QVariantCasts} `{QVariantInt}.

Definition kThemePresetCount : Z := 6.
Definition themeKey (nick : string) : string := "theme/" +:+ nick.

(** FNV-1a over the octets. *)
Definition fnv1a (b : bytes) : Z :=
  fold_left (λ h c, u32 (Z.lxor h (byte_val c) * 16777619)) b 2166136261%Z.

Definition default_theme (nick : string) : Z :=
  if String.eqb nick "" then 0 else (fnv1a (toUtf8 nick) mod kThemePresetCount)%Z.

Definition stored_theme (nick : string) (st : Settings) : option Z :=
  if String.eqb nick "" then None else
  match st !! themeKey nick with
  | None => None
  | Some x =>
      match to_int x with
      | Some v => if ((0 <=? v) && (v <? kThemePresetCount))%Z then Some v else None
      | None => None
      end
  end.

Definition themeIndex (nick : string) (st : Settings) : Z :=
  default (default_theme nick) (stored_theme nick st).

(** [true]: [themeChanged] is emitted. *)
Definition setThemeIndex (nick : string) (index : Z) (st : Settings) : bool * Settings :=
  if (index <? 0)%Z then (false, st)
  else (true, if String.eqb nick "" then st else <[themeKey nick := VInt index]> st).

Definition darkMode (st : Settings) : bool := read_bool "ui/darkMode" true st.

Definition setDarkMode (dark : bool) (st : Settings) : bool * Settings :=
  if Bool.eqb dark (darkMode st) then (false, st)
  else (true, <["ui/darkMode" := VBool dark]> st).

Definition lastNickname (st : Settings) : string := read_text "login/lastNickname" st.

Lemma fnv1a_range b : (0 ≤ fnv1a b)%Z.
Proof.
  unfold fnv1a. assert (0 ≤ 2166136261)%Z as Hh by lia. revert Hh.
  generalize 2166136261%Z. induction b as [|c b IH]; intros h Hh; [done|]. apply IH.
  unfold u32. apply Z.mod_pos_bound. lia.
Qed.

(** The theme of a user is always one of the presets.  A preset a user picks is the one in
    force for that user from then on, whatever the other users of the device pick; a
    choice past the presets the client counts is kept and never used. *)
Theorem theme_choice nick index others st :
  nick ≠ "" → (0 ≤ index)%Z → Forall (λ o, o.1 ≠ nick) others →
  let after := fold_left (λ s o, (setThemeIndex o.1 o.2 s).2) others
                 (setThemeIndex nick index st).2 in
  themeIndex nick after
  = (if (index <? kThemePresetCount)%Z then index else default_theme nick)
  ∧ ∀ anyone s, (0 ≤ themeIndex anyone s < kThemePresetCount)%Z.
Proof.
  intros Hn%String.eqb_neq Hi Ho. cbv zeta. split.
  - assert (∀ s, s !! themeKey nick = Some (VInt index) →
      themeIndex nick s = (if (index <? kThemePresetCount)%Z then index else default_theme nick)) as Ht.
    { intros s Hs. unfold themeIndex, stored_theme. rewrite Hn, Hs, to_int_int.
      rewrite (proj2 (Z.leb_le 0 index) Hi). by destruct (index <? kThemePresetCount)%Z. }
    apply Ht. clear Ht. unfold setThemeIndex at 2. rewrite (proj2 (Z.ltb_ge _ _) Hi), Hn. cbn [snd].
    assert (∀ s, s !! themeKey nick = Some (VInt index) →
      fold_left (λ s o, (setThemeIndex o.1 o.2 s).2) others s !! themeKey nick = Some (VInt index)) as Hf.
    { induction Ho as [|[n i] others Hne _ IH]; intros s Hs; [done|]. apply IH. cbn in *.
      unfold setThemeIndex. case_match; [done|]. cbn. case_match; [done|].
      rewrite lookup_insert_ne; [done|]. unfold themeKey. intros E. by apply (inj (String.append _)) in E. }
    apply Hf, lookup_insert_eq.
  - intros anyone s. unfold themeIndex. destruct (stored_theme anyone s) as [v|] eqn:E; cbn.
    + unfold stored_theme in E. repeat case_match; try discriminate. simplify_eq.
      match goal with E : _ && _ = true |- _ => apply andb_true_iff in E as [E1 E2] end. lia.
    + unfold default_theme, kThemePresetCount. case_match; [lia|]. apply Z.mod_pos_bound. lia.
Qed.
End Theme.

Section Numbers.
Context `{Sodium} `{QtText}.

Definition myFingerprint (c : Client) : string :=
  safetyNumber (publicKeyHex (m_crypto c)) (publicKeyHex (m_crypto c)).

Definition safetyNumberWith (peer : string) (c : Client) : string :=
  match m_peerKeys c !! peer with
  | None => ""
  | Some key => safetyNumber (publicKeyHex (m_crypto c)) key
  end.

(** Two users who hold each other's published key read the same number. *)
Theorem safety_numbers_agree a b :
  m_peerKeys a !! m_nick b = Some (publicKeyHex (m_crypto b)) →
  m_peerKeys b !! m_nick a = Some (publicKeyHex (m_crypto a)) →
  safetyNumberWith (m_nick b) a = safetyNumberWith (m_nick a) b.
Proof. unfold safetyNumberWith. intros -> ->. apply safetyNumber_symmetric. Qed.
End Numbers.
End Preferences.
