(* ===== verification/Messenger.v ===== *)
(** * ChatClient: state, frames and effects of the messaging core
      (client/src/chatclient.cpp, chatclient.h)

    The data members behind sending, receiving, verification and rekeying, the
    frames of the relay protocol, and the monad the operations are written in.  An
    operation reads and changes the client, emits events (frames handed to the
    socket, signals) and draws what it is told from outside: the clock, random
    octets, identifiers, the answers of the database, files.  The [i]-th draw of a
    run is the [i]-th value of an [Oracle]. *)

From S2P Require Import Prelude Platform Kdf Ratchet X3dh CryptoBox Persist MessageModel.
From S2P Require Import UserModel HistoryStore Localization FileCrypto Chat.

Import ChatClient.

Module Messenger.

(** ** Frames *)

(** The opener values of a "msg" frame, in hexadecimal. *)
Record Opener := mkOpener { o_ik_a : string; o_ek_a : string; o_opk_id : Z; o_spk_used : string }.

(** A "msg" frame; an absent field reads as the empty string. *)
Record Msg := mkMsg {
  g_from : string;
  g_to : string;
  g_kind : string;
  g_ik : string;
  g_mid : string;
  g_edit_of : string;
  g_opener : option Opener;
  g_wire : WireFrame;
  g_ts : Z;
}.

(** The key of the file, encrypted for the contact, and the relay's mark of a replay. *)
Record FileInit := mkFileInit {
  fi_msg_id : string;
  fi_from : string;
  fi_to : string;
  fi_filename : string;
  fi_mime : string;
  fi_size : Z;
  fi_header : string;
  fi_keyenc : option WireFrame;
  fi_replayed : bool;
}.

(** A prekey bundle as served: the one-time prekey and its id may be absent. *)
Record Served := mkServed {
  sv_ik : string;
  sv_spk : string;
  sv_sig : string;
  sv_opk : option (string * Z);
}.

(** The frames of both directions, parsed; the entries of "keys" in the object's order. *)
Inductive Frame :=
| FMsg (m : Msg)
| FFileInit (i : FileInit)
| FFileChunk (octets : bytes)
| FFileEnd (msg_id : string)
| FGetKey (nick : string)
| FGetBundle (nick : string)
| FVerifyAck (from to ik peer_ik : string) (ts : Z)
| FVerifyResync (from to ik : string) (ts : Z)
| FTyping (from to state : string)
| FKey (nick published ik_type : string)
| FKeys (keys : list (string * string)) (key_types : option (gmap string string))
| FBundle (nick : string) (bundle : option Served)
| FPresence (users : list string)
| FDelete (from mid : string)
| FReaction (from mid kind : string)
| FServerLog (lines : list (string * string))
| FError (reason : string).

#[export] Instance wire_eq_dec : EqDecision WireFrame.
Proof. solve_decision. Defined.
#[export] Instance opener_eq_dec : EqDecision Opener.
Proof. solve_decision. Defined.
#[export] Instance msg_eq_dec : EqDecision Msg.
Proof. solve_decision. Defined.

(** ** Events *)

(** The texts of [errorOccurred]. *)
Inductive Notice :=
| SelectSomeone
| FetchingKey
| NotVerifiedQueued (peer : string)
| WaitingForPeerQueued (peer : string)
| OfflineQueued
| ReestablishingQueued
| EncryptionFailed
| QueuedEncryptFailed (peer : string)
| QueuedFileGone (peer path : string)
| PickSomeone
| FileNotFound (path : string)
| FileHeld (peer : string)
| OfflineFileQueued
| NoKeyYet (peer : string)
| CouldNotOpen (path : string)
| FileTooLargeOrEmpty
| CryptoInitFailed
| ReestablishingFileQueued
| SendEncryptionError
| ConfirmTapped (peer : string) (flagged : bool)
| EmptyEdit
| NotYoursToEdit
| FileNotEditable
| VerifyFirst (peer : string)
| PeerNotVerifiedYet (peer : string)
| OfflineEdit
| ReestablishingEdit
| NotYoursToResend
| OriginalGone
| BundleNotBound (peer : string)
| MalformedBundle (peer : string)
| OldRelay
| RelayError (reason : string)
| FileNoLongerHere
| CouldNotSaveTo (path : string)
| InvalidSaveLocation
| CouldNotSaveThere.

(** Why a file cannot be received. *)
Inductive FileFailure :=
| UnsupportedFormat
| NoFileKey
| CannotStart
| CannotOpenTemp
| ChunkOrder
| AuthFailure.

(** Severities of the log. *)
Inductive Severity := Debug | Info | Warning | Critical.

Inductive Event :=
| Sent (f : Frame)
| ErrorOccurred (n : Notice)
| SafetyNumberChanged (peer : string)
| PeerKeysChanged
| MessageEdited (peer mid : string)
| PeerTypingChanged (peer state : string)
| PeerActivityChanged (peer : string) (active : bool)
| FileProgress (msg_id : string) (sent total : Z)
| Notify (from plaintext : string)
| DecryptionFailed (peer : string)
| BundleUnavailable (peer : string)
| BundleRejected (peer : string)
| BundleReady (peer : string)
| FileReceived (msg_id from filename mime : string) (size : Z) (path : string)
| FileReceiveFailed (msg_id : string) (why : FileFailure)
| FileReceiveProgress (msg_id : string) (received expected : Z)
| MessageDeleted (from mid : string)
| ReactionChanged (peer mid : string)
| LogLine (level : Severity) (line : string).

(** ** State *)

(** Verification of safety numbers. *)
Record Gate := mkGate {
  m_unverifiedKeyChange : gset string;
  m_peerVerified : gset string;
  m_pendingBilateral : gset string;
  m_verifyAckResend : gset string;
  m_peerVerifiedForIdentity : gmap string string;
  m_verifiedPeerIdentity : gmap string string;
  m_lastVerifyResyncMs : gmap string Z;
}.

(** Post-compromise security; [m_rekeyKickTimer] and [m_rekeyTimer]: is it active. *)
Record Pcs := mkPcs {
  m_rekeyOutstanding : gset string;
  m_rekeyPingSentAt : gmap string Z;
  m_rekeyPingResends : gmap string Z;
  m_pongOwed : gset string;
  m_healPending : gset string;
  m_rekeyKickTries : Z;
  m_rekeyKickTimer : bool;
  m_rekeyTimer : bool;
}.

(** [struct X3dhHeader]. *)
Record X3dhHeader := mkHeader { h_ikA : bytes; h_ekA : bytes; h_opkId : Z; h_spkUsed : bytes }.

(** What concerns frames in flight; [m_linkUp] is the member [m_connected], while
    [ChatClient.m_connected] says that the socket is connected. *)
Record Link := mkLink {
  m_linkUp : bool;
  m_flushInProgress : bool;
  m_seenFrames : gmap string (gset string);
  m_pendingFrames : gmap string (list Frame);
  m_rebootstrapAdopted : gmap string string;
  m_peerEdKeys : gmap string bytes;
  m_relayServesUntaggedEd : bool;
  m_pendingX3dhHeader : gmap string X3dhHeader;
  m_lastTypingStateSent : string;
  m_typingPeer : string;
  m_peerTyping : gmap string string;
  m_sentFileSources : gmap string string;
}.

(** [struct IncomingFile]; [in_pos] is where its open [QFile] writes next. *)
Record IncomingFile := mkIncoming {
  in_sender : string;
  in_filename : string;
  in_mime : string;
  in_expectedSize : Z;
  in_receivedBytes : Z;
  in_nextChunkIndex : Z;
  in_pos : nat;
  in_localPath : string;
  in_crypto : FileCrypto;
  in_replayed : bool;
}.

(** Files being received and received, and the disk they are written to. *)
Record Transfers := mkTransfers {
  m_incoming : gmap string IncomingFile;
  m_receivedFilePaths : gmap string string;
  disk : Files;
}.

(** [ticks] counts the draws made so far. *)
Record Chat := mkChat {
  client : Client;
  gate : Gate;
  pcs : Pcs;
  link : Link;
  transfers : Transfers;
  ticks : nat;
}.

Definition set_client (x : Client) (c : Chat) : Chat :=
  mkChat x (gate c) (pcs c) (link c) (transfers c) (ticks c).
Definition set_gate (x : Gate) (c : Chat) : Chat :=
  mkChat (client c) x (pcs c) (link c) (transfers c) (ticks c).
Definition set_pcs (x : Pcs) (c : Chat) : Chat :=
  mkChat (client c) (gate c) x (link c) (transfers c) (ticks c).
Definition set_link (x : Link) (c : Chat) : Chat :=
  mkChat (client c) (gate c) (pcs c) x (transfers c) (ticks c).
Definition set_transfers (x : Transfers) (c : Chat) : Chat :=
  mkChat (client c) (gate c) (pcs c) (link c) x (ticks c).

(** ** The monad *)
Definition M (A : Type) : Type := Chat → A * Chat * list Event.

#[export] Instance M_ret : MRet M := λ A x c, (x, c, []).
#[export] Instance M_bind : MBind M := λ A B f m c,
  let '(x, c1, ev1) := m c in
  let '(y, c2, ev2) := f x c1 in (y, c2, ev1 ++ ev2).

Definition gets {A} (f : Chat → A) : M A := λ c, (f c, c, []).
Definition modify (f : Chat → Chat) : M () := λ c, ((), f c, []).
Definition emit (e : Event) : M () := λ c, ((), c, [e]).
Definition when (b : bool) (m : M ()) : M () := if b then m else mret ().

(** [for (const QString &peer : list) body] *)
Fixpoint for_each {A} (l : list A) (body : A → M ()) : M () :=
  match l with
  | [] => mret ()
  | x :: rest => body x ;; for_each rest body
  end.

Definition on_client (f : Client → Client) : M () := modify (λ c, set_client (f (client c)) c).
Definition on_gate (f : Gate → Gate) : M () := modify (λ c, set_gate (f (gate c)) c).
Definition on_pcs (f : Pcs → Pcs) : M () := modify (λ c, set_pcs (f (pcs c)) c).
Definition on_link (f : Link → Link) : M () := modify (λ c, set_link (f (link c)) c).
Definition on_transfers (f : Transfers → Transfers) : M () :=
  modify (λ c, set_transfers (f (transfers c)) c).

(** ** What is drawn *)
Class Oracle := {
  clock_at : nat → Z;
  octets_at : nat → nat → bytes;
  answer_at : nat → bool;
  uuid_at : nat → string;
  date_at : nat → string;
  file_at : nat → string → option bytes;
}.

(** As many octets as were asked for. *)
Class OracleLaws `{Oracle} := {
  octets_length i n : length (octets_at i n) = n;
}.

(** [QFileInfo::fileName], [QMimeDatabase::mimeTypeForFile], and the directory that
    [QStandardPaths] gives for the application's data. *)
Class QFiles := {
  baseName : string → string;
  mimeOf : string → string;
  appDataLocation : string;
}.

Definition tick : M nat := λ c, 
  (ticks c, mkChat (client c) (gate c) (pcs c) (link c) (transfers c) (S (ticks c)), []).

Section Draws.
Context `{Oracle}.
Definition now : M Z := i ← tick; mret (clock_at i).
Definition draw (n : nat) : M bytes := i ← tick; mret (octets_at i n).
Definition ok : M bool := i ← tick; mret (answer_at i).
Definition createUuid : M string := i ← tick; mret (uuid_at i).
Definition currentDate : M string := i ← tick; mret (date_at i).
Definition readFile (path : string) : M (option bytes) := i ← tick; mret (file_at i path).
End Draws.

(** ** Reading the client *)
Definition connected (c : Chat) : bool := m_connected (client c).
Definition has_key (peer : string) (c : Chat) : bool :=
  bool_decide (is_Some (m_peerKeys (client c) !! peer)).
Definition key_of (peer : string) (c : Chat) : string :=
  default "" (m_peerKeys (client c) !! peer).
Definition box (c : Chat) : CryptoBox := m_crypto (client c).
Definition store (c : Chat) : HistoryStore.Store := m_history (client c).
Definition has_session (peer : string) (c : Chat) : bool := hasSessionFor peer (box c).
Definition isReady (c : Chat) : bool := HistoryStore.m_ready (store c).
Definition online (peer : string) (c : Chat) : bool := UserModel.isOnline peer (m_users (client c)).
Definition self (c : Chat) : string := m_nick (client c).
Definition active (c : Chat) : string := m_activePeer (client c).
Definition sent_since (peer : string) (c : Chat) : Z :=
  default 0%Z (m_sentSinceRatchet (client c) !! peer).

Definition send (f : Frame) : M () := emit (Sent f).

(** A member function of the client's state, of its box, of its store; the engine
    answers a call of the store. *)
Definition with_client {A} (f : Client → A * Client) : M A := λ c,
  let '(x, cl) := f (client c) in (x, set_client cl c, []).

Definition on_box {A} (f : CryptoBox → A * CryptoBox) : M A :=
  with_client (λ cl, let '(x, b) := f (m_crypto cl) in (x, set_crypto b cl)).

Definition on_store `{Oracle} {A} (f : bool → HistoryStore.Store → A * HistoryStore.Store) : M A :=
  o ← ok;
  with_client (λ cl, let '(x, s) := f o (m_history cl) in (x, set_store s cl)).

Definition on_messages (f : list MessageModel.Message → list MessageModel.Message) : M () :=
  on_client (λ c, set_messages (f (m_messages c)) c).

Definition on_users (f : UserModel.State → UserModel.State) : M () :=
  on_client (λ c, set_user_list (f (m_users c)) c).

(** ** The gate *)
Definition hasUnverifiedKeyChange (peer : string) (c : Chat) : bool :=
  bool_decide (peer ∈ m_unverifiedKeyChange (gate c)).

Definition conversationBlocked (peer : string) (c : Chat) : bool :=
  bool_decide (peer ∈ m_unverifiedKeyChange (gate c))
  || bool_decide (peer ∈ m_pendingBilateral (gate c)).

Definition awaitingPeerVerification (peer : string) (c : Chat) : bool :=
  bool_decide (peer ∈ m_pendingBilateral (gate c))
  && negb (bool_decide (peer ∈ m_unverifiedKeyChange (gate c))).

(** ** Steps that every operation shares *)
Section Shared.
Context `{Sodium} `{QtText} `{QDataStream} `{QHashOrder} `{Oracle}.

(** [persistSession]. *)
Definition persist (peer : string) : M () :=
  o ← ok;
  t ← now;
  on_client (persistSession o peer t).

(** [m_crypto.encryptFor]. *)
Definition encrypt (peer plaintext : string) : M EncryptResult :=
  rnd ← draw 32;
  nonce ← draw (nonceLenFor kCipherXchacha);
  on_box (encryptFor peer plaintext rnd nonce).

(** [m_crypto.localSeal]. *)
Definition seal (plaintext : string) : M (option (string * string)) :=
  nonce ← draw 24;
  gets (λ c, localSeal plaintext nonce (box c)).

Definition requestKeyFor (peer : string) : M () := send (FGetKey peer).

(** A line of the system: on screen if the conversation is open, and kept. *)
Definition system_line (peer line : string) : M () :=
  c ← gets id;
  when (String.eqb peer (active c))
    (t ← now; on_messages (λ ms, (MessageModel.addSystem line t ms).1)) ;;
  when (isReady c)
    (t ← now; okA ← ok; okB ← ok;
     on_store (λ o s, HistoryStore.addSystemRow okA okB o peer line t s) ;; mret ()).
End Shared.

End Messenger.
