(* ===== verification/Rekey.v ===== *)
(** * ChatClient: the rekey heartbeat (client/src/chatclient.cpp)

    Post-compromise security: a ping that the peer answers with a pong turns the
    ratchet in both directions.  The two timers are the flags of [Pcs]; [kickRekey]
    and [onRekeyTimer] are what they run.  A loop over a copy of a hash or set runs
    in the order of its iteration. *)

From S2P Require Import Prelude Platform Kdf Ratchet X3dh CryptoBox Persist MessageModel.
From S2P Require Import UserModel HistoryStore Chat Messenger.

Import ChatClient Messenger.

Module Rekey.

Definition kPcsRekeyAfterMessages : Z := 8.
Definition kPcsRekeyKickMaxTries : Z := 8.
Definition kPcsRekeyPongTimeoutMs : Z := 8000.
Definition kPcsRekeyPingMaxResends : Z := 5.

Definition kHandshakeSentinel : string :=
  String (Ascii.ascii_of_nat 1) "__chate2ee_rebootstrap__".
Definition kRekeyPingSentinel : string :=
  String (Ascii.ascii_of_nat 1) "__chate2ee_rekey_ping__".
Definition kRekeyPongSentinel : string :=
  String (Ascii.ascii_of_nat 1) "__chate2ee_rekey_pong__".

(** ** Field updates *)
Definition set_outstanding (x : gset string) (p : Pcs) : Pcs :=
  mkPcs x (m_rekeyPingSentAt p) (m_rekeyPingResends p) (m_pongOwed p) (m_healPending p)
    (m_rekeyKickTries p) (m_rekeyKickTimer p) (m_rekeyTimer p).
Definition set_sentAt (x : gmap string Z) (p : Pcs) : Pcs :=
  mkPcs (m_rekeyOutstanding p) x (m_rekeyPingResends p) (m_pongOwed p) (m_healPending p)
    (m_rekeyKickTries p) (m_rekeyKickTimer p) (m_rekeyTimer p).
Definition set_resends (x : gmap string Z) (p : Pcs) : Pcs :=
  mkPcs (m_rekeyOutstanding p) (m_rekeyPingSentAt p) x (m_pongOwed p) (m_healPending p)
    (m_rekeyKickTries p) (m_rekeyKickTimer p) (m_rekeyTimer p).
Definition set_owed (x : gset string) (p : Pcs) : Pcs :=
  mkPcs (m_rekeyOutstanding p) (m_rekeyPingSentAt p) (m_rekeyPingResends p) x (m_healPending p)
    (m_rekeyKickTries p) (m_rekeyKickTimer p) (m_rekeyTimer p).
Definition set_heal (x : gset string) (p : Pcs) : Pcs :=
  mkPcs (m_rekeyOutstanding p) (m_rekeyPingSentAt p) (m_rekeyPingResends p) (m_pongOwed p) x
    (m_rekeyKickTries p) (m_rekeyKickTimer p) (m_rekeyTimer p).
Definition set_kick (tries : Z) (running : bool) (p : Pcs) : Pcs :=
  mkPcs (m_rekeyOutstanding p) (m_rekeyPingSentAt p) (m_rekeyPingResends p) (m_pongOwed p)
    (m_healPending p) tries running (m_rekeyTimer p).

(** [m_rekeyKickTries = 0; m_rekeyKickTimer.start();] *)
Definition restart_kick : M () := on_pcs (set_kick 0 true).

(** [m_rekeyOutstanding.remove(peer)] and the two hashes of the ping. *)
Definition forget_ping (peer : string) (p : Pcs) : Pcs :=
  set_resends (delete peer (m_rekeyPingResends p))
    (set_sentAt (delete peer (m_rekeyPingSentAt p))
       (set_outstanding (m_rekeyOutstanding p ∖ {[peer]}) p)).

Definition set_count (peer : string) (n : Z) : M () :=
  on_client (λ c, set_sent (<[peer := n]> (m_sentSinceRatchet c)) c).

(** A loop whose body may say [stillPending = true]. *)
Fixpoint for_any {A} (l : list A) (body : A → M bool) : M bool :=
  match l with
  | [] => mret false
  | x :: rest => b ← body x; b' ← for_any rest body; mret (b || b')
  end.

Section Operations.
Context `{Sodium} `{QtText} `{QDataStream} `{QHashOrder} `{QStringOrder} `{Oracle}.

(** A ratchet frame with a sentinel inside. *)
Definition transmit_control (peer kind sentinel : string) (ik : Chat → string) : M bool :=
  r ← encrypt peer sentinel;
  match r with
  | Encrypted w =>
      c ← gets id;
      t ← now;
      send (FMsg (mkMsg (self c) peer kind (ik c) "" "" None w t)) ;;
      persist peer ;;
      mret true
  | NotReady | EncryptFailed => mret false
  end.

Definition transmitHandshake (peer : string) : M bool :=
  transmit_control peer "handshake" kHandshakeSentinel (λ c, publicKeyHex (box c)).

Definition transmitRekey (peer : string) (isPong : bool) : M bool :=
  c ← gets id;
  if negb isPong && conversationBlocked peer c then mret false
  else if negb isPong && negb (online peer c) then mret false
  else if isPong then transmit_control peer "rekey-pong" kRekeyPongSentinel (λ _, "")
  else transmit_control peer "rekey-ping" kRekeyPingSentinel (λ _, "").

Definition markRekeyPingSent (peer : string) : M () :=
  if String.eqb peer "" then mret () else
  t ← now;
  on_pcs (λ p,
    let p := if decide (peer ∈ m_rekeyOutstanding p) then p
             else set_resends (<[peer := 0%Z]> (m_rekeyPingResends p)) p in
    let p := set_outstanding ({[peer]} ∪ m_rekeyOutstanding p) p in
    let p := set_sentAt (<[peer := t]> (m_rekeyPingSentAt p)) p in
    set_kick (m_rekeyKickTries p) true p).

Definition noteOutboundTo (peer : string) : M () :=
  if String.eqb peer "" then mret () else
  c ← gets id;
  let count := (sent_since peer c + 1)%Z in
  set_count peer count ;;
  if (kPcsRekeyAfterMessages <=? count)%Z
     && negb (bool_decide (peer ∈ m_rekeyOutstanding (pcs c)))
     && connected c && has_session peer c
  then
    sent ← transmitRekey peer false;
    if (sent : bool) then markRekeyPingSent peer else restart_kick
  else mret ().

Definition noteInboundFrom (peer : string) : M () :=
  if String.eqb peer "" then mret () else
  set_count peer 0 ;;
  on_pcs (forget_ping peer).

Definition resetPcsFor (peer : string) : M () :=
  if String.eqb peer "" then mret () else
  on_client (λ c, set_sent (delete peer (m_sentSinceRatchet c)) c) ;;
  on_pcs (forget_ping peer).

(** May a deferred ping be sent to this peer? *)
Definition ping_due (peer : string) (c : Chat) : bool :=
  (0 <? sent_since peer c)%Z
  && negb (bool_decide (peer ∈ m_rekeyOutstanding (pcs c)))
  && negb (bool_decide (peer ∈ m_unverifiedKeyChange (gate c)))
  && negb (bool_decide (peer ∈ m_pendingBilateral (gate c)))
  && has_session peer c.

(** (0) a ping whose pong is overdue. *)
Definition kick_in_flight (nowMs : Z) (peer : string) : M () :=
  c ← gets id;
  let sentAt := default 0%Z (m_rekeyPingSentAt (pcs c) !! peer) in
  let resends := default 0%Z (m_rekeyPingResends (pcs c) !! peer) in
  if (sentAt =? 0)%Z || (nowMs - sentAt <? kPcsRekeyPongTimeoutMs)%Z then mret ()
  else if (kPcsRekeyPingMaxResends <=? resends)%Z then on_pcs (forget_ping peer)
  else if has_session peer c then
    sent ← transmitRekey peer false;
    when sent
      (on_pcs (λ p, set_resends
                      (<[peer := (default 0 (m_rekeyPingResends p !! peer) + 1)%Z]>
                         (m_rekeyPingResends p))
                      (set_sentAt (<[peer := nowMs]> (m_rekeyPingSentAt p)) p)))
  else mret ().

(** (1) a ping owed by the count. *)
Definition kick_counted (peer : string) : M bool :=
  c ← gets id;
  if ping_due peer c then
    sent ← transmitRekey peer false;
    if (sent : bool) then markRekeyPingSent peer ;; mret false else mret true
  else mret false.

(** (2) a pong owed. *)
Definition kick_owed (peer : string) : M bool :=
  c ← gets id;
  if has_session peer c then
    sent ← transmitRekey peer true;
    if (sent : bool) then on_pcs (λ p, set_owed (m_pongOwed p ∖ {[peer]}) p) ;; mret false
    else mret true
  else mret true.

(** (3) a heal that was parked. *)
Definition kick_heal (peer : string) : M bool :=
  c ← gets id;
  if bool_decide (peer ∈ m_unverifiedKeyChange (gate c))
     || bool_decide (peer ∈ m_pendingBilateral (gate c))
     || bool_decide (peer ∈ m_rekeyOutstanding (pcs c))
  then on_pcs (λ p, set_heal (m_healPending p ∖ {[peer]}) p) ;; mret false
  else if has_session peer c then
    sent ← transmitRekey peer false;
    if (sent : bool)
    then markRekeyPingSent peer ;;
         on_pcs (λ p, set_heal (m_healPending p ∖ {[peer]}) p) ;; mret false
    else mret true
  else mret true.

(** Re-arm the timer, or stop. *)
Definition kick_rearm (stillPending : bool) (c : Chat) : Pcs :=
  let p := pcs c in
  let pongPromiseOutstanding :=
    existsb (λ peer, has_session peer c) (qset_items (m_pongOwed p)) in
  let pingAwaitingPong := negb (bool_decide (m_rekeyOutstanding p = ∅)) in
  if pongPromiseOutstanding || pingAwaitingPong then set_kick 0 true p
  else if stillPending then
    let tries := (m_rekeyKickTries p + 1)%Z in
    if (tries <? kPcsRekeyKickMaxTries)%Z then set_kick tries true p
    else set_kick 0 (m_rekeyKickTimer p) p
  else set_kick 0 (m_rekeyKickTimer p) p.

(** The timer is single-shot: it is not active when its slot runs. *)
Definition kickRekey : M () :=
  c ← gets id;
  if negb (connected c) then mret () else
  nowMs ← now;
  inFlight ← gets (λ c, qset_items (m_rekeyOutstanding (pcs c)));
  for_each inFlight (kick_in_flight nowMs) ;;
  peers ← gets (λ c, qset_items (dom (m_sentSinceRatchet (client c))));
  pending1 ← for_any peers kick_counted;
  owed ← gets (λ c, qset_items (m_pongOwed (pcs c)));
  pending2 ← for_any owed kick_owed;
  heal ← gets (λ c, qset_items (m_healPending (pcs c)));
  pending3 ← for_any heal kick_heal;
  modify (λ c, set_pcs (kick_rearm (pending1 || pending2 || pending3) c) c).

(** [m_rekeyKickTimer] fires. *)
Definition onKickTimer : M () :=
  on_pcs (λ p, set_kick (m_rekeyKickTries p) false p) ;;
  kickRekey.

(** [m_rekeyTimer] fires: the idle backstop. *)
Definition onRekeyTimer : M () :=
  c ← gets id;
  if negb (connected c) then mret () else
  for_each (qset_items (dom (m_sentSinceRatchet (client c)))) (λ peer,
    c ← gets id;
    if ping_due peer c then
      sent ← transmitRekey peer false;
      if (sent : bool) then markRekeyPingSent peer else restart_kick
    else mret ()) ;;
  c ← gets id;
  when (negb (bool_decide (m_pongOwed (pcs c) = ∅))) restart_kick.

Definition sendOwedPongIfReady (peer : string) : M () :=
  c ← gets id;
  if String.eqb peer "" || negb (bool_decide (peer ∈ m_pongOwed (pcs c))) then mret ()
  else if connected c && has_session peer c then
    sent ← transmitRekey peer true;
    when sent (on_pcs (λ p, set_owed (m_pongOwed p ∖ {[peer]}) p))
  else mret ().

Definition reestablish_one (peer : string) : M () :=
  c ← gets id;
  if String.eqb peer "" || negb (has_session peer c)
     || conversationBlocked peer c
     || bool_decide (peer ∈ m_rekeyOutstanding (pcs c))
  then mret ()
  else
    sent ← (if connected c then transmitRekey peer false else mret false);
    if (sent : bool)
    then markRekeyPingSent peer ;;
         on_pcs (λ p, set_heal (m_healPending p ∖ {[peer]}) p)
    else on_pcs (λ p, set_heal ({[peer]} ∪ m_healPending p) p).

(** [reason] is only logged. *)
Definition reestablishPcsForAll : M () :=
  peers ← gets (λ c, qset_items (dom (m_peerKeys (client c))));
  for_each peers reestablish_one ;;
  c ← gets id;
  when (negb (bool_decide (m_healPending (pcs c) = ∅))) restart_kick.

Definition clearPcsState : M () :=
  on_client (set_sent ∅) ;;
  on_pcs (λ _, mkPcs ∅ ∅ ∅ ∅ ∅ 0 false false).

Definition forceRekey (peer : string) : M () :=
  c ← gets id;
  if String.eqb peer "" || negb (connected c) || negb (has_session peer c) then mret ()
  else if bool_decide (peer ∈ m_rekeyOutstanding (pcs c)) then mret ()
  else
    sent ← transmitRekey peer false;
    when sent (markRekeyPingSent peer).
End Operations.

End Rekey.
