(* ===== verification/Sending.v ===== *)
(** * ChatClient: sending (client/src/chatclient.cpp)

    Text, edits, files and the queue of what could not be sent.  A path stands for
    the URL of a local file.  The texts of [errorOccurred] are the constructors of
    [Notice]. *)

From S2P Require Import Prelude Platform Kdf Ratchet X3dh CryptoBox Persist MessageModel.
From S2P Require Import UserModel HistoryStore FileCrypto Chat Messenger Rekey.

Import ChatClient Messenger Rekey.

Module Sending.

(** ** Field updates *)
Definition set_flushing (x : bool) (l : Link) : Link :=
  mkLink (m_linkUp l) x (m_seenFrames l) (m_pendingFrames l) (m_rebootstrapAdopted l)
    (m_peerEdKeys l) (m_relayServesUntaggedEd l) (m_pendingX3dhHeader l)
    (m_lastTypingStateSent l) (m_typingPeer l) (m_peerTyping l) (m_sentFileSources l).
Definition set_openers (x : gmap string X3dhHeader) (l : Link) : Link :=
  mkLink (m_linkUp l) (m_flushInProgress l) (m_seenFrames l) (m_pendingFrames l)
    (m_rebootstrapAdopted l) (m_peerEdKeys l) (m_relayServesUntaggedEd l) x
    (m_lastTypingStateSent l) (m_typingPeer l) (m_peerTyping l) (m_sentFileSources l).
Definition set_typing (state peer : string) (l : Link) : Link :=
  mkLink (m_linkUp l) (m_flushInProgress l) (m_seenFrames l) (m_pendingFrames l)
    (m_rebootstrapAdopted l) (m_peerEdKeys l) (m_relayServesUntaggedEd l)
    (m_pendingX3dhHeader l) state peer (m_peerTyping l) (m_sentFileSources l).
Definition set_sources (x : gmap string string) (l : Link) : Link :=
  mkLink (m_linkUp l) (m_flushInProgress l) (m_seenFrames l) (m_pendingFrames l)
    (m_rebootstrapAdopted l) (m_peerEdKeys l) (m_relayServesUntaggedEd l)
    (m_pendingX3dhHeader l) (m_lastTypingStateSent l) (m_typingPeer l) (m_peerTyping l) x.

(** [m_outbox.append(po)]. *)
Definition requeue (po : PendingOut) : M () :=
  on_client (λ c, set_queue (m_outbox c ++ [po]) c).

Section Operations.
Context `{Sodium} `{QtText} `{QDataStream} `{QHashOrder} `{QStringOrder} `{QTrim}.
Context `{Oracle} `{QFiles}.

(** [if (m.dbId >= 0) m_history.deleteOutboxRow(m.dbId)]. *)
Definition drop_row (po : PendingOut) : M () :=
  when (0 <=? p_dbId po)%Z
    (on_store (λ o, HistoryStore.deleteOutboxRow o (p_dbId po)) ;; mret ()).

(** [queueOutbox]: the id under which the text is queued. *)
Definition queue_text (peer plaintext : string) (ts : Z) : M string :=
  mid ← createUuid;
  nonce ← draw 24;
  okH ← ok;
  okO ← ok;
  with_client (queueOutbox okH okO mid nonce peer plaintext ts).

Definition queue_file (peer path : string) (ts : Z) : M () :=
  o ← ok;
  on_client (queueOutboxFile o peer path ts).

(** ** Control frames *)

(** Queue a control frame with its row. *)
Definition queue_control (kind : PendingKind) (peer peerIdentity : string) (ts : Z)
    (enqueue : bool → string → HistoryStore.Store → Z * HistoryStore.Store) : M () :=
  c ← gets id;
  dbId ← (if isReady c then on_store (λ o, enqueue o (publicKeyHex (box c)))
          else mret (-1)%Z);
  requeue (mkPending dbId kind peer "" "" peerIdentity "" ts).

Definition transmitVerifyAck (peer verifiedPeerIdentity : string) : M bool :=
  c ← gets id;
  if String.eqb peer "" || negb (connected c) then mret false else
  t ← now;
  send (FVerifyAck (self c) peer (publicKeyHex (box c)) verifiedPeerIdentity t) ;;
  mret true.

Definition queue_verifyack (peer verifiedPeerIdentity : string) (ts : Z) : M () :=
  queue_control PVerifyAck peer verifiedPeerIdentity ts
    (λ o mine, HistoryStore.enqueueOutboxVerifyAck o peer ts mine verifiedPeerIdentity).

Definition sendOrQueueVerifyAck (peer : string) : M () :=
  if String.eqb peer "" then mret () else
  ts ← now;
  c ← gets id;
  let verifiedPeerIdentity := key_of peer c in
  if negb (connected c) then queue_verifyack peer verifiedPeerIdentity ts else
  sent ← transmitVerifyAck peer verifiedPeerIdentity;
  when (negb sent) (queue_verifyack peer verifiedPeerIdentity ts).

Definition queue_handshake (peer : string) (ts : Z) : M () :=
  queue_control PHandshake peer "" ts
    (λ o mine, HistoryStore.enqueueOutboxHandshake o peer ts mine).

Definition sendOrQueueHandshake (peer : string) : M () :=
  if String.eqb peer "" then mret () else
  ts ← now;
  c ← gets id;
  if negb (connected c) || negb (has_key peer c) then
    when (negb (has_key peer c)) (requestKeyFor peer) ;;
    queue_handshake peer ts
  else
    sent ← transmitHandshake peer;
    when (negb sent) (queue_handshake peer ts).

(** ** Typing *)
Definition sendTypingState (peer state : string) : M () :=
  if String.eqb peer "" then mret () else
  c ← gets id;
  if String.eqb state (m_lastTypingStateSent (link c)) && String.eqb peer (m_typingPeer (link c))
  then mret () else
  on_link (set_typing state peer) ;;
  if negb (connected c) then mret () else
  send (FTyping (self c) peer state).

(** The idle timer, started here anew, is the step [onTypingTimer]. *)
Definition notifyTyping (sendingFile : bool) : M () :=
  c ← gets id;
  if String.eqb (active c) "" || negb (connected c) then mret () else
  let state := if sendingFile then "sending_file" else "typing" in
  on_link (λ l, set_typing (m_lastTypingStateSent l) (active c) l) ;;
  sendTypingState (active c) state.

Definition onTypingTimer : M () :=
  c ← gets id;
  when (negb (String.eqb (m_typingPeer (link c)) ""))
    (sendTypingState (m_typingPeer (link c)) "idle").

(** ** Files *)

(** [while (!out->file.atEnd())]: [data] is what is left to read.  [false] is the
    early return. *)
Fixpoint pump_chunks (fuel : nat) (msgId data : bytes) (id : string) (idx sentBytes total : Z)
    (f : FileCrypto) : M bool :=
  match fuel with
  | O => mret true
  | S fuel' =>
      if decide (data = []) then mret true else
      let chunk := take (Z.to_nat CHUNK_SIZE) data in
      let rest := drop (Z.to_nat CHUNK_SIZE) data in
      let '(ct, f1) := encryptChunk chunk (bool_decide (rest = [])) f in
      let ct := default [] ct in
      if decide (ct = []) then emit (ErrorOccurred SendEncryptionError) ;; mret false
      else
        send (FFileChunk (msgId ++ be32 (u32 idx) ++ ct)) ;;
        let sentBytes := (sentBytes + Z.of_nat (length chunk))%Z in
        emit (FileProgress id sentBytes total) ;;
        pump_chunks fuel' msgId rest id (idx + 1) sentBytes total f1
  end.

Definition pumpOutgoingFile (msgId recipient filename mime : string) (data : bytes)
    (f : FileCrypto) : M () :=
  let total := Z.of_nat (length data) in
  done ← pump_chunks (S (length data)) (toLatin1 msgId) data msgId 0 0 total f;
  if negb done then mret () else
  send (FFileEnd msgId) ;;
  c ← gets id;
  t ← now;
  on_messages (λ ms, (MessageModel.appendFileMessage (self c) msgId filename mime total "" true
                        0 t ms).1) ;;
  t' ← now;
  on_store (λ o, HistoryStore.addFileRow o recipient (self c) msgId filename mime total "" t' true) ;;
  mret ().

(** A file that must wait, with the notice given for it. *)
Definition hold_file (peer path : string) (n : Notice) : M () :=
  content ← readFile path;
  match content with
  | None => emit (ErrorOccurred (FileNotFound path))
  | Some _ =>
      t ← now;
      queue_file peer path t ;;
      emit (ErrorOccurred n)
  end.

(** The file is open, its size accepted and its key drawn. *)
Definition announce_file (peer path msgId : string) (data fileKey : bytes) (f : FileCrypto) : M () :=
  r ← encrypt peer (hexStr fileKey);
  match r with
  | NotReady =>
      on_link (λ l, set_sources (delete msgId (m_sentFileSources l)) l) ;;
      t ← now;
      queue_file peer path t ;;
      emit (ErrorOccurred ReestablishingFileQueued)
  | EncryptFailed =>
      on_link (λ l, set_sources (delete msgId (m_sentFileSources l)) l) ;;
      emit (ErrorOccurred CryptoInitFailed)
  | Encrypted w =>
      c ← gets id;
      let filename := baseName path in
      let mime := mimeOf path in
      send (FFileInit (mkFileInit msgId (self c) peer filename mime (Z.of_nat (length data))
                         (hexStr (m_header f)) (Some w) false)) ;;
      persist peer ;;
      noteOutboundTo peer ;;
      pumpOutgoingFile msgId peer filename mime data f
  end.

Definition sendFile (path : string) : M () :=
  c ← gets id;
  let peer := active c in
  if String.eqb peer "" then emit (ErrorOccurred PickSomeone)
  else if conversationBlocked peer c then hold_file peer path (FileHeld peer)
  else if negb (m_linkUp (link c)) || negb (connected c)
  then hold_file peer path OfflineFileQueued
  else if negb (has_key peer c) then emit (ErrorOccurred (NoKeyYet peer))
  else
    content ← readFile path;
    match content with
    | None => emit (ErrorOccurred (CouldNotOpen path))
    | Some data =>
        let size := Z.of_nat (length data) in
        if (size <=? 0)%Z || (MAX_FILE_BYTES <? size)%Z
        then emit (ErrorOccurred FileTooLargeOrEmpty)
        else
          msgId ← createUuid;
          on_link (λ l, set_sources (<[msgId := path]> (m_sentFileSources l)) l) ;;
          rnd ← draw KEY_BYTES;
          header ← draw HEADER_BYTES;
          let fileKey := randomKey rnd in
          let '(started, f) := initPush fileKey header (newFile ss_zero) in
          if bool_decide (fileKey = []) || negb started
          then emit (ErrorOccurred CryptoInitFailed)
          else announce_file peer path msgId data fileKey f
    end.

(** ** The queue *)
Definition flush_file (m : PendingOut) : M () :=
  content ← readFile (p_srcPath m);
  match content with
  | None =>
      emit (ErrorOccurred (QueuedFileGone (p_peer m) (p_srcPath m))) ;;
      drop_row m
  | Some _ =>
      savedPeer ← gets active;
      on_client (set_active (p_peer m)) ;;
      sendFile (p_srcPath m) ;;
      on_client (set_active savedPeer) ;;
      drop_row m
  end.

Definition flush_handshake (m : PendingOut) : M () :=
  sent ← transmitHandshake (p_peer m);
  if negb sent then requeue m else drop_row m.

Definition flush_verifyack (m : PendingOut) : M () :=
  c ← gets id;
  if String.eqb (p_peerIdentity m) "" || negb (String.eqb (p_peerIdentity m) (key_of (p_peer m) c))
  then drop_row m
  else
    sent ← transmitVerifyAck (p_peer m) (p_peerIdentity m);
    if negb sent then requeue m else drop_row m.

Definition flush_text (m : PendingOut) : M () :=
  r ← encrypt (p_peer m) (p_plaintext m);
  match r with
  | NotReady => requeue m
  | EncryptFailed => emit (ErrorOccurred (QueuedEncryptFailed (p_peer m))) ;; drop_row m
  | Encrypted w =>
      c ← gets id;
      mid ← (if String.eqb (p_mid m) "" then createUuid else mret (p_mid m));
      send (FMsg (mkMsg (self c) (p_peer m) "" "" mid "" None w (p_ts m))) ;;
      persist (p_peer m) ;;
      noteOutboundTo (p_peer m) ;;
      drop_row m
  end.

(** Text and files obey the gate. *)
Definition gated (m : PendingOut) : bool :=
  match p_kind m with PText | PFile => true | PHandshake | PVerifyAck => false end.

Definition flush_item (m : PendingOut) : M () :=
  c ← gets id;
  if negb (connected c) then requeue m
  else if negb (has_key (p_peer m) c) then requestKeyFor (p_peer m) ;; requeue m
  else if gated m && conversationBlocked (p_peer m) c then requeue m
  else match p_kind m with
       | PFile => flush_file m
       | PHandshake => flush_handshake m
       | PVerifyAck => flush_verifyack m
       | PText => flush_text m
       end.

Definition flushOutbox : M () :=
  c ← gets id;
  if m_flushInProgress (link c) then mret () else
  let pending := m_outbox (client c) in
  if bool_decide (pending = []) then mret () else
  on_link (set_flushing true) ;;
  on_client (set_queue []) ;;
  for_each pending flush_item ;;
  on_link (set_flushing false).

(** [if (connected && !m_outbox.isEmpty()) flushOutbox();] *)
Definition flush_if_connected : M () :=
  c ← gets id;
  when (connected c && negb (bool_decide (m_outbox (client c) = []))) flushOutbox.

(** ** Text *)
Definition opener_of (h : X3dhHeader) : Opener :=
  mkOpener (fromUtf8 (toHex (h_ikA h))) (fromUtf8 (toHex (h_ekA h))) (h_opkId h)
    (fromUtf8 (toHex (h_spkUsed h))).

(** [m_pendingX3dhHeader.take(peer)], if there. *)
Definition take_opener (peer : string) : M (option Opener) :=
  c ← gets id;
  match m_pendingX3dhHeader (link c) !! peer with
  | None => mret None
  | Some h =>
      on_link (λ l, set_openers (delete peer (m_pendingX3dhHeader l)) l) ;;
      mret (Some (opener_of h))
  end.

Definition add_own (plaintext mid : string) (ts : Z) : M () :=
  c ← gets id;
  on_messages (λ ms, (MessageModel.addMessage (self c) plaintext ts true mid ms).1).

(** Queue a text, show it, and say why. *)
Definition hold_text (peer plaintext : string) (ts : Z) (n : Notice) : M () :=
  qmid ← queue_text peer plaintext ts;
  add_own plaintext qmid ts ;;
  emit (ErrorOccurred n).

Definition sendMessage (plaintext : string) : M () :=
  c ← gets id;
  let peer := active c in
  if String.eqb peer "" then emit (ErrorOccurred SelectSomeone)
  else if negb (has_key peer c) then
    requestKeyFor peer ;;
    emit (ErrorOccurred FetchingKey)
  else if conversationBlocked peer c then
    hts ← now;
    hold_text peer plaintext hts
      (if hasUnverifiedKeyChange peer c then NotVerifiedQueued peer else WaitingForPeerQueued peer)
  else
    ts ← now;
    if negb (connected c) then hold_text peer plaintext ts OfflineQueued
    else
      r ← encrypt peer plaintext;
      match r with
      | NotReady => hold_text peer plaintext ts ReestablishingQueued
      | EncryptFailed => emit (ErrorOccurred EncryptionFailed)
      | Encrypted w =>
          mid ← createUuid;
          op ← take_opener peer;
          send (FMsg (mkMsg (self c) peer "" "" mid "" op w ts)) ;;
          sendTypingState peer "idle" ;;
          add_own plaintext mid ts ;;
          sealedPair ← seal plaintext;
          match sealedPair with
          | Some (histNonce, histCt) =>
              on_store (λ o, HistoryStore.addTextRow o peer (self c) histNonce histCt ts true mid) ;;
              mret ()
          | None => mret ()
          end ;;
          persist peer ;;
          noteOutboundTo peer
      end.

(** May this row be edited?  [inl] is the early return, with its notice. *)
Definition editable_row (mid : string) (c : Chat) : option (option Notice) :=
  let ms := m_messages (client c) in
  match MessageModel.indexOfMid mid ms with
  | None => Some None
  | Some row =>
      let r := Z.of_nat row in
      if negb (MessageModel.isMineAt r ms) then Some (Some NotYoursToEdit)
      else if MessageModel.isFileAt r ms then Some (Some FileNotEditable)
      else match MessageModel.data ms row MessageModel.IsDeletedRole with
           | MessageModel.VBool true => Some None
           | _ => None
           end
  end.

Definition say (n : option Notice) : M () :=
  match n with Some n => emit (ErrorOccurred n) | None => mret () end.

Definition editMessage (mid newText : string) : M () :=
  c ← gets id;
  let peer := active c in
  if String.eqb mid "" || String.eqb peer "" then mret () else
  let text := trimmed newText in
  if String.eqb text "" then emit (ErrorOccurred EmptyEdit) else
  match editable_row mid c with
  | Some n => say n
  | None =>
      if negb (has_key peer c) then
        requestKeyFor peer ;;
        emit (ErrorOccurred FetchingKey)
      else if conversationBlocked peer c then
        emit (ErrorOccurred (if hasUnverifiedKeyChange peer c then VerifyFirst peer
                             else PeerNotVerifiedYet peer))
      else if negb (connected c) then emit (ErrorOccurred OfflineEdit)
      else
        r ← encrypt peer text;
        match r with
        | NotReady => emit (ErrorOccurred ReestablishingEdit)
        | EncryptFailed => emit (ErrorOccurred EncryptionFailed)
        | Encrypted w =>
            ts ← now;
            send (FMsg (mkMsg (self c) peer "" "" mid mid None w ts)) ;;
            on_messages (λ ms, (MessageModel.editTextByMid mid text ms).1.2) ;;
            sealedPair ← seal text;
            match sealedPair with
            | Some (histNonce, histCt) =>
                on_store (λ o, HistoryStore.updateTextRow o mid histNonce histCt) ;; mret ()
            | None => mret ()
            end ;;
            persist peer ;;
            emit (MessageEdited peer mid)
        end
  end.

Definition resendMessage (mid : string) : M () :=
  c ← gets id;
  if String.eqb mid "" || String.eqb (active c) "" then mret () else
  let ms := m_messages (client c) in
  match MessageModel.indexOfMid mid ms with
  | None => mret ()
  | Some row =>
      let r := Z.of_nat row in
      if negb (MessageModel.isMineAt r ms) then emit (ErrorOccurred NotYoursToResend)
      else if MessageModel.isFileAt r ms then
        match m_sentFileSources (link c) !! mid with
        | Some path => sendFile path
        | None => emit (ErrorOccurred OriginalGone)
        end
      else
        let text := MessageModel.textAt r ms in
        if String.eqb text "" then mret () else sendMessage text
  end.
End Operations.

End Sending.
