(* ===== verification/Verification.v ===== *)
(** * ChatClient: verification of safety numbers (client/src/chatclient.cpp)

    An episode opens when a contact's key changes or is first seen, and closes once
    both sides have confirmed the safety number.  [adopt_key] is the part the "keys"
    and "key" frames share; what follows it in each is in [Receiving.v]. *)

From S2P Require Import Prelude Platform Kdf Ratchet X3dh CryptoBox Persist MessageModel.
From S2P Require Import UserModel HistoryStore FileCrypto Chat Messenger Rekey Sending.

Import ChatClient Messenger Rekey Sending.

Module Verification.

(** ** Field updates *)
Definition set_unverified (x : gset string) (g : Gate) : Gate :=
  mkGate x (m_peerVerified g) (m_pendingBilateral g) (m_verifyAckResend g)
    (m_peerVerifiedForIdentity g) (m_verifiedPeerIdentity g) (m_lastVerifyResyncMs g).
Definition set_verified (x : gset string) (g : Gate) : Gate :=
  mkGate (m_unverifiedKeyChange g) x (m_pendingBilateral g) (m_verifyAckResend g)
    (m_peerVerifiedForIdentity g) (m_verifiedPeerIdentity g) (m_lastVerifyResyncMs g).
Definition set_bilateral (x : gset string) (g : Gate) : Gate :=
  mkGate (m_unverifiedKeyChange g) (m_peerVerified g) x (m_verifyAckResend g)
    (m_peerVerifiedForIdentity g) (m_verifiedPeerIdentity g) (m_lastVerifyResyncMs g).
Definition set_resend (x : gset string) (g : Gate) : Gate :=
  mkGate (m_unverifiedKeyChange g) (m_peerVerified g) (m_pendingBilateral g) x
    (m_peerVerifiedForIdentity g) (m_verifiedPeerIdentity g) (m_lastVerifyResyncMs g).
Definition set_forIdentity (x : gmap string string) (g : Gate) : Gate :=
  mkGate (m_unverifiedKeyChange g) (m_peerVerified g) (m_pendingBilateral g)
    (m_verifyAckResend g) x (m_verifiedPeerIdentity g) (m_lastVerifyResyncMs g).
Definition set_confirmed (x : gmap string string) (g : Gate) : Gate :=
  mkGate (m_unverifiedKeyChange g) (m_peerVerified g) (m_pendingBilateral g)
    (m_verifyAckResend g) (m_peerVerifiedForIdentity g) x (m_lastVerifyResyncMs g).
Definition set_resync (x : gmap string Z) (g : Gate) : Gate :=
  mkGate (m_unverifiedKeyChange g) (m_peerVerified g) (m_pendingBilateral g)
    (m_verifyAckResend g) (m_peerVerifiedForIdentity g) (m_verifiedPeerIdentity g) x.

Definition set_peerKeys (x : gmap string string) (c : Client) : Client :=
  mkClient (ChatClient.m_nick c) (m_crypto c) (m_history c) (m_messages c) (m_users c)
    (m_activePeer c) x (m_outbox c) (m_sentSinceRatchet c) (m_connected c).

Definition set_edKeys (x : gmap string bytes) (l : Link) : Link :=
  mkLink (m_linkUp l) (m_flushInProgress l) (m_seenFrames l) (m_pendingFrames l)
    (m_rebootstrapAdopted l) x (m_relayServesUntaggedEd l) (m_pendingX3dhHeader l)
    (m_lastTypingStateSent l) (m_typingPeer l) (m_peerTyping l) (m_sentFileSources l).

(** ** The lines of the system *)
Definition warning_sign : string :=
  String.string_of_list_byte [Byte.xe2; Byte.x9a; Byte.xa0; Byte.xef; Byte.xb8; Byte.x8f].
Definition em_dash : string := String.string_of_list_byte [Byte.xe2; Byte.x80; Byte.x94].

Definition changed_line (peer : string) : string :=
  warning_sign +:+ " Security warning: " +:+ peer +:+
  "'s safety number has CHANGED. This can happen if they reinstalled the app or switched device -- but it can also mean someone is intercepting your messages. Verify the new safety number with "
  +:+ peer +:+ " over a trusted channel before continuing.".

Definition waiting_line (peer : string) : string :=
  "You verified " +:+ peer +:+
  "'s safety number. You can send messages now; they'll be delivered when " +:+ peer +:+
  " is online. (" +:+ peer +:+ " hasn't verified your safety number yet.)".

Definition both_line (date : string) : string :=
  "Safety number verified by both parties on " +:+ date +:+ " " +:+ em_dash +:+
  " you can now send messages.".

Definition nudge_line (peer : string) : string :=
  peer +:+ " verified your safety number. Verify " +:+ peer +:+ " to start exchanging messages.".

Definition kVerifyResyncMinIntervalMs : Z := 3000.

Section Operations.
Context `{Sodium} `{QtText} `{QDataStream} `{QHashOrder} `{QStringOrder}.
Context `{Oracle}.

Definition clear_session (peer : string) : M () :=
  c ← gets id;
  when (isReady c) (on_store (λ o, HistoryStore.clearSession o peer) ;; mret ()).

Definition drop_session (peer : string) : M () :=
  on_box (dropSession peer) ;;
  clear_session peer.

Definition sendVerifyResync (peer : string) : M () :=
  c ← gets id;
  if String.eqb peer "" || negb (connected c) then mret () else
  nowMs ← now;
  let lastMs := default 0%Z (m_lastVerifyResyncMs (gate c) !! peer) in
  if negb (lastMs =? 0)%Z && (nowMs - lastMs <? kVerifyResyncMinIntervalMs)%Z then mret () else
  on_gate (λ g, set_resync (<[peer := nowMs]> (m_lastVerifyResyncMs g)) g) ;;
  t ← now;
  send (FVerifyResync (self c) peer (publicKeyHex (box c)) t).

Definition flagKeyChange (peer : string) : M () :=
  c ← gets id;
  let alreadyFlagged := hasUnverifiedKeyChange peer c in
  on_gate (λ g, set_bilateral ({[peer]} ∪ m_pendingBilateral g)
                  (set_unverified ({[peer]} ∪ m_unverifiedKeyChange g) g)) ;;
  (if String.eqb (default "" (m_peerVerifiedForIdentity (gate c) !! peer)) (publicKeyHex (box c))
   then mret ()
   else
     on_gate (λ g, set_verified (m_peerVerified g ∖ {[peer]}) g) ;;
     sendVerifyResync peer) ;;
  when (negb alreadyFlagged) (system_line peer (changed_line peer)) ;;
  emit (SafetyNumberChanged peer).

Definition maybeResendVerifyAck (peer : string) : M () :=
  c ← gets id;
  let g := gate c in
  if negb (bool_decide (peer ∈ m_verifyAckResend g)) then mret ()
  else if negb (bool_decide (peer ∈ m_pendingBilateral g)) then mret ()
  else if bool_decide (peer ∈ m_unverifiedKeyChange g) then mret ()
  else if bool_decide (peer ∈ m_peerVerified g) then mret ()
  else if negb (has_key peer c) then mret ()
  else sendOrQueueVerifyAck peer.

(** The keys of a resolved episode, in memory and on disk. *)
Definition record_resolution (peer : string) : M () :=
  c ← gets id;
  let peerIdentity := key_of peer c in
  nowMs ← now;
  when (negb (String.eqb peerIdentity ""))
    (on_gate (λ g, set_confirmed (<[peer := peerIdentity]> (m_verifiedPeerIdentity g)) g) ;;
     when (isReady c)
       (on_store (λ o, HistoryStore.recordVerifiedPeerIdentity o peer peerIdentity nowMs) ;;
        mret ())) ;;
  on_gate (λ g, set_forIdentity (<[peer := publicKeyHex (box c)]> (m_peerVerifiedForIdentity g)) g) ;;
  when (isReady c)
    (on_store (λ o, HistoryStore.recordPeerAttestedMyIdentity o peer (publicKeyHex (box c)) nowMs) ;;
     mret ()).

Section Files.
Context `{QTrim} `{QFiles}.

Definition tryResolveBilateral (peer : string) : M () :=
  c ← gets id;
  let g := gate c in
  if negb (bool_decide (peer ∈ m_pendingBilateral g)) then mret ()
  else if bool_decide (peer ∈ m_unverifiedKeyChange g) then mret ()
  else if negb (bool_decide (peer ∈ m_peerVerified g)) then mret ()
  else
    on_gate (λ g, set_resend (m_verifyAckResend g ∖ {[peer]})
                    (set_bilateral (m_pendingBilateral g ∖ {[peer]}) g)) ;;
    record_resolution peer ;;
    on_pcs (λ p, set_outstanding (m_rekeyOutstanding p ∖ {[peer]}) p) ;;
    date ← currentDate;
    system_line peer (both_line date) ;;
    emit (SafetyNumberChanged peer) ;;
    flush_if_connected.

Definition acknowledgeKeyChange (peer : string) : M () :=
  c ← gets id;
  let flagged := hasUnverifiedKeyChange peer c in
  emit (ErrorOccurred (ConfirmTapped peer flagged)) ;;
  on_gate (λ g, set_unverified (m_unverifiedKeyChange g ∖ {[peer]}) g) ;;
  if negb flagged then
    emit (SafetyNumberChanged peer) ;;
    tryResolveBilateral peer
  else
    let acked := bool_decide (peer ∈ m_peerVerified (gate c)) in
    when (negb acked) (system_line peer (waiting_line peer)) ;;
    drop_session peer ;;
    resetPcsFor peer ;;
    sendOrQueueVerifyAck peer ;;
    on_gate (λ g, set_resend (if acked then m_verifyAckResend g ∖ {[peer]}
                              else {[peer]} ∪ m_verifyAckResend g) g) ;;
    emit (SafetyNumberChanged peer) ;;
    c ← gets id;
    when (amInitiatorFor peer (box c)) (sendOrQueueHandshake peer) ;;
    flush_if_connected ;;
    tryResolveBilateral peer.

(** ** Control frames received *)
Definition onVerifyResync (from to : string) : M () :=
  c ← gets id;
  if String.eqb from (self c) || negb (String.eqb to (self c)) then mret () else
  if has_key from c && negb (conversationBlocked from c)
  then sendOrQueueVerifyAck from else mret ().

(** The part of the "verifyack" branch once the sender's key is held. *)
Definition acceptVerifyAck (peer senderIk verifiedIk : string) : M () :=
  c ← gets id;
  if String.eqb senderIk "" || negb (String.eqb senderIk (key_of peer c))
     || String.eqb verifiedIk "" || negb (String.eqb verifiedIk (publicKeyHex (box c)))
  then mret () else
  let wasNew := negb (bool_decide (peer ∈ m_peerVerified (gate c))) in
  on_gate (λ g, set_forIdentity
                  (<[peer := publicKeyHex (box c)]> (m_peerVerifiedForIdentity g))
                  (set_verified ({[peer]} ∪ m_peerVerified g) g)) ;;
  when (wasNew && bool_decide (peer ∈ m_pendingBilateral (gate c))
        && bool_decide (peer ∈ m_unverifiedKeyChange (gate c)))
    (system_line peer (nudge_line peer) ;; emit (SafetyNumberChanged peer)) ;;
  tryResolveBilateral peer.
End Files.

(** ** Keys of contacts *)

(** A contact's chain and confirmations end with the key they belong to. *)
Definition void_old_key (peer : string) : M () :=
  drop_session peer ;;
  on_gate (λ g, set_confirmed (delete peer (m_verifiedPeerIdentity g))
                  (set_forIdentity (delete peer (m_peerVerifiedForIdentity g)) g)) ;;
  c ← gets id;
  when (isReady c) (on_store (λ o, HistoryStore.clearVerification o peer) ;; mret ()) ;;
  resetPcsFor peer.

(** [m_history.isReady() && !m_history.loadSession(peer).isEmpty()]. *)
Definition have_persisted_session (peer : string) : M bool :=
  o ← ok;
  gets (λ c, isReady c && negb (bool_decide (HistoryStore.loadSession o peer (store c) = []))).

(** From [m_peerKeys.insert(peer, pub)] to [maybeResendVerifyAck(peer)]. *)
Definition adopt_key (peer pub : string) : M () :=
  on_client (λ c, set_peerKeys (<[peer := pub]> (m_peerKeys c)) c) ;;
  c ← gets id;
  let priorIdentity := peerIdentityHex peer (box c) in
  let hadRestoredSession := has_session peer c in
  keyChanged ← on_box (ensureSharedKey peer pub);
  let restoredSessionStale :=
    hadRestoredSession && negb (String.eqb priorIdentity "")
    && negb (String.eqb priorIdentity pub) in
  havePersistedSession ← have_persisted_session peer;
  let newPeer :=
    negb hadRestoredSession && String.eqb priorIdentity "" && negb havePersistedSession
    && negb (hasUnverifiedKeyChange peer c) in
  let alreadyVerifiedThisKey :=
    negb (String.eqb pub "")
    && String.eqb (default "" (m_verifiedPeerIdentity (gate c) !! peer)) pub in
  (if alreadyVerifiedThisKey && negb keyChanged && negb restoredSessionStale then mret ()
   else if keyChanged || restoredSessionStale || newPeer then
     when (keyChanged || restoredSessionStale) (void_old_key peer) ;;
     flagKeyChange peer
   else mret ()) ;;
  maybeResendVerifyAck peer.

(** A published key enters the client: the agreement key, and the Ed25519 form kept
    for bundles. *)
Definition publish_key (peer published ikType : string) : M (option string) :=
  let raw := fromHex (toUtf8 published) in
  match agreementKeyFor raw ikType with
  | None => mret None
  | Some agree =>
      on_link (λ l, set_edKeys (if String.eqb ikType "ed25519" then <[peer := raw]> (m_peerEdKeys l)
                                else delete peer (m_peerEdKeys l)) l) ;;
      mret (Some (fromUtf8 (toHex agree)))
  end.

End Operations.

End Verification.
