(* ===== verification/Tls.v ===== *)
(** * Transport security of the connection (client/src/chatclient.cpp)

    The trust anchors of a connection and where the anchor of the laboratory counts,
    the configuration of a socket, and the text that describes a session.  Addresses,
    certificates and what was negotiated are Qt's; the policy is the client's. *)

From S2P Require Import Prelude Platform Settings.

Module Tls.

(** [QHostAddress]: an IPv4 address is its 32 bits, an IPv6 address its 16 octets. *)
Inductive Address := IPv4 (v4 : Z) | IPv6 (v6 : list Z).

(** [QUrl] and [QHostAddress]; an address that does not parse is null. *)
Class QNetwork := {
  url_scheme : string → string;
  url_host : string → string;
  host_address : string → option Address;
  isLoopback : Address → bool;
  isLinkLocal : Address → bool;
}.

(** A certificate, with what [QSslCertificate] says of it. *)
Record Certificate := mkCert {
  issuer_cn : list string;
  subject_cn : list string;
  sha256_text : string;
}.

#[export] Instance certificate_eq_dec : EqDecision Certificate.
Proof. solve_decision. Defined.

(** [QSslCertificate::fromData], null certificates left out. *)
Class QCertificates := { from_pem : bytes → list Certificate }.

Inductive Protocol := Tls1_2 | Tls1_3 | TlsUnknown | TlsOther.

Record SslConfiguration := mkSsl {
  verifyPeer : bool;
  tls12OrLater : bool;
  caCertificates : list Certificate;
}.

(** What a connected socket reports. *)
Record Negotiated := mkNegotiated {
  n_protocol : Protocol;
  n_cipher : option string;
  n_peer : option Certificate;
  n_backend : string;
}.

(** [list << c] for the certificates that are not there yet. *)
Fixpoint add_new (have new : list Certificate) : list Certificate :=
  match new with
  | [] => have
  | c :: rest => add_new (if decide (c ∈ have) then have else have ++ [c]) rest
  end.

(** [QStringList::join]. *)
Definition join (sep : string) (l : list string) : string :=
  match l with
  | [] => ""
  | x :: rest => fold_left (λ acc y, acc +:+ sep +:+ y) rest x
  end.

Section Policy.
Context `{QNetwork} `{QStringOrder} `{QTrim} `{QCertificates} `{QVariantCasts}.

(** The root compiled in, if its resource opens, and the file of "tls/labCaPath". *)
Definition labTrustAnchors (embedded : option bytes) (files : gmap string bytes) (st : Settings)
    : list Certificate :=
  let cached := match embedded with Some pem => from_pem pem | None => [] end in
  let extra := trimmed (read_text "tls/labCaPath" st) in
  if String.eqb extra "" then cached
  else match files !! extra with
       | Some pem => add_new cached (from_pem pem)
       | None => cached
       end.

Definition private_v4 (v4 : Z) : bool :=
  (Z.land v4 0xFF000000 =? 0x0A000000)%Z
  || (Z.land v4 0xFFF00000 =? 0xAC100000)%Z
  || (Z.land v4 0xFFFF0000 =? 0xC0A80000)%Z
  || (Z.land v4 0xFFFF0000 =? 0xA9FE0000)%Z.

Definition isLabHost (url : string) : bool :=
  let host := trimmed (url_host url) in
  if String.eqb host "" then false
  else if (compareCI host "localhost" =? 0)%Z then true
  else match host_address host with
       | None => false
       | Some a =>
           if isLoopback a then true
           else match a with
                | IPv4 v4 => private_v4 v4
                | IPv6 v6 =>
                    if (Z.land (nth 0 v6 0%Z) 0xFE =? 0xFC)%Z then true
                    else isLinkLocal a
                end
       end.

(** [system]: the certificates of [QSslConfiguration::defaultConfiguration]. *)
Definition sslConfigurationFor (system anchors : list Certificate) (url : string)
    : SslConfiguration :=
  mkSsl true true
    (if isLabHost url then add_new system anchors else system).

Definition is_wss (url : string) : bool := (compareCI (url_scheme url) "wss" =? 0)%Z.

(** [openSocketWithTls]: the configuration set on the socket before it opens, if any. *)
Definition openSocketWithTls (system anchors : list Certificate) (url : string)
    : option SslConfiguration :=
  if is_wss url then Some (sslConfigurationFor system anchors url) else None.

Definition protocol_name (p : Protocol) : string :=
  match p with
  | Tls1_2 => "TLS 1.2" | Tls1_3 => "TLS 1.3" | TlsUnknown => "unknown" | TlsOther => "other"
  end.

Definition newline : string := String (Ascii.ascii_of_nat 10) EmptyString.

(** [m_tlsSummary] after [describeTlsSession]. *)
Definition describeTlsSession (url : string) (n : Negotiated) : string :=
  if negb (is_wss url) then "Not encrypted (ws://) - development only" else
  let issuer := match n_peer n with
                | None => "(no peer certificate)"
                | Some c => join ", " (issuer_cn c)
                end in
  let subject := match n_peer n with None => "" | Some c => join ", " (subject_cn c) end in
  let fp := match n_peer n with None => "" | Some c => sha256_text c end in
  let anchor := if isLabHost url then "lab root CA (compiled in)"
                else "public CA (system trust store)" in
  protocol_name (n_protocol n) +:+ ", " +:+ default "unknown cipher" (n_cipher n)
  +:+ newline +:+ "server: " +:+ subject
  +:+ newline +:+ "issued by: " +:+ issuer
  +:+ newline +:+ "trust anchor: " +:+ anchor
  +:+ newline +:+ "certificate SHA-256: " +:+ fp
  +:+ newline +:+ "backend: " +:+ n_backend n.

Definition kNoAnchorHint : string :=
  "no lab trust anchor is compiled in - run tools/make_demo_pki.py, copy pki/ca.crt to client/pki/demo-ca.crt, and rebuild".

Definition kTlsFailed : string := "TLS verification FAILED".

(** [onSslErrors]: the new [m_tlsSummary], and the text of [errorOccurred]. *)
Definition onSslErrors (anchors : list Certificate) (url : string) (errors : list string)
    : string * string :=
  let msgs := errors ++ (if isLabHost url && bool_decide (anchors = []) then [kNoAnchorHint]
                         else []) in
  (kTlsFailed +:+ ": " +:+ join "; " msgs, "TLS error: " +:+ join "; " msgs).

(** ** The policy *)

(** A mask of the upper bits cuts an address down to its network. *)
Lemma mask_network v m : is_u32 v → (0 ≤ m ≤ 32)%Z →
  Z.land v (2 ^ 32 - 2 ^ m) = (v / 2 ^ m * 2 ^ m)%Z.
Proof.
  intros [H0v H1v] Hm. replace (2 ^ 32 - 2 ^ m)%Z with (Z.shiftl (Z.ones (32 - m)) m).
  2: { rewrite Z.shiftl_mul_pow2, Z.ones_equiv by lia. rewrite Z.mul_pred_l, <- Z.pow_add_r by lia.
       do 2 f_equal. lia. }
  rewrite <- Z.shiftl_mul_pow2, <- Z.shiftr_div_pow2 by lia. apply Z.bits_inj'. intros i Hi.
  rewrite Z.land_spec, !Z.shiftl_spec by lia. destruct (Z.ltb_spec i m) as [Hl|Hl].
  { rewrite !(Z.testbit_neg_r _ (i - m)) by lia. apply andb_false_r. }
  rewrite Z.shiftr_spec, Z.sub_add by lia. destruct (Z.ltb_spec i 32) as [Hl'|Hl'].
  - rewrite Z.ones_spec_low by lia. apply andb_true_r.
  - rewrite <- (Z.mod_small v (2 ^ 32)) by lia. by rewrite Z.mod_pow2_bits_high by lia.
Qed.

Lemma network_range v m p : is_u32 v → (0 ≤ m ≤ 32)%Z →
  ((Z.land v (2 ^ 32 - 2 ^ m) =? p * 2 ^ m) = (p * 2 ^ m <=? v) && (v <? (p + 1) * 2 ^ m))%Z.
Proof.
  intros Hv Hm. rewrite mask_network by done.
  assert (0 < 2 ^ m)%Z as Hp by (apply Z.pow_pos_nonneg; lia).
  pose proof (Z.div_mod v (2 ^ m) ltac:(lia)) as Hd.
  pose proof (Z.mod_pos_bound v (2 ^ m) Hp) as Hb.
  apply eq_bool_prop_intro. rewrite andb_True, !Is_true_true, Z.eqb_eq, Z.leb_le, Z.ltb_lt.
  set (q := (v / 2 ^ m)%Z) in *. set (r := (v mod 2 ^ m)%Z) in *.
  set (P := (2 ^ m)%Z) in *. clearbody q r P.
  split; [nia|]. intros Hr. assert (p < q + 1)%Z by (apply (Z.mul_lt_mono_pos_l P); lia).
  assert (q < p + 1)%Z by (apply (Z.mul_lt_mono_pos_l P); lia). assert (q = p) as -> by lia. done.
Qed.

(** In dotted notation. *)
Definition dotted (a b c d : Z) : Z := (((a * 256 + b) * 256 + c) * 256 + d)%Z.
Definition between (lo v hi : Z) : bool := ((lo <=? v) && (v <=? hi))%Z.

Lemma private_ranges v : is_u32 v →
  private_v4 v = between (dotted 10 0 0 0) v (dotted 10 255 255 255)
    || between (dotted 172 16 0 0) v (dotted 172 31 255 255)
    || between (dotted 192 168 0 0) v (dotted 192 168 255 255)
    || between (dotted 169 254 0 0) v (dotted 169 254 255 255).
Proof.
  intros Hv. unfold private_v4.
  change (Z.land v 0xFF000000 =? 0x0A000000)%Z with (Z.land v (2 ^ 32 - 2 ^ 24) =? 10 * 2 ^ 24)%Z.
  change (Z.land v 0xFFF00000 =? 0xAC100000)%Z with (Z.land v (2 ^ 32 - 2 ^ 20) =? 2753 * 2 ^ 20)%Z.
  change (Z.land v 0xFFFF0000 =? 0xC0A80000)%Z with (Z.land v (2 ^ 32 - 2 ^ 16) =? 49320 * 2 ^ 16)%Z.
  change (Z.land v 0xFFFF0000 =? 0xA9FE0000)%Z with (Z.land v (2 ^ 32 - 2 ^ 16) =? 43518 * 2 ^ 16)%Z.
  rewrite !network_range by (done || lia). unfold between, dotted.
  f_equal; [f_equal; [f_equal|]|]; f_equal; apply eq_bool_prop_intro;
    rewrite !Is_true_true, Z.ltb_lt, Z.leb_le; lia.
Qed.

Lemma add_new_old have new : ∀ c, c ∈ have → c ∈ add_new have new.
Proof.
  revert have. induction new as [|x new IH]; intros have c Hc; [done|]. cbn. apply IH.
  case_decide; [done|]. apply elem_of_app. by left.
Qed.

Lemma add_new_elem have new c : c ∈ add_new have new ↔ c ∈ have ∨ c ∈ new.
Proof.
  revert have. induction new as [|x new IH]; intros have; cbn.
  { rewrite elem_of_nil. tauto. }
  rewrite IH. case_decide as Hd.
  - split; [intros [?|?]; [by left|right; by right]|].
    intros [Hc|[->|Hc]%elem_of_cons]; [by left|by left|by right].
  - rewrite elem_of_app, list_elem_of_singleton, elem_of_cons. tauto.
Qed.

(** A host the anchor of the laboratory may vouch for: this machine, or an address of a
    private, unique-local or link-local range. *)
Definition on_local_network (host : string) : Prop :=
  host ≠ "" ∧
  (compareCI host "localhost" = 0%Z ∨
   ∃ a, host_address host = Some a ∧
     (isLoopback a = true ∨
      match a with
      | IPv4 v =>
          between (dotted 10 0 0 0) v (dotted 10 255 255 255)
          || between (dotted 172 16 0 0) v (dotted 172 31 255 255)
          || between (dotted 192 168 0 0) v (dotted 192 168 255 255)
          || between (dotted 169 254 0 0) v (dotted 169 254 255 255) = true
      | IPv6 v6 => Z.land (nth 0 v6 0%Z) 254 = 252%Z ∨ isLinkLocal a = true
      end)).

Lemma isLabHost_spec url :
  (∀ v, host_address (trimmed (url_host url)) = Some (IPv4 v) → is_u32 v) →
  isLabHost url = true ↔ on_local_network (trimmed (url_host url)).
Proof.
  intros Hw. unfold isLabHost, on_local_network. set (h := trimmed (url_host url)) in *.
  destruct (String.eqb_spec h "") as [He|He]; [by split; [|intros [??]]|].
  destruct (Z.eqb_spec (compareCI h "localhost") 0) as [Hl|Hl]; [by split; [split; [|left]|]|].
  destruct (host_address h) as [a|] eqn:Ha.
  2: { split; [done|]. intros (_ & [?|(a & ? & _)]); congruence. }
  assert (∀ P, (h ≠ "" ∧ (compareCI h "localhost" = 0%Z ∨ ∃ a0, Some a = Some a0 ∧ P a0)) ↔ P a) as HP.
  { intros P. split; [intros (_ & [?|(a0 & [= <-] & ?)]); [congruence|done]|].
    intros HPa. split; [done|]. right. by exists a. }
  rewrite (HP (λ a, _)). clear HP.
  destruct (isLoopback a); [by split; [left|]|]. destruct a as [v|v6].
  - rewrite (private_ranges v) by by apply Hw. split; [by right|]. by intros [|].
  - destruct (Z.eqb_spec (Z.land (nth 0 v6 0%Z) 254) 252) as [Hu|Hu].
    + split; [intros _; by right; left|done].
    + split; [intros Hk; by right; right|]. by intros [|[|]].
Qed.

(** C18: The anchor of the laboratory has no authority outside the local network.  A
    [wss://] URL, and no other, gets a TLS configuration (over [ws://] nothing is
    encrypted or verified); it verifies its peer at TLS 1.2 or later, and a certificate
    that is not in the system's store is trusted only for this machine, private (10/8,
    172.16/12, 192.168/16), unique-local and link-local addresses. *)
Theorem lab_anchor_is_local system anchors url :
  (∀ v, host_address (trimmed (url_host url)) = Some (IPv4 v) → is_u32 v) →
  (is_Some (openSocketWithTls system anchors url) ↔ compareCI (url_scheme url) "wss" = 0%Z) ∧
  (∀ cfg c, openSocketWithTls system anchors url = Some cfg →
     verifyPeer cfg = true ∧ tls12OrLater cfg = true ∧
     (c ∈ caCertificates cfg ↔
      c ∈ system ∨ c ∈ anchors ∧ on_local_network (trimmed (url_host url)))).
Proof.
  intros Hw. unfold openSocketWithTls, is_wss.
  destruct (Z.eqb_spec (compareCI (url_scheme url) "wss") 0) as [Hz|Hz]; split; [by split; [|eauto]| |by split; [intros [? ?]|]|done].
  intros cfg c [= <-]. cbn.
  do 2 (split; [done|]). destruct (isLabHost url) eqn:Hl.
  - rewrite add_new_elem. apply isLabHost_spec in Hl; [tauto|done].
  - split; [by left|]. intros [|[_ Hn]]; [done|]. apply isLabHost_spec in Hn; [congruence|done].
Qed.
End Policy.
End Tls.
