(* ===== verification/Inbound.v ===== *)
(** * What every frame that is received needs (client/src/chatclient.cpp)

    Field updates of the link, the stash of frames that wait for a key, and the two
    calls of the box behind every decryption. *)

From stdpp Require Import pretty.
From S2P Require Import Prelude Platform Kdf Ratchet X3dh CryptoBox Persist MessageModel.
From S2P Require Import UserModel HistoryStore FileCrypto Chat Messenger Rekey Sending.

Import ChatClient Messenger Rekey Sending.

Module Inbound.

(** ** Field updates *)
Definition set_seen (x : gmap string (gset string)) (l : Link) : Link :=
  mkLink (m_linkUp l) (m_flushInProgress l) x (m_pendingFrames l) (m_rebootstrapAdopted l)
    (m_peerEdKeys l) (m_relayServesUntaggedEd l) (m_pendingX3dhHeader l)
    (m_lastTypingStateSent l) (m_typingPeer l) (m_peerTyping l) (m_sentFileSources l).
Definition set_stash (x : gmap string (list Frame)) (l : Link) : Link :=
  mkLink (m_linkUp l) (m_flushInProgress l) (m_seenFrames l) x (m_rebootstrapAdopted l)
    (m_peerEdKeys l) (m_relayServesUntaggedEd l) (m_pendingX3dhHeader l)
    (m_lastTypingStateSent l) (m_typingPeer l) (m_peerTyping l) (m_sentFileSources l).
Definition set_adopted (x : gmap string string) (l : Link) : Link :=
  mkLink (m_linkUp l) (m_flushInProgress l) (m_seenFrames l) (m_pendingFrames l) x
    (m_peerEdKeys l) (m_relayServesUntaggedEd l) (m_pendingX3dhHeader l)
    (m_lastTypingStateSent l) (m_typingPeer l) (m_peerTyping l) (m_sentFileSources l).
Definition set_untagged (x : bool) (l : Link) : Link :=
  mkLink (m_linkUp l) (m_flushInProgress l) (m_seenFrames l) (m_pendingFrames l)
    (m_rebootstrapAdopted l) (m_peerEdKeys l) x (m_pendingX3dhHeader l)
    (m_lastTypingStateSent l) (m_typingPeer l) (m_peerTyping l) (m_sentFileSources l).
Definition set_composing (x : gmap string string) (l : Link) : Link :=
  mkLink (m_linkUp l) (m_flushInProgress l) (m_seenFrames l) (m_pendingFrames l)
    (m_rebootstrapAdopted l) (m_peerEdKeys l) (m_relayServesUntaggedEd l)
    (m_pendingX3dhHeader l) (m_lastTypingStateSent l) (m_typingPeer l) x (m_sentFileSources l).

(** [m_pendingFrames[peer].append(raw); requestKeyFor(peer);] *)
Definition stash (peer : string) (f : Frame) : M () :=
  on_link (λ l, set_stash
                  (<[peer := default [] (m_pendingFrames l !! peer) ++ [f]]> (m_pendingFrames l)) l) ;;
  requestKeyFor peer.

Definition frame_key (w : WireFrame) : string := w_dh w +:+ ":" +:+ pretty (w_n w).

(** The frame has been read. *)
Definition mark_seen (peer key : string) : M () :=
  on_link (λ l, set_seen (<[peer := {[key]} ∪ default ∅ (m_seenFrames l !! peer)]>
                            (m_seenFrames l)) l).

Definition already_seen (peer key : string) (c : Chat) : bool :=
  bool_decide (key ∈ default ∅ (m_seenFrames (link c) !! peer)).

Section Decrypting.
Context `{Sodium} `{QtText} `{QHashOrder} `{Oracle}.

Definition ensure_key (peer pub : string) : M () :=
  on_box (ensureSharedKey peer pub) ;; mret ().

(** [m_crypto.decryptFrom], the empty string for a failure. *)
Definition decrypt (peer : string) (w : WireFrame) : M string :=
  rnd ← draw 32;
  rndR ← draw 32;
  r ← on_box (decryptFrom peer w rnd rndR);
  match r with
  | Some plaintext => mret plaintext
  | None => emit (DecryptionFailed peer) ;; mret ""
  end.

End Decrypting.

End Inbound.
