(* ===== verification/Transfer.v ===== *)
(** * ChatClient: files received and saved (client/src/chatclient.cpp)

    The branches "file_init" and "file_end" of handleServerFrame, the binary frames,
    and saving a received file where the user chose.  The temporary files are on the
    disk of [Transfers]; whether a file opens and a write succeeds is drawn. *)

From S2P Require Import Prelude Platform Kdf Ratchet X3dh CryptoBox Persist MessageModel.
From S2P Require Import UserModel HistoryStore FileCrypto Chat Messenger Rekey Sending.
From S2P Require Import Inbound.

Import ChatClient Messenger Rekey Sending Inbound.

Module Transfer.

Definition set_incoming (x : gmap string IncomingFile) (t : Transfers) : Transfers :=
  mkTransfers x (m_receivedFilePaths t) (disk t).
Definition set_paths (x : gmap string string) (t : Transfers) : Transfers :=
  mkTransfers (m_incoming t) x (disk t).
Definition set_disk (x : Files) (t : Transfers) : Transfers :=
  mkTransfers (m_incoming t) (m_receivedFilePaths t) x.

(** [QFile::write] at a position; a gap before it reads as zeros. *)
Definition write_at (pos : nat) (b old : bytes) : bytes :=
  take pos old ++ zeros (pos - length old) ++ b ++ drop (pos + length b) old.

Definition write_part (path : string) (pos : nat) (b : bytes) (t : Transfers) : Transfers :=
  set_disk (<[path := write_at pos b (default [] (disk t !! path))]> (disk t)) t.

(** [(quint8(data[36]) << 24) | ...], and [int(idx)]. *)
Definition chunk_index (data : bytes) : Z :=
  match byte_val <$> take 4 (drop 36 data) with
  | [a; b; c; d] =>
      Z.lor (Z.lor (Z.lor (Z.shiftl a 24) (Z.shiftl b 16)) (Z.shiftl c 8)) d
  | _ => 0
  end.
Definition as_int (z : Z) : Z := if (z <? 2 ^ 31)%Z then z else (z - 2 ^ 32)%Z.

(** Silent for a replay of the relay. *)
Definition fail_file (replayed : bool) (msgId : string) (why : FileFailure) : M () :=
  when (negb replayed) (emit (FileReceiveFailed msgId why)).

Definition drop_incoming (msgId : string) : M () :=
  on_transfers (λ t, set_incoming (delete msgId (m_incoming t)) t).

(** The four octets of the literal are four characters of UTF-16. *)
Definition clip : string :=
  String.string_of_list_byte
    [Byte.xc3; Byte.xb0; Byte.xc2; Byte.x9f; Byte.xc2; Byte.x93; Byte.xc2; Byte.x8e].

Definition file_line (f : IncomingFile) : string :=
  clip +:+ " " +:+ in_sender f +:+ " sent you a file: " +:+ in_filename f.

Section Receive.
Context `{Sodium} `{QtText} `{QDataStream} `{QHashOrder} `{QStringOrder}.
Context `{Oracle} `{QFiles}.

Definition temp_path (msgId filename : string) : string :=
  appDataLocation +:+ "/" +:+ msgId +:+ "_" +:+ filename.

(** The key of the file is known. *)
Definition start_file (i : FileInit) (fileKey header : bytes) : M () :=
  let '(started, f) := initPull fileKey header (newFile ss_zero) in
  if negb started then fail_file (fi_replayed i) (fi_msg_id i) CannotStart
  else
    let path := temp_path (fi_msg_id i) (fi_filename i) in
    opened ← ok;
    if negb (opened : bool) then emit (FileReceiveFailed (fi_msg_id i) CannotOpenTemp)
    else
      on_transfers (λ t,
        set_incoming
          (<[fi_msg_id i := mkIncoming (fi_from i) (fi_filename i) (fi_mime i) (fi_size i)
                              0 0 0 path f (fi_replayed i)]> (m_incoming t))
          (set_disk (<[path := []]> (disk t)) t)).

Definition onFileInit (i : FileInit) : M () :=
  c ← gets id;
  let from := fi_from i in
  if negb (has_key from c) then
    (if fi_replayed i then mret () else stash from (FFileInit i))
  else
    match fi_keyenc i with
    | None => fail_file (fi_replayed i) (fi_msg_id i) UnsupportedFormat
    | Some w =>
        if already_seen from (frame_key w) c then mret ()
        else
          ensure_key from (key_of from c) ;;
          fileKeyHex ← decrypt from w;
          if String.eqb fileKeyHex "" then fail_file (fi_replayed i) (fi_msg_id i) NoFileKey
          else
            mark_seen from (frame_key w) ;;
            when (negb (String.eqb from (self c))) (noteInboundFrom from) ;;
            persist from ;;
            start_file i (fromHex (toLatin1 fileKeyHex)) (fromHex (toLatin1 (fi_header i)))
    end.

(** The file is closed: it is recorded, announced and shown. *)
Definition finish_file (msgId : string) (f : IncomingFile) : M () :=
  on_transfers (λ t, set_paths (<[msgId := in_localPath f]> (m_receivedFilePaths t)) t) ;;
  t1 ← now;
  on_store (λ o s, ((), HistoryStore.recordReceivedFile o msgId (in_sender f) t1 s)) ;;
  emit (FileReceived msgId (in_sender f) (in_filename f) (in_mime f) (in_receivedBytes f)
          (in_localPath f)) ;;
  t2 ← now;
  on_store (λ o, HistoryStore.addFileRow o (in_sender f) (in_sender f) msgId (in_filename f)
                   (in_mime f) (in_receivedBytes f) (in_localPath f) t2 false) ;;
  c ← gets id;
  t3 ← now;
  (if String.eqb (in_sender f) (active c) then
     on_messages (λ ms, (MessageModel.appendFileMessage (in_sender f) msgId (in_filename f)
                           (in_mime f) (in_receivedBytes f) (in_localPath f) false 0 t3 ms).1)
   else
     on_users (λ u, (UserModel.incrementUnread (in_sender f) u).1) ;;
     okA ← ok;
     okB ← ok;
     on_store (λ o, HistoryStore.addSystemRow okA okB o (in_sender f) (file_line f) t3) ;;
     mret ()) ;;
  drop_incoming msgId.

(** Every entry of [m_incoming] has its file open. *)
Definition onFileEnd (msgId : string) : M () :=
  c ← gets id;
  match m_incoming (transfers c) !! msgId with
  | None => mret ()
  | Some f => finish_file msgId f
  end.

Definition onBinaryMessageReceived (data : bytes) : M () :=
  if decide (length data < 40) then mret () else
  let msgId := fromLatin1 (take 36 data) in
  c ← gets id;
  match m_incoming (transfers c) !! msgId with
  | None => mret ()
  | Some f =>
      if negb (as_int (chunk_index data) =? in_nextChunkIndex f)%Z then
        emit (FileReceiveFailed msgId ChunkOrder) ;;
        drop_incoming msgId
      else
        let '(pt, isFinal, crypto) := decryptChunk (drop 40 data) (in_crypto f) in
        match pt with
        | None =>
            fail_file (in_replayed f) msgId AuthFailure ;;
            drop_incoming msgId
        | Some pt =>
            written ← ok;
            let received := (in_receivedBytes f + Z.of_nat (length pt))%Z in
            let f1 := mkIncoming (in_sender f) (in_filename f) (in_mime f) (in_expectedSize f)
                        received (in_nextChunkIndex f + 1)
                        (if written : bool then in_pos f + length pt else in_pos f)
                        (in_localPath f) crypto (in_replayed f) in
            on_transfers (λ t,
              set_incoming (<[msgId := f1]> (m_incoming t))
                (if written then write_part (in_localPath f) (in_pos f) pt t else t)) ;;
            emit (FileReceiveProgress msgId received (in_expectedSize f)) ;;
            when isFinal (finish_file msgId f1)
        end
  end.
End Receive.

(** ** Saving *)
Section Save.
Context `{Oracle}.

Definition kSaveBuffer : Z := 64 * 1024.

(** The loop over the buffer: [data] is what is left to read. *)
Fixpoint copy_stream (fuel : nat) (uri : string) (pos : nat) (data : bytes) : M bool :=
  match fuel with
  | O => mret true
  | S fuel' =>
      readable ← ok;
      if negb (readable : bool) then mret false else
      if decide (data = []) then mret true else
      let buf := take (Z.to_nat kSaveBuffer) data in
      written ← ok;
      if negb (written : bool) then mret false else
      on_transfers (write_part uri pos buf) ;;
      copy_stream fuel' uri (pos + length buf) (drop (Z.to_nat kSaveBuffer) data)
  end.

(** The destination has a path of this machine. *)
Definition save_local (tempPath destPath : string) : M bool :=
  removable ← ok;
  on_transfers (λ t, if removable : bool then set_disk (delete destPath (disk t)) t else t) ;;
  copied ← ok;
  c ← gets id;
  match disk (transfers c) !! tempPath, disk (transfers c) !! destPath with
  | Some content, None =>
      if copied : bool then
        on_transfers (λ t, set_disk (<[destPath := content]> (disk t)) t) ;;
        mret true
      else emit (ErrorOccurred (CouldNotSaveTo destPath)) ;; mret false
  | _, _ => emit (ErrorOccurred (CouldNotSaveTo destPath)) ;; mret false
  end.

(** The destination is a document of Android's storage framework. *)
Definition save_document (tempPath uri : string) : M bool :=
  inOpen ← ok;
  c ← gets id;
  if negb (inOpen && bool_decide (is_Some (disk (transfers c) !! tempPath)))
  then emit (ErrorOccurred FileNoLongerHere) ;; mret false
  else
    outOpen ← ok;
    if negb (outOpen : bool) then emit (ErrorOccurred CouldNotSaveThere) ;; mret false
    else
      on_transfers (λ t, set_disk (<[uri := []]> (disk t)) t) ;;
      data ← gets (λ c, default [] (disk (transfers c) !! tempPath));
      done ← copy_stream (S (length data)) uri 0 data;
      if negb (done : bool) then emit (ErrorOccurred CouldNotSaveThere) ;; mret false
      else mret true.

(** [destPath] and [uri]: [dest.toLocalFile()] and [dest.toString()]. *)
Definition saveReceivedFile (msgId destPath uri : string) : M bool :=
  c ← gets id;
  match m_receivedFilePaths (transfers c) !! msgId with
  | None => emit (ErrorOccurred FileNoLongerHere) ;; mret false
  | Some tempPath =>
      if negb (String.eqb destPath "") then save_local tempPath destPath
      else if String.eqb uri "" then emit (ErrorOccurred InvalidSaveLocation) ;; mret false
      else save_document tempPath uri
  end.
End Save.

End Transfer.
