(* ===== verification/Receiving.v ===== *)
(** * ChatClient: the dispatch of frames (client/src/chatclient.cpp, handleServerFrame)

    The branches "msg", "key", "keys", "bundle", "verifyack", "verify_resync",
    "presence", "typing", "delete", "reaction", "server_log" and "error"; "file_init"
    and "file_end" are in [Transfer.v].  A frame is the parsed JSON object.  Frames
    stashed for want of a key are replayed through the dispatcher, which is why it has
    fuel.  The operations end with the entry points of the core. *)

From S2P Require Import Prelude Platform Kdf Ratchet X3dh CryptoBox Persist MessageModel.
From S2P Require Import UserModel HistoryStore FileCrypto Chat Messenger Rekey Sending.
From S2P Require Import Verification Inbound Transfer.

Import ChatClient Messenger Rekey Sending Verification.

Module Receiving.

Export Inbound Transfer.

Section Operations.
Context `{Sodium} `{QtText} `{QDataStream} `{QHashOrder} `{QStringOrder} `{QTrim}.
Context `{Oracle} `{QFiles}.

(** ** Typing *)
Definition setPeerTyping (peer state : string) : M () :=
  if String.eqb peer "" then mret () else
  let act := negb (String.eqb state "idle") && negb (String.eqb state "") in
  on_link (λ l, set_composing (if act then <[peer := state]> (m_peerTyping l)
                               else delete peer (m_peerTyping l)) l) ;;
  emit (PeerTypingChanged peer (if act then state else "idle")) ;;
  emit (PeerActivityChanged peer act).

Definition onPresence (users : list string) : M () :=
  on_users (λ u, (UserModel.setOnlineUsers users u).1) ;;
  typing ← gets (λ c, qset_items (dom (m_peerTyping (link c))));
  for_each typing (λ p, when (negb (bool_decide (p ∈ users))) (setPeerTyping p "idle")).

(** ** Messages *)

(** The opener of a peer that initiated through our bundle.  [false] is the early
    return. *)
Definition accept_opener (peer : string) (o : Opener) : M bool :=
  accepted ← on_box (acceptX3dhSession peer (fromHex (toUtf8 (o_ik_a o)))
                       (fromHex (toUtf8 (o_ek_a o))) (o_opk_id o)
                       (fromHex (toUtf8 (o_spk_used o))));
  if accepted : bool then
    persist peer ;;
    c ← gets id;
    when (isReady c)
      (okC ← ok; on_store (λ o, HistoryStore.savePrekeys okC o (serialisePrekeys (box c))) ;; mret ()) ;;
    mret true
  else mret false.

(** The identity a handshake states.  [false] is the early return. *)
Definition handshake_identity (peer ik : string) (f : Frame) : M bool :=
  c ← gets id;
  if String.eqb ik "" || String.eqb ik (key_of peer c) then mret true
  else if negb (String.eqb (default "" (m_rebootstrapAdopted (link c) !! peer)) ik) then
    on_link (λ l, set_adopted (<[peer := ik]> (m_rebootstrapAdopted l)) l) ;;
    on_client (λ c, set_peerKeys (<[peer := ik]> (m_peerKeys c)) c) ;;
    ensure_key peer ik ;;
    stash peer f ;;
    emit PeerKeysChanged ;;
    mret false
  else
    authoritative ← gets (key_of peer);
    if negb (String.eqb ik authoritative) then mret false
    else ensure_key peer ik ;; mret true.

(** A rekey-ping owes a pong. *)
Definition onRekeyPing (peer : string) : M () :=
  persist peer ;;
  on_pcs (λ p, set_owed ({[peer]} ∪ m_pongOwed p) p) ;;
  sendOwedPongIfReady peer ;;
  c ← gets id;
  when (bool_decide (peer ∈ m_pongOwed (pcs c))) restart_kick.

(** An edit: the row with that id takes the new words, or a new message is shown. *)
Definition onEdit (peer from plaintext editOf : string) (ts : Z) : M () :=
  sealedPair ← seal plaintext;
  updated ← match sealedPair with
            | Some (eNonce, eCt) => on_store (λ o, HistoryStore.updateTextRow o editOf eNonce eCt)
            | None => mret false
            end;
  (if updated : bool then
     on_messages (λ ms, (MessageModel.editTextByMid editOf plaintext ms).1.2) ;;
     emit (MessageEdited peer editOf)
   else
     match sealedPair with
     | Some (eNonce, eCt) =>
         on_store (λ o, HistoryStore.addTextRow o peer from eNonce eCt ts false editOf) ;; mret ()
     | None => mret ()
     end ;;
     c ← gets id;
     if String.eqb peer (active c)
     then on_messages (λ ms, (MessageModel.addMessage from plaintext ts false editOf ms).1)
     else on_users (λ u, (UserModel.incrementUnread peer u).1)) ;;
  persist peer.

(** A text to show and keep. *)
Definition onText (peer from plaintext mid : string) (ts : Z) : M () :=
  setPeerTyping peer "idle" ;;
  sealedPair ← seal plaintext;
  match sealedPair with
  | Some (histNonce, histCt) =>
      on_store (λ o, HistoryStore.addTextRow o peer from histNonce histCt ts false mid) ;; mret ()
  | None => mret ()
  end ;;
  persist peer ;;
  c ← gets id;
  (if String.eqb peer (active c)
   then on_messages (λ ms, (MessageModel.addMessage from plaintext ts false mid ms).1)
   else on_users (λ u, (UserModel.incrementUnread peer u).1)) ;;
  when (negb (String.eqb peer (active c))) (emit (Notify from plaintext)).

(** What a decrypted frame of the peer does. *)
Definition deliver (peer : string) (m : Msg) (plaintext : string) : M () :=
  mark_seen peer (frame_key (g_wire m)) ;;
  noteInboundFrom peer ;;
  when (negb (String.eqb (g_kind m) "rekey-ping")) (sendOwedPongIfReady peer) ;;
  (if String.eqb (g_kind m) "handshake" then persist peer
   else if String.eqb (g_kind m) "rekey-ping" then onRekeyPing peer
   else if String.eqb (g_kind m) "rekey-pong" then persist peer
   else if negb (String.eqb (g_edit_of m) "")
   then onEdit peer (g_from m) plaintext (g_edit_of m) (g_ts m)
   else onText peer (g_from m) plaintext (g_mid m) (g_ts m)) ;;
  flush_if_connected.

(** From the duplicate check on. *)
Definition receive_msg (peer : string) (m : Msg) : M () :=
  c ← gets id;
  if already_seen peer (frame_key (g_wire m)) c then mret ()
  else
    ensure_key peer (key_of peer c) ;;
    plaintext ← decrypt peer (g_wire m);
    if String.eqb plaintext "" then mret () else deliver peer m plaintext.

Definition onMsg (m : Msg) : M () :=
  c ← gets id;
  let peer := if String.eqb (g_from m) (self c) then g_to m else g_from m in
  opened ← match g_opener m with
           | Some o =>
               if negb (String.eqb (g_from m) (self c)) && negb (has_session peer c)
               then accept_opener peer o else mret true
           | None => mret true
           end;
  if negb (opened : bool) then mret ()
  else if String.eqb (g_from m) (self c) then mret ()
  else if negb (has_key peer c) then stash peer (FMsg m)
  else
    proceed ← (if String.eqb (g_kind m) "handshake" then handshake_identity peer (g_ik m) (FMsg m)
               else mret true);
    if (proceed : bool) then receive_msg peer m else mret ().

Definition onVerifyAck (from to ik peer_ik : string) (ts : Z) : M () :=
  c ← gets id;
  if String.eqb from (self c) || negb (String.eqb to (self c)) then mret ()
  else if negb (has_key from c) then stash from (FVerifyAck from to ik peer_ik ts)
  else acceptVerifyAck from ik peer_ik.

(** ** Bundles *)

(** Is the bundle's identity the one the peer published? *)
Definition bundle_bound (who : string) (ik : bytes) (c : Chat) : bool :=
  let knownEd := default [] (m_peerEdKeys (link c) !! who) in
  if negb (bool_decide (knownEd = [])) then bool_decide (ik = knownEd)
  else if has_key who c then
    match agreementKeyFor ik "ed25519" with
    | Some derived => String.eqb (fromUtf8 (toHex derived)) (key_of who c)
    | None => false
    end
  else true.

Definition open_bundle (who : string) (ik spk sig opk : bytes) (opkId : Z) : M () :=
  rndE ← draw 32;
  rndR ← draw 32;
  opened ← on_box (λ b, match beginX3dhSession who ik spk sig opk opkId rndE rndR b with
                        | None => (None, b)
                        | Some (ikA, ekA, usedOpk, b1) => (Some (ikA, ekA, usedOpk), b1)
                        end);
  match opened with
  | None => mret ()
  | Some (ikA, ekA, usedOpk) =>
      on_link (λ l, set_openers (<[who := mkHeader ikA ekA usedOpk spk]> (m_pendingX3dhHeader l)) l) ;;
      persist who ;;
      flush_if_connected
  end.

Definition onBundle (who : string) (bundle : option Served) : M () :=
  match bundle with
  | None => emit (BundleUnavailable who)
  | Some b =>
      let ik := fromHex (toUtf8 (sv_ik b)) in
      let spk := fromHex (toUtf8 (sv_spk b)) in
      let sig := fromHex (toUtf8 (sv_sig b)) in
      c ← gets id;
      if negb (bundle_bound who ik c) then
        emit (ErrorOccurred (BundleNotBound who)) ;; emit (BundleRejected who)
      else if negb (verifyBundle ik spk sig) then
        emit (ErrorOccurred (MalformedBundle who)) ;; emit (BundleRejected who)
      else
        let opk := match sv_opk b with Some (o, _) => fromHex (toUtf8 o) | None => [] end in
        let opkId := match sv_opk b with Some (_, i) => i | None => (-1)%Z end in
        let haveOpk := bool_decide (is_Some (sv_opk b)) in
        if haveOpk && negb (length opk =? 32) then emit (BundleReady who)
        else
          open_bundle who ik spk sig opk opkId ;;
          emit (BundleReady who)
  end.

(** ** Keys *)

(** What an untagged key of this relay is, from its entry for ourselves. *)
Definition calibrate (keys : list (string * string)) (key_types : option (gmap string string))
    : M () :=
  c ← gets id;
  match key_types, (list_to_map keys : gmap string string) !! self c with
  | None, Some mine =>
      if String.eqb (self c) "" then mret () else
      let myEd := edPublicKeyHex (box c) in
      let myAgree := publicKeyHex (box c) in
      if negb (String.eqb myEd "") && (compareCI mine myEd =? 0)%Z then
        when (negb (m_relayServesUntaggedEd (link c)))
          (on_link (set_untagged true) ;; emit (ErrorOccurred OldRelay))
      else if negb (String.eqb myAgree "") && (compareCI mine myAgree =? 0)%Z then
        on_link (set_untagged false)
      else mret ()
  | _, _ => mret ()
  end.

(** The stated type of a key, or what this relay is known to publish. *)
Definition ik_type (stated : string) (c : Chat) : string :=
  if String.eqb stated "" && m_relayServesUntaggedEd (link c) then "ed25519" else stated.

Definition directory_entry (key_types : gmap string string) (entry : string * string) : M () :=
  let '(peer, published) := entry in
  c ← gets id;
  if negb (String.eqb (self c) "") && String.eqb peer (self c) then mret () else
  pub ← publish_key peer published (ik_type (default "" (key_types !! peer)) c);
  match pub with
  | None => mret ()
  | Some pub => adopt_key peer pub
  end.

(** [replay]: [replayPendingFrames]. *)
Definition onKeys (replay : string → M ()) (keys : list (string * string))
    (key_types : option (gmap string string)) : M () :=
  calibrate keys key_types ;;
  for_each keys (directory_entry (default ∅ key_types)) ;;
  emit PeerKeysChanged ;;
  for_each keys.*1 replay ;;
  flush_if_connected.

Definition onKey (replay : string → M ()) (nick published stated : string) : M () :=
  if String.eqb published "" then mret () else
  c ← gets id;
  pub ← publish_key nick published (ik_type stated c);
  match pub with
  | None => mret ()
  | Some pub =>
      adopt_key nick pub ;;
      emit PeerKeysChanged ;;
      replay nick ;;
      flush_if_connected
  end.

(** ** Retractions, reactions, log lines *)
Definition onDeleteFrame (from mid : string) : M () :=
  if String.eqb mid "" then mret () else
  o ← ok;
  on_client (onDelete o from mid) ;;
  emit (MessageDeleted from mid).

Definition onReactionFrame (from mid kind : string) : M () :=
  if String.eqb from "" || String.eqb mid "" then mret () else
  o ← ok;
  on_client (onReaction o from mid kind) ;;
  emit (ReactionChanged from mid).

(** The severity of a level of the relay's log. *)
Definition severity (level : string) : Severity :=
  if String.eqb level "DEBUG" then Debug
  else if String.eqb level "WARNING" then Warning
  else if String.eqb level "ERROR" || String.eqb level "CRITICAL" then Critical
  else Info.

Definition onServerLog (lines : list (string * string)) : M () :=
  for_each lines (λ rec, when (negb (String.eqb rec.2 "")) (emit (LogLine (severity rec.1) rec.2))).

(** ** The dispatcher *)

(** [m_pendingFrames.take(nick)], each frame through [handle]. *)
Definition replayPendingFrames (handle : Frame → M ()) (nick : string) : M () :=
  c ← gets id;
  let frames := default [] (m_pendingFrames (link c) !! nick) in
  on_link (λ l, set_stash (delete nick (m_pendingFrames l)) l) ;;
  for_each frames handle.

Fixpoint handleServerFrame (fuel : nat) (f : Frame) : M () :=
  let replay := match fuel with
                | O => λ _, mret ()
                | S fuel' => replayPendingFrames (handleServerFrame fuel')
                end in
  match f with
  | FPresence users => onPresence users
  | FBundle who b => onBundle who b
  | FKeys keys types => onKeys replay keys types
  | FKey nick published stated => onKey replay nick published stated
  | FMsg m => onMsg m
  | FVerifyResync from to _ _ => onVerifyResync from to
  | FVerifyAck from to ik peer_ik ts => onVerifyAck from to ik peer_ik ts
  | FTyping from _ state => when (negb (String.eqb from "")) (setPeerTyping from state)
  | FFileInit i => onFileInit i
  | FFileEnd msgId => onFileEnd msgId
  | FDelete from mid => onDeleteFrame from mid
  | FReaction from mid kind => onReactionFrame from mid kind
  | FServerLog lines => onServerLog lines
  | FError reason => emit (ErrorOccurred (RelayError reason))
  | FGetKey _ | FGetBundle _ | FFileChunk _ => mret ()
  end.

(** A stashed frame is never one that replays others. *)
Definition kReplayFuel : nat := 2.

Definition onTextMessageReceived (f : Frame) : M () := handleServerFrame kReplayFuel f.

Definition requestBundle (peer : string) : M () :=
  c ← gets id;
  if String.eqb peer "" || String.eqb peer (self c) then mret ()
  else if negb (connected c) then mret ()
  else send (FGetBundle peer).

(** ** The entry points: what the user does, frames, timers *)
Inductive ClientOp :=
| SendMessage (plaintext : string)
| EditMessage (mid newText : string)
| ResendMessage (mid : string)
| SendFile (path : string)
| NotifyTyping (sendingFile : bool)
| Confirm (peer : string)
| ForceRekey (peer : string)
| RequestBundle (peer : string)
| Resumed
| FlushOutbox
| KickTimer
| RekeyTimer
| Receive (f : Frame)
| ReceiveBinary (octets : bytes)
| SaveFile (msgId destPath uri : string)
| TypingTimer.

Definition run_client_op (o : ClientOp) : M () :=
  match o with
  | SendMessage t => sendMessage t
  | EditMessage mid t => editMessage mid t
  | ResendMessage mid => resendMessage mid
  | SendFile path => sendFile path
  | NotifyTyping b => notifyTyping b
  | Confirm peer => acknowledgeKeyChange peer
  | ForceRekey peer => forceRekey peer
  | RequestBundle peer => requestBundle peer
  | Resumed => reestablishPcsForAll
  | FlushOutbox => flushOutbox
  | KickTimer => onKickTimer
  | RekeyTimer => onRekeyTimer
  | Receive f => onTextMessageReceived f
  | ReceiveBinary octets => onBinaryMessageReceived octets
  | SaveFile msgId destPath uri => saveReceivedFile msgId destPath uri ;; mret ()
  | TypingTimer => onTypingTimer
  end.
End Operations.

End Receiving.
