(* ===== verification/Session.v ===== *)
(** * ChatClient: the life of a session (client/src/chatclient.cpp)

    Logging in and registering, the handshake with the relay, connections lost and
    retried, logging out.  The state is that of the messaging core with what concerns
    the connection, the credentials and the device; an operation is a step of a monad
    over it, whose events are those of the core and a few of its own. *)

From S2P Require Import Prelude Platform Kdf Ratchet X3dh CryptoBox Persist MessageModel.
From S2P Require Import UserModel HistoryStore Localization Accounts Settings FileCrypto.
From S2P Require Import Chat.
From S2P Require Import Recovery Messenger Rekey Sending Verification Receiving Tls.

Import ChatClient Messenger Rekey Sending Verification Receiving.

Module Session.

(** ** Frames and events of the handshake *)
Record Hello := mkHello {
  hl_nick : string;
  hl_pubkey : string;
  hl_ik_type : string;
  hl_have_files : list string;
  hl_pw : option (string * string);
  hl_dob : option string;
}.

Inductive AppEvent :=
| Core (e : Event)
| PrekeyFrame (o : Out)
| AuthBegin (nick : string)
| SentHello (h : Hello)
| SocketOpened (url : string)
| SocketClosed
| ConnectionStateChanged
| LoggedIn
| LoggedOut
| ActivePeerChanged
| TlsSummaryChanged
| LockStateChanged
| Failed (text : string).

(** ** State *)
Record Net := mkNet {
  m_serverUrl : string;
  m_intentionalClose : bool;
  m_reconnectDelayMs : Z;
  m_reconnectTimer : option Z;
  m_authSaltTimer : bool;
  m_tlsSummary : string;
}.

Record Credentials := mkCredentials {
  m_registering : bool;
  m_pendingPassword : string;
  m_pendingVerifierHex : string;
  m_pendingSaltHex : string;
  m_pendingDobVerifierHex : string;
}.

(** The lock, and the vault that a confirmed login fills. *)
Record Guard := mkGuard {
  m_sessionActive : bool;
  m_locked : bool;
  m_bioEnrollPending : bool;
  m_bioEnrollPassword : string;
}.

(** What belongs to the device: settings, identity files, the directory of the
    databases. *)
Record Device := mkDevice {
  settings : Settings;
  files : Files;
  m_historyBaseDir : string;
}.

Record App := mkApp { chat : Chat; net : Net; cred : Credentials; guard : Guard; device : Device }.

Definition set_chat (x : Chat) (a : App) : App := mkApp x (net a) (cred a) (guard a) (device a).
Definition set_net (x : Net) (a : App) : App := mkApp (chat a) x (cred a) (guard a) (device a).
Definition set_cred (x : Credentials) (a : App) : App := mkApp (chat a) (net a) x (guard a) (device a).
Definition set_guard (x : Guard) (a : App) : App := mkApp (chat a) (net a) (cred a) x (device a).
Definition set_device (x : Device) (a : App) : App := mkApp (chat a) (net a) (cred a) (guard a) x.

Definition set_settings (x : Settings) (d : Device) : Device :=
  mkDevice x (files d) (m_historyBaseDir d).
Definition set_files (x : Files) (d : Device) : Device :=
  mkDevice (settings d) x (m_historyBaseDir d).
Definition set_retry (delay : Z) (timer : option Z) (n : Net) : Net :=
  mkNet (m_serverUrl n) (m_intentionalClose n) delay timer (m_authSaltTimer n) (m_tlsSummary n).
Definition set_intentional (b : bool) (n : Net) : Net :=
  mkNet (m_serverUrl n) b (m_reconnectDelayMs n) (m_reconnectTimer n) (m_authSaltTimer n)
    (m_tlsSummary n).
Definition set_saltTimer (b : bool) (n : Net) : Net :=
  mkNet (m_serverUrl n) (m_intentionalClose n) (m_reconnectDelayMs n) (m_reconnectTimer n) b
    (m_tlsSummary n).
Definition set_tls (s : string) (n : Net) : Net :=
  mkNet (m_serverUrl n) (m_intentionalClose n) (m_reconnectDelayMs n) (m_reconnectTimer n)
    (m_authSaltTimer n) s.
Definition set_derived (verifier salt : string) (k : Credentials) : Credentials :=
  mkCredentials (m_registering k) (m_pendingPassword k) verifier salt (m_pendingDobVerifierHex k).

(** ** The monad *)
Definition S (A : Type) : Type := App → A * App * list AppEvent.

#[export] Instance S_ret : MRet S := λ A x a, (x, a, []).
#[export] Instance S_bind : MBind S := λ A B f m a,
  let '(x, a1, ev1) := m a in
  let '(y, a2, ev2) := f x a1 in (y, a2, ev1 ++ ev2).

Definition read {A} (f : App → A) : S A := λ a, (f a, a, []).
Definition update (f : App → App) : S () := λ a, ((), f a, []).
Definition signal (e : AppEvent) : S () := λ a, ((), a, [e]).
Definition only_if (b : bool) (m : S ()) : S () := if b then m else mret ().

(** An operation of the core. *)
Definition core {A} (m : M A) : S A := λ a,
  let '(x, c, ev) := m (chat a) in (x, set_chat c a, Core <$> ev).

Definition on_net (f : Net → Net) : S () := update (λ a, set_net (f (net a)) a).
Definition on_cred (f : Credentials → Credentials) : S () := update (λ a, set_cred (f (cred a)) a).
Definition on_settings (f : Settings → Settings) : S () :=
  update (λ a, set_device (set_settings (f (settings (device a))) (device a)) a).

Definition my_nick (a : App) : string := self (chat a).

(** ** What a login is told: directories, whether the database opens, the answers of its
    statements, the octets of a new identity, what saving it finds, the octets of the
    salts, today's date. *)
Record Circumstances := mkCircumstances {
  k_locations : list string;
  k_identityDirs : list string;
  k_opened : bool;
  k_tables : nat → bool;
  k_verified : bool;
  k_attested : bool;
  k_seed : bytes;
  k_attempts : string → Accounts.Attempt;
  k_removed : bool;
  k_peers : bool;
  k_sessions : string → nat → bool;
  k_queue : bool;
  k_dropped : Z → bool;
  k_dobSalt : bytes;
  k_salt : bytes;
  k_today : Z * Z * Z;
}.

(** What a connection is told: what was negotiated, and what the prekeys need. *)
Record Connection := mkConnection {
  c_negotiated : Tls.Negotiated;
  c_store : nat → bool;
  c_publish : nat → bool;
  c_republish : nat → bool;
  c_rotated : bytes;
  c_spk1 : bytes;
  c_spk2 : bytes;
  c_pool1 : nat → bytes;
  c_pool2 : nat → bytes;
  c_now : Z;
  c_clock : Z;
}.

Definition saltKey (nick : string) : string := "auth/verifierSalt/" +:+ nick.

Section Operations.
Context `{Sodium} `{QtText} `{QDataStream} `{QHashOrder} `{QStringOrder} `{QTrim} `{SqlOrder}.
Context `{QCharClass} `{QVariantCasts} `{QDates} `{Tls.QNetwork} `{Oracle} `{QFiles}.
Context (loc : Localization.State).

(** [errorOccurred(t(key))]. *)
Definition fail (key : string) : S () := signal (Failed (Localization.t key loc)).

(** A line of the system in the list on screen. *)
Definition show_line (text : string) : S () :=
  core (t ← now; on_messages (λ ms, (MessageModel.addSystem text t ms).1)).

Definition open_socket : S () :=
  url ← read (λ a, m_serverUrl (net a));
  signal (SocketOpened url).

(** ** Logging in *)

(** The nickname, the relay and the fields kept for next time. *)
Definition begin_account (nick serverUrl : string) (registering : bool) : S () :=
  core (on_client (λ c, mkClient nick (m_crypto c) (m_history c) (m_messages c)
          (UserModel.setSelfName nick (m_users c)).1 (m_activePeer c) (m_peerKeys c)
          (m_outbox c) (m_sentSinceRatchet c) (m_connected c))) ;;
  on_net (λ n, mkNet serverUrl (m_intentionalClose n) (m_reconnectDelayMs n)
                 (m_reconnectTimer n) (m_authSaltTimer n) (m_tlsSummary n)) ;;
  on_cred (λ k, mkCredentials registering (m_pendingPassword k) (m_pendingVerifierHex k)
                  (m_pendingSaltHex k) (m_pendingDobVerifierHex k)) ;;
  on_settings (λ s, <["login/lastServerUrl" := VText serverUrl]>
                      (<["login/lastNickname" := VText nick]> s)).

Definition base_dir (k : Circumstances) (a : App) : string :=
  if String.eqb (m_historyBaseDir (device a)) ""
  then default "" (head (filter (λ d, d ≠ "") (k_locations k)))
  else m_historyBaseDir (device a).

(** Confirmations and attestations kept on disk. *)
Definition restore_verification (k : Circumstances) : S () :=
  core (
    c ← gets id;
    let attest := HistoryStore.loadPeerAttestations (k_attested k) (store c) in
    let mine := publicKeyHex (box c) in
    on_gate (λ g, mkGate (m_unverifiedKeyChange g)
      (m_peerVerified g ∪ dom (filter (λ kv, mine ≠ "" ∧ kv.2 = mine) attest))
      (m_pendingBilateral g) (m_verifyAckResend g)
      (attest ∪ m_peerVerifiedForIdentity g)
      (HistoryStore.loadVerifiedPeerIdentities (k_verified k) (store c))
      (m_lastVerifyResyncMs g))).

(** The user's database, and what it says of verification. *)
Definition open_history (k : Circumstances) (registering : bool) (nick : string) : S () :=
  dir ← read (base_dir k);
  if String.eqb dir "" then
    only_if (negb registering) (show_line (Localization.t "sys.noStorage" loc))
  else
    opened ← core (with_client (λ c,
               let '(o, s) := HistoryStore.open dir nick (k_opened k) (k_tables k) (m_history c) in
               (o, set_store s c)));
    ready ← read (λ a, isReady (chat a));
    only_if ((opened : bool) && ready) (restore_verification k) ;;
    only_if (negb opened)
      (only_if (negb registering) (show_line (Localization.t "sys.historyOpenFailed" loc)) ;;
       fail "err.historyOpenFailed").

Definition outcome_key (o : Accounts.Outcome) : string :=
  match o with
  | Accounts.Established => ""
  | Accounts.AccountExistsLocally => "err.accountExistsLocally"
  | Accounts.IdentityNotPersisted => "err.identityNotPersisted"
  | Accounts.WrongPassword => "err.wrongPassword"
  | Accounts.IdentityUnreadable => "err.identityUnreadable"
  | Accounts.NoAccountHere => "err.noAccountHere"
  end.

(** [establishIdentity]. *)
Definition establish (k : Circumstances) (nick password : string) (registering : bool) : S bool :=
  a ← read id;
  let '(o, fs, b) :=
    Accounts.establishIdentity (k_identityDirs k) nick password registering (k_seed k)
      (k_attempts k) (k_removed k) (files (device a)) (box (chat a)) in
  update (λ a, set_device (set_files fs (device a)) a) ;;
  core (on_client (set_crypto b)) ;;
  match o with
  | Accounts.Established => mret true
  | _ => fail (outcome_key o) ;; mret false
  end.

(** Sessions and queue of an earlier run, and the connection. *)
Definition resume (k : Circumstances) : S () :=
  core (on_client (restoreAllSessions (k_peers k) (k_sessions k))) ;;
  core (on_client (restoreOutbox (k_queue k) (k_dropped k))) ;;
  on_net (set_intentional false) ;;
  open_socket.

Definition login (k : Circumstances) (serverUrl nickname password : string) : S () :=
  let nick := trimmed nickname in
  begin_account nick serverUrl false ;;
  open_history k false nick ;;
  ok ← establish k nick password false;
  if negb (ok : bool) then mret ()
  else
    on_cred (λ c, mkCredentials (m_registering c) password "" "" (m_pendingDobVerifierHex c)) ;;
    resume k.

(** ** Registering *)

(** The birthday, as a verifier; the nickname is set before it is kept. *)
Definition record_birthday (k : Circumstances) (nick birthday : string) : S () :=
  let iso := Recovery.normalizeBirthday (k_today k) birthday in
  let verifier := if String.eqb iso "" then ""
                  else match deriveVerifier iso (k_dobSalt k) with
                       | Some (v, _) => v
                       | None => ""
                       end in
  on_cred (λ c, mkCredentials (m_registering c) (m_pendingPassword c) (m_pendingVerifierHex c)
                  (m_pendingSaltHex c) verifier) ;;
  on_settings (Recovery.recordBirthday (k_today k) birthday nick (k_dobSalt k)).

Definition registerAccount (k : Circumstances) (serverUrl nickname password birthday : string)
    : S () :=
  let nick := trimmed nickname in
  record_birthday k nick birthday ;;
  begin_account nick serverUrl true ;;
  open_history k true nick ;;
  ok ← establish k nick password true;
  if negb (ok : bool) then mret ()
  else
    on_cred (λ c, mkCredentials (m_registering c) password (m_pendingVerifierHex c)
                    (m_pendingSaltHex c) (m_pendingDobVerifierHex c)) ;;
    match deriveVerifier password (k_salt k) with
    | Some (v, s) =>
        on_cred (set_derived v s) ;;
        on_settings (λ st, <[saltKey nick := VText s]> st) ;;
        resume k
    | None => fail "err.registerFailed"
    end.

(** ** The handshake *)
Definition uploadPublicKey : S () :=
  have ← core (o ← ok; gets (λ c, HistoryStore.receivedFileIds o (store c)));
  a ← read id;
  let v2 := hasX3dhIdentity (box (chat a)) in
  let k := cred a in
  let derived := negb (String.eqb (m_pendingVerifierHex k) "")
                 && negb (String.eqb (m_pendingSaltHex k) "") in
  on_cred (λ k, mkCredentials false (m_pendingPassword k) "" "" (m_pendingDobVerifierHex k)) ;;
  signal (SentHello (mkHello (my_nick a)
    (if v2 then edPublicKeyHex (box (chat a)) else publicKeyHex (box (chat a)))
    (if v2 then "ed25519" else "x25519") have
    (if derived then Some (m_pendingVerifierHex k, m_pendingSaltHex k) else None)
    (if derived && m_registering k && negb (String.eqb (m_pendingDobVerifierHex k) "")
     then Some (m_pendingDobVerifierHex k) else None))).

Definition completeHello : S () :=
  on_net (set_saltTimer false) ;;
  uploadPublicKey ;;
  core flushOutbox ;;
  core reestablishPcsForAll.

Definition deriveVerifierLocally : S () :=
  a ← read id;
  let pw := m_pendingPassword (cred a) in
  let key := saltKey (my_nick a) in
  let stored := read_text key (settings (device a)) in
  if String.eqb pw "" then mret ()
  else if negb (String.eqb stored "") then
    on_cred (set_derived (deriveVerifierWithSalt pw stored) stored)
  else
    salt ← core (draw 16);
    match deriveVerifier pw salt with
    | Some (v, s) =>
        on_cred (set_derived v s) ;;
        on_settings (λ st, <[key := VText s]> st)
    | None => mret ()
    end.

Definition beginAuthHandshake : S () :=
  a ← read id;
  if negb (String.eqb (m_pendingPassword (cred a)) "") then
    signal (AuthBegin (my_nick a)) ;;
    on_net (set_saltTimer true)
  else completeHello.

(** The "auth_salt" frame; a salt that is absent or empty is [None]. *)
Definition onAuthSalt (salt : option string) : S () :=
  a ← read id;
  let pw := m_pendingPassword (cred a) in
  if String.eqb pw "" then mret () else
  match salt with
  | Some serverSalt =>
      on_cred (set_derived (deriveVerifierWithSalt pw serverSalt) serverSalt) ;;
      on_settings (λ st, <[saltKey (my_nick a) := VText serverSalt]> st)
  | None => deriveVerifierLocally
  end ;;
  completeHello.

(** The fallback when no salt comes; a single-shot timer. *)
Definition onSaltTimer : S () :=
  a ← read id;
  if negb (m_authSaltTimer (net a)) then mret () else
  on_net (set_saltTimer false) ;;
  if String.eqb (m_pendingPassword (cred a)) "" then mret () else
  deriveVerifierLocally ;;
  completeHello.

(** ** Logging out *)

(** The tables of the core that belong to the user. *)
Definition forget_user (c : Chat) : Chat :=
  let cl := client c in
  let l := link c in
  mkChat
    (mkClient (m_nick cl) (resetForNewUser (m_crypto cl)) (HistoryStore.close (m_history cl))
       (MessageModel.clear (m_messages cl)).1 (m_users cl) "" ∅ [] ∅ false)
    (mkGate ∅ ∅ ∅ ∅ ∅ ∅ ∅)
    (mkPcs ∅ ∅ ∅ ∅ ∅ 0 false false)
    (mkLink false false ∅ ∅ ∅ ∅ false (m_pendingX3dhHeader l) "" "" ∅ (m_sentFileSources l))
    (mkTransfers ∅ ∅ (disk (transfers c)))
    (ticks c).

Definition logout : S () :=
  a ← read id;
  on_net (λ n, set_retry (m_reconnectDelayMs n) None (set_intentional true n)) ;;
  signal SocketClosed ;;
  only_if (negb (String.eqb (active (chat a)) "")) (signal ActivePeerChanged) ;;
  update (λ a, set_chat (forget_user (chat a)) a) ;;
  on_cred (λ k, mkCredentials (m_registering k) "" "" "" (m_pendingDobVerifierHex k)) ;;
  on_net (set_saltTimer false) ;;
  only_if (m_linkUp (link (chat a))) (signal ConnectionStateChanged) ;;
  update (set_guard (mkGuard false false false "")) ;;
  only_if (m_locked (guard a)) (signal LockStateChanged) ;;
  signal LoggedOut.

(** ** The connection *)
Definition set_linkUp (b : bool) (l : Link) : Link :=
  mkLink b (m_flushInProgress l) (m_seenFrames l) (m_pendingFrames l) (m_rebootstrapAdopted l)
    (m_peerEdKeys l) (m_relayServesUntaggedEd l) (m_pendingX3dhHeader l)
    (m_lastTypingStateSent l) (m_typingPeer l) (m_peerTyping l) (m_sentFileSources l).

Definition socket_state (b : bool) : S () := core (on_client (λ c,
  mkClient (m_nick c) (m_crypto c) (m_history c) (m_messages c) (m_users c) (m_activePeer c)
    (m_peerKeys c) (m_outbox c) (m_sentSinceRatchet c) b)).

Definition describe (n : Tls.Negotiated) : S () :=
  on_net (λ x, set_tls (Tls.describeTlsSession (m_serverUrl x) n) x) ;;
  signal TlsSummaryChanged.

(** Rotation and publication of prekeys. *)
Definition prekeys (k : Connection) : S () := λ a,
  let '(cl, outs) := onConnectedPrekeys (c_store k) (c_publish k) (c_republish k) (c_rotated k)
                       (c_spk1 k) (c_spk2 k) (c_pool1 k) (c_pool2 k) (c_now k) (c_clock k)
                       (client (chat a)) in
  ((), set_chat (set_client cl (chat a)) a, PrekeyFrame <$> outs).

Definition start_rekeying : M () :=
  on_pcs (λ p, mkPcs (m_rekeyOutstanding p) (m_rekeyPingSentAt p) (m_rekeyPingResends p)
                 (m_pongOwed p) (m_healPending p) (m_rekeyKickTries p) (m_rekeyKickTimer p) true) ;;
  c ← gets id;
  when (negb (bool_decide (m_pongOwed (pcs c) = ∅))
        || negb (bool_decide (m_sentSinceRatchet (client c) = ∅))) restart_kick.

Definition onConnected (k : Connection) : S () :=
  socket_state true ;;
  core (on_link (set_linkUp true)) ;;
  on_net (λ n, set_retry 1000 (m_reconnectTimer n) n) ;;
  signal ConnectionStateChanged ;;
  describe (c_negotiated k) ;;
  update (λ a, set_guard (mkGuard true (m_locked (guard a)) (m_bioEnrollPending (guard a))
                            (m_bioEnrollPassword (guard a))) a) ;;
  signal LoggedIn ;;
  prekeys k ;;
  core start_rekeying ;;
  beginAuthHandshake.

(** Close codes of the relay that end the session. *)
Definition rejected (code : Z) : bool :=
  ((code =? 4000) || (code =? 4001) || (code =? 4002))%Z.

Definition onDisconnected (code : Z) : S () :=
  socket_state false ;;
  core (on_link (set_linkUp false)) ;;
  signal ConnectionStateChanged ;;
  a ← read id;
  only_if (negb (String.prefix Tls.kTlsFailed (m_tlsSummary (net a))))
    (on_net (set_tls "") ;; signal TlsSummaryChanged) ;;
  on_net (set_saltTimer false) ;;
  if rejected code then fail "err.loginRejected" ;; logout
  else if negb (m_intentionalClose (net a)) then
    show_line "Connection lost. Reconnecting..." ;;
    on_net (λ n, set_retry (m_reconnectDelayMs n) (Some (m_reconnectDelayMs n)) n)
  else mret ().

(** [m_reconnectTimer] fires once. *)
Definition tryReconnect : S () :=
  a ← read id;
  match m_reconnectTimer (net a) with
  | None => mret ()
  | Some _ =>
      on_net (λ n, set_retry (Z.min (m_reconnectDelayMs n * 2) 30000) None n) ;;
      open_socket
  end.

Definition sslErrors (anchors : list Tls.Certificate) (errors : list string) : S () :=
  a ← read id;
  let '(summary, text) := Tls.onSslErrors anchors (m_serverUrl (net a)) errors in
  on_net (set_tls summary) ;;
  signal TlsSummaryChanged ;;
  signal (Failed text).

(** ** The entry points *)
Inductive SessionOp :=
| Login (k : Circumstances) (serverUrl nickname password : string)
| Register (k : Circumstances) (serverUrl nickname password birthday : string)
| Logout
| Connected (k : Connection)
| Disconnected (code : Z)
| ReconnectTimer
| SaltTimer
| AuthSalt (salt : option string)
| SslErrors (anchors : list Tls.Certificate) (errors : list string)
| Act (o : ClientOp).

Definition run_session_op (o : SessionOp) : S () :=
  match o with
  | Login k url nick pw => login k url nick pw
  | Register k url nick pw birthday => registerAccount k url nick pw birthday
  | Logout => logout
  | Connected k => onConnected k
  | Disconnected code => onDisconnected code
  | ReconnectTimer => tryReconnect
  | SaltTimer => onSaltTimer
  | AuthSalt salt => onAuthSalt salt
  | SslErrors anchors errors => sslErrors anchors errors
  | Act o => core (run_client_op o)
  end.

Fixpoint run_session (ops : list SessionOp) : S () :=
  match ops with
  | [] => mret ()
  | o :: rest => run_session_op o ;; run_session rest
  end.
End Operations.

End Session.
