(* ===== verification/Notifier.v ===== *)
(** * Notifications and shortcuts (client/src/desktopnotifier.cpp, androidnotifier.cpp)

    The tray icon of the desktop with its one remembered contact, the calls the bridge makes
    into Java on Android, and what ChatClient does with both: which messages and files are
    announced, and what opening a conversation from outside does. *)

From S2P Require Import Prelude Platform Kdf Ratchet X3dh CryptoBox Persist MessageModel.
From S2P Require Import UserModel HistoryStore Localization Accounts Chat Export.
From S2P Require Import Messenger Session.

Module Notifier.
Import ChatClient.

(** ** The tray icon *)
Record Window := mkWindow {
  w_minimized : bool;
  w_maximized : bool;
  w_visible : bool;
  w_active : bool;
}.

Record Toast := mkToast { t_title : string; t_body : string; t_peer : string }.

(** [g_tray], [g_window], [g_lastPeer], and the balloons shown, the newest last. *)
Record Desk := mkDesk {
  g_tray : bool;
  g_window : option Window;
  g_lastPeer : string;
  toasts : list Toast;
}.

Definition start : Desk := mkDesk false None "" [].

Definition raiseMainWindow (d : Desk) : Desk :=
  mkDesk (g_tray d)
    (match g_window d with
     | None => None
     | Some w => Some (mkWindow false (w_maximized w) true true)
     end) (g_lastPeer d) (toasts d).

(** [available] is [isSystemTrayAvailable()]. *)
Definition init (available : bool) (root : option Window) (d : Desk) : Desk :=
  mkDesk (g_tray d || available) root (g_lastPeer d) (toasts d).

Definition notify (title body peer : string) (d : Desk) : Desk :=
  if negb (g_tray d) then d
  else mkDesk (g_tray d) (g_window d) peer (toasts d ++ [mkToast title body peer]).

Definition available (d : Desk) : bool := g_tray d.

Inductive ActivationReason := Unknown | Context | DoubleClick | Trigger | MiddleClick.

Definition activated (r : ActivationReason) (d : Desk) : Desk :=
  match r with Trigger | DoubleClick => raiseMainWindow d | _ => d end.

(** ** The calls into Java *)
Inductive JavaCall :=
| EnsureChannels (messages service description : string)
| StartForegroundService (title text : string)
| StartService (title text : string)
| StopService
| PostMessage (title body peer : string)
| CreateShortcut (peer short long : string)
| CancelForPeer (peer : string)
| NativeReady.

(** [ctx] says whether there is an activity. *)
Definition call (ctx : bool) (c : JavaCall) : list JavaCall := if ctx then [c] else [].

Definition ensureChannels (ctx : bool) (m s d : string) : list JavaCall :=
  call ctx (EnsureChannels m s d).
Definition startService (ctx : bool) (sdk : Z) (title text : string) : list JavaCall :=
  call ctx (if (26 <=? sdk)%Z then StartForegroundService title text else StartService title text).
Definition stopService (ctx : bool) : list JavaCall := call ctx StopService.
Definition notifyMessage (ctx : bool) (title body peer : string) : list JavaCall :=
  call ctx (PostMessage title body peer).
(** [java] is what Java answers. *)
Definition createShortcut (ctx java : bool) (peer short long : string) : bool * list JavaCall :=
  (ctx && java, call ctx (CreateShortcut peer short long)).
Definition cancelForPeer (ctx : bool) (peer : string) : list JavaCall := call ctx (CancelForPeer peer).
Definition signalNativeReady : list JavaCall := [NativeReady].

(** A deep link: the conversation that the Qt thread is asked to open; [octets] is what
    [GetStringUTFChars] gives. *)
Definition onOpenConversation `{QtText} (client : bool) (octets : option bytes) : option string :=
  match octets with
  | None => None
  | Some b => let peer := fromUtf8 b in
              if negb client || String.eqb peer "" then None else Some peer
  end.

(** ** ChatClient *)
Section Client.
Context `{Sodium} `{QtText} `{QStringOrder} `{SqlOrder} `{QExport}.
Context (loc : Localization.State).

(** The announcement of a decrypted message. *)
Definition announce_message (ctx mine : bool) (active peer from plaintext : string) (d : Desk)
    : Desk * list JavaCall :=
  if negb mine && negb (String.eqb peer active) then
    let title := Transcript.arg [from] (Localization.t "notif.newMessageTitle" loc) in
    (notify title plaintext peer d, notifyMessage ctx title plaintext peer)
  else (d, []).

(** The announcement of a received file. *)
Definition announce_file (ctx : bool) (active fromNick filename : string) (size : Z) (d : Desk)
    : Desk * list JavaCall :=
  if String.eqb fromNick active then (d, []) else
  let title := Transcript.arg [fromNick] (Localization.t "notif.newFileTitle" loc) in
  let body := Transcript.arg [filename; Transcript.humanReadableSize size]
                (Localization.t "notif.newFileBody" loc) in
  (notify title body fromNick d, notifyMessage ctx title body fromNick).

Definition openConversationFromNotification (ctx okRows okReacts : bool) (now : nat → Z)
    (peer : string) (c : Client) : Client * list Out * list JavaCall :=
  if String.eqb peer "" then (c, [], []) else
  let c1 := set_user_list (UserModel.ensureUser peer (m_users c)).1 c in
  (setActivePeer loc okRows okReacts now peer c1, cancelForPeer ctx peer).

(** A click on a balloon. *)
Definition messageClicked (ctx okRows okReacts : bool) (now : nat → Z) (client : bool)
    (d : Desk) (c : Client) : Desk * (Client * list Out * list JavaCall) :=
  let d1 := raiseMainWindow d in
  (d1, if negb (String.eqb (g_lastPeer d1) "") && client
       then openConversationFromNotification ctx okRows okReacts now (g_lastPeer d1) c
       else (c, [], [])).

(** The error shown, if any. *)
Definition createConversationShortcut (ctx java : bool) (c : Client)
    : option string * list JavaCall :=
  if String.eqb (m_activePeer c) "" then (Some (Localization.t "conv.pickContact" loc), []) else
  let long := Transcript.arg [m_activePeer c] (Localization.t "conv.chattingWith" loc) in
  let '(ok, calls) := createShortcut ctx java (m_activePeer c) (m_activePeer c) long in
  (if ok then None else Some (Localization.t "shortcut.unsupported" loc), calls).
End Client.

(** ** Lemmas *)
Section Facts.
Context `{Sodium} `{QtText} `{QStringOrder} `{SqlOrder} `{QExport}.
Context (loc : Localization.State).

Lemma load_keeps okRows okReacts now peer c :
  m_activePeer (loadConversation loc okRows okReacts now peer c) = m_activePeer c
  ∧ m_users (loadConversation loc okRows okReacts now peer c) = m_users c.
Proof. done. Qed.

Lemma refresh_names name s : UserModel.m_users (UserModel.clearUnread name s).1 = UserModel.m_users s.
Proof. unfold UserModel.clearUnread. by case_match. Qed.

(** Whatever the client was doing, the conversation opened is the one asked for, and its
    contact is in the list. *)
Lemma open_shows ctx okRows okReacts now peer c :
  peer ≠ "" →
  let c' := (openConversationFromNotification loc ctx okRows okReacts now peer c).1.1 in
  m_activePeer c' = peer ∧ peer ∈ UserModel.m_users (m_users c').
Proof.
  intros Hp. cbv zeta. unfold openConversationFromNotification.
  destruct (String.eqb_spec peer ""); [done|].
  set (c1 := set_user_list _ c).
  assert (peer ∈ UserModel.m_users (m_users c1)) as Hin.
  { cbn. unfold UserModel.ensureUser. case_decide as Hd; [by destruct Hd|].
    cbn. set_solver. }
  clearbody c1. cbn [fst]. unfold setActivePeer.
  destruct (String.eqb_spec (m_activePeer c1) peer); [done|].
  destruct (String.eqb_spec peer ""); [done|].
  cbn [set_active m_peerKeys]. destruct (m_peerKeys c1 !! peer); cbn; by rewrite refresh_names.
Qed.
End Facts.

(** A click opens the conversation announced last, and only that.  With the tray there, of
    two announcements a click on either balloon raises the window and opens the second:
    the contact of the first balloon is forgotten. *)
Theorem click_opens_latest `{Sodium} `{QtText} `{QStringOrder} `{SqlOrder} loc ctx okRows
    okReacts now d w c t1 b1 p1 t2 b2 p2 :
  g_tray d = true → g_window d = Some w → p2 ≠ "" →
  let d2 := notify t2 b2 p2 (notify t1 b1 p1 d) in
  let '(d3, (c', _, _)) := messageClicked loc ctx okRows okReacts now true d2 c in
  toasts d3 = toasts d ++ [mkToast t1 b1 p1; mkToast t2 b2 p2]
  ∧ g_window d3 = Some (mkWindow false (w_maximized w) true true)
  ∧ m_activePeer c' = p2 ∧ p2 ∈ UserModel.m_users (m_users c').
Proof.
  intros Ht Hw Hp. unfold notify. rewrite Ht. cbn [g_tray negb]. unfold messageClicked.
  cbn [raiseMainWindow g_lastPeer g_window]. rewrite Hw.
  destruct (String.eqb_spec p2 ""); [done|]. cbn [negb andb].
  pose proof (open_shows loc ctx okRows okReacts now p2 c Hp) as Ho. cbv zeta in Ho.
  destruct (openConversationFromNotification _ _ _ _ _ _ _) as [[c' outs] calls].
  cbn in Ho |- *. split_and!; [by rewrite <- app_assoc|done|apply Ho..].
Qed.

(** A balloon survives the user it was shown to.  Logging out does not forget it: whoever
    is at the client next, a click on it puts the contact of the former user into the list
    of the client as it then is and makes that conversation the active one. *)
Theorem toast_survives_logout `{Sodium} `{QtText} `{QStringOrder} `{SqlOrder} loc ctx okRows
    okReacts now d (chat : Messenger.Chat) title body peer :
  g_tray d = true → peer ≠ "" →
  let before := notify title body peer d in
  let after := Messenger.client (Session.forget_user chat) in
  let '(_, (c', outs, _)) := messageClicked loc ctx okRows okReacts now true before after in
  m_activePeer c' = peer ∧ peer ∈ UserModel.m_users (m_users c') ∧ outs = [GetKey peer].
Proof.
  intros Ht Hp. unfold notify. rewrite Ht. unfold messageClicked.
  cbn [negb raiseMainWindow g_lastPeer]. destruct (String.eqb_spec peer "") as [|Hn]; [done|].
  cbn [negb andb].
  pose proof (open_shows loc ctx okRows okReacts now peer (Messenger.client (Session.forget_user chat)) Hp) as Ho.
  cbv zeta in Ho. set (o := openConversationFromNotification _ _ _ _ _ _ _) in *.
  assert (o.1.2 = [GetKey peer]) as E1.
  { subst o. unfold openConversationFromNotification, setActivePeer. cbn [fst].
    destruct (String.eqb_spec peer ""); [done|].
    cbn [Session.forget_user Messenger.client set_user_list m_activePeer set_active m_peerKeys].
    destruct (String.eqb_spec "" peer); [congruence|].
    destruct (String.eqb_spec peer ""); [done|]. by rewrite lookup_empty. }
  clearbody o. destruct o as [[c' outs] calls]. cbn in *. by destruct Ho.
Qed.
End Notifier.
