(* ===== verification/Effects.v ===== *)
(** * Effects of operations: a logic of relations between client, events and client

    An operation has the effect [R] when [R] relates every client it starts in, the
    events it emits and the client it leaves.  An [Effect] is closed under doing
    nothing and doing one thing after another, so it is enough to show it of the
    steps that matter; the tactic [effects] takes an operation apart. *)

From S2P Require Import Prelude Platform Kdf Ratchet X3dh CryptoBox Persist MessageModel.
From S2P Require Import UserModel HistoryStore FileCrypto Chat Messenger Rekey.

Import ChatClient Messenger Rekey.

Definition relation : Type := Chat → list Event → Chat → Prop.

Class Effect (R : relation) : Prop := {
  effect_refl c : R c [] c;
  effect_trans c1 e1 c2 e2 c3 : R c1 e1 c2 → R c2 e2 c3 → R c1 (e1 ++ e2) c3;
}.

(** At one client, and at every client. *)
Definition effect_at (R : relation) {A} (m : M A) (c : Chat) : Prop := R c (m c).2 (m c).1.2.
Definition has_effect (R : relation) {A} (m : M A) : Prop := ∀ c, effect_at R m c.

(** ** How the monad computes *)
Lemma bind_eq {A B} (m : M A) (k : A → M B) c :
  (m ≫= k) c = ((k (m c).1.1 (m c).1.2).1, (m c).2 ++ (k (m c).1.1 (m c).1.2).2).
Proof.
  unfold mbind, M_bind. destruct (m c) as [[x c1] e1]. cbn. by destruct (k x c1) as [[y c2] e2].
Qed.

Lemma bind_result {A B} (m : M A) (k : A → M B) c :
  ((m ≫= k) c).1.1 = (k (m c).1.1 (m c).1.2).1.1.
Proof. by rewrite bind_eq. Qed.
Lemma bind_state {A B} (m : M A) (k : A → M B) c :
  ((m ≫= k) c).1.2 = (k (m c).1.1 (m c).1.2).1.2.
Proof. by rewrite bind_eq. Qed.
Lemma bind_events {A B} (m : M A) (k : A → M B) c :
  ((m ≫= k) c).2 = (m c).2 ++ (k (m c).1.1 (m c).1.2).2.
Proof. by rewrite bind_eq. Qed.

Lemma gets_eq {A B} (f : Chat → A) (k : A → M B) c : (gets f ≫= k) c = k (f c) c.
Proof. rewrite bind_eq. cbn. by destruct (k (f c) c). Qed.

Lemma here_eq {B} (k : Chat → M B) c : (gets id ≫= k) c = k c c.
Proof. apply gets_eq. Qed.

Lemma ret_eq {A B} (x : A) (k : A → M B) c : (mret x ≫= k) c = k x c.
Proof. rewrite bind_eq. cbn. by destruct (k x c). Qed.

Lemma bind_assoc {A B C} (m : M A) (k : A → M B) (h : B → M C) c :
  ((m ≫= k) ≫= h) c = (m ≫= (λ x, k x ≫= h)) c.
Proof. rewrite !bind_eq. cbn. by rewrite <- app_assoc. Qed.

(** ** Rules *)
Section Rules.
Context (R : relation) `{!Effect R}.

Lemma effect_ret {A} (x : A) : has_effect R (mret x).
Proof. intros c. apply effect_refl. Qed.

Lemma effect_gets {A} (f : Chat → A) : has_effect R (gets f).
Proof. intros c. apply effect_refl. Qed.

Lemma effect_bind_at {A B} (m : M A) (k : A → M B) c :
  effect_at R m c → effect_at R (k (m c).1.1) (m c).1.2 → effect_at R (m ≫= k) c.
Proof.
  intros Hm Hk. unfold effect_at. rewrite bind_eq. by eapply effect_trans.
Qed.

Lemma effect_bind {A B} (m : M A) (k : A → M B) :
  has_effect R m → (∀ x, has_effect R (k x)) → has_effect R (m ≫= k).
Proof. intros Hm Hk c. apply effect_bind_at; [apply Hm|apply Hk]. Qed.

(** What is read may be used to choose what is done. *)
Lemma effect_gets_at {A B} (f : Chat → A) (k : A → M B) c :
  effect_at R (k (f c)) c → effect_at R (gets f ≫= k) c.
Proof. unfold effect_at. by rewrite gets_eq. Qed.

Lemma effect_gets_bind {A B} (f : Chat → A) (k : A → M B) :
  (∀ c, effect_at R (k (f c)) c) → has_effect R (gets f ≫= k).
Proof. intros Hk c. by apply effect_gets_at. Qed.

Lemma effect_when b m : (b = true → has_effect R m) → has_effect R (when b m).
Proof. intros Hm. destruct b; [by apply Hm|apply effect_ret]. Qed.

Lemma effect_for_each {A} (l : list A) body :
  (∀ x, x ∈ l → has_effect R (body x)) → has_effect R (for_each l body).
Proof.
  induction l as [|x l IH]; intros Hb; [apply effect_ret|]. cbn [for_each].
  apply effect_bind; [apply Hb; by left|]. intros _. apply IH. intros y Hy. apply Hb. by right.
Qed.

Lemma effect_for_any {A} (l : list A) body :
  (∀ x, has_effect R (body x)) → has_effect R (for_any l body).
Proof.
  intros Hb. induction l as [|x l IH]; [apply effect_ret|]. cbn [for_any].
  apply effect_bind; [apply Hb|]. intros b. apply effect_bind; [apply IH|]. intros b'.
  apply effect_ret.
Qed.

Lemma effect_modify f : (∀ c, R c [] (f c)) → has_effect R (modify f).
Proof. intros Hf c. apply Hf. Qed.

Lemma effect_emit e : (∀ c, R c [e] c) → has_effect R (emit e).
Proof. intros He c. apply He. Qed.
End Rules.

(** An effect that reads neither the draws nor silent events. *)
Class Quiet (R : relation) : Prop := {
  quiet_tick c : R c [] (mkChat (client c) (gate c) (pcs c) (link c) (transfers c) (S (ticks c)));
}.

Lemma effect_tick R `{!Quiet R} : has_effect R tick.
Proof. intros c. apply quiet_tick. Qed.

Section Draws.
Context (R : relation) `{!Effect R} `{!Quiet R} `{Oracle}.
Lemma effect_now : has_effect R now.
Proof. apply effect_bind; [done|by apply effect_tick|intros i; by apply effect_ret]. Qed.
Lemma effect_draw n : has_effect R (draw n).
Proof. apply effect_bind; [done|by apply effect_tick|intros i; by apply effect_ret]. Qed.
Lemma effect_ok : has_effect R ok.
Proof. apply effect_bind; [done|by apply effect_tick|intros i; by apply effect_ret]. Qed.
Lemma effect_uuid : has_effect R createUuid.
Proof. apply effect_bind; [done|by apply effect_tick|intros i; by apply effect_ret]. Qed.
Lemma effect_date : has_effect R currentDate.
Proof. apply effect_bind; [done|by apply effect_tick|intros i; by apply effect_ret]. Qed.
Lemma effect_file p : has_effect R (readFile p).
Proof. apply effect_bind; [done|by apply effect_tick|intros i; by apply effect_ret]. Qed.
End Draws.

(** The lemmas that decide atomic steps; their class premises are inferred. *)
Create HintDb effects.
#[export] Hint Extern 0 (has_effect _ (mret _)) => (eapply effect_ret; apply _) : effects.
#[export] Hint Extern 0 (has_effect _ (gets _)) => (eapply effect_gets; apply _) : effects.
#[export] Hint Extern 0 (has_effect _ tick) => (eapply effect_tick; apply _) : effects.
#[export] Hint Extern 0 (has_effect _ now) => (eapply effect_now; apply _) : effects.
#[export] Hint Extern 0 (has_effect _ (draw _)) => (eapply effect_draw; apply _) : effects.
#[export] Hint Extern 0 (has_effect _ ok) => (eapply effect_ok; apply _) : effects.
#[export] Hint Extern 0 (has_effect _ createUuid) => (eapply effect_uuid; apply _) : effects.
#[export] Hint Extern 0 (has_effect _ currentDate) => (eapply effect_date; apply _) : effects.
#[export] Hint Extern 0 (has_effect _ (readFile _)) => (eapply effect_file; apply _) : effects.

(** Take an operation apart down to steps the database knows. *)
Ltac effect_step :=
  match goal with
  | |- has_effect _ (mbind _ (gets _)) => refine (effect_gets_bind _ _ _ _); intros ?; cbv beta delta [id]
  | |- effect_at _ (mbind _ (gets _)) _ => refine (effect_gets_at _ _ _ _ _); cbv beta delta [id]
  | |- has_effect _ (mbind _ _) => refine (effect_bind _ _ _ _ _); [|intros ?]
  | |- has_effect _ (when _ _) => refine (effect_when _ _ _ _); intros ?
  | |- has_effect _ (for_each _ _) => refine (effect_for_each _ _ _ _); intros ? ?
  | |- has_effect _ (for_any _ _) => refine (effect_for_any _ _ _ _); intros ?
  | |- has_effect _ (if ?b then _ else _) => destruct b eqn:?
  | |- has_effect _ (match ?x with _ => _ end) => destruct x eqn:?
  | |- effect_at ?R ?m ?c => lazymatch m with
                             | if ?b then _ else _ => destruct b eqn:?
                             | match ?x with _ => _ end => destruct x eqn:?
                             | _ => refine ((_ : has_effect R m) c)
                             end
  end.

Ltac effects := repeat first [solve [eauto with effects] | effect_step].
