(* ===== verification/GateFacts.v ===== *)
(** * The gate: what crosses it and what opens it *)

From S2P Require Import Prelude Platform Kdf Ratchet X3dh CryptoBox Persist MessageModel.
From S2P Require Import UserModel HistoryStore FileCrypto Chat Messenger Rekey Sending.
From S2P Require Import Verification Receiving Effects.

Import ChatClient Messenger Rekey Sending Verification Receiving.

(** ** Frames that only an open gate lets through *)

(** Texts, edits, files and rekey pings, with the contact they go to. *)
Definition gated_to (f : Frame) : option string :=
  match f with
  | FMsg m => if String.eqb (g_kind m) "" || String.eqb (g_kind m) "rekey-ping"
              then Some (g_to m) else None
  | FFileInit i => Some (fi_to i)
  | _ => None
  end.

Definition gated_event (e : Event) : option string :=
  match e with Sent f => gated_to f | _ => None end.

Definition is_open (p : string) (c : Chat) : Prop := conversationBlocked p c = false.

(** No gate closes, and what is sent goes to contacts whose gate is open. *)
Record crossing (c : Chat) (ev : list Event) (c' : Chat) : Prop := {
  cr_gate p : is_open p c → is_open p c';
  cr_sent e p : e ∈ ev → gated_event e = Some p → is_open p c';
}.

#[export] Instance crossing_effect : Effect crossing.
Proof.
  split.
  - intros c. split; [done|]. by intros e p ?%not_elem_of_nil.
  - intros c1 e1 c2 e2 c3 [G1 S1] [G2 S2]. split; [eauto|].
    intros e p [He|He]%elem_of_app Hp; eauto.
Qed.

(** [R] under an invariant that it keeps. *)
Definition under (I : Chat → Prop) (R : relation) : relation :=
  λ c ev c', I c → R c ev c' ∧ I c'.

#[export] Instance under_effect I R : Effect R → Effect (under I R).
Proof.
  intros [Hr Ht]. split; [by split|]. intros c1 e1 c2 e2 c3 H1 H2 Hi.
  destruct (H1 Hi) as [R1 I1]. destruct (H2 I1) as [R2 I2]. split; [by eapply Ht|done].
Qed.

Lemma under_at I R {A} (m : M A) c : has_effect (under I R) m → I c → effect_at R m c.
Proof. intros Hm Hi. by destruct (Hm c Hi). Qed.

(** What most steps leave alone. *)
Record same_core (c c' : Chat) : Prop := {
  sc_gate : gate c' = gate c;
  sc_key : m_publicKey (box c') = m_publicKey (box c);
  sc_stash : m_pendingFrames (link c') = m_pendingFrames (link c);
}.

(** Among those, the steps that also leave alone who is at the two ends, and the
    queue. *)
Definition ends (cl : Client) : string * gmap string string * bool :=
  (ChatClient.m_nick cl, m_peerKeys cl, m_connected cl).
Definition same_keys (c c' : Chat) : Prop := ends (client c') = ends (client c).
Lemma same_keys_spec c c' : same_keys c c' →
  self c' = self c ∧ connected c' = connected c ∧ (∀ p, key_of p c' = key_of p c) ∧
  ∀ p, has_key p c' = has_key p c.
Proof.
  unfold same_keys, ends, self, connected, key_of, has_key. intros [= -> -> ->]. done.
Qed.

Definition same_queue (c c' : Chat) : Prop := m_outbox (client c') = m_outbox (client c).

(** And which frames have been seen. *)
Definition same_seen (c c' : Chat) : Prop := m_seenFrames (link c') = m_seenFrames (link c).

(** An effect that does not see such steps, when they send nothing gated; *)
Class Fine (R : relation) := {
  fq_effect :: Effect R;
  fq_step c e c' : same_core c c' → same_keys c c' → same_queue c c' → same_seen c c' →
    e ≫= gated_event = None → R c (option_list e) c';
}.

(** that allows a frame to be seen; *)
Definition see (p k : string) (l : Link) : Link :=
  set_seen (<[p := {[k]} ∪ default ∅ (m_seenFrames l !! p)]> (m_seenFrames l)) l.
Class Sees (R : relation) := sees_step p k : has_effect R (on_link (see p k)).

(** that allows the queue to grow, and to be emptied; *)
Class Queues (R : relation) := queues_step c c' l :
  same_core c c' → same_keys c c' → same_seen c c' →
  m_outbox (client c') = m_outbox (client c) ++ l → R c [] c'.
Class Flushes (R : relation) :=
  flushes_step c : R c [] (set_client (set_queue [] (client c)) c).

(** that allows a contact's key to be replaced; *)
Class Keys (R : relation) := keys_step p k c :
  R c [] (set_client (set_peerKeys (<[p := k]> (m_peerKeys (client c))) (client c)) c).

(** that allows a gated frame while the gate is open. *)
Class GateEffect (R : relation) := {
  ge_fine :: Fine R;
  ge_send c f : (∀ p, gated_to f = Some p → is_open p c) → R c [Sent f] c;
}.

(** An effect that sees the core only. *)
Class GateQuiet (R : relation) := {
  gq_effect :: Effect R;
  gq_step c e c' : same_core c c' → e ≫= gated_event = None → R c (option_list e) c';
}.

#[export] Instance quiet_fine R : GateQuiet R → Fine R.
Proof. intros [He Hs]. split; [done|]. intros c e c' Hc _ _ _. by apply Hs. Qed.
#[export] Instance quiet_sees R : GateQuiet R → Sees R.
Proof. intros [He Hs] p k c. by apply (Hs c None). Qed.
#[export] Instance quiet_queues R : GateQuiet R → Queues R.
Proof. intros [He Hs] c c' l Hc _ _ _. by apply (Hs c None). Qed.
#[export] Instance quiet_flushes R : GateQuiet R → Flushes R.
Proof. intros [He Hs] c. by apply (Hs c None). Qed.
#[export] Instance quiet_keys R : GateQuiet R → Keys R.
Proof. intros [He Hs] p k c. by apply (Hs c None). Qed.

Lemma open_same_gate p c c' : gate c' = gate c → is_open p c' ↔ is_open p c.
Proof. unfold is_open, conversationBlocked. by intros ->. Qed.

#[export] Instance crossing_quiet : GateQuiet crossing.
Proof.
  split; [apply _|].
  intros c e c' [Hg _ _] He. split; [intros p; by apply open_same_gate|].
  intros e' p Hin Hp. destruct e as [e|]; [|by apply not_elem_of_nil in Hin].
  apply list_elem_of_singleton in Hin as ->. cbn in He. congruence.
Qed.

#[export] Instance crossing_gate : GateEffect crossing.
Proof.
  split; [apply _|]. intros c f Hf. split; [done|]. intros e p ->%list_elem_of_singleton. apply Hf.
Qed.

(** An invariant of the core. *)
Class CoreInv (I : Chat → Prop) := core_inv c c' : same_core c c' → I c → I c'.

#[export] Instance open_core p : CoreInv (is_open p).
Proof. intros c c' [Hg _ _]. by apply open_same_gate. Qed.

#[export] Instance under_quiet I R : CoreInv I → GateQuiet R → GateQuiet (under I R).
Proof.
  intros HI [HR Hs]. split; [apply _|]. intros c e c' Hc He Hi. split; [by apply Hs|].
  by apply (HI c).
Qed.

#[export] Instance under_fine I R : CoreInv I → Fine R → Fine (under I R) | 10.
Proof.
  intros HI [HR Hs]. split; [apply _|]. intros c e c' Hc Hk Hq Hn He Hi. split; [by apply Hs|].
  by apply (HI c).
Qed.

#[export] Instance under_queues I R : CoreInv I → Queues R → Queues (under I R) | 10.
Proof. intros HI HR c c' l Hc Hk Hn Hq Hi. split; [by eapply HR|by apply (HI c)]. Qed.

#[export] Instance under_sees I R : CoreInv I → Sees R → Sees (under I R) | 10.
Proof. intros HI HR p k c Hi. split; [by apply HR|by apply (HI c)]. Qed.

#[export] Instance under_flushes I R : CoreInv I → Flushes R → Flushes (under I R) | 10.
Proof. intros HI HR c Hi. split; [by apply HR|by apply (HI c)]. Qed.

#[export] Instance under_keys I R : CoreInv I → Keys R → Keys (under I R) | 10.
Proof. intros HI HR p k c Hi. split; [by apply HR|by apply (HI c)]. Qed.

#[export] Instance under_gate I R : CoreInv I → GateEffect R → GateEffect (under I R).
Proof. intros HI [HR Hs]. split; [apply _|]. intros c f Hf Hi. split; [by apply Hs|done]. Qed.

(** Nothing gated is sent at all. *)
Definition ungated (c : Chat) (ev : list Event) (c' : Chat) : Prop :=
  ∀ e, e ∈ ev → gated_event e = None.

#[export] Instance ungated_quiet : GateQuiet ungated.
Proof.
  split; [split|].
  - by intros c e ?%not_elem_of_nil.
  - intros c1 e1 c2 e2 c3 H1 H2 e [He|He]%elem_of_app; eauto.
  - intros c e c' _ He e' Hin. destruct e as [e|]; [|by apply not_elem_of_nil in Hin].
    by apply list_elem_of_singleton in Hin as ->.
Qed.

(** ** Our public key never changes in a session *)
Section PublicKey.
Context `{Sodium} `{QtText} `{QHashOrder}.

Lemma sessionFor_public p rnd b s b1 : sessionFor p rnd b = Some (s, b1) → m_publicKey b1 = m_publicKey b.
Proof.
  unfold sessionFor. destruct (m_sessions b !! p); [by intros [= _ <-]|].
  destruct (m_peerIdentity b !! p); [|done]. case_decide; [done|]. by intros [= _ <-].
Qed.

Lemma encryptFor_public p t rnd nonce b : m_publicKey (encryptFor p t rnd nonce b).2 = m_publicKey b.
Proof.
  unfold encryptFor. destruct (sessionFor p rnd b) as [[s b1]|] eqn:E; [|done].
  apply sessionFor_public in E. case_decide; [done|]. by destruct (encryptStep _ _ _).
Qed.

Lemma decryptFrom_public p w rnd rndR b : m_publicKey (decryptFrom p w rnd rndR b).2 = m_publicKey b.
Proof.
  unfold decryptFrom. destruct (sessionFor p rnd b) as [[s b1]|] eqn:E; [|done].
  apply sessionFor_public in E. by destruct (decryptStep _ _ _) as [[]|].
Qed.

Lemma ensureSharedKey_public p k b : m_publicKey (ensureSharedKey p k b).2 = m_publicKey b.
Proof. unfold ensureSharedKey. by repeat case_match. Qed.

Lemma dropSession_public p b : m_publicKey (dropSession p b).2 = m_publicKey b.
Proof. done. Qed.

Lemma accept_public p a e i u b : m_publicKey (acceptX3dhSession p a e i u b).2 = m_publicKey b.
Proof.
  unfold acceptX3dhSession, takeOneTimePrekey. break. all: by break.
Qed.

Lemma begin_public p a b' c d i e r b :
  m_publicKey (match beginX3dhSession p a b' c d i e r b with
               | None => (None, b)
               | Some (x, y, z, b1) => (Some (x, y, z), b1)
               end).2 = m_publicKey b.
Proof. unfold beginX3dhSession. break. all: by break. Qed.
End PublicKey.

Create HintDb public_key.
#[export] Hint Resolve encryptFor_public decryptFrom_public ensureSharedKey_public
  dropSession_public accept_public begin_public : public_key.

Section Steps.
Context (R : relation) `{!Fine R}.

Lemma fine_step c c' :
  same_core c c' → same_keys c c' → same_queue c c' → same_seen c c' → R c [] c'.
Proof. intros Hc Hk Hq Hs. by apply (fq_step c None c'). Qed.

#[export] Instance fine_draws : Quiet R.
Proof. split. intros c. by apply fine_step. Qed.

(** Updates of the client that the lemmas below do not see. *)
Definition plain (cl cl' : Client) : Prop :=
  m_publicKey (m_crypto cl') = m_publicKey (m_crypto cl) ∧
  ends cl' = ends cl ∧ m_outbox cl' = m_outbox cl.

Lemma ge_client f : (∀ cl, plain cl (f cl)) → has_effect R (on_client f).
Proof. intros Hf c. destruct (Hf (client c)) as (Hp & Hk & Hq). by apply fine_step. Qed.
Lemma ge_with {A} (f : Client → A * Client) :
  (∀ cl, plain cl (f cl).2) → has_effect R (with_client f).
Proof.
  intros Hf c. unfold effect_at, with_client. destruct (Hf (client c)) as (Hp & Hk & Hq).
  destruct (f (client c)). by apply fine_step.
Qed.
Lemma ge_box {A} (f : CryptoBox → A * CryptoBox) :
  (∀ b, m_publicKey (f b).2 = m_publicKey b) → has_effect R (on_box f).
Proof.
  intros Hf. apply ge_with. intros cl. pose proof (Hf (m_crypto cl)) as Hk.
  by destruct (f (m_crypto cl)).
Qed.
Lemma ge_pcs f : has_effect R (on_pcs f).
Proof. intros c. by apply fine_step. Qed.
Lemma ge_transfers f : has_effect R (on_transfers f).
Proof. intros c. by apply fine_step. Qed.
Lemma ge_link f :
  (∀ l, m_pendingFrames (f l) = m_pendingFrames l ∧ m_seenFrames (f l) = m_seenFrames l) →
  has_effect R (on_link f).
Proof.
  intros Hf c. destruct (Hf (link c)) as [Hp Hs]. apply fine_step; [by split|done|done|exact Hs].
Qed.
Lemma ge_emit e : gated_event e = None → has_effect R (emit e).
Proof. intros He c. by apply (fq_step c (Some e) c). Qed.

(** The queue and the keys of contacts. *)
Lemma ge_append f `{!Queues R} :
  (∀ cl, m_publicKey (m_crypto (f cl)) = m_publicKey (m_crypto cl) ∧
    ends (f cl) = ends cl ∧ ∃ l, m_outbox (f cl) = m_outbox cl ++ l) →
  has_effect R (on_client f).
Proof. intros Hf c. destruct (Hf (client c)) as (Hp & Hk & l & Hq). by eapply queues_step. Qed.
Lemma ge_key p k `{!Keys R} :
  has_effect R (on_client (λ c, set_peerKeys (<[p := k]> (m_peerKeys c)) c)).
Proof. intros c. by apply keys_step. Qed.
Lemma ge_clear `{!Flushes R} : has_effect R (on_client (set_queue [])).
Proof. intros c. apply flushes_step. Qed.
End Steps.
#[export] Hint Extern 0 (has_effect _ (on_client (set_queue []))) =>
  (eapply ge_clear; apply _) : effects.
#[export] Hint Extern 0 (has_effect _ (on_client (λ _, set_peerKeys _ _))) =>
  (eapply ge_key; apply _) : effects.

(** An event that is not gated, by computation. *)
#[export] Hint Extern 1 (has_effect _ (emit _)) => (apply ge_emit; [apply _|reflexivity]) : effects.
#[export] Hint Extern 1 (has_effect _ (send _)) => (apply ge_emit; [apply _|reflexivity]) : effects.
#[export] Hint Extern 1 (has_effect _ (on_client _)) => (eapply ge_client; [apply _|by repeat split]) : effects.
#[export] Hint Extern 0 (has_effect _ (on_box _)) =>
  (eapply ge_box; [apply _|eauto with public_key]) : effects.
#[export] Hint Extern 0 (has_effect _ (on_pcs _)) => (eapply ge_pcs; apply _) : effects.
#[export] Hint Extern 0 (has_effect _ (on_transfers _)) => (eapply ge_transfers; apply _) : effects.
#[export] Hint Extern 1 (has_effect _ (on_link _)) => (eapply ge_link; [apply _|by repeat split]) : effects.
#[export] Hint Extern 2 (has_effect _ (on_link (λ _, set_seen _ _))) =>
  (refine (sees_step _ _); apply _) : effects.
#[export] Hint Extern 1 (has_effect _ (on_messages _)) => (eapply ge_client; [apply _|by repeat split]) : effects.
#[export] Hint Extern 1 (has_effect _ (on_users _)) => (eapply ge_client; [apply _|by repeat split]) : effects.

Section Shared.
Context (R : relation) `{!Fine R} `{Sodium} `{QtText} `{QDataStream} `{QHashOrder} `{Oracle}.

Lemma ge_store {A} (f : bool → HistoryStore.Store → A * HistoryStore.Store) :
  has_effect R (on_store f).
Proof.
  unfold on_store. refine (effect_bind _ _ _ _ _); [effects|]. intros o.
  refine (ge_with R _ _). intros cl. by destruct (f o (m_history cl)).
Qed.
Lemma ge_persist p : has_effect R (persist p).
Proof.
  unfold persist. refine (effect_bind _ _ _ _ _); [effects|]. intros o.
  refine (effect_bind _ _ _ _ _); [effects|]. intros t. refine (ge_client R _ _). intros cl.
  unfold persistSession. by destruct (HistoryStore.m_ready _).
Qed.
Lemma ge_encrypt p t : has_effect R (encrypt p t).
Proof. unfold encrypt. effects. Qed.
Lemma ge_seal t : has_effect R (seal t).
Proof. unfold seal. effects. Qed.
Lemma ge_request p : has_effect R (requestKeyFor p).
Proof. unfold requestKeyFor. effects. Qed.
End Shared.
#[export] Hint Extern 0 (has_effect _ (on_store _)) => (eapply ge_store; apply _) : effects.
#[export] Hint Extern 0 (has_effect _ (persist _)) => (eapply ge_persist; apply _) : effects.
#[export] Hint Extern 0 (has_effect _ (encrypt _ _)) => (eapply ge_encrypt; apply _) : effects.
#[export] Hint Extern 0 (has_effect _ (seal _)) => (eapply ge_seal; apply _) : effects.
#[export] Hint Extern 0 (has_effect _ (requestKeyFor _)) => (eapply ge_request; apply _) : effects.

Lemma ge_line R `{!Fine R} `{Oracle} p l : has_effect R (system_line p l).
Proof. unfold system_line. effects. Qed.
#[export] Hint Extern 0 (has_effect _ (system_line _ _)) => (eapply ge_line; apply _) : effects.

Lemma ge_send_open R `{!GateEffect R} p f :
  gated_to f = Some p → has_effect (under (is_open p) R) (send f).
Proof.
  intros Hf c Hi. split; [|exact Hi]. refine (ge_send c f _).
  intros p' Hp'. rewrite Hf in Hp'. by injection Hp' as <-.
Qed.
#[export] Hint Extern 1 (has_effect (under (is_open _) _) (send _)) =>
  (eapply ge_send_open; [apply _|reflexivity]) : effects.

(** ** Rekeying *)
Section Rekeying.
Context (R : relation) `{!Fine R}.
Context `{Sodium} `{QtText} `{QDataStream} `{QHashOrder} `{QStringOrder} `{Oracle}.

Lemma ge_handshake p : has_effect R (transmitHandshake p).
Proof. unfold transmitHandshake, transmit_control. effects. Qed.

Lemma ge_rekey `{!GateEffect R} p b : has_effect R (transmitRekey p b).
Proof.
  unfold transmitRekey. refine (effect_gets_bind _ _ _ _). intros c. cbv beta delta [id]. destruct b; cbn [negb andb].
  - unfold transmit_control.
    refine ((_ : has_effect R _) c). effects.
  - destruct (conversationBlocked p c) eqn:Hp; [by apply effect_ret, _|].
    destruct (negb _); [by apply effect_ret, _|].
    apply (under_at (is_open p)); [|exact Hp]. unfold transmit_control. effects.
Qed.
End Rekeying.
#[export] Hint Extern 0 (has_effect _ (transmitHandshake _)) => (eapply ge_handshake; apply _) : effects.
#[export] Hint Extern 0 (has_effect _ (transmitRekey _ _)) => (eapply ge_rekey; apply _) : effects.

Section Heartbeat.
Context (R : relation) `{!Fine R}.
Context `{Sodium} `{QtText} `{QDataStream} `{QHashOrder} `{QStringOrder} `{Oracle}.

Lemma ge_mark p : has_effect R (markRekeyPingSent p).
Proof. unfold markRekeyPingSent. effects. Qed.
Lemma ge_restart : has_effect R restart_kick.
Proof. unfold restart_kick. effects. Qed.
Lemma ge_count p n : has_effect R (set_count p n).
Proof. unfold set_count. effects. Qed.
Lemma ge_inbound p : has_effect R (noteInboundFrom p).
Proof. unfold noteInboundFrom, set_count. effects. Qed.
Lemma ge_reset p : has_effect R (resetPcsFor p).
Proof. unfold resetPcsFor. effects. Qed.
Lemma ge_rearm f : has_effect R (modify (λ c, set_pcs (f c) c)).
Proof. intros c. by apply (fine_step R c). Qed.
End Heartbeat.
#[export] Hint Extern 0 (has_effect _ (markRekeyPingSent _)) => (eapply ge_mark; apply _) : effects.
#[export] Hint Extern 0 (has_effect _ restart_kick) => (eapply ge_restart; apply _) : effects.
#[export] Hint Extern 0 (has_effect _ (set_count _ _)) => (eapply ge_count; apply _) : effects.
#[export] Hint Extern 0 (has_effect _ (modify (λ c, set_pcs _ c))) => (eapply ge_rearm; apply _) : effects.

Section Heartbeat2.
Context (R : relation) `{!GateEffect R}.
Context `{Sodium} `{QtText} `{QDataStream} `{QHashOrder} `{QStringOrder} `{Oracle}.

Lemma ge_outbound p : has_effect R (noteOutboundTo p).
Proof. unfold noteOutboundTo. effects. Qed.
Lemma ge_kick : has_effect R kickRekey.
Proof.
  unfold kickRekey, kick_in_flight, kick_counted, kick_owed, kick_heal. effects.
Qed.
Lemma ge_kick_timer : has_effect R onKickTimer.
Proof. unfold onKickTimer. pose proof ge_kick. effects. Qed.
Lemma ge_rekey_timer : has_effect R onRekeyTimer.
Proof. unfold onRekeyTimer. effects. Qed.
Lemma ge_owed p : has_effect R (sendOwedPongIfReady p).
Proof. unfold sendOwedPongIfReady. effects. Qed.
Lemma ge_reestablish : has_effect R reestablishPcsForAll.
Proof. unfold reestablishPcsForAll, reestablish_one. effects. Qed.
Lemma ge_force p : has_effect R (forceRekey p).
Proof. unfold forceRekey. effects. Qed.
End Heartbeat2.
#[export] Hint Extern 0 (has_effect _ (noteOutboundTo _)) => (eapply ge_outbound; apply _) : effects.
#[export] Hint Extern 0 (has_effect _ (noteInboundFrom _)) => (eapply ge_inbound; apply _) : effects.
#[export] Hint Extern 0 (has_effect _ (resetPcsFor _)) => (eapply ge_reset; apply _) : effects.
#[export] Hint Extern 0 (has_effect _ (sendOwedPongIfReady _)) => (eapply ge_owed; apply _) : effects.

(** ** Sending *)
Section Sends.
Context (R : relation) `{!Fine R} `{!Queues R}.
Context `{Sodium} `{QtText} `{QDataStream} `{QHashOrder} `{QStringOrder} `{QTrim}.
Context `{Oracle} `{QFiles}.

Lemma ge_drop_row m : has_effect R (drop_row m).
Proof. unfold drop_row. effects. Qed.
Lemma ge_requeue m : has_effect R (requeue m).
Proof. unfold requeue. refine (ge_append R _ _). intros cl. split_and!; [done..|by eexists]. Qed.
Lemma queueOutbox_queue okH okO mid nonce p t ts cl :
  let cl' := (queueOutbox okH okO mid nonce p t ts cl).2 in
  m_publicKey (m_crypto cl') = m_publicKey (m_crypto cl) ∧ ends cl' = ends cl ∧
  ∃ l, m_outbox cl' = m_outbox cl ++ l.
Proof.
  cbv zeta. unfold queueOutbox. destruct (localSeal _ _ _) as [[]|]; cbn; [|by repeat econstructor].
  destruct (HistoryStore.m_ready _); [|by repeat econstructor].
  destruct (HistoryStore.enqueueOutboxText _ _ _ _ _ _ _). by repeat econstructor.
Qed.

Lemma ge_queue_text p t ts : has_effect R (queue_text p t ts).
Proof.
  unfold queue_text. do 4 (refine (effect_bind _ _ _ _ _); [effects|]; intros ?).
  intros c. unfold effect_at, with_client.
  match goal with |- context [queueOutbox ?a ?b ?d ?e p t ts ?cl] =>
    destruct (queueOutbox_queue a b d e p t ts cl) as (Hp & Hk & l & Hq);
    destruct (queueOutbox a b d e p t ts cl) end.
  by eapply queues_step.
Qed.
Lemma ge_queue_file p f ts : has_effect R (queue_file p f ts).
Proof.
  unfold queue_file. refine (effect_bind _ _ _ _ _); [effects|]. intros o.
  refine (ge_append R _ _). intros cl. unfold queueOutboxFile.
  destruct (HistoryStore.m_ready _); [|by repeat econstructor].
  destruct (HistoryStore.enqueueOutboxFile _ _ _ _ _ _). by repeat econstructor.
Qed.
Lemma ge_transmit_ack p i : has_effect R (transmitVerifyAck p i).
Proof. unfold transmitVerifyAck. effects. Qed.
Lemma ge_typing p s : has_effect R (sendTypingState p s).
Proof. unfold sendTypingState. effects. Qed.
Lemma ge_pump fuel mid d i a b t f : has_effect R (pump_chunks fuel mid d i a b t f).
Proof.
  revert d a b f. induction fuel as [|fuel IH]; intros d a b f; cbn [pump_chunks]; effects.
Qed.
Lemma ge_take p : has_effect R (take_opener p).
Proof. unfold take_opener. effects. Qed.
Lemma ge_add_own t m ts : has_effect R (add_own t m ts).
Proof. unfold add_own. effects. Qed.
End Sends.
#[export] Hint Extern 0 (has_effect _ (drop_row _)) => (eapply ge_drop_row; apply _) : effects.
#[export] Hint Extern 0 (has_effect _ (requeue _)) => (eapply ge_requeue; apply _) : effects.
#[export] Hint Extern 0 (has_effect _ (queue_text _ _ _)) => (eapply ge_queue_text; apply _) : effects.
#[export] Hint Extern 0 (has_effect _ (queue_file _ _ _)) => (eapply ge_queue_file; apply _) : effects.
#[export] Hint Extern 0 (has_effect _ (transmitVerifyAck _ _)) => (eapply ge_transmit_ack; apply _) : effects.
#[export] Hint Extern 0 (has_effect _ (sendTypingState _ _)) => (eapply ge_typing; apply _) : effects.
#[export] Hint Extern 0 (has_effect _ (pump_chunks _ _ _ _ _ _ _ _)) => (eapply ge_pump; apply _) : effects.
#[export] Hint Extern 0 (has_effect _ (take_opener _)) => (eapply ge_take; apply _) : effects.
#[export] Hint Extern 0 (has_effect _ (add_own _ _ _)) => (eapply ge_add_own; apply _) : effects.

Section Sends2.
Context (R : relation) `{!Fine R} `{!Queues R}.
Context `{Sodium} `{QtText} `{QDataStream} `{QHashOrder} `{QStringOrder} `{QTrim}.
Context `{Oracle} `{QFiles}.

Lemma ge_ack p : has_effect R (sendOrQueueVerifyAck p).
Proof. unfold sendOrQueueVerifyAck, queue_verifyack, queue_control. effects. Qed.
Lemma ge_sendhandshake p : has_effect R (sendOrQueueHandshake p).
Proof. unfold sendOrQueueHandshake, queue_handshake, queue_control. effects. Qed.
Lemma ge_typing_timer : has_effect R onTypingTimer.
Proof. unfold onTypingTimer. effects. Qed.
Lemma ge_notify b : has_effect R (notifyTyping b).
Proof. unfold notifyTyping. effects. Qed.
Lemma ge_announce `{!GateEffect R} p path id d k f :
  has_effect (under (is_open p) R) (announce_file p path id d k f).
Proof. unfold announce_file, pumpOutgoingFile. effects. Qed.
Lemma ge_hold_file p path n : has_effect R (hold_file p path n).
Proof. unfold hold_file. effects. Qed.
Lemma ge_hold_text p t ts n : has_effect R (hold_text p t ts n).
Proof. unfold hold_text. effects. Qed.
End Sends2.
#[export] Hint Extern 0 (has_effect _ (sendOrQueueVerifyAck _)) => (eapply ge_ack; apply _) : effects.
#[export] Hint Extern 0 (has_effect _ (sendOrQueueHandshake _)) => (eapply ge_sendhandshake; apply _) : effects.
#[export] Hint Extern 0 (has_effect _ (hold_file _ _ _)) => (eapply ge_hold_file; apply _) : effects.
#[export] Hint Extern 0 (has_effect _ (hold_text _ _ _ _)) => (eapply ge_hold_text; apply _) : effects.
#[export] Hint Extern 0 (has_effect _ (announce_file _ _ _ _ _ _)) => (eapply ge_announce; apply _) : effects.

Section Sends3.
Context (R : relation) `{!GateEffect R} `{!Queues R}.
Context `{Sodium} `{QtText} `{QDataStream} `{QHashOrder} `{QStringOrder} `{QTrim}.
Context `{Oracle} `{QFiles}.

Lemma ge_file path : has_effect R (sendFile path).
Proof.
  unfold sendFile. refine (effect_gets_bind _ _ _ _). intros c. cbv beta delta [id].
  set (p := active c). destruct (String.eqb p ""); [effects|].
  destruct (conversationBlocked p c) eqn:Hp; [effects|].
  apply (under_at (is_open p)); [|exact Hp]. effects.
Qed.
Lemma ge_flush_text m : has_effect (under (is_open (p_peer m)) R) (flush_text m).
Proof. unfold flush_text. effects. Qed.
End Sends3.
#[export] Hint Extern 0 (has_effect _ (sendFile _)) => (eapply ge_file; apply _) : effects.

Section Sends4.
Context (R : relation) `{!GateEffect R} `{!Queues R}.
Context `{Sodium} `{QtText} `{QDataStream} `{QHashOrder} `{QStringOrder} `{QTrim}.
Context `{Oracle} `{QFiles}.

Lemma ge_flush_item m : has_effect R (flush_item m).
Proof.
  unfold flush_item. refine (effect_gets_bind _ _ _ _). intros c. cbv beta delta [id].
  destruct (negb _); [effects|]. destruct (negb _); [effects|].
  destruct (gated m && _) eqn:Hg; [effects|].
  unfold gated, flush_file, flush_handshake, flush_verifyack in *.
  destruct (p_kind m); cbn in Hg; [|effects..].
  apply (under_at (is_open (p_peer m))); [by refine (ge_flush_text R m)|exact Hg].
Qed.
Lemma ge_flush `{!Flushes R} : has_effect R flushOutbox.
Proof. unfold flushOutbox. pose proof ge_flush_item. effects. Qed.
End Sends4.
#[export] Hint Extern 0 (has_effect _ flushOutbox) => (eapply ge_flush; apply _) : effects.

Section Sends5.
Context (R : relation) `{!GateEffect R} `{!Queues R} `{!Flushes R}.
Context `{Sodium} `{QtText} `{QDataStream} `{QHashOrder} `{QStringOrder} `{QTrim}.
Context `{Oracle} `{QFiles}.

Lemma ge_flush_if : has_effect R flush_if_connected.
Proof. unfold flush_if_connected. effects. Qed.

Lemma ge_message t : has_effect R (sendMessage t).
Proof.
  unfold sendMessage. refine (effect_gets_bind _ _ _ _). intros c. cbv beta delta [id].
  set (p := active c). destruct (String.eqb p ""); [effects|]. destruct (negb _); [effects|].
  destruct (conversationBlocked p c) eqn:Hp; [effects|].
  apply (under_at (is_open p)); [|exact Hp]. effects.
Qed.

Lemma ge_edit mid t : has_effect R (editMessage mid t).
Proof.
  unfold editMessage. refine (effect_gets_bind _ _ _ _). intros c. cbv beta delta [id].
  set (p := active c). destruct (_ || _); [effects|]. destruct (String.eqb _ ""); [effects|].
  destruct (editable_row mid c); [unfold say; effects|]. destruct (negb _); [effects|].
  destruct (conversationBlocked p c) eqn:Hp; [effects|].
  apply (under_at (is_open p)); [|exact Hp]. effects.
Qed.
End Sends5.
#[export] Hint Extern 0 (has_effect _ flush_if_connected) => (eapply ge_flush_if; apply _) : effects.
#[export] Hint Extern 0 (has_effect _ (sendMessage _)) => (eapply ge_message; apply _) : effects.

Lemma ge_resend R `{!GateEffect R} `{!Queues R} `{Sodium} `{QtText} `{QDataStream} `{QHashOrder} `{QStringOrder}
    `{QTrim} `{Oracle} `{QFiles} mid : has_effect R (resendMessage mid).
Proof. unfold resendMessage. effects. Qed.
