(* ===== verification/GateSteps.v ===== *)
(** * Verification and reception, step by step

    What the operations of [Verification] and [Receiving] need of an effect: which
    changes of the gate, of the stash and of contacts' keys it allows. *)

From S2P Require Import Prelude Platform Kdf Ratchet X3dh CryptoBox Persist MessageModel.
From S2P Require Import UserModel HistoryStore FileCrypto Chat Messenger Rekey Sending.
From S2P Require Import Verification Receiving Effects GateFacts.

Import ChatClient Messenger Rekey Sending Verification Receiving.

(** ** Steps that change the gate

    [ours] is our identity in hexadecimal, which a step may record. *)

(** Steps that do not touch who is flagged, pending or has attested. *)
Definition same_sets (g g' : Gate) : Prop :=
  m_unverifiedKeyChange g' = m_unverifiedKeyChange g ∧ m_peerVerified g' = m_peerVerified g ∧
  m_pendingBilateral g' = m_pendingBilateral g ∧
  m_peerVerifiedForIdentity g' = m_peerVerifiedForIdentity g.

Definition resolve (p : string) (g : Gate) : Gate :=
  set_resend (m_verifyAckResend g ∖ {[p]}) (set_bilateral (m_pendingBilateral g ∖ {[p]}) g).
Definition confirm (p : string) (g : Gate) : Gate :=
  set_unverified (m_unverifiedKeyChange g ∖ {[p]}) g.
Definition attest (ours p : string) (g : Gate) : Gate :=
  set_forIdentity (<[p := ours]> (m_peerVerifiedForIdentity g)) g.
Definition attested (ours p : string) (g : Gate) : Gate :=
  set_forIdentity (<[p := ours]> (m_peerVerifiedForIdentity g))
    (set_verified ({[p]} ∪ m_peerVerified g) g).

Class GateAux (R : relation) := {
  ga_fine : Fine R;
  ga_queues : Queues R;
  ga_flushes : Flushes R;
  ga_aux f : (∀ g, same_sets g (f g)) → has_effect R (on_gate f);
}.

Class OpenSteps (ours : string) (R : relation) := {
  go_attest p : has_effect R (on_gate (attest ours p));
  go_attested p : has_effect R (on_gate (attested ours p));
  go_resolve p c :
    p ∈ m_peerVerified (gate c) → p ∉ m_unverifiedKeyChange (gate c) →
    effect_at R (on_gate (resolve p)) c;
}.

(** Whoever reads the client finds [I]. *)
Class Reads (I : Chat → Prop) (R : relation) := reads A (k : Chat → M A) :
  (∀ c, I c → effect_at R (k c) c) → has_effect R (gets id ≫= k).

(** While our identity stays [ours]. *)
Definition holding `{QtText} (ours : string) (c : Chat) : Prop := publicKeyHex (box c) = ours.

Class GateOpens `{QtText} (ours : string) (R : relation) := {
  go_aux : GateAux R;
  go_steps : OpenSteps ours R;
  go_ours :: Reads (holding ours) R
}.

(** Tried last, since they leave [ours] open. *)
#[export] Existing Instance ga_fine | 50.
#[export] Existing Instance ga_queues | 50.
#[export] Existing Instance ga_flushes | 50.
#[export] Existing Instance go_aux | 50.
#[export] Existing Instance go_steps | 50.

#[export] Hint Extern 2 (has_effect _ (on_gate _)) =>
  (refine (ga_aux _ _); by repeat split) : effects.

Lemma gv_resync R `{!GateAux R} `{Sodium} `{QtText} `{Oracle} p : has_effect R (sendVerifyResync p).
Proof. unfold sendVerifyResync. effects. Qed.

Section Verify.
Context (R : relation) `{Sodium} `{QtText} `{QDataStream} `{QHashOrder} `{QStringOrder}.
Context `{QTrim} `{Oracle} `{QFiles}.

Lemma gv_clear `{!Fine R} p : has_effect R (drop_session p).
Proof. unfold drop_session, clear_session. effects. Qed.

Lemma gv_maybe `{!Fine R} `{!Queues R} p : has_effect R (maybeResendVerifyAck p).
Proof. unfold maybeResendVerifyAck. effects. Qed.

Lemma gv_record (ours : string) `{!GateOpens ours R} p : has_effect R (record_resolution p).
Proof.
  unfold record_resolution. apply (reads (I := holding ours) (R := R)). intros c Hc. rewrite Hc.
  refine ((_ : has_effect R _) c). refine (effect_bind _ _ _ _ _); [effects|intros t].
  refine (effect_bind _ _ _ _ _); [effects|].
  intros _. refine (effect_bind _ _ _ _ _); [apply go_attest|intros _; effects].
Qed.
End Verify.
#[export] Hint Extern 0 (has_effect _ (record_resolution _)) => (eapply gv_record; apply _) : effects.
#[export] Hint Extern 0 (has_effect _ (drop_session _)) => (eapply gv_clear; apply _) : effects.

Section Resolve.
Context (R : relation) `{Sodium} `{QtText} `{QDataStream} `{QHashOrder} `{QStringOrder}.
Context `{QTrim} `{Oracle} `{QFiles} (ours : string) `{!GateOpens ours R} `{!GateEffect R}.

Lemma gv_resolve p : has_effect R (tryResolveBilateral p).
Proof.
  unfold tryResolveBilateral. refine (effect_gets_bind _ _ _ _). intros c. cbv beta delta [id].
  cbv zeta. destruct (negb _); [by apply effect_ret, _|].
  case_bool_decide as Hu; [by apply effect_ret, _|].
  case_bool_decide as Hv; [|by apply effect_ret, _]. cbn [negb].
  refine (effect_bind_at _ _ _ _ _ _); [by apply (go_resolve (ours := ours))|].
  refine ((_ : has_effect R _) _). pose proof (gv_record R ours) as Hr. effects.
Qed.

Lemma gv_acknowledge p :
  has_effect R (on_gate (confirm p)) → has_effect R (acknowledgeKeyChange p).
Proof.
  intros Hc. unfold acknowledgeKeyChange. pose proof gv_resolve.
  refine (effect_gets_bind _ _ _ _). intros c. refine ((_ : has_effect R _) c).
  refine (effect_bind _ _ _ _ _); [effects|intros _].
  refine (effect_bind _ _ _ _ _); [exact Hc|intros _].
  destruct (negb _); [effects|]. do 4 (refine (effect_bind _ _ _ _ _); [effects|intros _]).
  effects.
Qed.

Lemma gv_accept p ik ik' : has_effect R (acceptVerifyAck p ik ik').
Proof.
  unfold acceptVerifyAck. pose proof gv_resolve. apply (reads (I := holding ours) (R := R)). intros c Hc.
  destruct (_ || _); [by apply effect_ret, _|]. rewrite Hc. refine ((_ : has_effect R _) c).
  refine (effect_bind _ _ _ _ _); [apply go_attested|intros _]. effects.
Qed.

Lemma gv_onresync from to : has_effect R (onVerifyResync from to).
Proof. unfold onVerifyResync. effects. Qed.
End Resolve.
#[export] Hint Extern 0 (has_effect _ (tryResolveBilateral _)) =>
  (refine (gv_resolve _ _ _); apply _) : effects.
#[export] Hint Extern 0 (has_effect _ (acceptVerifyAck _ _ _)) =>
  (refine (gv_accept _ _ _ _ _); apply _) : effects.

(** ** Frames received *)

(** What the client stashes. *)
Definition stashable (f : Frame) : bool :=
  match f with FMsg _ | FVerifyAck _ _ _ _ _ | FFileInit _ => true | _ => false end.

Class GateStash (R : relation) := {
  gs_put p f : stashable f = true →
    has_effect R (on_link (λ l, set_stash (<[p := default [] (m_pendingFrames l !! p) ++ [f]]>
                                             (m_pendingFrames l)) l));
  gs_take p : has_effect R (on_link (λ l, set_stash (delete p (m_pendingFrames l)) l));
}.

Section Receive.
Context (R : relation) `{Sodium} `{QtText} `{QDataStream} `{QHashOrder} `{QStringOrder}.
Context `{QTrim} `{Oracle} `{QFiles} (ours : string).
Context `{!GateOpens ours R} `{!GateEffect R} `{!GateStash R} `{!Sees R}.

Lemma gr_stash p f : stashable f = true → has_effect R (stash p f).
Proof. intros Hf. unfold stash. refine (effect_bind _ _ _ _ _); [by apply gs_put|intros _; effects]. Qed.

Lemma gr_ensure p k : has_effect R (ensure_key p k).
Proof. unfold ensure_key. effects. Qed.
Lemma gr_decrypt p w : has_effect R (decrypt p w).
Proof. unfold decrypt. effects. Qed.
Lemma gr_typing p s : has_effect R (setPeerTyping p s).
Proof. unfold setPeerTyping. effects. Qed.
Lemma gr_presence us : has_effect R (onPresence us).
Proof. unfold onPresence. pose proof gr_typing. effects. Qed.
Lemma gr_opener p o : has_effect R (accept_opener p o).
Proof. unfold accept_opener. effects. Qed.

Lemma gr_identity `{!Keys R} p ik f : stashable f = true → has_effect R (handshake_identity p ik f).
Proof.
  intros Hf. unfold handshake_identity. pose proof (gr_stash p f Hf). pose proof gr_ensure.
  effects.
Qed.

Lemma gr_deliver p m t : has_effect R (deliver p m t).
Proof.
  unfold deliver, onRekeyPing, onEdit, onText. pose proof gr_typing. effects.
Qed.

Lemma gr_receive p m : has_effect R (receive_msg p m).
Proof.
  unfold receive_msg. pose proof gr_ensure. pose proof gr_decrypt. pose proof gr_deliver. effects.
Qed.

Lemma gr_msg `{!Keys R} m : has_effect R (onMsg m).
Proof.
  unfold onMsg. pose proof gr_opener. pose proof gr_receive.
  pose proof (λ p, gr_stash p (FMsg m) eq_refl).
  pose proof (λ p ik, gr_identity p ik (FMsg m) eq_refl). effects.
Qed.

Lemma gr_ack a b i j t : has_effect R (onVerifyAck a b i j t).
Proof.
  unfold onVerifyAck. pose proof (λ p, gr_stash p (FVerifyAck a b i j t) eq_refl). effects.
Qed.

(** Files: none of it touches the gate. *)
Lemma gr_finish id f : has_effect R (finish_file id f).
Proof. unfold finish_file, drop_incoming. effects. Qed.
Lemma gr_init i : has_effect R (onFileInit i).
Proof.
  unfold onFileInit, start_file, fail_file. pose proof gr_ensure. pose proof gr_decrypt.
  pose proof (λ p, gr_stash p (FFileInit i) eq_refl). effects.
Qed.
Lemma gr_end id : has_effect R (onFileEnd id).
Proof. unfold onFileEnd. pose proof gr_finish. effects. Qed.
Lemma gr_chunk d : has_effect R (onBinaryMessageReceived d).
Proof.
  unfold onBinaryMessageReceived, fail_file, drop_incoming. pose proof gr_finish. effects.
Qed.
Lemma gr_copy fuel u pos d : has_effect R (copy_stream fuel u pos d).
Proof. revert pos d. induction fuel as [|fuel IH]; intros pos d; cbn [copy_stream]; effects. Qed.
Lemma gr_save id p u : has_effect R (saveReceivedFile id p u).
Proof.
  unfold saveReceivedFile, save_local, save_document. pose proof gr_copy. effects.
Qed.
Lemma plain_delete o a b cl : plain cl (onDelete o a b cl).
Proof. unfold onDelete. by case_match. Qed.
Lemma plain_reaction o a b k cl : plain cl (onReaction o a b k cl).
Proof. unfold onReaction. by case_match. Qed.
Lemma gr_delete a b : has_effect R (onDeleteFrame a b).
Proof.
  unfold onDeleteFrame. pose proof (λ o, ge_client R _ (plain_delete o a b)). effects.
Qed.
Lemma gr_reaction a b k : has_effect R (onReactionFrame a b k).
Proof.
  unfold onReactionFrame. pose proof (λ o, ge_client R _ (plain_reaction o a b k)). effects.
Qed.
Lemma gr_log ls : has_effect R (onServerLog ls).
Proof. unfold onServerLog. effects. Qed.

Lemma gr_bundle w b : has_effect R (onBundle w b).
Proof. unfold onBundle, open_bundle. effects. Qed.

(** A frame that brings no key. *)
Definition keyless (f : Frame) : bool :=
  match f with FKey _ _ _ | FKeys _ _ => false | _ => true end.

Lemma gr_frame `{!Keys R} fuel f : keyless f = true → has_effect R (handleServerFrame fuel f).
Proof.
  intros Hf. pose proof gr_typing. pose proof gr_msg. pose proof gr_ack. pose proof gr_bundle.
  pose proof gr_presence. pose proof (gv_onresync R). pose proof gr_init. pose proof gr_end.
  pose proof gr_delete. pose proof gr_reaction. pose proof gr_log.
  destruct fuel, f; try done; cbn [handleServerFrame]; effects.
Qed.
End Receive.

(** ** Keys received *)
Definition flag (p : string) (g : Gate) : Gate :=
  set_bilateral ({[p]} ∪ m_pendingBilateral g) (set_unverified ({[p]} ∪ m_unverifiedKeyChange g) g).
Definition unattest (p : string) (g : Gate) : Gate :=
  set_verified (m_peerVerified g ∖ {[p]}) g.
Definition void (p : string) (g : Gate) : Gate :=
  set_confirmed (delete p (m_verifiedPeerIdentity g))
    (set_forIdentity (delete p (m_peerVerifiedForIdentity g)) g).

(** Steps that close the gate of [p]. *)
Class GateFlags (p : string) (R : relation) := {
  gf_flag : has_effect R (on_gate (flag p));
  gf_unattest : has_effect R (on_gate (unattest p));
  gf_void : has_effect R (on_gate (void p));
}.

Section Keys.
Context (R : relation) `{Sodium} `{QtText} `{QDataStream} `{QHashOrder} `{QStringOrder}.
Context `{QTrim} `{Oracle} `{QFiles}.

Lemma gk_flag p `{!GateAux R} `{!GateFlags p R} : has_effect R (flagKeyChange p).
Proof.
  unfold flagKeyChange. pose proof (gv_resync R). pose proof (gf_flag (p := p) (R := R)).
  pose proof (gf_unattest (p := p) (R := R)). effects.
Qed.

Lemma gk_void p `{!GateAux R} `{!GateFlags p R} : has_effect R (void_old_key p).
Proof. unfold void_old_key. pose proof (gf_void (p := p) (R := R)). effects. Qed.

Lemma gk_adopt p pub `{!GateAux R} `{!GateFlags p R} `{!Keys R} : has_effect R (adopt_key p pub).
Proof.
  unfold adopt_key, have_persisted_session. pose proof (gk_flag p). pose proof (gk_void p).
  pose proof (gv_maybe R). effects.
Qed.

Lemma gk_publish `{!Fine R} p k t : has_effect R (publish_key p k t).
Proof. unfold publish_key. effects. Qed.

Lemma gk_calibrate `{!Fine R} ks ts : has_effect R (calibrate ks ts).
Proof. unfold calibrate. effects. Qed.

(** The keys a frame may bring: those of others that are usable. *)
Lemma gk_entry ts e :
  (∀ pub, has_effect R (adopt_key e.1 pub)) → Fine R → has_effect R (directory_entry ts e).
Proof.
  intros Ha HR. destruct e as [p k]. unfold directory_entry. pose proof gk_publish. effects.
Qed.
End Keys.

(** ** Operations *)

(** Only frames that bring no key are stashed. *)
Definition stash_ok (c : Chat) : Prop :=
  map_Forall (λ _ fs, Forall (λ f, stashable f = true) fs) (m_pendingFrames (link c)).

Lemma stash_lookup p c : stash_ok c → Forall (λ f, stashable f = true)
  (default [] (m_pendingFrames (link c) !! p)).
Proof. intros Hs. destruct (_ !! p) as [fs|] eqn:E; [exact (Hs _ _ E)|done]. Qed.

Lemma stashable_keyless f : stashable f = true → keyless f = true.
Proof. by destruct f. Qed.

(** Everything but a frame that brings keys. *)
Definition keyless_op (o : ClientOp) : bool :=
  match o with Receive f => keyless f | _ => true end.

Section Ops.
Context (R : relation) `{Sodium} `{QtText} `{QDataStream} `{QHashOrder} `{QStringOrder}.
Context `{QTrim} `{Oracle} `{QFiles} (ours : string).
Context `{!GateOpens ours R} `{!GateEffect R} `{!GateStash R} `{!Keys R} `{!Sees R}.

Lemma gate_op o :
  (∀ p, o = Confirm p → has_effect R (on_gate (confirm p))) →
  keyless_op o = true → has_effect R (run_client_op o).
Proof.
  intros Hc Hk. destruct o; cbn [run_client_op].
  - by refine (ge_message R _).
  - by refine (ge_edit R _ _).
  - by refine (ge_resend R _).
  - by refine (ge_file R _).
  - by refine (ge_notify R _).
  - by apply (gv_acknowledge R ours), Hc.
  - by refine (ge_force R _).
  - unfold requestBundle. effects.
  - by refine (ge_reestablish R).
  - by refine (ge_flush R).
  - by refine (ge_kick_timer R).
  - by refine (ge_rekey_timer R).
  - by apply (gr_frame R ours).
  - by refine (gr_chunk R _).
  - pose proof (gr_save R). effects.
  - by refine (ge_typing_timer R).
Qed.

Lemma gate_replay `{!Reads stash_ok R} fuel p :
  has_effect R (replayPendingFrames (handleServerFrame fuel) p).
Proof.
  unfold replayPendingFrames. apply (reads (I := stash_ok) (R := R)). intros c Hs. cbv zeta.
  refine ((_ : has_effect R _) c).
  refine (effect_bind _ _ _ _ _); [apply gs_take|intros _]. refine (effect_for_each _ _ _ _).
  intros f Hf. apply (gr_frame R ours), stashable_keyless.
  by apply (proj1 (Forall_forall _ _) (stash_lookup p c Hs)).
Qed.

(** With a way to adopt keys, every operation. *)
Lemma gate_any `{!Reads stash_ok R} o :
  (∀ p, o = Confirm p → has_effect R (on_gate (confirm p))) →
  (∀ p k, has_effect R (adopt_key p k)) → has_effect R (run_client_op o).
Proof.
  intros Hc Ha. destruct (keyless_op o) eqn:Hk; [by apply gate_op|].
  destruct o as [| | | | | | | | | | | |f| | |]; try done.
  pose proof (gk_publish R) as Hp. pose proof (gk_calibrate R) as Hl.
  pose proof (λ ts e, gk_entry R ts e (Ha e.1) _) as He. pose proof (gate_replay 1) as Hr.
  destruct f; try done; cbn -[replayPendingFrames]; unfold onKeys, onKey; effects.
Qed.
End Ops.
