(* ===== verification/GateSafety.v ===== *)
(** * The gate over whole runs of the client

    Invariants of the gate and the relations that every operation of the client
    keeps: what crosses a gate, and who opens it. *)

From S2P Require Import Prelude Platform Kdf Ratchet X3dh CryptoBox Persist MessageModel.
From S2P Require Import UserModel HistoryStore FileCrypto Chat Messenger Rekey Sending.
From S2P Require Import Verification Receiving Effects GateFacts GateSteps.

Import ChatClient Messenger Rekey Sending Verification Receiving.

(** ** Invariants that the steps on the gate and on the stash keep *)
Class AuxInv (I : Chat → Prop) :=
  aux_inv c f : (∀ g, same_sets g (f g)) → I c → I (set_gate (f (gate c)) c).

Class OpensInv (ours : string) (I : Chat → Prop) := {
  oi_attest c p : I c → I (set_gate (attest ours p (gate c)) c);
  oi_attested c p : I c → I (set_gate (attested ours p (gate c)) c);
  oi_resolve c p : p ∈ m_peerVerified (gate c) → p ∉ m_unverifiedKeyChange (gate c) →
    I c → I (set_gate (resolve p (gate c)) c);
}.

Class FlagsInv (p : string) (I : Chat → Prop) := {
  fi_flag c : I c → I (set_gate (flag p (gate c)) c);
  fi_unattest c : I c → I (set_gate (unattest p (gate c)) c);
  fi_void c : I c → I (set_gate (void p (gate c)) c);
}.

Class StashInv (I : Chat → Prop) := {
  stash_inv_put c p f : stashable f = true → I c →
    I (on_link (λ l, set_stash (<[p := default [] (m_pendingFrames l !! p) ++ [f]]>
                                  (m_pendingFrames l)) l) c).1.2;
  stash_inv_take c p : I c →
    I (on_link (λ l, set_stash (delete p (m_pendingFrames l)) l) c).1.2;
}.

(** Those that do not read the gate. *)
Class GateInv (I : Chat → Prop) := gate_inv c g : I c → I (set_gate g c).

#[export] Instance gate_aux_inv I : GateInv I → AuxInv I.
Proof. intros HI c f _. apply HI. Qed.
#[export] Instance gate_opens_inv ours I : GateInv I → OpensInv ours I.
Proof. intros HI. by split; intros; apply HI. Qed.
#[export] Instance gate_flags_inv p I : GateInv I → FlagsInv p I.
Proof. intros HI. by split; intros; apply HI. Qed.

(** Two invariants at once. *)
Definition both (I J : Chat → Prop) (c : Chat) : Prop := I c ∧ J c.

Section Both.
Context (I J : Chat → Prop).
#[export] Instance both_core : CoreInv I → CoreInv J → CoreInv (both I J).
Proof. intros HI HJ c c' Hc [Hi Hj]. split; by eapply core_inv. Qed.
#[export] Instance both_aux : AuxInv I → AuxInv J → AuxInv (both I J).
Proof. intros HI HJ c f Hf [Hi Hj]. split; by apply aux_inv. Qed.
#[export] Instance both_opens ours : OpensInv ours I → OpensInv ours J → OpensInv ours (both I J).
Proof.
  intros [A1 A2 A3] [B1 B2 B3].
  split; intros; (match goal with Hb : both _ _ _ |- _ => destruct Hb end); split; auto.
Qed.
#[export] Instance both_flags p : FlagsInv p I → FlagsInv p J → FlagsInv p (both I J).
Proof. intros [A1 A2 A3] [B1 B2 B3]. split; intros c [Hi Hj]; split; auto. Qed.
#[export] Instance both_stash : StashInv I → StashInv J → StashInv (both I J).
Proof.
  intros [A1 A2] [B1 B2].
  split; intros; (match goal with Hb : both _ _ _ |- _ => destruct Hb end); split; auto.
Qed.
End Both.

(** ** Effects under invariants *)
Section Under.
Context (I : Chat → Prop) (R : relation) `{!CoreInv I}.

#[export] Instance under_stash : StashInv I → GateStash R → GateStash (under I R).
Proof.
  intros HI [Hp Ht]. split.
  - intros p f Hf c Hi. split; [by apply (Hp p f Hf)|by apply stash_inv_put].
  - intros p c Hi. split; [by apply (Ht p)|by apply stash_inv_take].
Qed.

Lemma under_on_gate f : has_effect R (on_gate f) → (∀ c, I c → I (set_gate (f (gate c)) c)) →
  has_effect (under I R) (on_gate f).
Proof. intros Hf Hi c Hc. split; [apply Hf|by apply Hi]. Qed.

#[export] Instance under_aux : AuxInv I → GateAux R → GateAux (under I R).
Proof.
  intros HI [Hn Hq Hl Ha]. split; [apply _..|]. intros f Hf. apply under_on_gate; [by apply Ha|].
  intros c. by apply aux_inv.
Qed.

#[export] Instance under_opens ours : OpensInv ours I → OpenSteps ours R → OpenSteps ours (under I R).
Proof.
  intros HI [Ha Hd Hr]. split.
  - intros p. apply under_on_gate; [done|]. intros c. apply oi_attest.
  - intros p. apply under_on_gate; [done|]. intros c. apply oi_attested.
  - intros p c Hv Hu Hi. split; [by apply Hr|by apply (oi_resolve (ours := ours))].
Qed.

#[export] Instance under_flags p : FlagsInv p I → GateFlags p R → GateFlags p (under I R).
Proof. intros [F1 F2 F3] [Hf Hu Hv]. by split; apply under_on_gate. Qed.
End Under.

Lemma under_reads I J R `{!Effect R} : (∀ c, J c → I c) → Reads I (under J R).
Proof.
  intros HJ A k Hk c Hj. pose proof (Hk c (HJ c Hj) Hj) as Hr. by rewrite gets_eq.
Qed.

(** ** The invariants *)
#[export] Instance holding_core `{QtText} ours : CoreInv (holding ours).
Proof. unfold holding, publicKeyHex. by intros c c' [_ -> _]. Qed.
#[export] Instance holding_gate `{QtText} ours : GateInv (holding ours).
Proof. by intros c g. Qed.
#[export] Instance holding_stash `{QtText} ours : StashInv (holding ours).
Proof. by split. Qed.

#[export] Instance stash_core : CoreInv stash_ok.
Proof. unfold stash_ok. by intros c c' [_ _ ->]. Qed.
#[export] Instance stash_gate : GateInv stash_ok.
Proof. by intros c g. Qed.
#[export] Instance stash_stash : StashInv stash_ok.
Proof.
  split.
  - intros c p f Hf Hs. apply map_Forall_insert_2; [|exact Hs]. apply Forall_app.
    split; [by apply stash_lookup|by constructor].
  - intros c p Hs. by apply map_Forall_delete.
Qed.

(** Whoever is flagged is also pending. *)
Definition sub_ok (c : Chat) : Prop :=
  m_unverifiedKeyChange (gate c) ⊆ m_pendingBilateral (gate c).

#[export] Instance sub_core : CoreInv sub_ok.
Proof. unfold sub_ok. by intros c c' [-> _ _]. Qed.
#[export] Instance sub_stash : StashInv sub_ok.
Proof. by split. Qed.
#[export] Instance sub_aux : AuxInv sub_ok.
Proof. unfold sub_ok. intros c f Hf. cbn. by destruct (Hf (gate c)) as (-> & _ & -> & _). Qed.
#[export] Instance sub_opens ours : OpensInv ours sub_ok.
Proof. split; unfold sub_ok; cbn; set_solver. Qed.
#[export] Instance sub_flags p : FlagsInv p sub_ok.
Proof. split; unfold sub_ok; cbn; set_solver. Qed.

(** An attestation is for our present identity. *)
Definition attested_for (ours p : string) (g : Gate) : Prop :=
  p ∈ m_peerVerified g → default "" (m_peerVerifiedForIdentity g !! p) = ours.
Definition att_ok (ours : string) (c : Chat) : Prop := ∀ p, attested_for ours p (gate c).

#[export] Instance att_core ours : CoreInv (att_ok ours).
Proof. unfold att_ok. by intros c c' [-> _ _]. Qed.
#[export] Instance att_stash ours : StashInv (att_ok ours).
Proof. by split. Qed.
#[export] Instance att_aux ours : AuxInv (att_ok ours).
Proof.
  unfold att_ok, attested_for. intros c f Hf. cbn.
  by destruct (Hf (gate c)) as (_ & -> & _ & ->).
Qed.
#[export] Instance att_opens ours : OpensInv ours (att_ok ours).
Proof.
  split; unfold att_ok, attested_for; cbn.
  - intros c p Hi q Hq. destruct (decide (q = p)) as [->|]; simplify_map_eq; auto.
  - intros c p Hi q Hq. destruct (decide (q = p)) as [->|]; simplify_map_eq; auto.
    apply Hi. set_solver.
  - done.
Qed.

(** ** The relations *)
Definition anything : relation := λ _ _ _, True.

#[export] Instance anything_quiet : GateQuiet anything.
Proof. by repeat split. Qed.
#[export] Instance anything_gate : GateEffect anything.
Proof. by repeat split. Qed.
#[export] Instance anything_aux : GateAux anything.
Proof. split; [apply _..|]. by repeat split. Qed.
#[export] Instance anything_opens ours : OpenSteps ours anything.
Proof. by repeat split. Qed.
#[export] Instance anything_stash : GateStash anything.
Proof. by repeat split. Qed.
#[export] Instance anything_flags p : GateFlags p anything.
Proof. by repeat split. Qed.

#[export] Instance ungated_aux : GateAux ungated.
Proof. split; [apply _..|]. by intros f _ c e ?%not_elem_of_nil. Qed.
#[export] Instance ungated_flags p : GateFlags p ungated.
Proof. by split; intros c e ?%not_elem_of_nil. Qed.

#[export] Instance crossing_stash : GateStash crossing.
Proof. split; intros; intros c; split; try done; by intros e q ?%not_elem_of_nil. Qed.

Lemma is_open_spec p c :
  is_open p c ↔ (p ∉ m_unverifiedKeyChange (gate c)) ∧ (p ∉ m_pendingBilateral (gate c)).
Proof.
  unfold is_open, conversationBlocked. rewrite orb_false_iff, !bool_decide_eq_false. done.
Qed.

(** A step that takes contacts out of the two sets crosses nothing. *)
Lemma crossing_shrinks f c :
  m_unverifiedKeyChange (f (gate c)) ⊆ m_unverifiedKeyChange (gate c) →
  m_pendingBilateral (f (gate c)) ⊆ m_pendingBilateral (gate c) →
  effect_at crossing (on_gate f) c.
Proof.
  intros Hu Hp. split; [|by intros e p ?%not_elem_of_nil]. intros p. rewrite !is_open_spec. cbn.
  set_solver.
Qed.

#[export] Instance crossing_aux : GateAux crossing.
Proof.
  split; [apply _..|]. intros f Hf c.
  destruct (Hf (gate c)) as (Hu & _ & Hp & _). apply crossing_shrinks; [by rewrite Hu|by rewrite Hp].
Qed.
#[export] Instance crossing_opens ours : OpenSteps ours crossing.
Proof.
  split.
  - intros p c. by apply crossing_shrinks.
  - intros p c. by apply crossing_shrinks.
  - intros p c _ _. apply crossing_shrinks; cbn; set_solver.
Qed.

Lemma crossing_confirm p : has_effect crossing (on_gate (confirm p)).
Proof. intros c. apply crossing_shrinks; cbn; set_solver. Qed.

(** Relations between the gates only. *)
Definition gate_rel (G : Gate → Gate → Prop) : relation := λ c _ c', G (gate c) (gate c').

Section GateRel.
Context (G : Gate → Gate → Prop) `{!PreOrder G}.
#[export] Instance gate_rel_quiet : GateQuiet (gate_rel G).
Proof.
  split; [split|]; unfold gate_rel.
  - done.
  - intros c1 e1 c2 e2 c3 H12 H23. by transitivity (gate c2).
  - by intros c e c' [-> _ _] _.
Qed.
#[export] Instance gate_rel_gate : GateEffect (gate_rel G).
Proof. split; [apply _|]. intros c f _. unfold gate_rel. reflexivity. Qed.
#[export] Instance gate_rel_stash : GateStash (gate_rel G).
Proof. split; intros; intros c; unfold effect_at, gate_rel; cbn; reflexivity. Qed.
Lemma gate_rel_step f : (∀ g, G g (f g)) → has_effect (gate_rel G) (on_gate f).
Proof. intros Hf c. apply Hf. Qed.
End GateRel.

(** Who opens a gate: a contact whose gate opens, or was open and attested, is attested. *)
Definition open_in (p : string) (g : Gate) : Prop :=
  (p ∉ m_unverifiedKeyChange g) ∧ (p ∉ m_pendingBilateral g).
Definition opened_by_both (g g' : Gate) : Prop :=
  ∀ p, open_in p g' → (open_in p g → p ∈ m_peerVerified g) → p ∈ m_peerVerified g'.

#[export] Instance opened_preorder : PreOrder opened_by_both.
Proof.
  split; [by intros g p Ho Hv; apply Hv|]. intros g1 g2 g3 H12 H23 p Ho Hv.
  apply H23; [done|]. intros H2. by apply H12.
Qed.

#[export] Instance opened_aux : GateAux (gate_rel opened_by_both).
Proof.
  split; [apply _..|]. intros f Hf. apply gate_rel_step. intros g p. unfold open_in.
  destruct (Hf g) as (-> & -> & -> & _). tauto.
Qed.
#[export] Instance opened_opens ours : OpenSteps ours (gate_rel opened_by_both).
Proof.
  split.
  - intros p. apply gate_rel_step. intros g q Ho Hv. by apply Hv.
  - intros p. apply gate_rel_step. intros g q Ho Hv. cbn. apply elem_of_union. right. by apply Hv.
  - intros p c Hp Hu q [Ho1 Ho2] Hv. cbn in *. destruct (decide (q = p)) as [->|]; [done|].
    apply Hv. split; set_solver.
Qed.

(** A confirmation opens nothing by itself: who is flagged is pending. *)
Lemma opened_confirm p : has_effect (under sub_ok (gate_rel opened_by_both)) (on_gate (confirm p)).
Proof.
  intros c Hs. unfold sub_ok in *. split; [|cbn; set_solver].
  intros q [Ho1 Ho2] Hv. cbn in *. apply Hv. split; set_solver.
Qed.

(** A key change closes its gate before it takes anything back. *)
Definition flagged (p : string) (c : Chat) : Prop := p ∈ m_unverifiedKeyChange (gate c).

#[export] Instance flagged_core p : CoreInv (flagged p).
Proof. unfold flagged. by intros c c' [-> _ _]. Qed.
#[export] Instance flagged_aux p : AuxInv (flagged p).
Proof. unfold flagged. intros c f Hf. cbn. by destruct (Hf (gate c)) as (-> & _). Qed.

Section Flagging.
Context `{Sodium} `{QtText} `{QDataStream} `{QHashOrder} `{QStringOrder} `{Oracle}.

Lemma opened_flag p : has_effect (gate_rel opened_by_both) (flagKeyChange p).
Proof.
  unfold flagKeyChange. refine (effect_gets_bind _ _ _ _). intros c. cbv beta delta [id] zeta.
  refine (effect_bind_at _ _ _ _ _ _).
  - intros q [Ho1 Ho2] Hv. cbn in *. apply Hv. split; set_solver.
  - apply (under_at (flagged p)); [|by unfold flagged; cbn; set_solver].
    assert (has_effect (under (flagged p) (gate_rel opened_by_both)) (on_gate (unattest p))) as Hu.
    { intros c' Hf. split; [|done]. intros q [Ho1 Ho2] Hv. cbn in *. unfold flagged in Hf.
      apply elem_of_difference. split; [by apply Hv|set_solver]. }
    pose proof (gv_resync (under (flagged p) (gate_rel opened_by_both)) p). effects.
Qed.

Lemma opened_adopt p k : has_effect (gate_rel opened_by_both) (adopt_key p k).
Proof.
  assert (has_effect (gate_rel opened_by_both) (on_gate (void p))) as Hv.
  { apply gate_rel_step. intros g q Ho Hv. by apply Hv. }
  unfold adopt_key, have_persisted_session, void_old_key. pose proof (opened_flag p).
  pose proof (gv_maybe (gate_rel opened_by_both)). effects.
Qed.
End Flagging.

(** ** Attestations under a key change *)

(** From [I] to [J]. *)
Definition leads (I J : Chat → Prop) {A} (m : M A) : Prop := ∀ c, I c → J (m c).1.2.

Lemma leads_bind I J K {A B} (m : M A) (k : A → M B) :
  leads I J m → (∀ x, leads J K (k x)) → leads I K (m ≫= k).
Proof. intros Hm Hk c Hi. rewrite bind_state. by apply Hk, Hm. Qed.

Lemma leads_gets I J {A B} (f : Chat → A) (k : A → M B) :
  (∀ x, leads I J (k x)) → leads I J (gets f ≫= k).
Proof. intros Hk c Hi. rewrite gets_eq. by apply Hk. Qed.

Lemma leads_under I {A} (m : M A) : has_effect (under I anything) m → leads I I m.
Proof. intros Hm c Hi. by apply Hm. Qed.

Lemma leads_from (I I' J : Chat → Prop) {A} (m : M A) :
  (∀ c, I c → I' c) → leads I' J m → leads I J m.
Proof. intros HI Hm c Hi. by apply Hm, HI. Qed.

(** Everybody's attestation but that of [p]. *)
Definition att_but (ours p : string) (c : Chat) : Prop :=
  ∀ q, q ≠ p → attested_for ours q (gate c).

#[export] Instance att_but_core ours p : CoreInv (att_but ours p).
Proof. unfold att_but. by intros c c' [-> _ _]. Qed.
#[export] Instance att_but_aux ours p : AuxInv (att_but ours p).
Proof.
  unfold att_but, attested_for. intros c f Hf. cbn.
  by destruct (Hf (gate c)) as (_ & -> & _ & ->).
Qed.
#[export] Instance att_but_opens ours p : OpensInv ours (att_but ours p).
Proof.
  split; unfold att_but, attested_for; cbn.
  - intros c q Hi r Hr Hv. destruct (decide (r = q)) as [->|]; simplify_map_eq; auto.
  - intros c q Hi r Hr Hv. destruct (decide (r = q)) as [->|]; simplify_map_eq; auto.
    apply Hi; [done|]. set_solver.
  - done.
Qed.

Definition core_ok `{QtText} (ours : string) : Chat → Prop :=
  both (both stash_ok (holding ours)) (both sub_ok (att_ok ours)).
(** Inside the adoption of a key of [p]. *)
Definition core_but `{QtText} (ours p : string) : Chat → Prop :=
  both (both stash_ok (holding ours)) (both sub_ok (att_but ours p)).

Lemma core_ok_but `{QtText} ours p c : core_ok ours c → core_but ours p c.
Proof. intros [H1 [H2 H3]]. split; [done|]. split; [done|]. intros q _. apply H3. Qed.

Lemma core_but_ok `{QtText} ours p c :
  core_but ours p c → attested_for ours p (gate c) → core_ok ours c.
Proof.
  intros [H1 [H2 H3]] Hp. split; [done|]. split; [done|]. intros q.
  destruct (decide (q = p)) as [->|]; [done|by apply H3].
Qed.

Section Adopting.
Context `{Sodium} `{QtText} `{QDataStream} `{QHashOrder} `{QStringOrder}.
Context `{Oracle} (ours p : string).

#[export] Instance ok_opens : GateOpens ours (under (core_ok ours) anything).
Proof. split; [unfold core_ok; apply _..|]. refine (under_reads _ _ _ _). by intros c [[_ Hh] _]. Qed.
#[export] Instance but_aux : GateAux (under (core_but ours p) anything).
Proof. unfold core_but. apply _. Qed.

Lemma adopting_void : has_effect (under (core_but ours p) anything) (void_old_key p).
Proof.
  unfold void_old_key. assert (has_effect (under (core_but ours p) anything) (on_gate (void p))) as Hv.
  { intros c [Hsh [Hsub Hatt]]. split; [done|]. split; [exact Hsh|]. split; [exact Hsub|].
    intros q Hq Hin. cbn in *. rewrite lookup_delete_ne by done. by apply Hatt. }
  unfold core_but in *. effects.
Qed.

(** A key change leaves an attestation only if it is for our present identity. *)
Lemma adopting_flag : leads (core_but ours p) (core_ok ours) (flagKeyChange p).
Proof.
  intros c Hb. pose proof Hb as [[_ Hh] [_ Hatt]]. unfold flagKeyChange.
  rewrite gets_eq. cbv beta zeta delta [id]. rewrite bind_state.
  assert (core_but ours p (on_gate (flag p) c).1.2) as Hb1.
  { destruct Hb as [Hsh [Hsub _]]. split; [exact Hsh|]. split; [|exact Hatt].
    by apply (fi_flag (I := sub_ok)). }
  set (c1 := (on_gate _ c).1.2).
  refine (leads_bind (λ c', c' = c1) (core_ok ours) _ _ _ _ _ c1 eq_refl); [|intros []].
  - unfold holding in Hh. rewrite Hh. destruct (String.eqb _ ours) eqn:He; [apply String.eqb_eq in He|].
    + intros _ ->. apply (core_but_ok ours p); [exact Hb1|intros _; exact He].
    + refine (leads_bind (λ c', c' = c1) (core_ok ours) _ _ _ _ _); [|intros []].
      * intros _ ->. apply (core_but_ok ours p); [|intros Hv; cbn in Hv; set_solver].
        destruct Hb1 as [Hsh [Hsub _]]. split; [exact Hsh|].
        split; [by apply (fi_unattest (I := sub_ok))|].
        intros q Hq Hv. cbn in *. apply Hatt; [done|set_solver].
      * apply leads_under. by refine (gv_resync _ p).
  - apply leads_under. unfold core_ok. effects.
Qed.

Lemma adopting k : has_effect (under (core_ok ours) anything) (adopt_key p k).
Proof.
  intros c Hc. split; [done|]. revert c Hc.
  change (leads (core_ok ours) (core_ok ours) (adopt_key p k)). unfold adopt_key, have_persisted_session.
  eapply leads_bind; [apply leads_under; unfold core_ok; effects|intros _].
  apply leads_gets. intros x.
  do 2 (eapply leads_bind; [apply leads_under; unfold core_ok; effects|intros ?]).
  refine (leads_bind _ (core_ok ours) _ _ _ _ _).
  - repeat case_match; try (intros c Hc; exact Hc).
    all: apply (leads_from _ (core_but ours p)); [intros c; apply core_ok_but|].
    all: refine (leads_bind _ (core_but ours p) _ _ _ _ _); [|intros _; apply adopting_flag].
    all: apply leads_under; pose proof adopting_void as Hv; unfold core_but in *; effects.
  - intros _. apply leads_under. pose proof (gv_maybe (under (core_ok ours) anything)).
    unfold core_ok in *. effects.
Qed.
End Adopting.

(** ** Whole operations *)

(** [p] stays flagged. *)
Definition stays_flagged (p : string) (g g' : Gate) : Prop :=
  p ∈ m_unverifiedKeyChange g → p ∈ m_unverifiedKeyChange g'.

#[export] Instance stays_preorder p : PreOrder (stays_flagged p).
Proof. split; [by intros g Hg|]. intros g1 g2 g3 H12 H23 Hp. by apply H23, H12. Qed.
#[export] Instance stays_aux p : GateAux (gate_rel (stays_flagged p)).
Proof.
  split; [apply _..|]. intros f Hf. apply gate_rel_step. intros g. unfold stays_flagged.
  by destruct (Hf g) as (-> & _).
Qed.
#[export] Instance stays_opens ours p : OpenSteps ours (gate_rel (stays_flagged p)).
Proof.
  split.
  - intros q. by apply gate_rel_step; intros g Hg.
  - intros q. by apply gate_rel_step; intros g Hg.
  - intros q c _ _. by apply (gate_rel_step (stays_flagged p)); intros g Hg.
Qed.
#[export] Instance stays_flags p q : GateFlags q (gate_rel (stays_flagged p)).
Proof.
  split; apply gate_rel_step; intros g Hp; cbn; set_solver.
Qed.

Lemma core_opens `{QtText} ours R `{!Effect R} `{!GateAux R} :
  OpenSteps ours R → GateOpens ours (under (core_ok ours) R).
Proof.
  intros HR. split; [unfold core_ok; apply _..|]. refine (under_reads _ _ _ _). by intros c [[_ Hh] _].
Qed.

Lemma core_confirm `{QtText} ours p : has_effect (under (core_ok ours) anything) (on_gate (confirm p)).
Proof.
  intros c [Hsh [Hsub Hatt]]. split; [done|]. split; [exact Hsh|]. split; [|exact Hatt].
  unfold sub_ok in *. cbn. set_solver.
Qed.

Section Operations.
Context `{Sodium} `{QtText} `{QDataStream} `{QHashOrder} `{QStringOrder}.
Context `{QTrim} `{Oracle} `{QFiles} (ours : string).

(** An effect every step has, with a way to adopt keys, under the invariants. *)
Lemma core_any (R : relation) `{!GateQuiet R} `{!GateEffect R} `{!GateStash R}
    `{!GateAux R} `{!OpenSteps ours R} o :
  (∀ p, o = Confirm p → has_effect (under (core_ok ours) R) (on_gate (confirm p))) →
  (∀ p k, has_effect R (adopt_key p k)) →
  has_effect (under (core_ok ours) R) (run_client_op o).
Proof.
  intros Hc Ha. pose proof (core_opens ours R _) as Ho.
  assert (Reads stash_ok (under (core_ok ours) R)) as Hs.
  { refine (under_reads _ _ _ _). by intros c [[Hs _] _]. }
  refine (gate_any (under (core_ok ours) R) ours o Hc _).
  - intros p k c Hi. split; [apply Ha|by apply (adopting ours p k c)].
Qed.

Lemma core_kept o c : core_ok ours c → core_ok ours (run_client_op o c).1.2.
Proof.
  intros Hc. apply (core_any anything o); [|by intros|done]. intros p _. apply core_confirm.
Qed.
End Operations.

(** ** What crosses *)
Definition safely (I : Chat → Prop) {A} (m : M A) : Prop := ∀ c, I c →
  ∀ e p, e ∈ (m c).2 → gated_event e = Some p → is_open p (m c).1.2.

Lemma safely_crossing I {A} (m : M A) : has_effect (under I crossing) m → safely I m.
Proof. intros Hm c Hi. by destruct (Hm c Hi) as [[_ Hs] _]. Qed.

Lemma safely_after I {A B} (m : M A) (k : A → M B) :
  has_effect (under I ungated) m → (∀ x, safely I (k x)) → safely I (m ≫= k).
Proof.
  intros Hm Hk c Hi e p. rewrite bind_events, bind_state. destruct (Hm c Hi) as [Hu Hi'].
  intros [He|He]%elem_of_app Hp; [by rewrite (Hu e He) in Hp|]. by eapply Hk.
Qed.

Lemma safely_gets I {A B} (f : Chat → A) (k : A → M B) :
  (∀ x, safely I (k x)) → safely I (gets f ≫= k).
Proof. intros Hk c Hi. rewrite gets_eq. by apply Hk. Qed.

Section Theorems.
Context `{Sodium} `{QtText} `{QDataStream} `{QHashOrder} `{QStringOrder}.
Context `{QTrim} `{Oracle} `{QFiles}.

#[export] Instance session_opens ours :
  GateOpens ours (under (both stash_ok (holding ours)) crossing).
Proof. split; [apply _..|]. refine (under_reads _ _ _ _). by intros c [_ Hh]. Qed.
#[export] Instance session_reads ours :
  Reads stash_ok (under (both stash_ok (holding ours)) crossing).
Proof. refine (under_reads _ _ _ _). by intros c [Hs _]. Qed.
Lemma safely_op ours o : safely (both stash_ok (holding ours)) (run_client_op o).
Proof.
  destruct (keyless_op o) eqn:Hk.
  { apply safely_crossing. apply (gate_op _ ours); [|done]. intros p _ c Hi.
    split; [apply crossing_confirm|exact Hi]. }
  pose proof (gate_replay (under (both stash_ok (holding ours)) crossing) ours 1) as Hr.
  assert (∀ p k, has_effect (under (both stash_ok (holding ours)) ungated) (adopt_key p k)) as Ha.
  { intros p k. by refine (gk_adopt _ p k). }
  pose proof (gk_publish (under (both stash_ok (holding ours)) ungated)) as Hp.
  pose proof (gk_calibrate (under (both stash_ok (holding ours)) ungated)) as Hl.
  pose proof (λ ts e, gk_entry (under (both stash_ok (holding ours)) ungated) ts e (Ha e.1) _) as He.
  destruct o as [| | | | | | | | | | | |f| | |]; try done. destruct f; try done;
    cbn -[replayPendingFrames]; unfold onKeys, onKey.
  - destruct (String.eqb _ _); [apply safely_crossing, effect_ret, _|].
    apply safely_gets. intros c. apply safely_after; [apply Hp|]. intros [pub|].
    + apply safely_after; [apply Ha|intros _]. apply safely_crossing. effects.
    + apply safely_crossing, effect_ret, _.
  - apply safely_after; [apply Hl|intros _].
    apply safely_after; [effects|intros _]. apply safely_crossing. effects.
Qed.

Lemma confirms o p : o = Confirm p ∨ o ≠ Confirm p.
Proof.
  destruct o as [| | | | |q| | | | | | | | | |]; try (by right).
  destruct (decide (q = p)) as [->|]; [by left|right; congruence].
Qed.

(** C2: nothing crosses a closed gate.  Whatever the user does and whatever the relay
    delivers, a text, an edit, a file or a rekey ping is only ever sent to a contact
    whose safety number is not in question. *)
Theorem gate_never_crossed o c e p :
  stash_ok c → e ∈ (run_client_op o c).2 → gated_event e = Some p →
  conversationBlocked p (run_client_op o c).1.2 = false.
Proof. intros Hs He Hp. by eapply (safely_op (publicKeyHex (box c)) o c). Qed.

End Theorems.
