(* ===== verification/VerifyFacts.v ===== *)
(** * Two clients verify each other

    An episode ends once both sides have confirmed, in whichever order a client's own
    confirmation and the attestation of its contact come. *)

From S2P Require Import Prelude Platform Kdf Ratchet X3dh CryptoBox Persist MessageModel.
From S2P Require Import UserModel HistoryStore FileCrypto Chat Messenger Rekey Sending.
From S2P Require Import Verification Receiving Effects GateFacts GateSteps GateSafety.

Import ChatClient Messenger Rekey Sending Verification Receiving.

(** ** What a contact's verification changes *)

(** The ends stay, nobody is flagged, and nobody's attestation is taken back. *)
Record settling (c : Chat) (ev : list Event) (c' : Chat) : Prop := {
  se_ends : same_keys c c';
  se_flags : m_unverifiedKeyChange (gate c') ⊆ m_unverifiedKeyChange (gate c);
  se_pending : m_pendingBilateral (gate c') ⊆ m_pendingBilateral (gate c);
  se_verified : m_peerVerified (gate c) ⊆ m_peerVerified (gate c');
}.

#[export] Instance settling_effect : Effect settling.
Proof.
  split; [by split|]. intros c1 e1 c2 e2 c3 [A1 A2 A3 A4] [B1 B2 B3 B4].
  split; [by unfold same_keys in *; congruence|set_solver..].
Qed.
#[export] Instance settling_fine : Fine settling.
Proof. split; [apply _..|]. intros c e c' [Hg _ _] Hk _ _ _. by split; rewrite ?Hg. Qed.
#[export] Instance settling_queues : Queues settling.
Proof. intros c c' l [Hg _ _] Hk _ _. by split; rewrite ?Hg. Qed.
#[export] Instance settling_flushes : Flushes settling.
Proof. by split. Qed.
#[export] Instance settling_gate : GateEffect settling.
Proof. split; [apply _..|]. by split. Qed.

Lemma settling_step f c :
  m_unverifiedKeyChange (f (gate c)) ⊆ m_unverifiedKeyChange (gate c) →
  m_pendingBilateral (f (gate c)) ⊆ m_pendingBilateral (gate c) →
  m_peerVerified (gate c) ⊆ m_peerVerified (f (gate c)) → effect_at settling (on_gate f) c.
Proof. by split. Qed.

#[export] Instance settling_aux : GateAux settling.
Proof.
  split; [apply _..|]. intros f Hf c. destruct (Hf (gate c)) as (Hu & Hv & Hp & _).
  by apply settling_step; rewrite ?Hu, ?Hv, ?Hp.
Qed.
#[export] Instance settling_opens ours : OpenSteps ours settling.
Proof.
  split.
  - intros p c. by apply settling_step.
  - intros p c. apply settling_step; cbn; set_solver.
  - intros p c _ _. apply settling_step; cbn; set_solver.
Qed.

Lemma settling_confirm p : has_effect settling (on_gate (confirm p)).
Proof. intros c. apply settling_step; cbn; set_solver. Qed.

(** ** Facts about one contact that verification keeps *)
Definition attested_by (p : string) (c : Chat) : Prop := p ∈ m_peerVerified (gate c).
Definition confirmed (p : string) (c : Chat) : Prop := p ∉ m_unverifiedKeyChange (gate c).

#[export] Instance attested_core p : CoreInv (attested_by p).
Proof. unfold attested_by. by intros c c' [-> _ _]. Qed.
#[export] Instance attested_aux p : AuxInv (attested_by p).
Proof. unfold attested_by. intros c f Hf. cbn. by destruct (Hf (gate c)) as (_ & -> & _). Qed.
#[export] Instance attested_opens ours p : OpensInv ours (attested_by p).
Proof. split; unfold attested_by; cbn; set_solver. Qed.
#[export] Instance confirmed_core p : CoreInv (confirmed p).
Proof. unfold confirmed. by intros c c' [-> _ _]. Qed.
#[export] Instance confirmed_aux p : AuxInv (confirmed p).
Proof. unfold confirmed. intros c f Hf. cbn. by destruct (Hf (gate c)) as (-> & _). Qed.
#[export] Instance confirmed_opens ours p : OpensInv ours (confirmed p).
Proof. by split. Qed.
#[export] Instance open_aux p : AuxInv (is_open p).
Proof.
  intros c f Hf Hi. apply is_open_spec. cbn. destruct (Hf (gate c)) as (-> & _ & -> & _).
  by apply is_open_spec.
Qed.
#[export] Instance open_opens ours p : OpensInv ours (is_open p).
Proof.
  split; intros c.
  - done.
  - done.
  - intros q _ _ [Hu Hp]%is_open_spec. apply is_open_spec. cbn. set_solver.
Qed.

Section Verifying.
Context `{Sodium} `{QtText} `{QDataStream} `{QHashOrder} `{QStringOrder}.
Context `{QTrim} `{Oracle} `{QFiles} (ours : string).

Lemma session_opens I R `{!Effect R} `{!CoreInv I} `{!AuxInv I} `{!GateAux R} :
  OpensInv ours I → OpenSteps ours R → GateOpens ours (under (both (holding ours) I) R).
Proof. intros HI HR. split; [apply _..|]. refine (under_reads _ _ _ _). by intros c [Hh _]. Qed.

(** Both sides have confirmed: the episode ends. *)
Lemma resolve_opens p :
  leads (both (holding ours) (both (attested_by p) (confirmed p))) (is_open p)
    (tryResolveBilateral p).
Proof.
  intros c [Hh [Hv Hu]]. unfold attested_by, confirmed in *. unfold tryResolveBilateral.
  rewrite gets_eq. cbv beta zeta delta [id].
  destruct (negb (bool_decide (p ∈ m_pendingBilateral (gate c)))) eqn:Hp.
  { apply is_open_spec. by apply negb_true_iff, bool_decide_eq_false in Hp. }
  rewrite bool_decide_false, bool_decide_true by done. cbn [negb]. rewrite bind_state.
  pose proof (session_opens (is_open p) anything _ _) as Ho.
  assert (both (holding ours) (is_open p) (on_gate (resolve p) c).1.2) as Hi.
  { split; [exact Hh|]. apply is_open_spec. cbn. set_solver. }
  refine (proj2 (leads_under (both (holding ours) (is_open p)) _ _ _ Hi)).
  pose proof (gv_record (under (both (holding ours) (is_open p)) anything) ours). effects.
Qed.
(** A confirmation of a contact that has attested us ends the episode. *)
Lemma confirm_opens p :
  leads (both (holding ours) (attested_by p)) (is_open p) (acknowledgeKeyChange p).
Proof.
  pose proof (session_opens (both (attested_by p) (confirmed p)) anything _ _) as Ho.
  unfold acknowledgeKeyChange. apply leads_gets. intros c0. cbv zeta.
  refine (leads_bind _ (both (holding ours) (attested_by p)) _ _ _ _ _); [by intros c|intros _].
  refine (leads_bind _ (both (holding ours) (both (attested_by p) (confirmed p))) _ _ _ _ _).
  { intros c [Hh Hv]. split; [exact Hh|]. split; [exact Hv|]. unfold confirmed. cbn. set_solver. }
  intros _. destruct (negb _).
  - refine (leads_bind _ _ _ _ _ _ (λ _, resolve_opens p)). by intros c.
  - repeat (refine (leads_bind _ (both (holding ours) (both (attested_by p) (confirmed p)))
                      _ _ _ _ _); [apply leads_under; effects|intros _]).
    apply leads_gets. intros c1.
    repeat (refine (leads_bind _ (both (holding ours) (both (attested_by p) (confirmed p)))
                      _ _ _ _ _); [apply leads_under; effects|intros _]).
    apply resolve_opens.
Qed.

Lemma settled_confirm p :
  has_effect (under (holding ours) settling) (acknowledgeKeyChange p).
Proof.
  assert (GateOpens ours (under (holding ours) settling)) as Ho.
  { split; [apply _..|]. by refine (under_reads _ _ _ _). }
  apply (gv_acknowledge _ ours). intros c Hc. split; [apply settling_confirm|exact Hc].
Qed.

(** A confirmation leaves the contact confirmed and everything else settling. *)
Lemma confirm_confirms p c : holding ours c →
  let c' := (acknowledgeKeyChange p c).1.2 in
  confirmed p c' ∧ holding ours c' ∧ settling c (acknowledgeKeyChange p c).2 c'.
Proof.
  intros Hh. cbv zeta. split; [|split].
  - pose proof (session_opens (confirmed p) anything _ _) as Ho.
    assert (leads (holding ours) (both (holding ours) (confirmed p)) (acknowledgeKeyChange p))
      as Hl; [|by apply Hl].
    unfold acknowledgeKeyChange. apply leads_gets. intros c0. cbv zeta.
    refine (leads_bind _ (holding ours) _ _ _ _ _); [by intros c1|intros _].
    refine (leads_bind _ (both (holding ours) (confirmed p)) _ _ _ _ _).
    { intros c1 Hh1. split; [exact Hh1|]. unfold confirmed. cbn. set_solver. }
    intros _. apply leads_under.
    pose proof (gv_resolve (under (both (holding ours) (confirmed p)) anything) ours). effects.
  - apply (settled_confirm p c Hh).
  - apply (settled_confirm p c Hh).
Qed.

(** An attestation of our identity by the key we hold is accepted. *)
Lemma accept_takes p c : holding ours c → key_of p c ≠ "" → ours ≠ "" →
  let m := acceptVerifyAck p (key_of p c) ours in
  attested_by p (m c).1.2 ∧ holding ours (m c).1.2 ∧
  (confirmed p c → is_open p (m c).1.2).
Proof.
  intros Hh Hk Ho. cbv zeta. unfold acceptVerifyAck. rewrite gets_eq. cbv beta delta [id].
  unfold holding in Hh. rewrite Hh, !String.eqb_refl.
  rewrite (proj2 (String.eqb_neq _ _) Hk), (proj2 (String.eqb_neq _ _) Ho).
  cbn [negb orb]. cbv zeta. rewrite bind_state.
  assert (attested_by p (on_gate (attested ours p) c).1.2) as Hv
    by (unfold attested_by; cbn; set_solver).
  assert (holding ours (on_gate (attested ours p) c).1.2) as Hh1 by exact Hh.
  assert (confirmed p c → confirmed p (on_gate (attested ours p) c).1.2) as Hc by exact (λ Hx, Hx).
  revert Hv Hh1 Hc. change (λ g : Gate, set_forIdentity _ _) with (attested ours p).
  generalize (on_gate (attested ours p) c).1.2. intros c1 Hv Hh1 Hc.
  pose proof (session_opens (attested_by p) anything _ _) as Ha.
  pose proof (session_opens (both (attested_by p) (confirmed p)) anything _ _) as Hb.
  pose proof (gv_resolve (under (both (holding ours) (attested_by p)) anything) ours p) as Hr.
  split; [|split].
  1, 2: match goal with |- context [when ?b ?m ≫= ?k] =>
          assert (leads (both (holding ours) (attested_by p)) (both (holding ours) (attested_by p))
                    (when b m ≫= k)) as Hl by (apply leads_under; effects) end; by destruct (Hl c1 (conj Hh1 Hv)).
  intros Hu. match goal with |- context [when ?b ?m ≫= ?k] =>
    assert (leads (both (holding ours) (both (attested_by p) (confirmed p))) (is_open p)
              (when b m ≫= k)) as Hl end.
  - refine (leads_bind _ _ _ _ _ _ (λ _, resolve_opens p)). apply leads_under. effects.
  - apply Hl. split; [done|]. split; [done|by apply Hc].
Qed.
(** A confirmation over a live link sends the contact our attestation. *)
Definition acks (p : string) (c0 : Chat) {A} (m : M A) (c : Chat) : Prop :=
  ∃ t, Sent (FVerifyAck (self c0) p ours (key_of p c0) t) ∈ (m c).2.

Lemma acks_later p c0 {A B} (m : M A) (k : A → M B) c :
  has_effect (under (holding ours) settling) m → same_keys c0 c → holding ours c →
  (∀ x c', same_keys c0 c' → holding ours c' → acks p c0 (k x) c') → acks p c0 (m ≫= k) c.
Proof.
  intros Hm Hs Hh Hk. unfold acks. rewrite bind_events. destruct (Hm c Hh) as [[He _ _ _] Hh'].
  destruct (Hk (m c).1.1 (m c).1.2) as [t Ht]; [by unfold same_keys in *; congruence|done|].
  exists t. apply elem_of_app. by right.
Qed.

Lemma acks_now p c0 {A B} (m : M A) (k : A → M B) c : acks p c0 m c → acks p c0 (m ≫= k) c.
Proof. intros [t Ht]. exists t. rewrite bind_events. apply elem_of_app. by left. Qed.

Lemma acks_gets p c0 {A B} (f : Chat → A) (k : A → M B) c :
  acks p c0 (k (f c)) c → acks p c0 (gets f ≫= k) c.
Proof. unfold acks. by rewrite gets_eq. Qed.

Lemma confirm_acks p c : holding ours c → hasUnverifiedKeyChange p c = true →
  connected c = true → p ≠ "" → acks p c (acknowledgeKeyChange p) c.
Proof.
  intros Hh Hf Hc Hp. unfold acknowledgeKeyChange. apply acks_gets. cbv beta zeta delta [id].
  rewrite Hf. cbn [negb].
  assert (GateOpens ours (under (holding ours) settling)) as Ho.
  { split; [apply _..|]. by refine (under_reads _ _ _ _). }
  assert (has_effect (under (holding ours) settling) (on_gate (confirm p))) as Hcf.
  { intros c1 Hh1. split; [apply settling_confirm|exact Hh1]. }
  assert (has_effect (under (holding ours) settling)
            (on_gate (λ g, set_unverified (m_unverifiedKeyChange g ∖ {[p]}) g))) as Hcf' by exact Hcf.
  pose proof (eq_refl : ends (client c) = ends (client c)) as Hs.
  apply acks_later; [effects|done..|intros _ c1 Hs1 Hh1].
  apply acks_later; [exact Hcf|done..|intros _ c2 Hs2 Hh2].
  apply acks_later; [effects|done..|intros _ c3 Hs3 Hh3].
  apply acks_later; [effects|done..|intros _ c4 Hs4 Hh4].
  apply acks_later; [effects|done..|intros _ c5 Hs5 Hh5].
  apply acks_now. unfold sendOrQueueVerifyAck. rewrite (proj2 (String.eqb_neq _ _) Hp).
  apply acks_later; [effects|done..|intros ts c6 Hs6 Hh6].
  apply acks_gets. cbv beta zeta delta [id]. apply same_keys_spec in Hs6 as (Hself & Hcn & Hk & _).
  rewrite Hcn, Hc. cbn [negb]. apply acks_now. unfold transmitVerifyAck, acks.
  rewrite gets_eq. cbv beta zeta delta [id]. rewrite (proj2 (String.eqb_neq _ _) Hp), Hcn, Hc.
  cbn [negb orb]. rewrite Hself, Hk, (Hh6 : publicKeyHex (box c6) = ours).
  rewrite bind_events. eexists. apply elem_of_app. right. rewrite bind_events. cbn. by left.
Qed.
End Verifying.

Section Theorems.
Context `{Sodium} `{QtText} `{QDataStream} `{QHashOrder} `{QStringOrder}.
Context `{QTrim} `{Oracle} `{QFiles}.

(** Two clients that hold each other's present key, over a live link. *)
Record facing (a b : string) (ca cb : Chat) : Prop := {
  fa_names : self ca = a ∧ self cb = b ∧ a ≠ b ∧ a ≠ "" ∧ b ≠ "";
  fa_keys : m_peerKeys (client ca) !! b = Some (publicKeyHex (box cb)) ∧
    m_peerKeys (client cb) !! a = Some (publicKeyHex (box ca)) ∧
    publicKeyHex (box ca) ≠ "" ∧ publicKeyHex (box cb) ≠ "";
  fa_link : connected ca = true;
}.

Lemma receive_ack c p t : self c ≠ p → has_key p c = true →
  run_client_op (Receive (FVerifyAck p (self c) (key_of p c) (publicKeyHex (box c)) t)) c =
  acceptVerifyAck p (key_of p c) (publicKeyHex (box c)) c.
Proof.
  intros Hn Hk. cbn [run_client_op]. unfold onTextMessageReceived, kReplayFuel.
  cbn [handleServerFrame]. unfold onVerifyAck. rewrite gets_eq. cbv beta delta [id].
  rewrite (proj2 (String.eqb_neq _ _) (not_eq_sym Hn)), String.eqb_refl, Hk. done.
Qed.

(** C5: mutual verification ends the episode.  When [a] has been flagged for [b] and
    confirms, it sends an attestation; and once [b] has both received it and confirmed
    [a], in either order, the conversation with [a] is open at [b]. *)
Theorem verification_opens a b ca cb :
  facing a b ca cb → hasUnverifiedKeyChange b ca = true →
  ∃ t, let ack := FVerifyAck a b (publicKeyHex (box ca)) (publicKeyHex (box cb)) t in
  Sent ack ∈ (run_client_op (Confirm b) ca).2 ∧
  conversationBlocked a
    ((run_client_op (Confirm a) ≫= λ _, run_client_op (Receive ack)) cb).1.2 = false ∧
  conversationBlocked a
    ((run_client_op (Receive ack) ≫= λ _, run_client_op (Confirm a)) cb).1.2 = false.
Proof.
  intros [(Ha & Hb & Hn & Hea & Heb) (Hkb & Hka & Hpa & Hpb) Hl] Hf.
  set (ours := publicKeyHex (box cb)) in *.
  destruct (confirm_acks (publicKeyHex (box ca)) b ca) as [t Ht]; [done..|].
  exists t. cbv zeta.
  assert (key_of b ca = ours) as Hk by (unfold key_of; by rewrite Hkb).
  rewrite Ha, Hk in Ht. split; [exact Ht|].
  assert (∀ c, same_keys cb c → holding ours c →
    run_client_op (Receive (FVerifyAck a b (publicKeyHex (box ca)) ours t)) c =
    acceptVerifyAck a (key_of a c) ours c ∧ key_of a c ≠ "") as Hrec.
  { intros c (Hself & _ & Hkey & Hhas)%same_keys_spec Hh. unfold holding in Hh.
    assert (key_of a c = publicKeyHex (box ca)) as Hka'.
    { rewrite Hkey. unfold key_of. by rewrite Hka. }
    rewrite <- Hka', <- Hb, <- Hself, <- Hh. split; [|by rewrite Hka'].
    apply receive_ack; [congruence|]. rewrite Hhas. unfold has_key. rewrite Hka.
    by apply bool_decide_eq_true_2. }
  split; rewrite bind_state.
  - destruct (confirm_confirms ours a cb) as (Hc & Hh & Hs); [done|].
    destruct Hs as [Hs _ _ _]. destruct (Hrec (acknowledgeKeyChange a cb).1.2) as [Hr Hne]; [done..|].
    cbn [run_client_op]. cbn [run_client_op] in Hr. rewrite Hr.
    destruct (accept_takes ours a _ Hh Hne Hpb) as (_ & _ & Ho). exact (Ho Hc).
  - destruct (Hrec cb) as [Hr Hne]; [done..|]. rewrite Hr.
    destruct (accept_takes ours a cb eq_refl Hne Hpb) as (Hv & Hh & _).
    by apply (confirm_opens ours a).
Qed.
End Theorems.
