(* ===== verification/FlushFacts.v ===== *)
(** * Flushing the queue: nothing is lost in silence *)

From S2P Require Import Prelude Platform Kdf Ratchet X3dh CryptoBox Persist MessageModel.
From S2P Require Import UserModel HistoryStore FileCrypto Chat Messenger Rekey Sending.
From S2P Require Import Verification Receiving Effects GateFacts.

Import ChatClient Messenger Rekey Sending.

(** The ends stay and the queue only grows. *)
Record growing (c : Chat) (ev : list Event) (c' : Chat) : Prop := {
  gr_ends : same_keys c c';
  gr_queue : m_outbox (client c) `prefix_of` m_outbox (client c');
}.

#[export] Instance growing_effect : Effect growing.
Proof.
  split; [by split|]. intros c1 e1 c2 e2 c3 [A1 A2] [B1 B2].
  split; [by unfold same_keys in *; congruence|by etransitivity].
Qed.
#[export] Instance growing_fine : Fine growing.
Proof. split; [apply _|]. intros c e c' _ Hk Hq _ _. split; [done|]. by rewrite Hq. Qed.
#[export] Instance growing_queues : Queues growing.
Proof. intros c c' l _ Hk _ Hq. split; [done|]. by exists l. Qed.
#[export] Instance growing_gate : GateEffect growing.
Proof. split; [apply _|]. by split. Qed.

(** ** What becomes of a queued item *)

(** The frame that carries it; a file has more than one, see [FileSent]. *)
Definition carries (m : PendingOut) (f : Frame) : Prop :=
  match p_kind m, f with
  | PText, FMsg g => g_to g = p_peer m ∧ g_kind g = "" ∧ g_ts g = p_ts m ∧
      (p_mid m ≠ "" → g_mid g = p_mid m)
  | PHandshake, FMsg g => g_to g = p_peer m ∧ g_kind g = "handshake"
  | PVerifyAck, FVerifyAck _ to _ peer_ik _ => to = p_peer m ∧ peer_ik = p_peerIdentity m
  | _, _ => False
  end.

(** The item that stands for it in the queue: itself, or for a file the one that
    [sendFile] queued anew, for the same contact and the same path. *)
Definition stands_for (m x : PendingOut) : Prop :=
  x = m ∨ p_kind m = PFile ∧ p_kind x = PFile ∧ p_peer x = p_peer m ∧ p_srcPath x = p_srcPath m.

(** The notices that say it will not go out.  That a file waits in the queue is none. *)
Definition reports_loss (m : PendingOut) (n : Notice) : Prop :=
  match p_kind m, n with
  | PText, QueuedEncryptFailed p => p = p_peer m
  | PFile, QueuedFileGone p path => p = p_peer m ∧ path = p_srcPath m
  | PFile, FileNotFound path | PFile, CouldNotOpen path => path = p_srcPath m
  | PFile, FileTooLargeOrEmpty | PFile, CryptoInitFailed => True
  | PFile, PickSomeone => p_peer m = ""
  | _, _ => False
  end.

(** A file went out with all its parts, or its sender was told that it did not. *)
Definition concluded (i : FileInit) (ev : list Event) : Prop :=
  Sent (FFileEnd (fi_msg_id i)) ∈ ev ∨ ErrorOccurred SendEncryptionError ∈ ev.

Section Accounts.
Context `{QFiles}.

Inductive accounted (m : PendingOut) (keys : string → string) (ev : list Event) (c : Chat) : Prop :=
| StillQueued x : stands_for m x → x ∈ m_outbox (client c) → accounted m keys ev c
| HandedOver f : Sent f ∈ ev → carries m f → accounted m keys ev c
| FileSent i : p_kind m = PFile → Sent (FFileInit i) ∈ ev → fi_to i = p_peer m →
    fi_filename i = baseName (p_srcPath m) → concluded i ev → accounted m keys ev c
| Reported n : reports_loss m n → ErrorOccurred n ∈ ev → accounted m keys ev c
| Superseded : p_kind m = PVerifyAck →
    p_peerIdentity m = "" ∨ p_peerIdentity m ≠ keys (p_peer m) → accounted m keys ev c.

Lemma accounted_events m keys ev ev' c :
  (∀ e, e ∈ ev → e ∈ ev') → accounted m keys ev c → accounted m keys ev' c.
Proof.
  intros He [x Hx Hq|f Hf Hc|i Hk Hf Hto Hn Hd|n Hr Hn|Hk Hi].
  - by apply (StillQueued _ _ _ _ x).
  - apply (HandedOver _ _ _ _ f); auto.
  - apply (FileSent _ _ _ _ i); auto. destruct Hd; [left|right]; auto.
  - apply (Reported _ _ _ _ n); auto.
  - by apply Superseded.
Qed.

Lemma accounted_later m keys ev ev' c c' :
  growing c ev' c' → accounted m keys ev c → accounted m keys (ev ++ ev') c'.
Proof.
  intros [_ [l Hq]] Ha. apply (accounted_events _ _ ev); [intros e He; apply elem_of_app; by left|].
  destruct Ha as [x Hx Hin|f Hf Hc|i Hk Hf Hto Hn Hd|n Hr Hn|Hk Hi].
  - apply (StillQueued _ _ _ _ x); [done|]. rewrite Hq. apply elem_of_app. by left.
  - by apply (HandedOver _ _ _ _ f).
  - by apply (FileSent _ _ _ _ i).
  - by apply (Reported _ _ _ _ n).
  - by apply Superseded.
Qed.

Lemma accounted_before m keys ev ev' c : accounted m keys ev c → accounted m keys (ev' ++ ev) c.
Proof. apply accounted_events. intros e He. apply elem_of_app. by right. Qed.

End Accounts.

Section Flush.
Context `{Sodium} `{QtText} `{QDataStream} `{QHashOrder} `{QStringOrder} `{QTrim}.
Context `{Oracle} `{QFiles} (m : PendingOut) (keys : string → string).

Definition settles {A} (op : M A) (c : Chat) : Prop := accounted m keys (op c).2 (op c).1.2.

Lemma settles_first {A B} (op : M A) (k : A → M B) c :
  settles op c → (∀ x, has_effect growing (k x)) → settles (op ≫= k) c.
Proof.
  intros Ha Hk. unfold settles. rewrite bind_events, bind_state.
  apply accounted_later with (op c).1.2; [apply Hk|exact Ha].
Qed.

Lemma settles_then {A B} (op : M A) (k : A → M B) c :
  settles (k (op c).1.1) (op c).1.2 → settles (op ≫= k) c.
Proof. unfold settles. rewrite bind_events, bind_state. apply accounted_before. Qed.

Lemma settles_gets {A B} (f : Chat → A) (k : A → M B) c : settles (k (f c)) c → settles (gets f ≫= k) c.
Proof. unfold settles. by rewrite gets_eq. Qed.

Lemma settles_error n c : reports_loss m n → settles (emit (ErrorOccurred n)) c.
Proof. intros Hr. apply (Reported _ _ _ _ n); [done|by left]. Qed.

Lemma settles_requeue c : settles (requeue m) c.
Proof. apply (StillQueued _ _ _ _ m); [by left|]. cbn. apply elem_of_app. right. by left. Qed.

Lemma settles_queue_file ts c : p_kind m = PFile → settles (queue_file (p_peer m) (p_srcPath m) ts) c.
Proof.
  intros Hk. unfold queue_file. apply settles_then. unfold settles, on_client, queueOutboxFile. cbn.
  destruct (if _ : bool then _ else _) as [id st]. cbn.
  eapply StillQueued; [|apply elem_of_app; right; by left]. by right.
Qed.

Lemma settles_send f c : carries m f → settles (send f) c.
Proof. intros Hc. apply (HandedOver _ _ _ _ f); [by left|done]. Qed.
End Flush.

Create HintDb accounting.
#[export] Hint Resolve settles_error settles_requeue settles_queue_file : accounting.
#[export] Hint Extern 1 (reports_loss _ _) =>
  (unfold reports_loss; match goal with E : p_kind _ = _ |- _ => rewrite E end; done) : accounting.
Ltac accounts :=
  repeat first
    [ solve [eauto with accounting]
    | apply settles_gets; cbv beta delta [id]
    | apply settles_first; [solve [eauto with accounting]|solve [intros; effects]]
    | apply settles_then ].

Section Items.
Context `{Sodium} `{QtText} `{QDataStream} `{QHashOrder} `{QStringOrder} `{QTrim}.
Context `{Oracle} `{QFiles} (m : PendingOut) (keys : string → string).

Lemma hold_settles n c :
  p_kind m = PFile → settles m keys (hold_file (p_peer m) (p_srcPath m) n) c.
Proof.
  intros Hk. unfold hold_file. apply settles_then.
  destruct (readFile _ c).1.1; accounts.
Qed.

Lemma concluded_before i ev ev' : concluded i ev → concluded i (ev' ++ ev).
Proof. intros [Hi|Hi]; [left|right]; apply elem_of_app; by right. Qed.

(** The loop that sends the chunks reports when it stops early. *)
Lemma pump_reports fuel msgId data id idx sent total f c :
  (pump_chunks fuel msgId data id idx sent total f c).1.1 = false →
  ErrorOccurred SendEncryptionError ∈ (pump_chunks fuel msgId data id idx sent total f c).2.
Proof.
  revert data idx sent f c. induction fuel as [|fuel IH]; intros data idx sent f c; [done|].
  cbn -[CHUNK_SIZE be32]. destruct (decide (data = [])); [done|].
  destruct (encryptChunk _ _ _) as [ct f1]. destruct (decide (default [] ct = [])).
  - intros _. rewrite bind_events. apply elem_of_app. left. by left.
  - rewrite !bind_result, !bind_events. intros Hf. apply elem_of_app. right.
    apply elem_of_app. right. by apply IH.
Qed.

Lemma pump_concludes i to filename mime data f c :
  concluded i (pumpOutgoingFile (fi_msg_id i) to filename mime data f c).2.
Proof.
  unfold pumpOutgoingFile. rewrite bind_events.
  destruct (pump_chunks _ _ _ _ _ _ _ _ c).1.1 eqn:Hp; cbn [negb].
  - left. apply elem_of_app. right. rewrite bind_events. apply elem_of_app. left. by left.
  - right. apply elem_of_app. left. by apply pump_reports.
Qed.

Lemma announce_settles mid d k f c :
  p_kind m = PFile → settles m keys (announce_file (p_peer m) (p_srcPath m) mid d k f) c.
Proof.
  intros Hk. unfold announce_file. apply settles_then.
  destruct (encrypt _ _ c).1.1 as [w| |]; [|accounts..].
  apply settles_gets. cbv beta zeta delta [id]. unfold settles.
  eapply FileSent; [done|rewrite bind_events; apply elem_of_app; left; by left|done..|].
  do 3 (rewrite bind_events; apply concluded_before). by apply pump_concludes.
Qed.

Lemma sendFile_settles c :
  p_kind m = PFile → active c = p_peer m → has_key (p_peer m) c = true →
  settles m keys (sendFile (p_srcPath m)) c.
Proof.
  intros Hk Hp Hkey. unfold sendFile. apply settles_gets. cbv beta zeta delta [id]. rewrite Hp, Hkey.
  destruct (String.eqb _ "") eqn:He.
  { apply settles_error. unfold reports_loss. rewrite Hk. by apply String.eqb_eq. }
  destruct (conversationBlocked _ _); [by apply hold_settles|].
  destruct (_ || _); [by apply hold_settles|]. cbn [negb].
  apply settles_then. destruct (readFile _ c).1.1; [|accounts].
  destruct (_ || _); [accounts|]. do 4 apply settles_then. cbv zeta.
  destruct (initPush _ _ _) as [started f]. destruct (_ || _); [accounts|].
  by apply announce_settles.
Qed.
End Items.

Section Whole.
Context `{Sodium} `{QtText} `{QDataStream} `{QHashOrder} `{QStringOrder} `{QTrim}.
Context `{Oracle} `{QFiles}.

(** A ratchet frame is sent, or the attempt fails. *)
Lemma control_sent p kind sentinel ik c :
  (transmit_control p kind sentinel ik c).1.1 = true →
  ∃ g, Sent (FMsg g) ∈ (transmit_control p kind sentinel ik c).2 ∧ g_to g = p ∧ g_kind g = kind.
Proof.
  unfold transmit_control. rewrite bind_events, bind_result.
  destruct (encrypt p sentinel c).1.1 as [w| |]; [|done..]. intros _.
  rewrite gets_eq. cbv beta delta [id]. rewrite bind_events. eexists. split.
  - do 2 (apply elem_of_app; right). rewrite bind_events. apply elem_of_app. left. cbn. by left.
  - done.
Qed.

Lemma ack_sent p ik' c :
  (transmitVerifyAck p ik' c).1.1 = true →
  ∃ from ik t, Sent (FVerifyAck from p ik ik' t) ∈ (transmitVerifyAck p ik' c).2.
Proof.
  unfold transmitVerifyAck. rewrite gets_eq. cbv beta zeta delta [id]. destruct (_ || _); [done|].
  intros _. rewrite bind_events. do 3 eexists. apply elem_of_app. right. rewrite bind_events.
  cbn. by left.
Qed.

Lemma item_settles m c :
  settles m (λ p, key_of p c) (flush_item m) c.
Proof.
  unfold flush_item. apply settles_gets. cbv beta delta [id].
  destruct (negb (connected c)); [accounts|].
  destruct (has_key (p_peer m) c) eqn:Hkey; cbn [negb]; [|accounts].
  destruct (gated m && _); [accounts|].
  destruct (p_kind m) eqn:Hk.
  - unfold flush_text. apply settles_then. destruct (encrypt _ _ c).1.1; [|accounts..].
    apply settles_gets. cbv beta delta [id]. apply settles_then.
    apply settles_first; [|intros; effects]. apply settles_send. unfold carries. rewrite Hk.
    cbn. split_and!; [done..|]. intros Hm. by rewrite (proj2 (String.eqb_neq _ _) Hm).
  - unfold flush_file. apply settles_then. destruct (readFile _ c).1.1; [|accounts].
    apply settles_gets. cbv beta delta [id]. apply settles_then.
    apply settles_first; [|intros; effects]. by apply sendFile_settles.
  - unfold flush_handshake. destruct (transmitHandshake (p_peer m) c).1.1 eqn:Ht.
    + apply control_sent in Ht as (g & Hg & Hto & Hkind).
      apply settles_first; [|intros b; effects].
      eapply HandedOver; [exact Hg|]. unfold carries. by rewrite Hk.
    + apply settles_then. rewrite Ht. accounts.
  - unfold flush_verifyack. apply settles_gets. cbv beta delta [id].
    destruct (_ || _) eqn:Hi.
    + apply Superseded; [done|]. apply orb_true_iff in Hi as [Hi|Hi]; [left|right].
      * by apply String.eqb_eq.
      * by apply negb_true_iff, String.eqb_neq in Hi.
    + destruct (transmitVerifyAck (p_peer m) (p_peerIdentity m) c).1.1 eqn:Ht.
      * apply ack_sent in Ht as (from & ik & t & Hg).
        apply settles_first; [|intros b; effects].
        eapply HandedOver; [exact Hg|]. unfold carries. by rewrite Hk.
      * apply settles_then. rewrite Ht. accounts.
Qed.

Lemma items_settle l c m : m ∈ l → settles m (λ p, key_of p c) (for_each l flush_item) c.
Proof.
  assert (∀ m, has_effect growing (flush_item m)) as Hg by (intros; by refine (ge_flush_item _ _)).
  revert c. induction l as [|x l IH]; intros c Hm; [by apply not_elem_of_nil in Hm|].
  cbn [for_each]. apply elem_of_cons in Hm as [->|Hm].
  - apply settles_first; [apply item_settles|]. intros _. by refine (effect_for_each _ _ _ (λ y _, Hg y)).
  - apply settles_then. pose proof (IH (flush_item x c).1.2 Hm) as Hi.
    destruct (Hg x c) as [Hs _]. unfold settles in *.
    destruct Hi as [y Hy Hi|f Hf Hc|i Hk Hf Hto Hn Hd|n Hr Hn|Hk Hp].
    + by eapply StillQueued.
    + by eapply HandedOver.
    + by eapply FileSent.
    + by eapply Reported.
    + apply Superseded; [done|]. apply same_keys_spec in Hs as (_ & _ & Hkey & _).
      by rewrite Hkey in Hp.
Qed.

End Whole.
