(* ===== verification/HeartbeatFacts.v ===== *)
(** * The rekey heartbeat when a contact goes offline *)

From S2P Require Import Prelude Platform Kdf Ratchet X3dh CryptoBox Persist MessageModel.
From S2P Require Import UserModel HistoryStore Chat Messenger Rekey Effects.

Import ChatClient Messenger Rekey.

(** A computation that says nothing and leaves the client as it is. *)
Definition still {A} (m : M A) (c : Chat) (x : A) : Prop := m c = (x, c, []).

Lemma still_then {A B} (m : M A) (k : A → M B) c x : still m c x → (m ≫= k) c = k x c.
Proof.
  unfold still. intros Hm. rewrite bind_eq, Hm. cbn. by destruct (k x c) as [[y c'] e].
Qed.

Lemma still_bind {A B} (m : M A) (k : A → M B) c x y :
  still m c x → still (k x) c y → still (m ≫= k) c y.
Proof. intros Hm Hk. unfold still. by rewrite (still_then m k c x). Qed.

Lemma still_each {A} (l : list A) body c :
  (∀ x, x ∈ l → still (body x) c ()) → still (for_each l body) c ().
Proof.
  induction l as [|x l IH]; intros Hb; [done|]. cbn [for_each].
  apply (still_bind _ _ _ ()); [apply Hb; by left|]. apply IH. intros y Hy. apply Hb. by right.
Qed.

Lemma still_any {A} (l : list A) body c :
  (∀ x, x ∈ l → still (body x) c false) → still (for_any l body) c false.
Proof.
  induction l as [|x l IH]; intros Hb; [done|]. cbn [for_any].
  apply (still_bind _ _ _ false); [apply Hb; by left|].
  apply (still_bind _ _ _ false); [|done]. apply IH. intros y Hy. apply Hb. by right.
Qed.

Section Heartbeat.
Context `{Sodium} `{QtText} `{QDataStream} `{QHashOrder} `{QStringOrder} `{Oracle}.

(** [p] owes a pong for a ping that has not used up its resends, and has left; nothing
    else is due. *)
Record stranded (p : string) (c : Chat) : Prop := {
  st_link : connected c = true;
  st_only : m_rekeyOutstanding (pcs c) = {[p]};
  st_resends : (default 0 (m_rekeyPingResends (pcs c) !! p) < kPcsRekeyPingMaxResends)%Z;
  st_offline : online p c = false;
  st_counted q : ping_due q c = false;
  st_owed : m_pongOwed (pcs c) = ∅;
  st_heal : m_healPending (pcs c) = ∅;
}.

Lemma qset_items_elem (s : gset string) p : p ∈ qset_items s ↔ p ∈ s.
Proof. by rewrite qset_items_perm, elem_of_elements. Qed.

Lemma qset_items_empty : qset_items ∅ = [].
Proof. apply Permutation_nil_r. by rewrite qset_items_perm, elements_empty. Qed.

(** No ping goes to a contact that is offline. *)
Lemma offline_ping p c : online p c = false → still (transmitRekey p false) c false.
Proof.
  intros Ho. unfold still, transmitRekey. rewrite gets_eq. cbv beta delta [id]. cbn [negb andb].
  rewrite Ho. by destruct (conversationBlocked p c).
Qed.

Lemma stranded_in_flight p t c : stranded p c → still (kick_in_flight t p) c ().
Proof.
  intros [Hl Ho Hr Hf _ _ _]. unfold still, kick_in_flight. rewrite gets_eq.
  cbv beta zeta delta [id] in *. destruct (_ || _); [done|].
  destruct (_ <=? _)%Z eqn:He; [apply Z.leb_le in He; lia|].
  destruct (has_session p c); [|done].
  by apply (still_bind _ _ _ false); [apply offline_ping|].
Qed.

(** Neither the draws nor the kick timer matter. *)
Lemma stranded_timer p c tries run n : stranded p c →
  stranded p (mkChat (client c) (gate c) (set_kick tries run (pcs c)) (link c) (transfers c) n).
Proof. by intros [Hl Ho Hr Hf Hc Hw Hh]. Qed.

Lemma now_eq c :
  now c = (clock_at (ticks c), mkChat (client c) (gate c) (pcs c) (link c) (transfers c) (S (ticks c)), []).
Proof. done. Qed.

Lemma stranded_kick p c : stranded p c →
  kickRekey c = ((), mkChat (client c) (gate c) (set_kick 0 true (pcs c)) (link c) (transfers c) (S (ticks c)), []).
Proof.
  intros Hs. unfold kickRekey. rewrite gets_eq. cbv beta delta [id]. rewrite (st_link p c Hs).
  cbn [negb]. rewrite bind_eq, now_eq. cbn [fst snd app].
  set (c1 := mkChat _ _ (pcs c) _ _ _).
  assert (stranded p c1) as Hs1 by by destruct Hs.
  rewrite gets_eq. rewrite (still_then _ _ _ ()).
  2: { apply still_each. intros q Hq. cbv beta in Hq. rewrite (st_only p c1 Hs1) in Hq.
       apply qset_items_elem, elem_of_singleton in Hq as ->. by apply stranded_in_flight. }
  rewrite gets_eq, (still_then _ _ _ false).
  2: { apply still_any. intros q _. unfold still, kick_counted. rewrite gets_eq.
       cbv beta delta [id]. by rewrite (st_counted p c1 Hs1). }
  rewrite gets_eq. cbv beta. rewrite (st_owed p c1 Hs1), qset_items_empty, (still_then _ _ _ false) by done.
  rewrite gets_eq. cbv beta. rewrite (st_heal p c1 Hs1), qset_items_empty, (still_then _ _ _ false) by done.
  cbn [orb modify fst snd app]. unfold kick_rearm. rewrite (st_only p c1 Hs1).
  rewrite bool_decide_false by (intros He; set_solver). by rewrite orb_true_r.
Qed.

Lemma stranded_tick p c : stranded p c →
  stranded p (onKickTimer c).1.2 ∧ (onKickTimer c).2 = [] ∧
  m_rekeyKickTimer (pcs (onKickTimer c).1.2) = true ∧
  client (onKickTimer c).1.2 = client c ∧
  m_rekeyPingSentAt (pcs (onKickTimer c).1.2) = m_rekeyPingSentAt (pcs c).
Proof.
  intros Hs. unfold onKickTimer. rewrite bind_state, bind_events.
  rewrite (stranded_kick p) by by apply (stranded_timer p c _ false (ticks c)).
  split; [|done]. exact (stranded_timer p c 0 true _ Hs).
Qed.

End Heartbeat.
