(* ===== verification/TypingFacts.v ===== *)
(** * The typing indicator when the user changes contact *)

From S2P Require Import Prelude Platform Kdf Ratchet X3dh CryptoBox MessageModel.
From S2P Require Import UserModel.
From S2P Require Import HistoryStore Chat Messenger Rekey Sending Effects.

Import ChatClient Messenger Sending.

Section Typing.
Context `{Sodium} `{QtText} `{QDataStream} `{QHashOrder} `{QStringOrder} `{QTrim}.
Context `{Oracle} `{QFiles}.

(** The frames that a computation hands to the socket. *)
Definition said (m : M ()) (c : Chat) : list Event := (m c).2.
Definition afterwards (m : M ()) (c : Chat) : Chat := (m c).1.2.

(** The user opens another conversation. *)
Definition turn_to (peer : string) (c : Chat) : Chat := set_client (set_active peer (client c)) c.

(** What [sendTypingState] does over a live connection. *)
Lemma typing_state peer state c :
  peer ≠ "" → connected c = true →
  sendTypingState peer state c =
  if String.eqb state (m_lastTypingStateSent (link c)) && String.eqb peer (m_typingPeer (link c))
  then ((), c, [])
  else ((), set_link (set_typing state peer (link c)) c, [Sent (FTyping (self c) peer state)]).
Proof.
  intros Hp%String.eqb_neq Hl. unfold sendTypingState. rewrite Hp, gets_eq. cbv beta delta [id].
  destruct (_ && _); [done|]. unfold on_link, modify. cbn [mbind M_bind connected]. cbn in Hl |- *.
  by rewrite Hl.
Qed.

Lemma notify_eq b c :
  active c ≠ "" → connected c = true →
  notifyTyping b c =
  sendTypingState (active c) (if b : bool then "sending_file" else "typing")
    (set_link (set_typing (m_lastTypingStateSent (link c)) (active c) (link c)) c).
Proof.
  intros Ha%String.eqb_neq Hl. unfold notifyTyping. rewrite gets_eq. cbv beta delta [id].
  rewrite Ha, Hl. cbn [negb orb]. cbv zeta. rewrite bind_eq. cbn.
  by destruct (sendTypingState _ _ _) as [[[] c'] ev].
Qed.

(** The contact first typed to is forgotten, and the second is never told.  The member
    [m_typingPeer] is set before the comparison that it serves, so when the user turns to
    another contact while the first is shown "typing", the keystrokes send nothing; the
    idle timer then tells the second contact of an end to typing it never heard of, and
    the first is told nothing. *)
Theorem second_contact_not_told a b c :
  a ≠ b → b ≠ "" → connected c = true → active c = a → a ≠ "" →
  m_lastTypingStateSent (link c) ≠ "typing" →
  let c1 := turn_to b (afterwards (notifyTyping false) c) in
  let c2 := afterwards (notifyTyping false) c1 in
  said (notifyTyping false) c = [Sent (FTyping (self c) a "typing")]
  ∧ said (notifyTyping false) c1 = []
  ∧ said onTypingTimer c2 = [Sent (FTyping (self c) b "idle")].
Proof.
  intros Hab Hb Hl Ha Hn Hs. cbv zeta.
  assert (notifyTyping false c =
    ((), set_link (set_typing "typing" a (link c)) c, [Sent (FTyping (self c) a "typing")])) as E1.
  { rewrite notify_eq by (congruence || done). rewrite Ha. rewrite typing_state by done.
    cbn [link set_link set_typing m_lastTypingStateSent].
    by rewrite (proj2 (String.eqb_neq _ _) (not_eq_sym Hs)). }
  unfold said, afterwards. rewrite E1. cbn [fst snd].
  set (c1 := turn_to b _).
  assert (notifyTyping false c1 = ((), set_link (set_typing "typing" b (link c)) c1, [])) as E2.
  { rewrite notify_eq by done. rewrite typing_state by done. cbn. by rewrite String.eqb_refl. }
  rewrite E2. split_and!; [done|done|]. cbn [fst snd]. unfold onTypingTimer. rewrite gets_eq.
  cbv beta delta [id]. cbn [link set_link set_typing m_typingPeer].
  rewrite (proj2 (String.eqb_neq _ _) Hb). cbn [negb when]. by rewrite typing_state.
Qed.
End Typing.
