(* ===== verification/ForgeryFacts.v ===== *)
(** * A handshake states an identity *)

From S2P Require Import Prelude Platform Kdf Ratchet X3dh CryptoBox Persist MessageModel.
From S2P Require Import UserModel HistoryStore FileCrypto Chat Messenger Rekey Sending.
From S2P Require Import Verification Receiving Effects GateFacts GateSteps GateSafety.

Import ChatClient Messenger Rekey Sending Verification Receiving.

(** A conversation in good standing with [p], whose key is not [K]. *)
Record standing `{QtText} (p : string) (K : bytes) (c : Chat) : Prop := {
  sd_other : p ≠ self c;
  sd_open : conversationBlocked p c = false;
  sd_key : has_key p c = true ∧ key_of p c ≠ hexStr K;
  sd_identity : ∃ old, m_peerIdentity (box c) !! p = Some old ∧ old ≠ K;
  sd_adopted : m_rebootstrapAdopted (link c) !! p ≠ Some (hexStr K);
  sd_stash : stash_ok c;
  sd_private : m_privateKey (box c) ≠ [];
  sd_length : length K = 32;
}.

Section Forgery.
Context `{Sodium} `{QtText} `{!QtTextLaws} `{!QtHexLaws} `{QDataStream} `{QHashOrder}.
Context `{QStringOrder} `{QTrim} `{Oracle} `{QFiles}.

(** The client after it has taken [K] for the identity of [p]. *)
Record taken (p : string) (K : bytes) (c : Chat) : Prop := {
  tk_key : m_peerKeys (client c) !! p = Some (hexStr K);
  tk_identity : m_peerIdentity (box c) !! p = Some K;
  tk_session : m_sessions (box c) !! p = None;
  tk_length : length K = 32;
}.

Lemma ensure_new p K old b :
  length K = 32 → m_peerIdentity b !! p = Some old → old ≠ K →
  (ensureSharedKey p (hexStr K) b).2 =
  set_ratchets (delete p (m_sessions b)) (set_peers (<[p := K]> (m_peerIdentity b)) b).
Proof.
  intros Hl Ho Hne. unfold ensureSharedKey. rewrite unhexStr_hexStr, Hl, Ho. cbn [Nat.eqb negb].
  by rewrite bool_decide_false.
Qed.

Lemma ensure_same p K b :
  length K = 32 → m_peerIdentity b !! p = Some K →
  ensureSharedKey p (hexStr K) b = (false, set_peers (<[p := K]> (m_peerIdentity b)) b).
Proof.
  intros Hl Ho. unfold ensureSharedKey. rewrite unhexStr_hexStr, Hl, Ho. cbn [Nat.eqb negb].
  by rewrite bool_decide_true.
Qed.

(** A handshake of [p] that states [K]. *)
Definition stating (p : string) (K : bytes) (m : Msg) : Prop :=
  g_from m = p ∧ g_kind m = "handshake" ∧ g_ik m = hexStr K ∧ g_opener m = None.

Lemma on_box_eq {A} (f : CryptoBox → A * CryptoBox) c :
  on_box f c = ((f (box c)).1, set_client (set_crypto (f (box c)).2 (client c)) c, []).
Proof.
  unfold on_box, with_client, box. by destruct (f (m_crypto (client c))).
Qed.

Lemma adopt_stated p ik f c :
  (on_link (λ l, set_adopted (<[p := ik]> (m_rebootstrapAdopted l)) l) ;;
   on_client (λ c, set_peerKeys (<[p := ik]> (m_peerKeys c)) c) ;;
   ensure_key p ik ;; stash p f ;; emit PeerKeysChanged ;; mret false) c =
  (false,
   mkChat (set_crypto (ensureSharedKey p ik (m_crypto (client c))).2
             (set_peerKeys (<[p := ik]> (m_peerKeys (client c))) (client c)))
     (gate c) (pcs c)
     (set_stash (<[p := default [] (m_pendingFrames (link c) !! p) ++ [f]]> (m_pendingFrames (link c)))
        (set_adopted (<[p := ik]> (m_rebootstrapAdopted (link c))) (link c)))
     (transfers c) (ticks c),
   [Sent (FGetKey p); PeerKeysChanged]).
Proof.
  unfold ensure_key, stash, on_box, with_client, on_link, on_client, modify, mbind, M_bind. cbn.
  by destruct (ensureSharedKey p ik (m_crypto (client c))).
Qed.

Lemma stated_identity p K m c : standing p K c → stating p K m →
  let '(_, c', ev) := run_client_op (Receive (FMsg m)) c in
  ev = [Sent (FGetKey p); PeerKeysChanged] ∧ taken p K c' ∧ gate c' = gate c ∧ stash_ok c' ∧
  self c' = self c ∧ m_privateKey (box c') = m_privateKey (box c) ∧
  m_publicKey (box c') = m_publicKey (box c).
Proof.
  intros [Hn Ho [Hk Hne] (old & Hold & Hdiff) Ha Hs Hp Hl] (Hf & Hkind & Hik & Hop).
  cbn [run_client_op]. unfold onTextMessageReceived, kReplayFuel. cbn [handleServerFrame].
  unfold onMsg. rewrite here_eq. cbv beta zeta. rewrite Hop, ret_eq. cbn [negb].
  rewrite Hf, (proj2 (String.eqb_neq _ _) Hn), Hk, Hkind. cbn [negb String.eqb Ascii.eqb Bool.eqb].
  rewrite Hik.
  assert (String.eqb (hexStr K) "" = false) as Hx by (apply hexStr_nonempty; by intros ->).
  assert (String.eqb (default "" (m_rebootstrapAdopted (link c) !! p)) (hexStr K) = false) as Had.
  { apply String.eqb_neq. intros He. apply Ha.
    destruct (m_rebootstrapAdopted (link c) !! p) as [i|]; cbn in He; [by subst i|].
    rewrite <- He in Hx. by cbn in Hx. }
  unfold handshake_identity. rewrite bind_assoc, here_eq. cbv beta.
  rewrite Hx, (proj2 (String.eqb_neq _ _) (not_eq_sym Hne)). cbn [orb]. rewrite Had. cbn [negb].
  rewrite bind_eq, adopt_stated. cbn [fst snd]. cbn [app mret M_ret fst snd].
  assert (m_peerIdentity (m_crypto (set_peerKeys (<[p := hexStr K]> (m_peerKeys (client c))) (client c))) !! p
          = Some old) as Hold' by exact Hold.
  split_and!; try done.
  - split; cbn.
    + by rewrite lookup_insert_eq.
    + rewrite (ensure_new p K old) by done. cbn. by rewrite lookup_insert_eq.
    + rewrite (ensure_new p K old) by done. cbn. by rewrite lookup_delete_eq.
    + done.
  - apply map_Forall_insert_2; [|exact Hs]. apply Forall_app.
    split; [by apply stash_lookup|by constructor].
  - cbn. by rewrite (ensure_new p K old).
  - cbn. by rewrite (ensure_new p K old).
Qed.

Lemma adopt_unnoticed p K c : taken p K c → is_open p c →
  is_open p (adopt_key p (hexStr K) c).1.2.
Proof.
  intros [Hk Hi Hse Hl] Ho. assert (K ≠ []) as Hne by (by intros ->).
  unfold adopt_key. rewrite bind_state, here_eq. cbv beta zeta.
  set (c1 := (on_client _ c).1.2).
  change (has_session p c1) with (has_session p c).
  change (peerIdentityHex p (box c1)) with (peerIdentityHex p (box c)).
  assert (has_session p c = false) as ->.
  { apply bool_decide_eq_false_2. rewrite Hse. by intros []. }
  assert (peerIdentityHex p (box c) = hexStr K) as -> by (unfold peerIdentityHex; by rewrite Hi).
  rewrite (hexStr_nonempty K Hne). cbn [andb negb]. rewrite bind_state, on_box_eq.
  rewrite (ensure_same p K (box c1) Hl Hi). cbn [fst snd orb andb negb].
  set (c2 := set_client _ c1). rewrite bind_state.
  apply (leads_under (is_open p)); [pose proof (gv_maybe (under (is_open p) anything)); by destruct (_ && _); effects|].
  apply (leads_under (is_open p)); [unfold have_persisted_session; effects|exact Ho].
Qed.

(** The relay confirms [K]: no change of key is seen. *)
Lemma confirmed_identity p K c : taken p K c → p ≠ self c → stash_ok c →
  conversationBlocked p c = false →
  conversationBlocked p
    (run_client_op (Receive (FKey p (hexStr K) "x25519")) c).1.2 = false.
Proof.
  intros [Hk Hi Hse Hl] Hn Hs Ho. set (ours := publicKeyHex (box c)).
  cbn -[replayPendingFrames]. unfold onKey.
  assert (K ≠ []) as Hne by (by intros ->).
  rewrite (hexStr_nonempty K Hne), here_eq. cbv beta.
  assert (ik_type "x25519" c = "x25519") as -> by (unfold ik_type; by destruct (m_relayServesUntaggedEd _)).
  unfold publish_key. rewrite toUtf8_hexStr, fromHex_toHex. unfold agreementKeyFor. rewrite Hl.
  cbn [Nat.eqb negb String.eqb Ascii.eqb Bool.eqb orb]. rewrite bind_assoc, bind_state.
  set (c1 := (on_link _ c).1.2). rewrite ret_eq, hexStr_utf8, bind_state.
  set (c2 := (adopt_key _ _ c1).1.2).
  assert (is_open p c2) as Ho2 by (apply adopt_unnoticed; [by split|exact Ho]).
  assert (both stash_ok (holding ours) c2) as Hi2.
  { apply (gk_adopt (under (both stash_ok (holding ours)) ungated) p (hexStr K) c1). by split. }
  pose proof (gate_replay (under (both stash_ok (holding ours)) crossing) ours 1) as Hr.
  refine (cr_gate _ _ _ (under_at (both stash_ok (holding ours)) crossing _ c2 _ Hi2) p Ho2).
  effects.
Qed.
(** C7: a key can be replaced without a word.  A "handshake" frame states an identity;
    one that arrives as from a verified contact, with any 32 octets for an identity, is
    adopted without any notice: the conversation stays open and the next message is
    encrypted under a session with those octets.  And when the relay then serves the same
    key, no change is seen and the gate stays open. *)
Theorem key_substitution_unnoticed p K m c rnd :
  standing p K c → stating p K m →
  let '(_, c1, ev) := run_client_op (Receive (FMsg m)) c in
  ev = [Sent (FGetKey p); PeerKeysChanged] ∧
  key_of p c1 = hexStr K ∧ conversationBlocked p c1 = false ∧
  fst <$> sessionFor p rnd (box c1) =
    Some (bootstrap_session (m_privateKey (box c)) (m_publicKey (box c)) K rnd) ∧
  conversationBlocked p (run_client_op (Receive (FKey p (hexStr K) "x25519")) c1).1.2 = false.
Proof.
  intros Hst Hm. pose proof (stated_identity p K m c Hst Hm) as Hs.
  destruct (run_client_op (Receive (FMsg m)) c) as [[[] c1] ev].
  destruct Hs as (-> & Ht & Hg & Hstash & Hself & Hpriv & Hpub).
  assert (conversationBlocked p c1 = false) as Ho.
  { apply (open_same_gate p c c1 Hg). apply (sd_open p K c Hst). }
  split; [done|]. split; [unfold key_of; by rewrite (tk_key p K c1 Ht)|]. split; [done|]. split.
  - unfold sessionFor. rewrite (tk_session p K c1 Ht), (tk_identity p K c1 Ht).
    rewrite decide_False by (rewrite Hpriv; apply (sd_private p K c Hst)).
    by rewrite Hpriv, Hpub.
  - apply confirmed_identity; [done| |done|done]. rewrite Hself. apply (sd_other p K c Hst).
Qed.
End Forgery.
