(* ===== verification/ReplayFacts.v ===== *)
(** * Stashed frames: replay ends

    A frame that brings a key replays the frames stashed for want of it.  None of those
    brings a key, so replay does not nest, and the fuel of [handleServerFrame] is spent
    at most once. *)

From S2P Require Import Prelude Platform Kdf Ratchet X3dh CryptoBox Persist MessageModel.
From S2P Require Import UserModel HistoryStore FileCrypto Chat Messenger Rekey Sending.
From S2P Require Import Verification Receiving Effects GateFacts GateSteps GateSafety.

Import ChatClient Messenger Rekey Sending Verification Receiving.

(** Two computations that agree where [I] holds. *)
Definition agree (I : Chat → Prop) {A} (m m' : M A) : Prop := ∀ c, I c → m c = m' c.

Lemma agree_bind I {A B} (m m' : M A) (k k' : A → M B) :
  agree I m m' → has_effect (under I anything) m' → (∀ x, agree I (k x) (k' x)) →
  agree I (m ≫= k) (m' ≫= k').
Proof.
  intros Hm He Hk c Hi. rewrite !bind_eq, (Hm c Hi). destruct (He c Hi) as [_ Hi'].
  by rewrite (Hk _ _ Hi').
Qed.

Lemma agree_each I {A} (l : list A) f g :
  (∀ x, x ∈ l → agree I (f x) (g x)) → (∀ x, x ∈ l → has_effect (under I anything) (g x)) →
  agree I (for_each l f) (for_each l g).
Proof.
  induction l as [|x l IH]; intros Hf Hg; [by intros c|]. cbn [for_each].
  apply agree_bind; [apply Hf; by left|apply Hg; by left|]. intros _.
  apply IH; intros y Hy; [apply Hf|apply Hg]; by right.
Qed.

Lemma agree_refl I {A} (m : M A) : agree I m m.
Proof. by intros c. Qed.

Section Replay.
Context `{Sodium} `{QtText} `{QDataStream} `{QHashOrder} `{QStringOrder}.
Context `{QTrim} `{Oracle} `{QFiles} (ours : string).

Lemma session_any_opens : GateOpens ours (under (both stash_ok (holding ours)) anything).
Proof. split; [apply _..|]. refine (under_reads _ _ _ _). by intros c [_ Hh]. Qed.

(** A frame without keys does not use the fuel. *)
Lemma keyless_fuel k f : keyless f = true → handleServerFrame k f = handleServerFrame 0 f.
Proof. by destruct f, k. Qed.

Lemma replay_agrees k p :
  agree (both stash_ok (holding ours)) (replayPendingFrames (handleServerFrame k) p)
    (replayPendingFrames (handleServerFrame 0) p).
Proof.
  intros c [Hs Hh]. unfold replayPendingFrames. rewrite !here_eq. cbv beta zeta.
  pose proof session_any_opens as Ho.
  rewrite !bind_eq. apply (f_equal (λ r, (r.1, _ ++ r.2))).
  apply (agree_each (both stash_ok (holding ours))); [| |].
  - intros f Hf c' _. rewrite keyless_fuel; [done|]. apply stashable_keyless.
    by apply (proj1 (Forall_forall _ _) (stash_lookup p c Hs)).
  - intros f Hf. apply (gr_frame _ ours), stashable_keyless.
    by apply (proj1 (Forall_forall _ _) (stash_lookup p c Hs)).
  - split; [by apply (stash_inv_take (I := stash_ok))|exact Hh].
Qed.
#[local] Existing Instance session_any_opens.
#[local] Instance session_any_reads : Reads stash_ok (under (both stash_ok (holding ours)) anything).
Proof. refine (under_reads _ _ _ _). by intros c [Hs _]. Qed.

Lemma frame_agrees k f :
  agree (both stash_ok (holding ours)) (handleServerFrame (S k) f) (handleServerFrame 1 f).
Proof.
  destruct (keyless f) eqn:Hk; [rewrite (keyless_fuel (S k) f Hk), (keyless_fuel 1 f Hk); apply agree_refl|].
  set (R := under (both stash_ok (holding ours)) anything).
  assert (∀ p key, has_effect R (adopt_key p key)) as Ha by (intros; by refine (gk_adopt _ _ _)).
  pose proof (λ ts e, gk_entry R ts e (Ha e.1) _) as He.
  pose proof (gk_publish R) as Hp. pose proof (gk_calibrate R) as Hl.
  pose proof (gate_replay R ours 0) as Hr. subst R.
  destruct f; try done; cbn -[replayPendingFrames]; unfold onKeys, onKey.
  - destruct (String.eqb _ _); [apply agree_refl|].
    apply agree_bind; [apply agree_refl|effects|intros c].
    apply agree_bind; [apply agree_refl|apply Hp|intros [pub|]]; [|apply agree_refl].
    do 2 (apply agree_bind; [apply agree_refl|effects|intros _]).
    apply agree_bind; [apply replay_agrees|apply Hr|intros _; apply agree_refl].
  - do 3 (apply agree_bind; [apply agree_refl|effects|intros _]).
    apply agree_bind; [|effects|intros _; apply agree_refl].
    apply agree_each; intros p Hin; [apply replay_agrees|apply Hr].
Qed.

Lemma frame_kept f : has_effect (under (both stash_ok (holding ours)) anything) (onTextMessageReceived f).
Proof.
  refine (gate_any _ ours (Receive f) _ _); [done|]. intros p k. by refine (gk_adopt _ _ _).
Qed.
End Replay.

(** C29: replay ends.  A frame that brings keys replays what was stashed for want of them,
    and the client's handling of it does not depend on the fuel: more than one level of
    replay is never needed, from any state the client can reach. *)
Theorem replay_settles `{Sodium} `{QtText} `{QDataStream} `{QHashOrder} `{QStringOrder}
    `{QTrim} `{Oracle} `{QFiles} k f c :
  stash_ok c →
  onTextMessageReceived f c = handleServerFrame (S k) f c ∧
  stash_ok (onTextMessageReceived f c).1.2.
Proof.
  intros Hs. set (ours := publicKeyHex (box c)).
  assert (both stash_ok (holding ours) c) as Hi by by split.
  split.
  - unfold onTextMessageReceived, kReplayFuel. by rewrite (frame_agrees ours 1 f c Hi), (frame_agrees ours k f c Hi).
  - by destruct (frame_kept ours f c Hi) as [_ [Hs' _]].
Qed.
