(* ===== verification/SeenFacts.v ===== *)
(** * Each frame is read once

    The relay replays stored frames, so one may arrive twice.  A frame that has been
    read is remembered by its ratchet key and index, whatever happens in between. *)

From S2P Require Import Prelude Platform Kdf Ratchet X3dh CryptoBox Persist MessageModel.
From S2P Require Import UserModel HistoryStore FileCrypto Chat Messenger Rekey Sending.
From S2P Require Import Verification Receiving Effects GateFacts GateSteps GateSafety.

Import ChatClient Messenger Rekey Sending Verification Receiving.

Definition seen_from (p k : string) (c : Chat) : Prop :=
  k ∈ default ∅ (m_seenFrames (link c) !! p).

(** Our name stays; a contact with a key keeps one; a seen frame stays seen. *)
Record remembering (p k : string) (c : Chat) (ev : list Event) (c' : Chat) : Prop := {
  re_self : self c' = self c;
  re_key : has_key p c = true → has_key p c' = true;
  re_seen : seen_from p k c → seen_from p k c';
}.

Section Remembering.
Context (p k : string).

#[export] Instance remembering_effect : Effect (remembering p k).
Proof.
  split; [by split|]. intros c1 e1 c2 e2 c3 [A1 A2 A3] [B1 B2 B3]. split; [congruence|auto..].
Qed.
#[export] Instance remembering_fine : Fine (remembering p k).
Proof.
  split; [apply _|]. unfold same_seen. intros c e c' _ (Hs & _ & _ & Hk)%same_keys_spec _ Hn _.
  split; [done|by rewrite Hk|]. unfold seen_from. by rewrite Hn.
Qed.
#[export] Instance remembering_queues : Queues (remembering p k).
Proof.
  unfold same_seen. intros c c' l _ (Hs & _ & _ & Hk)%same_keys_spec Hn _.
  split; [done|by rewrite Hk|]. unfold seen_from. by rewrite Hn.
Qed.
#[export] Instance remembering_flushes : Flushes (remembering p k).
Proof. by split. Qed.
#[export] Instance remembering_keys : Keys (remembering p k).
Proof.
  intros q i c. split; [done| |done]. unfold has_key. cbn. rewrite !bool_decide_eq_true.
  intros Hk. destruct (decide (q = p)) as [->|]; simplify_map_eq; [by eexists|done].
Qed.
#[export] Instance remembering_sees : Sees (remembering p k).
Proof.
  intros q i c. split; [done..|]. unfold seen_from, see. cbn. intros Hk.
  destruct (decide (q = p)) as [->|]; simplify_map_eq; [set_solver|done].
Qed.
#[export] Instance remembering_gate : GateEffect (remembering p k).
Proof. split; [apply _|]. by split. Qed.
#[export] Instance remembering_stash : GateStash (remembering p k).
Proof. by split. Qed.
#[export] Instance remembering_aux : GateAux (remembering p k).
Proof. split; [apply _..|]. by split. Qed.
#[export] Instance remembering_opens ours : OpenSteps ours (remembering p k).
Proof. by split. Qed.
#[export] Instance remembering_flags q : GateFlags q (remembering p k).
Proof. by split. Qed.
End Remembering.

Section Seen.
Context `{Sodium} `{QtText} `{QDataStream} `{QHashOrder} `{QStringOrder}.
Context `{QTrim} `{Oracle} `{QFiles} (ours p k : string).

#[local] Instance remembering_session :
  GateOpens ours (under (both stash_ok (holding ours)) (remembering p k)).
Proof. split; [apply _..|]. refine (under_reads _ _ _ _). by intros c [_ Hh]. Qed.
#[local] Instance remembering_session_reads :
  Reads stash_ok (under (both stash_ok (holding ours)) (remembering p k)).
Proof. refine (under_reads _ _ _ _). by intros c [Hs _]. Qed.
Lemma remembers o :
  has_effect (under (both stash_ok (holding ours)) (remembering p k)) (run_client_op o).
Proof.
  refine (gate_any _ ours o _ _).
  - intros q _ c Hi. split; [by split|exact Hi].
  - intros q i. by refine (gk_adopt _ q i).
Qed.

Lemma run_remembers ops :
  has_effect (under (both stash_ok (holding ours)) (remembering p k)) (for_each ops run_client_op).
Proof. refine (effect_for_each _ _ _ _). intros o _. apply remembers. Qed.

(** What is read is seen from then on. *)
Lemma deliver_sees m t c : both stash_ok (holding ours) c → frame_key (g_wire m) = k →
  let c' := (deliver p m t c).1.2 in seen_from p k c' ∧ remembering p k c [] c'.
Proof.
  intros Hi Hk. cbv zeta. unfold deliver. rewrite bind_state.
  set (c1 := (mark_seen p (frame_key (g_wire m)) c).1.2).
  assert (remembering p k c [] c1) as Hr1.
  { exact (sees_step (R := remembering p k) p (frame_key (g_wire m)) c). }
  assert (seen_from p k c1) as Hs1.
  { unfold seen_from, c1. cbn. rewrite lookup_insert_eq, Hk. cbn. set_solver. }
  assert (both stash_ok (holding ours) c1) as Hi1 by exact Hi.
  match goal with |- context [(?m2 c1).1.2] =>
    assert (has_effect (under (both stash_ok (holding ours)) (remembering p k)) m2) as He end.
  { unfold onRekeyPing, onEdit, onText. pose proof (gr_typing
      (under (both stash_ok (holding ours)) (remembering p k))). effects. }
  destruct (He c1 Hi1) as [Hr _]. split; [by apply (re_seen _ _ _ _ _ Hr)|].
  destruct Hr1 as [A1 A2 A3], Hr as [B1 B2 B3]. split; [congruence|auto..].
Qed.
End Seen.

(** A text of [p] to us, as [onMsg] takes it once its key is held. *)
Record plain_text (p : string) (m : Msg) (c : Chat) : Prop := {
  pt_from : g_from m = p ∧ p ≠ self c;
  pt_kind : g_kind m ≠ "handshake" ∧ g_opener m = None;
  pt_key : has_key p c = true;
}.

Section Once.
Context `{Sodium} `{QtText} `{QDataStream} `{QHashOrder} `{QStringOrder}.
Context `{QTrim} `{Oracle} `{QFiles}.

Lemma receive_text p m c : plain_text p m c →
  run_client_op (Receive (FMsg m)) c = receive_msg p m c.
Proof.
  intros [[Hf Hn] [Hk Ho] Hkey]. cbn [run_client_op]. unfold onTextMessageReceived, kReplayFuel.
  cbn [handleServerFrame]. unfold onMsg. rewrite here_eq. cbv beta zeta.
  rewrite Ho, ret_eq, Hf. cbn [negb]. rewrite (proj2 (String.eqb_neq _ _) Hn), Hkey.
  cbn [negb]. by rewrite (proj2 (String.eqb_neq _ _) Hk), ret_eq.
Qed.

Lemma seen_silent p m c : plain_text p m c → seen_from p (frame_key (g_wire m)) c →
  run_client_op (Receive (FMsg m)) c = ((), c, []).
Proof.
  intros Hp Hs. rewrite (receive_text p) by done. unfold receive_msg, already_seen. rewrite here_eq.
  by rewrite bool_decide_true.
Qed.

(** What the ratchet makes of a frame, its sender's key being at hand. *)
Definition reads_as (p : string) (m : Msg) (c : Chat) : string :=
  (decrypt p (g_wire m) (ensure_key p (key_of p c) c).1.2).1.1.

(** C13: a frame is read once in a session.  Once a frame of a contact whose key is held,
    a text, an edit or a rekey message that carries no opener and is no handshake, has
    been decrypted, the same frame has no effect at all, whatever operations of the
    session ([ClientOp]) came in between.  Logging out is none of them: it forgets the
    frames that were seen. *)
Theorem frame_read_once p m c ops :
  stash_ok c → plain_text p m c → reads_as p m c ≠ "" →
  let c' := (for_each (Receive (FMsg m) :: ops) run_client_op c).1.2 in
  run_client_op (Receive (FMsg m)) c' = ((), c', []).
Proof.
  intros Hs Hp Hr. cbv zeta. set (ours := publicKeyHex (box c)). set (k := frame_key (g_wire m)).
  assert (both stash_ok (holding ours) c) as Hi by by split.
  cbn [for_each]. rewrite bind_state. set (c1 := (run_client_op (Receive (FMsg m)) c).1.2).
  destruct (remembers ours p k (Receive (FMsg m)) c Hi) as [Hr1 Hi1].
  destruct (run_remembers ours p k ops c1 Hi1) as [Hr2 _].
  assert (remembering p k c [] (for_each ops run_client_op c1).1.2) as Hr3.
  { destruct Hr1 as [A1 A2 A3], Hr2 as [B1 B2 B3]. split; [by rewrite B1; exact A1|intros Hx; by apply B2, A2|intros Hx; by apply B3, A3]. }
  apply (seen_silent p).
  - destruct Hp as [[Hf Hn] Hk Hkey]. split; [|done|by apply (re_key _ _ _ _ _ Hr3)].
    by rewrite (re_self _ _ _ _ _ Hr3).
  - apply (re_seen _ _ _ _ _ Hr2). subst c1. rewrite (receive_text p) by done.
    unfold receive_msg, already_seen. rewrite here_eq. cbv beta.
    case_bool_decide as Hk; [exact Hk|]. rewrite !bind_state.
    fold (reads_as p m c). rewrite (proj2 (String.eqb_neq _ _) Hr).
    refine (proj1 (deliver_sees ours p k m _ _ _ eq_refl)).
    apply (leads_under (both stash_ok (holding ours))); [unfold decrypt; effects|].
    apply (leads_under (both stash_ok (holding ours))); [unfold ensure_key; effects|exact Hi].
Qed.
End Once.
