(* ===== verification/TransferFacts.v ===== *)
(** * Files received: what arrives, and what is taken for a whole file

    A file announced by [sendFile] is followed chunk by chunk on the receiving side.
    Both sides' streams stay paired, so after any number of chunks the temporary file
    holds the octets sent so far. *)

From Stdlib Require Import ZArith.
From S2P Require Import Prelude Platform Kdf Ratchet X3dh CryptoBox Persist MessageModel.
From S2P Require Import UserModel HistoryStore FileCrypto Chat Messenger Rekey Sending.
From S2P Require Import Verification Receiving Effects.

Import ChatClient Messenger Rekey Sending Receiving.

(** ** The header of a chunk *)
Lemma octet_bit n k i : (0 ≤ k → 0 ≤ i →
  Z.testbit (Z.shiftl (Z.land (Z.shiftr n k) 255) k) i
  = (k <=? i) && (i <? k + 8) && Z.testbit n i)%Z.
Proof.
  intros Hk Hi. rewrite Z.shiftl_spec by done. destruct (Z.leb_spec k i) as [Hl|Hl]; cbn [andb].
  - rewrite Z.land_spec, Z.shiftr_spec by lia. change 255%Z with (Z.ones 8).
    rewrite Z.sub_add, andb_comm. f_equal. destruct (Z.ltb_spec i (k + 8)).
    + apply Z.ones_spec_low. lia.
    + apply Z.ones_spec_high. lia.
  - by rewrite Z.testbit_neg_r by lia.
Qed.

Lemma octets_join n : is_u32 n →
  Z.lor (Z.lor (Z.lor (Z.shiftl (Z.land (Z.shiftr n 24) 255) 24)
                      (Z.shiftl (Z.land (Z.shiftr n 16) 255) 16))
               (Z.shiftl (Z.land (Z.shiftr n 8) 255) 8)) (Z.land (Z.shiftr n 0) 255) = n.
Proof.
  intros [H0 H1]. apply Z.bits_inj'. intros i Hi.
  rewrite <- (Z.shiftl_0_r (Z.land (Z.shiftr n 0) 255)).
  rewrite !Z.lor_spec, !octet_bit by lia.
  destruct (Z.ltb_spec i 32) as [Hl|Hl].
  - destruct (Z.testbit n i); rewrite ?andb_true_r, ?andb_false_r; [|done].
    repeat (destruct (Z.leb_spec _ i) || destruct (Z.ltb_spec i _)); cbn; try done; lia.
  - rewrite <- (Z.mod_small n (2 ^ 32)) by lia. rewrite Z.mod_pow2_bits_high by lia.
    by rewrite !andb_false_r.
Qed.

Lemma chunk_index_be32 id n ct : length id = 36 → is_u32 n →
  chunk_index (id ++ be32 n ++ ct) = n.
Proof.
  intros Hid Hn. unfold chunk_index. rewrite drop_app_length' by done. unfold be32.
  assert (∀ z, (Z.land z 255 mod 256 = Z.land z 255)%Z) as Hm.
  { intros z. rewrite land_255. apply Z.mod_mod. lia. }
  cbn [fmap list_fmap app take]. rewrite !byte_val_of_Z, !Hm. by apply octets_join.
Qed.

(** ** Steps that do not touch the files *)
Definition keeps_files : relation := λ c _ c', transfers c' = transfers c.

#[export] Instance keeps_effect : Effect keeps_files.
Proof. split; [done|]. intros c1 e1 c2 e2 c3 H1 H2. by etransitivity. Qed.
#[export] Instance keeps_quiet : Quiet keeps_files.
Proof. by split. Qed.

Lemma keeps_client f : has_effect keeps_files (on_client f).
Proof. by intros c. Qed.
Lemma keeps_with {A} (f : Client → A * Client) : has_effect keeps_files (with_client f).
Proof. intros c. unfold effect_at, with_client. by destruct (f (client c)). Qed.
Lemma keeps_link f : has_effect keeps_files (on_link f).
Proof. by intros c. Qed.
Lemma keeps_pcs f : has_effect keeps_files (on_pcs f).
Proof. by intros c. Qed.
Lemma keeps_emit e : has_effect keeps_files (emit e).
Proof. by intros c. Qed.
#[export] Hint Resolve keeps_client keeps_with keeps_link keeps_pcs keeps_emit : effects.
#[export] Hint Extern 1 (has_effect keeps_files (on_messages _)) => apply keeps_client : effects.
#[export] Hint Extern 1 (has_effect keeps_files (on_users _)) => apply keeps_client : effects.
#[export] Hint Extern 1 (has_effect keeps_files (on_box _)) => apply keeps_with : effects.
#[export] Hint Extern 1 (has_effect keeps_files (send _)) => apply keeps_emit : effects.
#[export] Hint Extern 1 (has_effect keeps_files (on_store _)) =>
  (unfold on_store; effects) : effects.

(** What comes after such a step finds the files as they were. *)
Lemma keeps_then {A B} (m : M A) (k : A → M B) c (T : Transfers → Transfers) :
  has_effect keeps_files m →
  (∀ x c', transfers ((k x) c').1.2 = T (transfers c')) →
  transfers ((m ≫= k) c).1.2 = T (transfers c).
Proof. intros Hm Hk. rewrite bind_state, Hk. f_equal. apply Hm. Qed.

Lemma emits_later {A B} (m : M A) (k : A → M B) c e :
  (∀ x c', e ∈ (k x c').2) → e ∈ ((m ≫= k) c).2.
Proof. intros Hk. rewrite bind_events. apply elem_of_app. by right. Qed.

Lemma emits_now {B} e (k : () → M B) c : e ∈ ((emit e ≫= k) c).2.
Proof. rewrite bind_events. apply elem_of_app. by left; left. Qed.

(** ** Steps that report no failure *)
Definition trouble (e : Event) : bool :=
  match e with FileReceiveFailed _ _ | ErrorOccurred _ | DecryptionFailed _ => true | _ => false end.
Definition untroubled (ev : list Event) : Prop := Forall (λ e, trouble e = false) ev.
Definition calm : relation := λ _ ev _, untroubled ev.

#[export] Instance calm_effect : Effect calm.
Proof. split; [intros c; by constructor|]. intros c1 e1 c2 e2 c3 E1 E2. by apply Forall_app. Qed.
#[export] Instance calm_quiet : Quiet calm.
Proof. split. intros c. by constructor. Qed.

Lemma calm_with {A} (f : Client → A * Client) : has_effect calm (with_client f).
Proof. intros c. unfold effect_at, with_client. destruct (f (client c)). by constructor. Qed.
Lemma calm_silent f : has_effect calm (modify f).
Proof. intros c. by constructor. Qed.
Lemma calm_emit e : trouble e = false → has_effect calm (emit e).
Proof. intros He c. by repeat constructor. Qed.
#[export] Hint Resolve calm_with calm_silent : effects.
#[export] Hint Extern 1 (has_effect calm (emit _)) => (apply calm_emit; reflexivity) : effects.
#[export] Hint Extern 1 (has_effect calm (send _)) => (apply calm_emit; reflexivity) : effects.
#[export] Hint Extern 1 (has_effect calm (on_client _)) => apply calm_silent : effects.
#[export] Hint Extern 1 (has_effect calm (on_messages _)) => apply calm_silent : effects.
#[export] Hint Extern 1 (has_effect calm (on_users _)) => apply calm_silent : effects.
#[export] Hint Extern 1 (has_effect calm (on_link _)) => apply calm_silent : effects.
#[export] Hint Extern 1 (has_effect calm (on_pcs _)) => apply calm_silent : effects.
#[export] Hint Extern 1 (has_effect calm (on_transfers _)) => apply calm_silent : effects.
#[export] Hint Extern 1 (has_effect calm (on_box _)) => apply calm_with : effects.
#[export] Hint Extern 1 (has_effect calm (on_store _)) => (unfold on_store; effects) : effects.

(** ** Steps whose outcome is known *)
Lemma ok_yes `{Oracle} {B} (k : bool → M B) c :
  (∀ j, answer_at j = true) → (ok ≫= k) c = k true (tick c).1.2.
Proof.
  intros Hj. rewrite bind_eq. unfold ok. rewrite bind_eq. cbn [tick fst snd mret M_ret app].
  rewrite Hj. by destruct (k _ _) as [[]].
Qed.

Lemma on_transfers_eq {B} f (k : () → M B) c :
  (on_transfers f ≫= k) c = k () (set_transfers (f (transfers c)) c).
Proof. rewrite bind_eq. cbn. by destruct (k _ _) as [[]]. Qed.

Lemma emit_eq {B} e (k : () → M B) c :
  (emit e ≫= k) c = ((k () c).1, e :: (k () c).2).
Proof. by rewrite bind_eq. Qed.

Lemma succ_Z n : Z.of_nat (S n) = (Z.of_nat n + 1)%Z.
Proof. lia. Qed.

(** ** One file *)

(** An id as [QUuid::toString] gives it: 36 characters of Latin-1. *)
Definition routable `{QtText} (msgId : string) : Prop :=
  length (toLatin1 msgId) = 36 ∧ fromLatin1 (toLatin1 msgId) = msgId.

Section Arrival.
Context `{Sodium} `{QtText} `{QDataStream} `{QHashOrder} `{QStringOrder}.
Context `{QTrim} `{Oracle} `{QFiles} (i : FileInit).

Definition path_of : string := temp_path (fi_msg_id i) (fi_filename i).

(** [n] chunks have come, [got] is what they held. *)
Definition entry (n : nat) (got : bytes) (f : FileCrypto) : IncomingFile :=
  mkIncoming (fi_from i) (fi_filename i) (fi_mime i) (fi_size i) (Z.of_nat (length got))
    (Z.of_nat n) (length got) path_of f (fi_replayed i).

Record receiving (n : nat) (got : bytes) (f : FileCrypto) (t : Transfers) : Prop := {
  rv_entry : m_incoming t !! fi_msg_id i = Some (entry n got f);
  rv_disk : disk t !! path_of = Some got;
}.

(** The file was presented with the content [got], which can be saved. *)
Record received (got : bytes) (ev : list Event) (t : Transfers) : Prop := {
  rd_event : FileReceived (fi_msg_id i) (fi_from i) (fi_filename i) (fi_mime i)
               (Z.of_nat (length got)) path_of ∈ ev;
  rd_path : m_receivedFilePaths t !! fi_msg_id i = Some path_of;
  rd_disk : disk t !! path_of = Some got;
  rd_closed : m_incoming t !! fi_msg_id i = None;
}.

Lemma finish_files id f c :
  transfers (finish_file id f c).1.2 =
  set_incoming (delete id (m_incoming (transfers c)))
    (set_paths (<[id := in_localPath f]> (m_receivedFilePaths (transfers c))) (transfers c)).
Proof.
  unfold finish_file. rewrite bind_state.
  pose (T := λ t, set_incoming (delete id (m_incoming t)) t).
  set (c1 := (on_transfers _ c).1.2).
  transitivity (T (transfers c1)); [|done].
  apply keeps_then; [effects|intros t1 c2]. apply keeps_then; [effects|intros _ c3].
  apply keeps_then; [effects|intros _ c4]. apply keeps_then; [effects|intros t2 c5].
  apply keeps_then; [effects|intros _ c6]. rewrite gets_eq.
  apply keeps_then; [effects|intros t3 c7].
  apply (keeps_then _ (λ _, drop_incoming id) c7 T); [|done]. destruct (String.eqb _ _); effects.
Qed.

Lemma finish_event id f c :
  FileReceived id (in_sender f) (in_filename f) (in_mime f) (in_receivedBytes f)
    (in_localPath f) ∈ (finish_file id f c).2.
Proof. unfold finish_file. do 3 (apply emits_later; intros ? ?). apply emits_now. Qed.

Lemma finish_calm id f : has_effect calm (finish_file id f).
Proof. unfold finish_file, drop_incoming. effects. Qed.

Lemma finish_received n got f c :
  receiving n got f (transfers c) →
  let r := finish_file (fi_msg_id i) (entry n got f) c in received got r.2 (transfers r.1.2).
Proof.
  intros [He Hd]. cbv zeta. split.
  - apply (finish_event _ (entry n got f)).
  - rewrite finish_files. cbn. apply lookup_insert_eq.
  - by rewrite finish_files.
  - rewrite finish_files. cbn. apply lookup_delete_eq.
Qed.

Lemma write_end b old : write_at (length old) b old = old ++ b.
Proof.
  unfold write_at. rewrite take_ge, Nat.sub_diag, drop_ge, app_nil_r by lia. done.
Qed.

(** A chunk that decrypts. *)
Lemma chunk_received n got f f' ct p last c :
  routable (fi_msg_id i) → (∀ k, answer_at k = true) → (Z.of_nat n < 2 ^ 31)%Z →
  receiving n got f (transfers c) → decryptChunk ct f = (Some p, last, f') →
  let r := onBinaryMessageReceived
             (toLatin1 (fi_msg_id i) ++ be32 (u32 (Z.of_nat n)) ++ ct) c in
  untroubled r.2 ∧
  if last then received (got ++ p) r.2 (transfers r.1.2)
  else receiving (S n) (got ++ p) f' (transfers r.1.2).
Proof.
  intros [Hid Hback] Hans Hn [He Hd] Hdec. cbv zeta. unfold onBinaryMessageReceived.
  rewrite decide_False by (rewrite !length_app, be32_length; lia).
  rewrite take_app_length', Hback by done. rewrite here_eq, He.
  assert (is_u32 (Z.of_nat n)) as Hu by (unfold is_u32; lia).
  rewrite chunk_index_be32 by (try done; apply u32_range).
  rewrite u32_small by done. unfold as_int. rewrite (proj2 (Z.ltb_lt _ _) Hn).
  cbn [in_nextChunkIndex entry]. rewrite Z.eqb_refl. cbn [negb].
  rewrite (app_assoc (toLatin1 _)), drop_app_length'
    by (rewrite length_app, be32_length; lia).
  cbn [in_crypto entry]. rewrite Hdec. cbv beta iota.
  rewrite ok_yes by done. cbv zeta beta iota. cbn [in_pos in_receivedBytes in_localPath in_sender
    in_filename in_mime in_expectedSize in_replayed entry].
  rewrite <- Nat2Z.inj_add, <- !length_app, <- succ_Z.
  set (f1 := mkIncoming _ _ _ _ _ _ _ _ _ _). change f1 with (entry (S n) (got ++ p) f').
  rewrite on_transfers_eq, emit_eq. set (c1 := set_transfers _ _).
  assert (receiving (S n) (got ++ p) f' (transfers c1)) as Hr.
  { split; cbn; [apply lookup_insert_eq|]. rewrite Hd. cbn. rewrite write_end.
    apply lookup_insert_eq. }
  split; [constructor; [done|]; destruct last; [apply finish_calm|by constructor]|].
  destruct last; cbn [when]; [|exact Hr].
  destruct (finish_received _ _ _ _ Hr) as [Ev Hp Hdk Hc]. split; try done. by right.
Qed.

Lemma received_later got ev ev' t : received got ev t → received got (ev' ++ ev) t.
Proof. intros [He Hp Hd Hc]. split; try done. apply elem_of_app. by right. Qed.
End Arrival.

(** ** A whole file, from one client to another *)

(** What an operation hands to the socket, and how it arrives at the other side. *)
Definition wire (ev : list Event) : list Frame :=
  omap (λ e, match e with Sent f => Some f | _ => None end) ev.
Definition arrives (f : Frame) : ClientOp :=
  match f with FFileChunk octets => ReceiveBinary octets | _ => Receive f end.

Section Whole.
Context `{Sodium} `{QtText} `{QDataStream} `{QHashOrder} `{QStringOrder}.
Context `{QTrim} `{Oracle} `{QFiles} (ss_paired : ss_state → ss_state → Prop).
Context `{!SecretstreamLaws ss_paired}.

Definition deliver_all (fs : list Frame) : M () := for_each fs (λ f, run_client_op (arrives f)).

Lemma deliver_cons f fs c :
  deliver_all (f :: fs) c =
  ((deliver_all fs (run_client_op (arrives f) c).1.2).1,
   (run_client_op (arrives f) c).2 ++ (deliver_all fs (run_client_op (arrives f) c).1.2).2).
Proof. unfold deliver_all. cbn [for_each]. by rewrite bind_eq. Qed.

(** The receiver has [k] of the frames that carry [data], whose chunks these are, and
    has reported no failure. *)
Definition follows (i : FileInit) (n : nat) (got data : bytes) (chunks : list bytes) (k : nat)
    (r : () * Chat * list Event) : Prop :=
  untroubled r.2 ∧
  if decide (k = length chunks) then received i (got ++ data) r.2 (transfers r.1.2)
  else ∃ f, receiving i (n + k) (got ++ concat (take k chunks)) f (transfers r.1.2).

Definition paired (fs fr : FileCrypto) : Prop :=
  m_initialized fs = true ∧ m_initialized fr = true ∧ m_sawFinal fr = false ∧
  ss_paired (m_state fs) (m_state fr).

Lemma follows_cons i n got p rest chunks k r ev :
  untroubled ev → follows i (S n) (got ++ p) rest chunks k r →
  follows i n got (p ++ rest) (p :: chunks) (S k) (r.1, ev ++ r.2).
Proof.
  unfold follows. cbn [length take concat]. rewrite <- !app_assoc, Nat.add_succ_r.
  intros Hev [Hq Hr]. split; [by apply Forall_app|]. revert Hr.
  repeat case_decide; try lia; [|done]. cbn [fst snd]. apply received_later.
Qed.

Lemma pump_end fuel id idName n fs sent total s :
  pump_chunks fuel id [] idName n sent total fs s = (true, s, []).
Proof. by destruct fuel. Qed.

Lemma pump_followed i fuel data n fs sent total s :
  routable (fi_msg_id i) → (∀ k, answer_at k = true) → data ≠ [] → length data < fuel →
  (Z.of_nat (n + length data) ≤ 2 ^ 31)%Z → m_initialized fs = true →
  ∀ got fr c, paired fs fr → receiving i n got fr (transfers c) →
  ∃ ev chunks frames,
    pump_chunks fuel (toLatin1 (fi_msg_id i)) data (fi_msg_id i) (Z.of_nat n) sent total fs s
    = (true, s, ev) ∧
    wire ev = FFileChunk <$> frames ∧ length frames = length chunks ∧
    concat chunks = data ∧ Forall (λ x, x ≠ []) chunks ∧
    ∀ k, k ≤ length chunks →
      follows i n got data chunks k (deliver_all (take k (FFileChunk <$> frames)) c).
Proof.
  intros Hid Hans. revert data n fs sent total.
  induction fuel as [|fuel IH]; intros data n fs sent total Hd Hfuel Hn Hi got fr c Hp Hr; [lia|].
  cbn [pump_chunks]. rewrite decide_False by done.
  set (p := take (Z.to_nat CHUNK_SIZE) data). set (rest := drop (Z.to_nat CHUNK_SIZE) data).
  assert (data = p ++ rest) as Hsplit by by (symmetry; apply take_drop).
  assert (0 < length p) as Hlp.
  { subst p. rewrite length_take. destruct data; [done|]. unfold CHUNK_SIZE. cbn [length]. lia. }
  assert (length data = length p + length rest) as Hld by by rewrite <- length_app, <- Hsplit.
  destruct Hp as (P1 & P2 & P3 & P4).
  destruct (chunk_step ss_paired p (bool_decide (rest = [])) fs fr P1 P2 P3 P4)
    as (fs' & ct & fr' & He & Hdec & I1 & I2 & I3 & P').
  rewrite He. change (default [] (Some ct)) with ct. cbv zeta. rewrite decide_False.
  2: { intros ->. unfold decryptChunk in Hdec. rewrite P2 in Hdec. by cbn in Hdec. }
  unfold send. rewrite emit_eq. cbv zeta. rewrite emit_eq.
  destruct (decide (rest = [])) as [Hrest|Hrest].
  - rewrite bool_decide_true in Hdec by done.
    rewrite Hrest in *. rewrite app_nil_r in Hsplit. rewrite pump_end.
    eexists _, [data], [toLatin1 (fi_msg_id i) ++ be32 (u32 (Z.of_nat n)) ++ ct].
    split; [done|]. split; [done|]. split; [done|]. split; [apply app_nil_r|].
    split; [by repeat constructor|]. intros k Hk. unfold follows. cbn [length] in *.
    destruct (decide (k = 1)) as [Hk1|Hk1].
    + subst k. cbn [fmap list_fmap take]. rewrite deliver_cons. cbn [deliver_all for_each arrives].
      pose proof (chunk_received i n got fr fr' ct p true c Hid Hans ltac:(lia) Hr Hdec) as Hc.
      cbn in Hc. rewrite Hsplit. cbn. rewrite app_nil_r. exact Hc.
    + assert (k = 0) as -> by lia. split; [by constructor|].
      exists fr. cbn. rewrite Nat.add_0_r, app_nil_r. exact Hr.
  - rewrite bool_decide_false in Hdec, I3 by done.
    pose proof (chunk_received i n got fr fr' ct p false c Hid Hans ltac:(lia) Hr Hdec) as Hc.
    set (frame := toLatin1 (fi_msg_id i) ++ be32 (u32 (Z.of_nat n)) ++ ct) in *. cbv zeta in Hc.
    destruct Hc as [Hq Hc]. set (c1 := (onBinaryMessageReceived frame c).1.2) in *.
    destruct (IH rest (S n) fs' (sent + Z.of_nat (length p))%Z total Hrest ltac:(lia) ltac:(lia)
      I1 (got ++ p) fr' c1) as (ev & chunks & frames & E & Hw & Hlen & Hcat & Hall & Hfol);
      [done|done|].
    rewrite succ_Z in E. rewrite E.
    eexists _, (p :: chunks), (frame :: frames). split; [done|]. split; [cbn; by f_equal|].
    split; [cbn; by f_equal|]. split; [cbn; by rewrite Hcat|].
    split; [constructor; [by destruct p; [cbn in Hlp; lia|]|done]|]. intros [|k] Hk.
    + split; [by constructor|]. exists fr. cbn. by rewrite Nat.add_0_r, app_nil_r.
    + apply le_S_n in Hk. specialize (Hfol k Hk). cbn [fmap list_fmap take]. rewrite deliver_cons.
      rewrite Hsplit. cbn [arrives]. apply (follows_cons i n got p rest chunks k _ _ Hq Hfol).
Qed.

End Whole.

(** ** The frames of a file on the wire *)
Definition is_file_frame (f : Frame) : bool :=
  match f with FFileInit _ | FFileChunk _ | FFileEnd _ => true | _ => false end.
Definition file_frames (ev : list Event) : list Frame := List.filter is_file_frame (wire ev).

Lemma wire_app ev ev' : wire (ev ++ ev') = wire ev ++ wire ev'.
Proof. apply omap_app. Qed.
Lemma file_frames_app ev ev' : file_frames (ev ++ ev') = file_frames ev ++ file_frames ev'.
Proof. unfold file_frames. by rewrite wire_app, List.filter_app. Qed.

(** Operations that send none. *)
Definition fileless : relation := λ _ ev _, file_frames ev = [].

#[export] Instance fileless_effect : Effect fileless.
Proof.
  split; [done|]. unfold fileless. intros c1 e1 c2 e2 c3 E1 E2.
  by rewrite file_frames_app, E1, E2.
Qed.
#[export] Instance fileless_quiet : Quiet fileless.
Proof. by split. Qed.
Lemma fileless_with {A} (f : Client → A * Client) : has_effect fileless (with_client f).
Proof. intros c. unfold effect_at, with_client. by destruct (f (client c)). Qed.
#[export] Hint Extern 1 (has_effect fileless (on_client _)) => (intros ?; reflexivity) : effects.
#[export] Hint Extern 1 (has_effect fileless (on_messages _)) => (intros ?; reflexivity) : effects.
#[export] Hint Extern 1 (has_effect fileless (on_link _)) => (intros ?; reflexivity) : effects.
#[export] Hint Extern 1 (has_effect fileless (on_pcs _)) => (intros ?; reflexivity) : effects.
#[export] Hint Extern 1 (has_effect fileless (on_box _)) => apply fileless_with : effects.
#[export] Hint Extern 1 (has_effect fileless (on_store _)) => (unfold on_store; effects) : effects.
#[export] Hint Extern 1 (has_effect fileless (with_client _)) => apply fileless_with : effects.
#[export] Hint Extern 1 (has_effect fileless (send _)) => (intros ?; reflexivity) : effects.
#[export] Hint Extern 1 (has_effect fileless (emit _)) => (intros ?; reflexivity) : effects.

Section Sender.
Context `{Sodium} `{QtText} `{QDataStream} `{QHashOrder} `{QStringOrder}.
Context `{QTrim} `{Oracle} `{QFiles}.

Lemma fileless_encrypt p t : has_effect fileless (encrypt p t).
Proof. unfold encrypt. effects. Qed.
Lemma fileless_persist p : has_effect fileless (persist p).
Proof. unfold persist. effects. Qed.
Lemma fileless_note p : has_effect fileless (noteOutboundTo p).
Proof.
  pose proof fileless_encrypt. pose proof fileless_persist.
  unfold noteOutboundTo, transmitRekey, transmit_control, set_count, markRekeyPingSent, restart_kick.
  effects.
Qed.


Lemma file_frames_pump ev (frames : list bytes) :
  wire ev = FFileChunk <$> frames → file_frames ev = FFileChunk <$> frames.
Proof.
  unfold file_frames. intros ->. induction frames as [|x xs IH]; [done|]. cbn. by f_equal.
Qed.

Lemma fileless_after {A B} (m : M A) (k : A → M B) c :
  has_effect fileless m →
  file_frames ((m ≫= k) c).2 = file_frames (k (m c).1.1 (m c).1.2).2.
Proof. intros Hm. rewrite bind_events, file_frames_app. by rewrite (Hm c). Qed.

(** The frames of [pumpOutgoingFile], given those of its loop. *)
Lemma pump_frames msgId peer filename mime data f c ev (frames : list bytes) :
  pump_chunks (S (length data)) (toLatin1 msgId) data msgId 0 0 (Z.of_nat (length data)) f c
  = (true, c, ev) → wire ev = FFileChunk <$> frames →
  file_frames (pumpOutgoingFile msgId peer filename mime data f c).2
  = (FFileChunk <$> frames) ++ [FFileEnd msgId].
Proof.
  intros E Hw. unfold pumpOutgoingFile. cbv zeta. rewrite bind_events, file_frames_app, E.
  cbn [fst snd negb]. rewrite (file_frames_pump ev frames Hw). f_equal.
  rewrite bind_events, file_frames_app.
  match goal with |- _ ++ file_frames (?m ?x).2 = _ =>
    assert (has_effect fileless m) as He by effects; rewrite (He x) end.
  done.
Qed.
End Sender.

Lemma cut_short k (chunks : list bytes) :
  k < length chunks → Forall (λ x, x ≠ []) chunks →
  concat (take k chunks) `prefix_of` concat chunks ∧
  length (concat (take k chunks)) < length (concat chunks).
Proof.
  intros Hk Hall. destruct (lookup_lt_is_Some_2 chunks k Hk) as [x Hx].
  assert (concat chunks = concat (take k chunks) ++ x ++ concat (drop (S k) chunks)) as Hs.
  { rewrite <- (take_drop_middle chunks k x Hx) at 1. by rewrite concat_app. }
  rewrite Hs. split; [by eexists|]. rewrite !length_app.
  pose proof (proj1 (Forall_lookup _ _) Hall k x Hx) as Hne. destruct x; [done|]. cbn. lia.
Qed.

Section Delivery.
Context `{Sodium} `{QtText} `{QDataStream} `{QHashOrder} `{QStringOrder}.
Context `{QTrim} `{Oracle} `{QFiles} `{!QtTextLaws} `{!QtHexLaws}.
Context (ss_paired : ss_state → ss_state → Prop) `{!SecretstreamLaws ss_paired}.

(** What the ratchet of [c] makes of the key frame [w] of [from]. *)
Definition key_read (from : string) (w : WireFrame) (c : Chat) : string :=
  (decrypt from w (ensure_key from (key_of from c) c).1.2).1.1.

(** The announcement of a file by [s]. *)
Definition announcement (s : Chat) (peer path msgId : string) (data : bytes) (f : FileCrypto)
    (w : WireFrame) : FileInit :=
  mkFileInit msgId (self s) peer (baseName path) (mimeOf path) (Z.of_nat (length data))
    (hexStr (m_header f)) (Some w) false.

(** [s] sends a file: [sendFile] has accepted it and its key frame could be sealed. *)
Record sending (s : Chat) (peer msgId : string) (data key : bytes) (f : FileCrypto)
    (w : WireFrame) : Prop := {
  sn_started : ∃ rnd, initPush key rnd (newFile ss_zero) = (true, f);
  sn_size : data ≠ [] ∧ (Z.of_nat (length data) ≤ MAX_FILE_BYTES)%Z;
  sn_id : routable msgId;
  sn_key : (encrypt peer (hexStr key) s).1.1 = Encrypted w;
}.

(** [r] can take it: it holds the sender's key, has not seen the key frame and reads it,
    and its disk and database take every write. *)
Record awaiting (r : Chat) (from : string) (key : bytes) (w : WireFrame) : Prop := {
  aw_key : has_key from r = true;
  aw_fresh : already_seen from (frame_key w) r = false;
  aw_reads : key_read from w r = hexStr key;
  aw_room : ∀ k, answer_at k = true;
}.

Lemma encrypt_self p t c : self (encrypt p t c).1.2 = self c.
Proof.
  unfold encrypt. rewrite !bind_state. unfold on_box, with_client. cbn.
  by destruct (encryptFor _ _ _ _ _).
Qed.

Lemma start_accepted i key header f c :
  (∀ k, answer_at k = true) → initPull key header (newFile ss_zero) = (true, f) →
  receiving i 0 [] f (transfers (start_file i key header c).1.2).
Proof.
  intros Hans Hf. unfold start_file. rewrite Hf. cbn [negb]. rewrite ok_yes by done. cbn [negb].
  split; cbn; apply lookup_insert_eq.
Qed.

Lemma start_calm i key header f c :
  (∀ k, answer_at k = true) → initPull key header (newFile ss_zero) = (true, f) →
  untroubled (start_file i key header c).2.
Proof.
  intros Hans Hf. unfold start_file. rewrite Hf. cbn [negb]. rewrite ok_yes by done. by constructor.
Qed.

Lemma decrypt_calm from w c : (decrypt from w c).1.1 ≠ "" → untroubled (decrypt from w c).2.
Proof.
  unfold decrypt. intros Hr. rewrite !bind_result in Hr. rewrite !bind_events.
  repeat (apply Forall_app; split); [by constructor..| |].
  - unfold on_box, with_client. destruct (decryptFrom _ _ _ _ _). by constructor.
  - destruct (on_box _ _).1.1; [by constructor|]. by destruct Hr.
Qed.

Lemma init_accepted i w key f c :
  fi_keyenc i = Some w → awaiting c (fi_from i) key w → key ≠ [] →
  initPull key (unhexStr (fi_header i)) (newFile ss_zero) = (true, f) →
  let r := run_client_op (Receive (FFileInit i)) c in
  untroubled r.2 ∧ receiving i 0 [] f (transfers r.1.2).
Proof.
  intros Hw [Hk Hs Hr Hans] Hne Hf. change (run_client_op _) with (onFileInit i).
  unfold onFileInit. rewrite here_eq. cbv zeta. rewrite Hk, Hw, Hs. cbn [negb].
  rewrite !bind_events, bind_state, bind_state. fold (key_read (fi_from i) w c). rewrite Hr.
  rewrite hexStr_nonempty by done.
  fold (unhexStr (hexStr key)) (unhexStr (fi_header i)). rewrite unhexStr_hexStr. split.
  - apply Forall_app; split; [|apply Forall_app; split].
    + assert (has_effect calm (ensure_key (fi_from i) (key_of (fi_from i) c))) as He
        by (unfold ensure_key; effects). apply He.
    + apply decrypt_calm. fold (key_read (fi_from i) w c). rewrite Hr.
      intros E. apply (f_equal (λ t, String.eqb t "")) in E. by rewrite hexStr_nonempty in E.
    + assert (∀ k, has_effect calm (persist k)) as Hp by (intros k; unfold persist; effects).
      assert (∀ b k, has_effect calm (when b (noteInboundFrom k))) as Hn
        by (intros b k; unfold noteInboundFrom, set_count; effects).
      rewrite bind_events. apply Forall_app; split; [by constructor|].
      rewrite bind_events. apply Forall_app; split; [apply Hn|].
      rewrite bind_events. apply Forall_app; split; [apply Hp|by eapply start_calm].
  - do 3 (rewrite bind_state). by apply start_accepted.
Qed.

Lemma announce_pumps s peer path msgId data key f w :
  (encrypt peer (hexStr key) s).1.1 = Encrypted w →
  ∃ s1, file_frames (announce_file peer path msgId data key f s).2 =
    FFileInit (announcement s peer path msgId data f w) ::
    file_frames (pumpOutgoingFile msgId peer (baseName path) (mimeOf path) data f s1).2.
Proof.
  intros Henc. unfold announce_file. rewrite fileless_after by apply fileless_encrypt.
  rewrite Henc. rewrite here_eq. cbv zeta. unfold send. rewrite emit_eq. cbn [fst snd].
  rewrite encrypt_self. set (c1 := (encrypt _ _ s).1.2). eexists.
  change (Sent ?f :: ?ev) with ([Sent f] ++ ev). rewrite file_frames_app. cbn [file_frames wire omap
    list_omap List.filter is_file_frame app]. f_equal.
  rewrite fileless_after by apply fileless_persist.
  rewrite fileless_after by apply fileless_note. reflexivity.
Qed.

(** The frames of the file, and what following them leads to. *)
Lemma announced_followed s peer path msgId data key f w r :
  sending s peer msgId data key f w → awaiting r (self s) key w →
  let i := announcement s peer path msgId data f w in
  ∃ chunks frames,
    file_frames (announce_file peer path msgId data key f s).2
    = FFileInit i :: (FFileChunk <$> frames) ++ [FFileEnd msgId] ∧
    length frames = length chunks ∧ concat chunks = data ∧ Forall (λ x, x ≠ []) chunks ∧
    ∀ k, k ≤ length chunks →
      follows i 0 [] data chunks k
        (deliver_all (FFileInit i :: take k (FFileChunk <$> frames)) r).
Proof.
  intros [[rnd Hpush] [Hne Hmax] Hid Henc] Hr i.
  assert (length key = KEY_BYTES) as Hkl.
  { unfold initPush in Hpush. destruct (Nat.eqb_spec (length key) KEY_BYTES); [done|].
    by injection Hpush. }
  destruct (ss_init_pair key rnd Hkl) as (st & h & st' & Hst & Hh & Hpull & Hp).
  unfold initPush in Hpush. rewrite Hkl, Hst in Hpush. injection Hpush as <-.
  set (f := mkFile st h true false) in *. set (fr := mkFile st' [] true false).
  destruct (init_accepted i w key fr r) as [Hq Hrv]; try done.
  { by intros ->. }
  { subst i. cbn [fi_header announcement]. rewrite unhexStr_hexStr. unfold initPull.
    cbn [f m_header]. by rewrite Hkl, Hh, Hpull. }
  destruct (announce_pumps s peer path msgId data key f w Henc) as (s1 & Hfr).
  destruct (pump_followed ss_paired i (S (length data)) data 0 f 0 (Z.of_nat (length data)) s1)
    with (got := [] : bytes) (fr := fr) (c := (run_client_op (Receive (FFileInit i)) r).1.2)
    as (ev & chunks & frames & E & Hw & Hlen & Hcat & Hall & Hfol); try done.
  { apply Hr. } { lia. } { unfold MAX_FILE_BYTES in Hmax. lia. }
  exists chunks, frames. rewrite Hfr. split; [f_equal; by eapply pump_frames|].
  do 3 (split; [done|]). intros k Hk. rewrite deliver_cons. cbn [arrives].
  specialize (Hfol k Hk). unfold follows in *. destruct Hfol as [Hq' Hfol].
  split; [by apply Forall_app|]. case_decide; [by apply received_later|exact Hfol].
Qed.

Lemma deliver_app fs fs' c :
  deliver_all (fs ++ fs') c =
  ((deliver_all fs' (deliver_all fs c).1.2).1,
   (deliver_all fs c).2 ++ (deliver_all fs' (deliver_all fs c).1.2).2).
Proof.
  revert c. induction fs as [|f fs IH]; intros c.
  { change (deliver_all [] c) with ((), c, [] : list Event). cbn [fst snd app].
    by destruct (deliver_all fs' c). }
  cbn [app]. rewrite !deliver_cons, IH. cbn. by rewrite app_assoc.
Qed.

(** "file_end" once the file is closed, and while it is open. *)
Lemma end_closed i got ev c :
  received i got ev (transfers c) → deliver_all [FFileEnd (fi_msg_id i)] c = ((), c, []).
Proof.
  intros Hr. rewrite deliver_cons. change (run_client_op _) with (onFileEnd (fi_msg_id i)).
  unfold onFileEnd. rewrite here_eq. by rewrite (rd_closed _ _ _ _ Hr).
Qed.

Lemma end_open i n got f c :
  receiving i n got f (transfers c) →
  let r := deliver_all [FFileEnd (fi_msg_id i)] c in
  untroubled r.2 ∧ received i got r.2 (transfers r.1.2).
Proof.
  intros Hr. cbv zeta. rewrite deliver_cons.
  change (run_client_op _) with (onFileEnd (fi_msg_id i)). cbn [fst snd deliver_all for_each mret M_ret].
  rewrite app_nil_r. unfold onFileEnd. rewrite here_eq, (rv_entry _ _ _ _ _ Hr).
  split; [apply finish_calm|exact (finish_received i n got f c Hr)].
Qed.

(** C10: A file arrives intact.  When the frames of a file that [s] sends reach the receiver in
    order, the receiver presents exactly the octets sent, under the name, type and size
    announced, and the copy that can be saved holds them. *)
Theorem file_arrives_intact s peer path msgId data key f w r :
  sending s peer msgId data key f w → awaiting r (self s) key w →
  let out := deliver_all (file_frames (announce_file peer path msgId data key f s).2) r in
  received (announcement s peer path msgId data f w) data out.2 (transfers out.1.2).
Proof.
  intros Hs Hr. destruct (announced_followed s peer path msgId data key f w r Hs Hr)
    as (chunks & frames & Hfr & Hlen & Hcat & _ & Hfol).
  cbv zeta. rewrite Hfr, app_comm_cons, deliver_app. specialize (Hfol _ (le_n _)).
  rewrite take_ge in Hfol by (rewrite length_fmap; lia).
  unfold follows in Hfol. rewrite decide_True in Hfol by done. destruct Hfol as [_ Hfol].
  pose proof (end_closed _ _ _ _ Hfol) as Hend. cbn [fi_msg_id announcement] in Hend.
  rewrite Hend. cbn [fst snd]. by rewrite app_nil_r.
Qed.

(** C31: A file cut short is taken for whole.  When the connection or the relay loses every
    chunk after the first [k], the end frame makes the receiver present, and offer to
    save, what has come so far: fewer octets than were announced.  From the announcement
    to the end no failure is reported, neither of the file nor any other. *)
Theorem cut_file_accepted s peer path msgId data key f w r k :
  sending s peer msgId data key f w → awaiting r (self s) key w →
  let frames := file_frames (announce_file peer path msgId data key f s).2 in
  k + 2 < length frames →
  let out := deliver_all (take (S k) frames ++ [FFileEnd msgId]) r in
  ∃ got, got `prefix_of` data ∧ length got < length data ∧
         received (announcement s peer path msgId data f w) got out.2 (transfers out.1.2) ∧
         untroubled out.2.
Proof.
  intros Hs Hr. destruct (announced_followed s peer path msgId data key f w r Hs Hr)
    as (chunks & frames & Hfr & Hlen & Hcat & Hall & Hfol).
  cbv zeta. rewrite Hfr. cbn [length take]. rewrite length_app, length_fmap. cbn [length].
  intros Hk. rewrite take_app_le by (rewrite length_fmap; lia).
  specialize (Hfol k ltac:(lia)). unfold follows in Hfol. rewrite decide_False in Hfol by lia.
  destruct Hfol as (Hq & fr & Hrv). exists (concat (take k chunks)).
  destruct (cut_short k chunks ltac:(lia) Hall) as [Hpre Hshort]. rewrite Hcat in Hpre, Hshort.
  split; [done|]. split; [done|]. rewrite deliver_app. cbn [fst snd].
  destruct (end_open _ _ _ _ _ Hrv) as [Hqe Hre].
  split; [by apply received_later|by apply Forall_app].
Qed.
End Delivery.

(** ** Saving *)
Section Saving.
Context `{Oracle}.

Definition on_disk (path : string) (c : Chat) : option bytes := disk (transfers c) !! path.

Lemma ok_eq {B} (k : bool → M B) c :
  (ok ≫= k) c = k (answer_at (ticks c)) (tick c).1.2.
Proof. unfold ok. rewrite !bind_eq. cbn [tick fst snd mret M_ret app]. by destruct (k _ _). Qed.

Lemma copy_whole fuel uri w data c :
  length data < fuel → on_disk uri c = Some w →
  (copy_stream fuel uri (length w) data c).1.1 = true →
  on_disk uri (copy_stream fuel uri (length w) data c).1.2 = Some (w ++ data).
Proof.
  revert w data c. induction fuel as [|fuel IH]; intros w data c Hf Hw; [lia|].
  cbn [copy_stream]. rewrite ok_eq. destruct (negb _); [done|].
  case_decide as Hd; [intros _; cbn; by rewrite Hd, app_nil_r|].
  rewrite ok_eq. destruct (negb _); [done|]. cbv zeta. rewrite on_transfers_eq.
  set (buf := take (Z.to_nat kSaveBuffer) data). set (c1 := set_transfers _ _).
  assert (on_disk uri c1 = Some (w ++ buf)) as Hw1.
  { unfold on_disk, c1. cbn. unfold on_disk in Hw. rewrite Hw. cbn. rewrite write_end.
    apply lookup_insert_eq. }
  assert (length (drop (Z.to_nat kSaveBuffer) data) < fuel) as Hl.
  { rewrite length_drop. destruct data; [by destruct Hd|]. unfold kSaveBuffer.
    cbn [length] in *. lia. }
  rewrite <- length_app. intros Ht. rewrite (IH _ _ _ Hl Hw1 Ht).
  rewrite <- app_assoc. unfold buf. by rewrite take_drop.
Qed.

(** A save that reports success is complete: wherever the user saves a received file, the
    destination then holds every octet of it.  (The document of the storage framework is
    not the temporary file itself.) *)
Theorem save_is_complete msgId destPath uri tempPath content c :
  m_receivedFilePaths (transfers c) !! msgId = Some tempPath →
  on_disk tempPath c = Some content → uri ≠ tempPath →
  (saveReceivedFile msgId destPath uri c).1.1 = true →
  on_disk (if String.eqb destPath "" then uri else destPath)
    (saveReceivedFile msgId destPath uri c).1.2 = Some content.
Proof.
  intros Hp Hc Hne. unfold saveReceivedFile. rewrite here_eq, Hp.
  destruct (String.eqb_spec destPath "") as [->|Hd]; cbn [negb].
  - destruct (String.eqb uri "") eqn:Hu; [done|]. unfold save_document.
    rewrite ok_eq, here_eq. destruct (negb _); [done|]. rewrite ok_eq.
    destruct (negb _); [done|]. rewrite on_transfers_eq. set (c1 := set_transfers _ _).
    rewrite gets_eq. assert (on_disk tempPath c1 = Some content) as Ht.
    { unfold on_disk, c1. cbn. by rewrite lookup_insert_ne. }
    unfold on_disk in Ht. rewrite Ht. cbn [default from_option id].
    rewrite bind_result, bind_state. destruct (negb _) eqn:Hn; [done|]. intros _.
    apply negb_false_iff in Hn. cbn [mret M_ret fst snd].
    apply (copy_whole (S (length content)) uri []); [lia| |exact Hn].
    unfold on_disk, c1. cbn. apply lookup_insert_eq.
  - unfold save_local. rewrite ok_eq, on_transfers_eq, ok_eq, here_eq.
    set (c1 := (tick _).1.2). destruct (disk (transfers c1) !! tempPath) as [x|] eqn:E1; [|done].
    destruct (disk (transfers c1) !! destPath) eqn:E2; [done|].
    match goal with |- context [if ?b then on_transfers _ ;; _ else _] =>
      destruct b; [|done] end.
    rewrite on_transfers_eq. intros _.
    unfold on_disk. cbn. rewrite lookup_insert_eq. f_equal.
    assert (disk (transfers c1) !! tempPath = disk (transfers c) !! tempPath ∨ tempPath = destPath) as Hor.
    { subst c1. cbn. destruct (answer_at _); [|by left].
      destruct (decide (tempPath = destPath)); [by right|left]. cbn. by rewrite lookup_delete_ne. }
    destruct Hor as [Ho| ->]; [|congruence]. unfold on_disk in Hc. congruence.
Qed.
End Saving.
