(* ===== verification/SessionFacts.v ===== *)
(** * The life of a session: what ends it, what survives it *)

From S2P Require Import Prelude Platform Kdf Ratchet X3dh CryptoBox Persist MessageModel.
From S2P Require Import UserModel HistoryStore Localization Accounts Settings FileCrypto.
From S2P Require Import Chat.
From S2P Require Import Recovery Messenger Rekey Sending Verification Receiving Tls.
From S2P Require Import Session.

Import ChatClient Messenger Rekey Sending Verification Receiving Session.

(** ** How the monad computes *)
Lemma sbind_eq {A B} (m : S A) (k : A → S B) a :
  (m ≫= k) a = ((k (m a).1.1 (m a).1.2).1, (m a).2 ++ (k (m a).1.1 (m a).1.2).2).
Proof.
  unfold mbind, S_bind. destruct (m a) as [[x a1] e1]. cbn. by destruct (k x a1) as [[y a2] e2].
Qed.

Lemma read_eq {A B} (f : App → A) (k : A → S B) a : (read f ≫= k) a = k (f a) a.
Proof. rewrite sbind_eq. cbn. by destruct (k (f a) a). Qed.

Lemma update_eq {B} f (k : () → S B) a : (update f ≫= k) a = k () (f a).
Proof. rewrite sbind_eq. cbn. by destruct (k () (f a)). Qed.

Lemma signal_eq {B} e (k : () → S B) a : (signal e ≫= k) a = ((k () a).1, e :: (k () a).2).
Proof. by rewrite sbind_eq. Qed.

(** ** Steps seen through a relation, as in [Effects] *)
Definition app_relation : Type := App → list AppEvent → App → Prop.

Class AppEffect (R : app_relation) : Prop := {
  app_refl a : R a [] a;
  app_trans a1 e1 a2 e2 a3 : R a1 e1 a2 → R a2 e2 a3 → R a1 (e1 ++ e2) a3;
}.

Definition session_effect (R : app_relation) {A} (m : S A) : Prop := ∀ a, R a (m a).2 (m a).1.2.

Section Rules.
Context (R : app_relation) `{!AppEffect R}.

Lemma se_ret {A} (x : A) : session_effect R (mret x).
Proof. intros a. apply app_refl. Qed.
Lemma se_read {A} (f : App → A) : session_effect R (read f).
Proof. intros a. apply app_refl. Qed.
Lemma se_bind {A B} (m : S A) (k : A → S B) :
  session_effect R m → (∀ x, session_effect R (k x)) → session_effect R (m ≫= k).
Proof. intros Hm Hk a. rewrite sbind_eq. eapply app_trans; [apply Hm|apply Hk]. Qed.
Lemma se_only b m : session_effect R m → session_effect R (only_if b m).
Proof. intros Hm. destruct b; [done|apply se_ret]. Qed.
End Rules.

Create HintDb session.
#[export] Hint Extern 0 (session_effect _ (mret _)) => (eapply se_ret; apply _) : session.
#[export] Hint Extern 0 (session_effect _ (read _)) => (eapply se_read; apply _) : session.

Ltac session_step :=
  match goal with
  | |- session_effect _ (mbind _ _) => refine (se_bind _ _ _ _ _); [|intros ?]
  | |- session_effect _ (only_if _ _) => refine (se_only _ _ _ _)
  | |- session_effect _ (if ?b then _ else _) => destruct b eqn:?
  | |- session_effect _ (match ?x with _ => _ end) => destruct x eqn:?
  end.
Ltac session := repeat first [solve [eauto with session] | session_step].

(** ** Logging out *)

(** What the client still holds after it: the contact list, the prekeys and the
    Ed25519 identity of the box, openers not sent yet, the sources of files sent, and
    what is on the device. *)
Record Remains := mkRemains {
  r_self : string;
  r_contacts : UserModel.State;
  r_spk : bytes * bytes * bytes * Z;
  r_previous : bytes * bytes * Z;
  r_pool : gmap Z bytes * Z;
  r_identity : bytes * bytes * Z;
  r_databases : gmap string HistoryStore.Db;
  r_openers : gmap string X3dhHeader;
  r_sources : gmap string string;
  r_disk : Files;
  r_draws : nat;
  r_relay : string * Z * string;
  r_birthday : bool * string;
  r_device : Device;
}.

Definition remains (a : App) : Remains :=
  let c := chat a in
  let b := box c in
  mkRemains (self c) (m_users (client c))
    (m_spkPriv b, m_spkPub b, m_spkSig b, m_spkCreatedMs b)
    (m_prevSpkPriv b, m_prevSpkPub b, m_prevSpkRetiredMs b) (m_opkPriv b, m_nextOpkId b)
    (m_identitySeed b, m_edPublicKey b, m_identityVersion b)
    (HistoryStore.disk (store c)) (m_pendingX3dhHeader (link c)) (m_sentFileSources (link c))
    (disk (transfers c)) (ticks c)
    (m_serverUrl (net a), m_reconnectDelayMs (net a), m_tlsSummary (net a))
    (m_registering (cred a), m_pendingDobVerifierHex (cred a)) (device a).

Definition ended (a : App) : App :=
  mkApp (forget_user (chat a))
    (mkNet (m_serverUrl (net a)) true (m_reconnectDelayMs (net a)) None false (m_tlsSummary (net a)))
    (mkCredentials (m_registering (cred a)) "" "" "" (m_pendingDobVerifierHex (cred a)))
    (mkGuard false false false "") (device a).

Section Facts.
Context `{Sodium} `{QtText} `{QDataStream} `{QHashOrder} `{QStringOrder} `{QTrim} `{SqlOrder}.
Context `{QCharClass} `{QVariantCasts} `{QDates} `{Tls.QNetwork} `{Oracle} `{QFiles}.
Context (loc : Localization.State).

Lemma logout_state a : (logout a).1.2 = ended a.
Proof.
  unfold logout. rewrite read_eq. do 2 rewrite sbind_eq. rewrite sbind_eq.
  destruct (negb _), (m_linkUp _), (m_locked _); reflexivity.
Qed.

Lemma ended_remains a1 a2 : remains a1 = remains a2 → ended a1 = ended a2.
Proof.
  destruct a1 as [[[? [] [] ? ? ? ? ? ? ?] ? ? [] [] ?] [] [] ? ?].
  destruct a2 as [[[? [] [] ? ? ? ? ? ? ?] ? ? [] [] ?] [] [] ? ?].
  unfold remains. cbn. intros [=]. subst. reflexivity.
Qed.

(** C11: A logout forgets the user.  Two clients, whatever their users had done, that agree on
    what is on the device and on the named remains of the process, cannot be told apart
    once both have logged out: whatever is then done on them has the same results, frames
    and events.  Conversations, sessions, keys of contacts, verification state, the queue
    and the password are not among the remains. *)
Theorem logout_forgets a1 a2 ops :
  remains a1 = remains a2 →
  run_session loc ops (logout a1).1.2 = run_session loc ops (logout a2).1.2.
Proof. intros Hr. by rewrite !logout_state, (ended_remains a1 a2). Qed.

(** ** A session that has ended *)

(** Opening the socket and the frames of the handshake. *)
Definition reaches_out (e : AppEvent) : bool :=
  match e with SocketOpened _ | AuthBegin _ | SentHello _ => true | _ => false end.

Definition silent : app_relation := λ _ ev _, Forall (λ e, reaches_out e = false) ev.

#[export] Instance silent_effect : AppEffect silent.
Proof. split; [by constructor|]. intros. by apply Forall_app. Qed.

Lemma silent_core {A} (m : M A) : session_effect silent (core m).
Proof.
  intros a. unfold core. destruct (m (chat a)) as [[x c] ev]. cbn. unfold silent.
  apply Forall_fmap, Forall_forall. by intros.
Qed.
Lemma silent_update f : session_effect silent (update f).
Proof. intros a. by constructor. Qed.
Lemma silent_signal e : reaches_out e = false → session_effect silent (signal e).
Proof. intros He a. by constructor. Qed.

(** The reconnect timer is idle, and there is no password to reconnect with. *)
Definition over (a : App) : Prop :=
  m_intentionalClose (net a) = true ∧ m_reconnectTimer (net a) = None ∧
  m_pendingPassword (cred a) = "".

Lemma ended_over a : over (ended a).
Proof. done. Qed.

(** Steps that leave it so, whatever they read. *)
Definition stays_over : app_relation := λ a _ a', over a → over a'.
#[export] Instance stays_effect : AppEffect stays_over.
Proof. split; unfold stays_over; auto. Qed.
Lemma stays_core {A} (m : M A) : session_effect stays_over (core m).
Proof. intros a. unfold core. intros Ha. by destruct (m (chat a)) as [[x c] ev]. Qed.
Lemma stays_signal e : session_effect stays_over (signal e).
Proof. intros a Ha. exact Ha. Qed.
Lemma stays_update f : (∀ a, over a → over (f a)) → session_effect stays_over (update f).
Proof. intros Hf a Ha. exact (Hf a Ha). Qed.
End Facts.

#[export] Hint Resolve silent_core silent_update stays_core stays_signal : session.
#[export] Hint Extern 1 (session_effect silent (signal _)) => (by apply silent_signal) : session.
#[export] Hint Extern 1 (session_effect silent (on_net _)) => apply silent_update : session.
#[export] Hint Extern 1 (session_effect silent (on_cred _)) => apply silent_update : session.
#[export] Hint Extern 1 (session_effect silent (on_settings _)) => apply silent_update : session.
#[export] Hint Extern 1 (session_effect silent (socket_state _)) => apply silent_core : session.
#[export] Hint Extern 1 (session_effect silent (show_line _)) => apply silent_core : session.
#[export] Hint Extern 1 (session_effect silent (fail _ _)) => (by apply silent_signal) : session.
#[export] Hint Extern 1 (session_effect stays_over (socket_state _)) => apply stays_core : session.
#[export] Hint Extern 1 (session_effect stays_over (show_line _)) => apply stays_core : session.
#[export] Hint Extern 1 (session_effect stays_over (fail _ _)) => apply stays_signal : session.
#[export] Hint Extern 1 (session_effect stays_over (on_net _)) =>
  (apply stays_update; intros ? (? & ? & ?); by repeat split) : session.

Section Ended.
Context `{Sodium} `{QtText} `{QDataStream} `{QHashOrder} `{QStringOrder} `{QTrim} `{SqlOrder}.
Context `{QCharClass} `{QVariantCasts} `{QDates} `{Tls.QNetwork} `{Oracle} `{QFiles}.
Context (loc : Localization.State).

(** Anything but logging in, registering and a connection coming up. *)
Definition afterwards (o : SessionOp) : bool :=
  match o with Login _ _ _ _ | Register _ _ _ _ _ | Connected _ => false | _ => true end.

Lemma silent_logout : session_effect silent logout.
Proof. unfold logout. session. Qed.

Lemma stays_logout : session_effect stays_over logout.
Proof. intros a _. rewrite logout_state. apply ended_over. Qed.

(** A step that reads whether the close was wanted takes that branch. *)
Lemma over_read {A} (k : App → S A) a :
  (∀ x, over x → session_effect stays_over (k x)) → over a → over ((read id ≫= k) a).1.2.
Proof. intros Hk Ho. rewrite read_eq. by apply Hk. Qed.

Lemma over_bind {A B} (m : S A) (k : A → S B) a :
  session_effect stays_over m → (∀ x a, over a → over (k x a).1.2) → over a →
  over ((m ≫= k) a).1.2.
Proof. intros Hm Hk Ho. rewrite sbind_eq. apply Hk, (Hm a Ho). Qed.

Lemma over_disconnected code a : over a → over (onDisconnected loc code a).1.2.
Proof.
  unfold onDisconnected. pose proof stays_logout.
  apply over_bind; [session|]. intros _ a1. apply over_bind; [session|]. intros _ a2.
  apply over_bind; [session|]. intros _ a3. apply over_read. intros x (-> & _). cbn [negb]. session.
Qed.

Lemma silent_disconnected code : session_effect silent (onDisconnected loc code).
Proof. unfold onDisconnected. pose proof silent_logout. session. Qed.

(** A rejected connection is logged out. *)
Lemma over_rejected code a : rejected code = true → over (onDisconnected loc code a).1.2.
Proof.
  intros Hr. unfold onDisconnected. rewrite Hr.
  do 7 (rewrite sbind_eq; cbn [fst snd]). rewrite logout_state. apply ended_over.
Qed.

(** What neither logs in nor connects keeps the session over, and sends nothing. *)
Lemma over_op o a : afterwards o = true → over a →
  over (run_session_op loc o a).1.2 ∧
  Forall (λ e, reaches_out e = false) (run_session_op loc o a).2.
Proof.
  intros Ho Ha. pose proof silent_logout. pose proof stays_logout.
  pose proof Ha as (Hc & Ht & Hp). destruct o; try done; cbn [run_session_op].
  - split; [by apply stays_logout|apply silent_logout].
  - split; [by apply over_disconnected|apply silent_disconnected].
  - unfold tryReconnect. rewrite read_eq. cbn [id]. by rewrite Ht.
  - unfold onSaltTimer. rewrite read_eq. destruct (negb _); [done|]. cbn [id]. rewrite Hp.
    rewrite sbind_eq. by repeat split.
  - unfold onAuthSalt. rewrite read_eq. cbn [id]. by rewrite Hp.
  - unfold sslErrors. rewrite read_eq. cbn [id]. destruct (Tls.onSslErrors _ _ _) as [summary text].
    split; [refine ((_ : session_effect stays_over _) a Ha)|refine ((_ : session_effect silent _) a)];
      session.
  - split; [by apply stays_core|apply silent_core].
Qed.

Lemma over_run ops a : Forall (λ o, afterwards o = true) ops → over a →
  Forall (λ e, reaches_out e = false) (run_session loc ops a).2.
Proof.
  intros Ho. induction Ho as [|o ops Hop _ IH] in a |- *; intros Ha; [done|].
  destruct (over_op o a Hop Ha). cbn [run_session]. rewrite sbind_eq. apply Forall_app. auto.
Qed.

(** C16: A session that is over stays over.  Once the user has logged out, or the relay has
    closed the connection for a name signed in elsewhere, a name reserved or a wrong
    password, no socket is opened and no frame of the handshake is sent, whatever timers
    fire, late frames come and closes are reported, until a login. *)
Theorem ended_session_stays_ended a o ops :
  o = Logout ∨ (∃ code, rejected code = true ∧ o = Disconnected code) →
  Forall (λ o, afterwards o = true) ops →
  Forall (λ e, reaches_out e = false) (run_session loc (o :: ops) a).2.
Proof.
  intros Hend Hops. cbn [run_session]. rewrite sbind_eq. apply Forall_app.
  destruct Hend as [->|(code & Hr & ->)]; cbn [run_session_op]; split.
  - apply silent_logout.
  - apply over_run; [done|]. rewrite logout_state. apply ended_over.
  - apply silent_disconnected.
  - apply over_run; [done|]. by apply over_rejected.
Qed.
End Ended.
