(* ===== verification/HandshakeFacts.v ===== *)
(** * The handshake with the relay, and retried connections *)

From S2P Require Import Prelude Platform Kdf Ratchet X3dh CryptoBox Persist MessageModel.
From S2P Require Import UserModel HistoryStore Localization Accounts Settings FileCrypto.
From S2P Require Import Chat.
From S2P Require Import Recovery Messenger Rekey Sending Verification Receiving Tls.
From S2P Require Import Session.
From S2P Require Import SessionFacts.

Import ChatClient Messenger Rekey Sending Verification Receiving Session.

Section Facts.
Context `{Sodium} `{QtText} `{QDataStream} `{QHashOrder} `{QStringOrder} `{QTrim} `{SqlOrder}.
Context `{QCharClass} `{QVariantCasts} `{QDates} `{Tls.QNetwork} `{Oracle} `{QFiles}.
Context (loc : Localization.State).

(** ** Hellos *)
Definition hello (e : AppEvent) : option Hello :=
  match e with SentHello h => Some h | _ => None end.

Definition hellos (ev : list AppEvent) : list Hello := omap hello ev.

Lemma hellos_app e1 e2 : hellos (e1 ++ e2) = hellos e1 ++ hellos e2.
Proof. apply omap_app. Qed.

(** Steps that send none. *)
Definition no_hello : app_relation := λ _ ev _, hellos ev = [].
#[export] Instance no_hello_effect : AppEffect no_hello.
Proof. split; [done|]. intros a1 e1 a2 e2 a3 E1 E2. red. by rewrite hellos_app, E1, E2. Qed.

Lemma hellos_core ev : hellos (Core <$> ev) = [].
Proof. by induction ev. Qed.
Lemma no_hello_core {A} (m : M A) : session_effect no_hello (core m).
Proof.
  intros a. unfold core. destruct (m (chat a)) as [[x c] ev]. apply hellos_core.
Qed.
Lemma no_hello_update f : session_effect no_hello (update f).
Proof. by intros a. Qed.

(** What a hello says of the credentials. *)
Definition credentials_of (k : Credentials) : option (string * string) :=
  if negb (String.eqb (m_pendingVerifierHex k) "") && negb (String.eqb (m_pendingSaltHex k) "")
  then Some (m_pendingVerifierHex k, m_pendingSaltHex k) else None.

Definition birthday_of (k : Credentials) : option string :=
  if m_registering k && negb (String.eqb (m_pendingDobVerifierHex k) "") then
    match credentials_of k with Some _ => Some (m_pendingDobVerifierHex k) | None => None end
  else None.

(** A step of the core leaves the rest of the application as it was. *)
Lemma core_eq {A} (m : M A) a :
  core m a = ((m (chat a)).1.1, set_chat (m (chat a)).1.2 a, Core <$> (m (chat a)).2).
Proof. unfold core. by destruct (m (chat a)) as [[x c] ev]. Qed.

(** Sending it: one hello, with the credentials derived; they and the mark of a
    registration are then gone. *)
Lemma upload_hello a :
  ∃ h c, uploadPublicKey a =
    ((), set_cred (mkCredentials false (m_pendingPassword (cred a)) "" ""
                     (m_pendingDobVerifierHex (cred a))) (set_chat c a), [SentHello h])
    ∧ hl_nick h = my_nick a ∧ hl_pw h = credentials_of (cred a)
    ∧ hl_dob h = birthday_of (cred a).
Proof.
  unfold uploadPublicKey. rewrite sbind_eq, core_eq. cbn.
  do 2 eexists. split_and!; [reflexivity| | |]; cbn; [done..|].
  unfold birthday_of, credentials_of. cbn [id].
  by destruct (negb (_ =? "")%string), (negb (_ =? "")%string), (m_registering _), (negb _).
Qed.

Lemma complete_hello a :
  ∃ h, hellos (completeHello a).2 = [h] ∧ hl_nick h = my_nick a
       ∧ hl_pw h = credentials_of (cred a) ∧ hl_dob h = birthday_of (cred a)
       ∧ cred (completeHello a).1.2 =
           mkCredentials false (m_pendingPassword (cred a)) "" "" (m_pendingDobVerifierHex (cred a))
       ∧ net (completeHello a).1.2 = set_saltTimer false (net a).
Proof.
  unfold completeHello. unfold on_net. rewrite update_eq.
  destruct (upload_hello (set_net (set_saltTimer false (net a)) a)) as (h & c & E1 & E2 & E3 & E4).
  exists h. rewrite sbind_eq, E1. cbn [fst snd]. rewrite sbind_eq, !core_eq. cbn [fst snd].
  split_and!; try done. by rewrite !hellos_app, !hellos_core.
Qed.
(** ** The answer to the request for a salt *)

(** What an answer derives, from the password held and, without a salt of the relay, the
    one kept on the device or a fresh one. *)
Lemma derived_locally a stored :
  m_pendingPassword (cred a) ≠ "" → stored ≠ "" →
  read_text (saltKey (my_nick a)) (settings (device a)) = stored →
  deriveVerifierLocally a =
    ((), set_cred (set_derived (deriveVerifierWithSalt (m_pendingPassword (cred a)) stored) stored
                     (cred a)) a, []).
Proof.
  intros Hp%String.eqb_neq Hs%String.eqb_neq E1. unfold deriveVerifierLocally.
  rewrite read_eq. cbn [id]. by rewrite Hp, E1, Hs.
Qed.

(** Deriving changes neither the password nor the socket, and sends nothing. *)
Lemma derive_quiet a :
  (deriveVerifierLocally a).2 = [] ∧ net (deriveVerifierLocally a).1.2 = net a
  ∧ m_pendingPassword (cred (deriveVerifierLocally a).1.2) = m_pendingPassword (cred a).
Proof.
  unfold deriveVerifierLocally. rewrite read_eq. cbn [id].
  destruct (_ =? "")%string; [done|]. destruct (negb _); [done|].
  rewrite sbind_eq, core_eq. cbn. by case_match; [case_match|].
Qed.

Lemma timer_hello a :
  m_pendingPassword (cred a) ≠ "" → m_authSaltTimer (net a) = true →
  ∃ h, hellos (onSaltTimer a).2 = [h]
    ∧ hl_pw h = credentials_of (cred (deriveVerifierLocally (set_net (set_saltTimer false (net a)) a)).1.2)
    ∧ m_pendingPassword (cred (onSaltTimer a).1.2) = m_pendingPassword (cred a)
    ∧ m_authSaltTimer (net (onSaltTimer a).1.2) = false.
Proof.
  intros Hp%String.eqb_neq Ht. unfold onSaltTimer. rewrite read_eq. cbn [id].
  rewrite Ht, Hp. cbn [negb]. unfold on_net. rewrite update_eq, sbind_eq.
  set (a1 := set_net _ a). destruct (derive_quiet a1) as (E1 & E2 & E3).
  destruct (complete_hello (deriveVerifierLocally a1).1.2) as (h & E4 & _ & E5 & _ & E6 & E7).
  exists h. rewrite E1. cbn [app fst snd]. by rewrite E4, E6, E7.
Qed.

Lemma answer_hello salt a :
  m_pendingPassword (cred a) ≠ "" →
  ∃ h, hellos (onAuthSalt salt a).2 = [h]
    ∧ hl_pw h = credentials_of
        match salt with
        | Some s => set_derived (deriveVerifierWithSalt (m_pendingPassword (cred a)) s) s (cred a)
        | None => cred (deriveVerifierLocally a).1.2
        end
    ∧ m_pendingPassword (cred (onAuthSalt salt a).1.2) = m_pendingPassword (cred a)
    ∧ m_authSaltTimer (net (onAuthSalt salt a).1.2) = false.
Proof.
  intros Hp%String.eqb_neq. unfold onAuthSalt. rewrite read_eq. cbn [id]. rewrite Hp.
  destruct salt as [s|]; rewrite sbind_eq.
  - cbn [fst snd].
    match goal with |- context[completeHello ?x] => destruct (complete_hello x) as (h & E4 & _ & E5 & _ & E6 & E7) end.
    exists h. split_and!; [exact E4|exact E5|by rewrite E6|by rewrite E7].
  - destruct (derive_quiet a) as (E1 & E2 & E3).
    destruct (complete_hello (deriveVerifierLocally a).1.2) as (h & E4 & _ & E5 & _ & E6 & E7).
    exists h. cbn [fst snd]. rewrite E1, E6, E7. by split_and!.
Qed.

Lemma derived_credentials v s k :
  v ≠ "" → s ≠ "" → credentials_of (set_derived v s k) = Some (v, s).
Proof. intros Hv%String.eqb_neq Hs%String.eqb_neq. unfold credentials_of. cbn. by rewrite Hv, Hs. Qed.

(** C17: The verifier a hello carries depends on the password and the salt alone.  A device
    that derives it under the salt it kept, because the relay has none or does not answer
    in time, and any other device that gets that salt from the relay, each send exactly one
    hello, with the same verifier and the same salt: a password accepted on one device is
    accepted on every other. *)
Theorem same_verifier_everywhere a1 a2 pw s :
  pw ≠ "" → s ≠ "" → deriveVerifierWithSalt pw s ≠ "" →
  m_pendingPassword (cred a1) = pw → m_pendingPassword (cred a2) = pw →
  read_text (saltKey (my_nick a1)) (settings (device a1)) = s →
  m_authSaltTimer (net a1) = true →
  let sent (m : S ()) a := hl_pw <$> hellos (m a).2 in
  let answer := [Some (deriveVerifierWithSalt pw s, s)] in
  sent (onAuthSalt None) a1 = answer ∧ sent onSaltTimer a1 = answer
  ∧ sent (onAuthSalt (Some s)) a2 = answer.
Proof.
  intros Hpw Hs Hv <- E1 E2 Ht. cbn beta zeta.
  destruct (answer_hello None a1 Hpw) as (h1 & -> & E3 & _).
  destruct (timer_hello a1 Hpw Ht) as (h2 & -> & E4 & _).
  destruct (answer_hello (Some s) a2) as (h3 & -> & E5 & _); [by rewrite E1|].
  rewrite E1 in E5. cbn [fmap list_fmap]. rewrite E3, E4, E5.
  rewrite !(derived_locally _ s) by done. cbn. by rewrite !derived_credentials.
Qed.

(** A salt that comes after its timer is answered again.  The timer derives a verifier
    and sends the hello, and leaves the password, so the late answer is not ignored but
    sends a second hello on the same connection; in the other order there is one. *)
Theorem late_salt_second_hello a salt :
  m_pendingPassword (cred a) ≠ "" → m_authSaltTimer (net a) = true →
  length (hellos (run_session loc [SaltTimer; AuthSalt salt] a).2) = 2
  ∧ length (hellos (run_session loc [AuthSalt salt; SaltTimer] a).2) = 1.
Proof.
  intros Hp Ht. cbn [run_session run_session_op]. rewrite !sbind_eq. cbn [snd fst].
  rewrite !hellos_app, !app_nil_r.
  destruct (timer_hello a Hp Ht) as (h1 & -> & _ & E1 & E2).
  destruct (answer_hello salt (onSaltTimer a).1.2) as (h2 & -> & _); [by rewrite E1|].
  destruct (answer_hello salt a Hp) as (h3 & -> & _ & E3 & E4).
  split; [done|]. rewrite length_app. unfold onSaltTimer at 1. rewrite read_eq. cbn [id].
  by rewrite E4.
Qed.
End Facts.

(** ** Retries *)
Section Retries.
Context `{Sodium} `{QtText} `{QDataStream} `{QHashOrder} `{QStringOrder} `{QTrim} `{SqlOrder}.
Context `{QCharClass} `{QVariantCasts} `{QDates} `{Tls.QNetwork} `{Oracle} `{QFiles}.
Context (loc : Localization.State).

(** Steps that leave the schedule of retries as it is. *)
Definition keeps_retry : app_relation := λ a _ a',
  m_intentionalClose (net a') = m_intentionalClose (net a)
  ∧ m_reconnectDelayMs (net a') = m_reconnectDelayMs (net a).
#[export] Instance keeps_retry_effect : AppEffect keeps_retry.
Proof. split; [done|]. unfold keeps_retry. intros a1 e1 a2 e2 a3 [-> ->] [-> ->]. done. Qed.

Lemma keeps_core {A} (m : M A) : session_effect keeps_retry (core m).
Proof. intros a. by rewrite core_eq. Qed.
Lemma keeps_update f : (∀ a, keeps_retry a [] (f a)) → session_effect keeps_retry (update f).
Proof. intros Hf a. apply Hf. Qed.
Lemma keeps_signal e : session_effect keeps_retry (signal e).
Proof. by intros a. Qed.
Lemma keeps_prekeys k : session_effect keeps_retry (prekeys k).
Proof. intros a. unfold prekeys. by destruct (onConnectedPrekeys _ _ _ _ _ _ _ _ _ _ _). Qed.
End Retries.

#[export] Hint Resolve keeps_core keeps_signal keeps_prekeys : session.
#[export] Hint Extern 1 (session_effect keeps_retry (update _)) =>
  (apply keeps_update; by intros ?) : session.
#[export] Hint Extern 1 (session_effect keeps_retry (on_net _)) =>
  (apply keeps_update; by intros ?) : session.
#[export] Hint Extern 1 (session_effect keeps_retry (on_cred _)) =>
  (apply keeps_update; by intros ?) : session.
#[export] Hint Extern 1 (session_effect keeps_retry (on_settings _)) =>
  (apply keeps_update; by intros ?) : session.
#[export] Hint Extern 1 (session_effect keeps_retry (socket_state _)) => apply keeps_core : session.

Section Schedule.
Context `{Sodium} `{QtText} `{QDataStream} `{QHashOrder} `{QStringOrder} `{QTrim} `{SqlOrder}.
Context `{QCharClass} `{QVariantCasts} `{QDates} `{Tls.QNetwork} `{Oracle} `{QFiles}.
Context (loc : Localization.State).

Lemma keeps_handshake : session_effect keeps_retry beginAuthHandshake.
Proof. unfold beginAuthHandshake, completeHello, uploadPublicKey. session. Qed.

(** A connection that comes up resets the delay. *)
Lemma connected_delay k a :
  m_intentionalClose (net (onConnected k a).1.2) = m_intentionalClose (net a)
  ∧ m_reconnectDelayMs (net (onConnected k a).1.2) = 1000%Z.
Proof.
  pose proof keeps_handshake. unfold onConnected.
  do 3 (rewrite sbind_eq; cbn [fst snd]).
  match goal with |- context [mbind ?k ?m ?x] =>
    assert (session_effect keeps_retry (m ≫= k)) as Hk by (unfold describe; session);
    by destruct (Hk x) as [-> ->] end.
Qed.

Definition complaint (e : AppEvent) : bool := match e with Failed _ => true | _ => false end.

(** A connection lost for another reason than a rejection is retried after the delay, and
    the user is told of no error. *)
Lemma lost_connection code a :
  rejected code = false → m_intentionalClose (net a) = false →
  let a' := (onDisconnected loc code a).1.2 in
  (m_intentionalClose (net a') = false
   ∧ m_reconnectDelayMs (net a') = m_reconnectDelayMs (net a)
   ∧ m_reconnectTimer (net a') = Some (m_reconnectDelayMs (net a)))
  ∧ m_serverUrl (net a') = m_serverUrl (net a) ∧ cred a' = cred a
  ∧ Forall (λ e, complaint e = false) (onDisconnected loc code a).2.
Proof.
  intros Hr Hi. unfold onDisconnected. rewrite Hr.
  do 3 (rewrite sbind_eq; cbn [fst snd]). rewrite read_eq. cbn [id].
  do 2 (rewrite sbind_eq; cbn [fst snd]).
  match goal with |- context [if negb ?b then _ else _] => change b with (m_intentionalClose (net a)) end.
  rewrite Hi. destruct (negb (String.prefix _ _)); split_and!; try done; by repeat constructor.
Qed.

Lemma retried a d :
  m_reconnectTimer (net a) = Some d →
  m_intentionalClose (net (tryReconnect a).1.2) = m_intentionalClose (net a)
  ∧ m_reconnectDelayMs (net (tryReconnect a).1.2) = Z.min (m_reconnectDelayMs (net a) * 2) 30000
  ∧ (tryReconnect a).2 = [SocketOpened (m_serverUrl (net a))]
  ∧ cred (tryReconnect a).1.2 = cred a.
Proof. intros Ht. unfold tryReconnect. rewrite read_eq. cbn [id]. by rewrite Ht. Qed.

Lemma run_app ops1 ops2 a :
  (run_session loc (ops1 ++ ops2) a).1.2
  = (run_session loc ops2 (run_session loc ops1 a).1.2).1.2.
Proof.
  induction ops1 as [|o ops1 IH] in a |- *; [done|]. cbn [run_session app].
  rewrite !sbind_eq. cbn [fst snd]. apply IH.
Qed.

(** A connection lost, and the timer that opens the next one. *)
Definition retry (code : Z) : list SessionOp := [Disconnected code; ReconnectTimer].

Lemma doubled d p : (0 < d)%Z → (1 <= p)%Z →
  Z.min (Z.min (d * 2) 30000 * p) 30000 = Z.min (d * (2 * p)) 30000.
Proof. intros Hd Hp. destruct (Z.min_spec (d * 2) 30000) as [[? ->]|[? ->]]; nia. Qed.

Lemma delay_after codes a :
  Forall (λ code, rejected code = false) codes →
  m_intentionalClose (net a) = false → (0 < m_reconnectDelayMs (net a) <= 30000)%Z →
  let a' := (run_session loc (codes ≫= retry) a).1.2 in
  m_intentionalClose (net a') = false
  ∧ m_reconnectDelayMs (net a')
    = Z.min (m_reconnectDelayMs (net a) * 2 ^ Z.of_nat (length codes)) 30000.
Proof.
  intros Hc. induction Hc as [|code codes Hr _ IH] in a |- *; intros Hi Hd; cbn zeta.
  - cbn [mbind list_bind run_session]. cbn. split; [done|lia].
  - rewrite bind_cons, run_app. cbn [retry run_session run_session_op].
    rewrite !sbind_eq. cbn [fst snd mret S_ret].
    destruct (lost_connection code a Hr Hi) as [(E1 & E2 & E3) _].
    destruct (retried _ _ E3) as (E4 & E5 & _). rewrite E1 in E4. rewrite E2 in E5.
    destruct (IH _ E4) as [-> ->]; [lia|]. split; [done|]. rewrite E5.
    cbn [length]. rewrite Nat2Z.inj_succ, Z.pow_succ_r by lia.
    assert (1 <= 2 ^ Z.of_nat (length codes))%Z by (apply (Z.pow_le_mono_r 2 0); lia).
    apply doubled; lia.
Qed.

(** The waits of a session that keeps losing its relay.  After a connection that came up,
    the first wait is a second, each failed attempt doubles it, and it never exceeds half a
    minute. *)
Theorem backoff_schedule k codes code a :
  m_intentionalClose (net a) = false →
  Forall (λ code, rejected code = false) (codes ++ [code]) →
  m_reconnectTimer
    (net (run_session loc (Connected k :: (codes ≫= retry) ++ [Disconnected code]) a).1.2)
  = Some (Z.min (1000 * 2 ^ Z.of_nat (length codes)) 30000).
Proof.
  intros Hi [Hc Hl%Forall_inv]%Forall_app. cbn [run_session run_session_op].
  rewrite sbind_eq. cbn [fst snd]. rewrite run_app.
  destruct (connected_delay k a) as [E1 E2]. rewrite Hi in E1.
  destruct (delay_after codes (onConnected k a).1.2 Hc E1) as [E3 E4]; [rewrite E2; lia|].
  rewrite E2 in E4. cbn [run_session run_session_op]. rewrite sbind_eq. cbn [fst snd].
  destruct (lost_connection code _ Hl E3) as [(_ & _ & E5) _]. cbn. by rewrite E5, E4.
Qed.
End Schedule.

(** ** Hellos without a birthday *)
Section Birthday.
Context `{Sodium} `{QtText} `{QDataStream} `{QHashOrder} `{QStringOrder} `{QTrim} `{SqlOrder}.
Context `{QCharClass} `{QVariantCasts} `{QDates} `{Tls.QNetwork} `{Oracle} `{QFiles}.
Context (loc : Localization.State).

(** Steps of a session that is not a registration. *)
Definition plain : app_relation := λ a ev a',
  m_registering (cred a) = false →
  m_registering (cred a') = false ∧ Forall (λ h, hl_dob h = None) (hellos ev).
#[export] Instance plain_effect : AppEffect plain.
Proof.
  split; [by split; [|constructor]|]. intros a1 e1 a2 e2 a3 E1 E2 Hr. destruct (E1 Hr) as [Hr2 Hh].
  destruct (E2 Hr2). split; [done|]. rewrite hellos_app. by apply Forall_app.
Qed.

Lemma plain_core {A} (m : M A) : session_effect plain (core m).
Proof. intros a Hr. rewrite core_eq. cbn. rewrite hellos_core. by split. Qed.
Lemma plain_update f :
  (∀ a, m_registering (cred a) = false → m_registering (cred (f a)) = false) →
  session_effect plain (update f).
Proof. intros Hf a Hr. split; [by apply Hf|constructor]. Qed.
Lemma plain_signal e : hello e = None → session_effect plain (signal e).
Proof. intros He a Hr. split; [done|]. unfold hellos. cbn. rewrite He. constructor. Qed.
Lemma plain_upload : session_effect plain uploadPublicKey.
Proof.
  intros a Hr. destruct (upload_hello a) as (h & c & -> & _ & _ & Hd). split; [done|].
  constructor; [|constructor]. rewrite Hd. unfold birthday_of. by rewrite Hr.
Qed.
Lemma plain_prekeys k : session_effect plain (prekeys k).
Proof.
  intros a Hr. unfold prekeys. destruct (onConnectedPrekeys _ _ _ _ _ _ _ _ _ _ _) as [c outs].
  split; [done|]. cbn. by induction outs.
Qed.
End Birthday.

#[export] Hint Resolve plain_core plain_upload plain_prekeys : session.
#[export] Hint Extern 1 (session_effect plain (signal _)) => (by apply plain_signal) : session.
#[export] Hint Extern 1 (session_effect plain (fail _ _)) => (by apply plain_signal) : session.
#[export] Hint Extern 1 (session_effect plain (show_line _)) => apply plain_core : session.
#[export] Hint Extern 1 (session_effect plain (socket_state _)) => apply plain_core : session.
#[export] Hint Extern 1 (session_effect plain (update _)) =>
  (apply plain_update; by intros ?) : session.
#[export] Hint Extern 1 (session_effect plain (on_net _)) =>
  (apply plain_update; by intros ?) : session.
#[export] Hint Extern 1 (session_effect plain (on_cred _)) =>
  (apply plain_update; by intros ?) : session.
#[export] Hint Extern 1 (session_effect plain (on_settings _)) =>
  (apply plain_update; by intros ?) : session.

Section Refused.
Context `{Sodium} `{QtText} `{QDataStream} `{QHashOrder} `{QStringOrder} `{QTrim} `{SqlOrder}.
Context `{QCharClass} `{QVariantCasts} `{QDates} `{Tls.QNetwork} `{Oracle} `{QFiles}.
Context (loc : Localization.State).

Definition registers (o : SessionOp) : bool :=
  match o with Register _ _ _ _ _ => true | _ => false end.

Lemma plain_complete : session_effect plain completeHello.
Proof. unfold completeHello. session. Qed.
Lemma plain_derive : session_effect plain deriveVerifierLocally.
Proof. unfold deriveVerifierLocally. session. Qed.
Lemma plain_logout : session_effect plain logout.
Proof. unfold logout. session. Qed.

Lemma plain_login k url nick pw : session_effect plain (login loc k url nick pw).
Proof.
  unfold login, begin_account, open_history, establish, resume, open_socket, restore_verification.
  session.
Qed.

Lemma plain_op o : registers o = false → session_effect plain (run_session_op loc o).
Proof.
  pose proof plain_complete. pose proof plain_derive. pose proof plain_logout.
  pose proof plain_login. destruct o; try done; intros _; cbn [run_session_op]; [auto|auto|..];
  unfold onConnected, onDisconnected, tryReconnect, onSaltTimer, onAuthSalt, sslErrors, describe,
    beginAuthHandshake, open_socket; session.
Qed.

Lemma plain_run ops : Forall (λ o, registers o = false) ops → session_effect plain (run_session loc ops).
Proof.
  intros Hops. induction Hops as [|o ops Ho _ IH]; [exact (se_ret _ _)|].
  refine (se_bind _ _ _ (plain_op o Ho) _). by intros _.
Qed.

(** C35: A refusal for want of a birthday is retried for ever.  The relay closes with 4003, a
    code the client does not know: it reconnects, tells the user of no error, and no hello
    of the session that follows carries a birthday, for only the first one after a
    registration does. *)
Theorem birthday_refusal_reconnects a ops :
  m_intentionalClose (net a) = false → m_registering (cred a) = false →
  Forall (λ o, registers o = false) ops →
  let closed := run_session loc [Disconnected 4003; ReconnectTimer] a in
  SocketOpened (m_serverUrl (net a)) ∈ closed.2
  ∧ Forall (λ e, complaint e = false) closed.2
  ∧ Forall (λ h, hl_dob h = None) (hellos (run_session loc ops closed.1.2).2).
Proof.
  intros Hi Hr Hops. cbn zeta. cbn [run_session run_session_op]. rewrite !sbind_eq. cbn [fst snd].
  destruct (lost_connection loc 4003 a eq_refl Hi) as ((E1 & E2 & E3) & E4 & E5 & E6).
  destruct (retried _ _ E3) as (_ & _ & E7 & E8). rewrite E7, E4. cbn [mret S_ret fst snd app].
  split_and!.
  - apply elem_of_app. right. constructor.
  - apply Forall_app. split; [done|by repeat constructor].
  - apply plain_run; [done|]. by rewrite E8, E5.
Qed.
End Refused.
