(* ===== verification/SwitchFacts.v ===== *)
(** * From one user to the next: what a login finds in the process *)

From S2P Require Import Prelude Platform Kdf Ratchet X3dh CryptoBox Persist MessageModel.
From S2P Require Import UserModel HistoryStore Localization Accounts Settings FileCrypto.
From S2P Require Import Chat.
From S2P Require Import Recovery Messenger Rekey Sending Verification Receiving Tls.
From S2P Require Import Session.
From S2P Require Import SessionFacts HandshakeFacts.

Import ChatClient Messenger Rekey Sending Verification Receiving Session.

Section Client.
Context `{Sodium} `{QtText} `{QDataStream} `{QHashOrder} `{QStringOrder} `{SqlOrder}.

(** ** What restoring leaves alone *)
Definition prekeys_of (b : CryptoBox) :=
  ((m_spkPriv b, m_spkPub b, m_spkSig b, m_spkCreatedMs b),
   (m_prevSpkPriv b, m_prevSpkPub b, m_prevSpkRetiredMs b), (m_opkPriv b, m_nextOpkId b)).

Lemma import_prekeys peer blob b b' :
  importSession peer blob b = Some b' → prekeys_of b' = prekeys_of b.
Proof.
  unfold importSession. intros E1.
  repeat (case_match; try discriminate). by injection E1 as <-.
Qed.

Lemma peer_identity_prekeys peer hex b : prekeys_of (setPeerIdentity peer hex b).2 = prekeys_of b.
Proof. unfold setPeerIdentity. by case_match. Qed.

Lemma restore_session_keeps ans peer c :
  prekeys_of (m_crypto (restoreSession ans peer c)) = prekeys_of (m_crypto c)
  ∧ m_outbox (restoreSession ans peer c) = m_outbox c.
Proof.
  unfold restoreSession. cbn zeta.
  set (c1 := if String.eqb _ "" then c else _).
  assert (prekeys_of (m_crypto c1) = prekeys_of (m_crypto c) ∧ m_outbox c1 = m_outbox c) as [E1 E2].
  { unfold c1. case_match; [done|]. cbn. by rewrite peer_identity_prekeys. }
  rewrite <- E1, <- E2. clearbody c1. destruct (importSession _ _ _) as [b|] eqn:E3; [|done].
  apply import_prekeys in E3. case_match; by rewrite <- E3.
Qed.

Lemma restore_sessions_keep okPeers ans c :
  prekeys_of (m_crypto (restoreAllSessions okPeers ans c)) = prekeys_of (m_crypto c)
  ∧ m_outbox (restoreAllSessions okPeers ans c) = m_outbox c.
Proof.
  unfold restoreAllSessions. case_match; [done|].
  generalize (HistoryStore.sessionPeers okPeers (m_history c)) as peers. intros peers.
  induction peers as [|p peers IH] in c |- *; [done|]. cbn [fold_left].
  destruct (restore_session_keeps (ans p) p c) as [<- <-]. apply IH.
Qed.

Lemma restore_outbox_appends okLoad okDel c :
  prekeys_of (m_crypto (restoreOutbox okLoad okDel c)) = prekeys_of (m_crypto c)
  ∧ m_outbox c `prefix_of` m_outbox (restoreOutbox okLoad okDel c).
Proof.
  unfold restoreOutbox. case_match; [done|].
  generalize (HistoryStore.loadOutbox okLoad (m_history c)) as rows. intros rows.
  induction rows as [|r rows IH] in c |- *; [done|]. cbn [fold_left].
  assert (prekeys_of (m_crypto (restore_row okDel r c)) = prekeys_of (m_crypto c)
          ∧ m_outbox c `prefix_of` m_outbox (restore_row okDel r c)) as [E1 E2].
  { unfold restore_row. repeat case_match; split; try done; by eexists. }
  destruct (IH (restore_row okDel r c)) as [E3 E4]. split; [congruence|by etrans].
Qed.
End Client.

(** ** Establishing an identity *)
Section Identity.
Context `{Sodium} `{QtText}.

Lemma adopt_seed_prekeys seed b : prekeys_of (adopt_seed seed b).2 = prekeys_of b.
Proof.
  unfold adopt_seed, deriveAgreementKeysFromSeed. cbn zeta.
  by repeat (case_match; simplify_eq; cbn).
Qed.

Lemma load_encrypted_prekeys path pw fs b :
  prekeys_of (loadIdentityEncrypted path pw fs b).2 = prekeys_of b.
Proof.
  unfold loadIdentityEncrypted. repeat (case_match; try done). apply adopt_seed_prekeys.
Qed.

Lemma load_prekeys path fs b : prekeys_of (loadIdentity path fs b).2 = prekeys_of b.
Proof. unfold loadIdentity. repeat (case_match; try done). apply adopt_seed_prekeys. Qed.

Lemma establish_prekeys dirs nick pw reg rnd att removed fs b :
  prekeys_of (Accounts.establishIdentity dirs nick pw reg rnd att removed fs b).2 = prekeys_of b.
Proof.
  unfold Accounts.establishIdentity. cbn zeta. destruct reg.
  - destruct (Accounts.find_encrypted _ _ _); [done|].
    destruct (Accounts.find_raw _ _ _); [done|].
    destruct (Accounts.save_first _ _ _ _ _ _). cbn. unfold generateIdentity.
    destruct (X3DH.generateIdentity rnd) as [[seed ?]|]; [apply adopt_seed_prekeys|done].
  - destruct (Accounts.find_encrypted _ _ _) as [d|].
    + pose proof (load_encrypted_prekeys (Accounts.in_dir d (Accounts.ekey nick)) pw fs b) as E1.
      by destruct (loadIdentityEncrypted _ _ _ _).
    + destruct (Accounts.find_raw _ _ _) as [d|]; [|done].
      pose proof (load_prekeys (Accounts.in_dir d (Accounts.rkey nick)) fs b) as E1.
      destruct (loadIdentity _ _ _) as [ok b1]. destruct (negb ok); [done|].
      by destruct (Accounts.save_verified _ _ _ _ _).
Qed.
End Identity.

(** ** Logging in *)
Section Login.
Context `{Sodium} `{QtText} `{QDataStream} `{QHashOrder} `{QStringOrder} `{QTrim} `{SqlOrder}.
Context `{QCharClass} `{QVariantCasts} `{QDates} `{Tls.QNetwork} `{Oracle} `{QFiles}.
Context (loc : Localization.State).

Definition publishes (e : AppEvent) : bool := match e with PrekeyFrame _ => true | _ => false end.

(** Steps that carry over the prekeys in memory and the queue, and publish nothing. *)
Definition carries : app_relation := λ a ev a',
  prekeys_of (box (chat a')) = prekeys_of (box (chat a))
  ∧ m_outbox (client (chat a)) `prefix_of` m_outbox (client (chat a'))
  ∧ Forall (λ e, publishes e = false) ev.
#[export] Instance carries_effect : AppEffect carries.
Proof.
  unfold carries. split; [by repeat split|]. intros a1 e1 a2 e2 a3 (-> & E1 & E2) (-> & E3 & E4).
  split_and!; [done|by etrans|by apply Forall_app].
Qed.

Lemma publishes_core ev : Forall (λ e, publishes e = false) (Core <$> ev).
Proof. apply Forall_fmap, Forall_forall. by intros. Qed.

Lemma carries_client (f : Client → Client) :
  (∀ c, prekeys_of (m_crypto (f c)) = prekeys_of (m_crypto c)
        ∧ m_outbox c `prefix_of` m_outbox (f c)) →
  session_effect carries (core (on_client f)).
Proof. intros Hf a. destruct (Hf (client (chat a))). by split_and!. Qed.

Lemma carries_update f :
  (∀ a, client (chat (f a)) = client (chat a)) → session_effect carries (update f).
Proof. intros Hf a. unfold carries, update, box. cbn. by rewrite Hf. Qed.

Lemma carries_signal e : publishes e = false → session_effect carries (signal e).
Proof. intros He a. split_and!; [done..|by repeat constructor]. Qed.

Lemma carries_show text : session_effect carries (show_line text).
Proof. intros a. by split_and!; [..|constructor]. Qed.

Lemma carries_establish k nick pw reg : session_effect carries (establish loc k nick pw reg).
Proof.
  intros a. unfold establish. rewrite read_eq. cbn [id].
  pose proof (establish_prekeys (k_identityDirs k) nick pw reg (k_seed k) (k_attempts k)
    (k_removed k) (files (device a)) (box (chat a))) as E1.
  destruct (Accounts.establishIdentity _ _ _ _ _ _ _ _ _) as [[o fs] b]. cbn in E1.
  rewrite update_eq, sbind_eq. by destruct o; split_and!; try done; cbn; repeat constructor.
Qed.

(** Steps that publish nothing. *)
Definition unpublished : app_relation := λ _ ev _, Forall (λ e, publishes e = false) ev.
#[export] Instance unpublished_effect : AppEffect unpublished.
Proof. split; [by constructor|]. intros. by apply Forall_app. Qed.

Lemma unpublished_core {A} (m : M A) : session_effect unpublished (core m).
Proof. intros a. rewrite core_eq. apply publishes_core. Qed.
Lemma unpublished_update f : session_effect unpublished (update f).
Proof. intros a. by constructor. Qed.
Lemma unpublished_signal e : publishes e = false → session_effect unpublished (signal e).
Proof. intros He a. by constructor. Qed.
End Login.

#[export] Hint Resolve carries_show carries_establish : session.
#[export] Hint Resolve unpublished_core unpublished_update : session.
#[export] Hint Extern 1 (session_effect unpublished (signal _)) =>
  (by apply unpublished_signal) : session.
#[export] Hint Extern 1 (session_effect unpublished (on_net _)) => apply unpublished_update : session.
#[export] Hint Extern 1 (session_effect unpublished (on_cred _)) => apply unpublished_update : session.
#[export] Hint Extern 1 (session_effect unpublished (on_settings _)) =>
  apply unpublished_update : session.
#[export] Hint Extern 1 (session_effect carries (core (on_client _))) =>
  (apply carries_client; by intros ?) : session.
#[export] Hint Extern 1 (session_effect carries (signal _)) => (by apply carries_signal) : session.
#[export] Hint Extern 1 (session_effect carries (fail _ _)) => (by apply carries_signal) : session.
#[export] Hint Extern 1 (session_effect carries (update _)) =>
  (apply carries_update; by intros ?) : session.
#[export] Hint Extern 1 (session_effect carries (on_net _)) =>
  (apply carries_update; by intros ?) : session.
#[export] Hint Extern 1 (session_effect carries (on_cred _)) =>
  (apply carries_update; by intros ?) : session.
#[export] Hint Extern 1 (session_effect carries (on_settings _)) =>
  (apply carries_update; by intros ?) : session.

Section Switch.
Context `{Sodium} `{QtText} `{QDataStream} `{QHashOrder} `{QStringOrder} `{QTrim} `{SqlOrder}.
Context `{QCharClass} `{QVariantCasts} `{QDates} `{Tls.QNetwork} `{Oracle} `{QFiles}.
Context (loc : Localization.State).

Lemma carries_resume k : session_effect carries (resume k).
Proof.
  unfold resume, open_socket.
  assert (session_effect carries
    (core (on_client (restoreAllSessions (k_peers k) (k_sessions k))))).
  { apply carries_client. intros c. by destruct (restore_sessions_keep (k_peers k) (k_sessions k) c) as [-> ->]. }
  assert (session_effect carries (core (on_client (restoreOutbox (k_queue k) (k_dropped k))))).
  { apply carries_client. intros c. apply restore_outbox_appends. }
  session.
Qed.

Lemma carries_open k reg nick : session_effect carries (open_history loc k reg nick).
Proof.
  unfold open_history.
  assert (session_effect carries (restore_verification k)) as Hv.
  { intros a. unfold restore_verification. rewrite core_eq. by repeat split. }
  refine (se_bind _ _ _ (se_read _ _) _). intros dir. case_match; [session|].
  refine (se_bind _ _ _ _ _); [|intros ?; session].
  intros a. rewrite core_eq. unfold with_client.
  destruct (HistoryStore.open _ _ _ _ _). by repeat split.
Qed.

Lemma carries_begin nick url reg : session_effect carries (begin_account nick url reg).
Proof. unfold begin_account. session. Qed.

Lemma carries_login k url nick pw : session_effect carries (login loc k url nick pw).
Proof.
  pose proof carries_resume. pose proof carries_open. pose proof carries_begin.
  unfold login. session.
Qed.

Lemma carries_register k url nick pw birthday :
  session_effect carries (registerAccount loc k url nick pw birthday).
Proof.
  pose proof carries_resume. pose proof carries_open. pose proof carries_begin.
  unfold registerAccount, record_birthday. session.
Qed.

(** C19: Logging in does not empty the queue.  What a user had queued is still queued, ahead of
    what is restored, after a login under any nickname: when a first login never came to a
    connection and another user then logs in without a logout between, the messages of
    the first are sent from the session of the second. *)
Theorem second_login_inherits_queue k1 k2 url1 url2 nick1 nick2 pw1 pw2 a :
  let first := (run_session loc [Login k1 url1 nick1 pw1] a).1.2 in
  let second := (run_session loc [Login k2 url2 nick2 pw2] first).1.2 in
  m_outbox (client (chat first)) `prefix_of` m_outbox (client (chat second)).
Proof.
  cbn zeta. set (first := (run_session _ _ a).1.2). clearbody first.
  cbn [run_session run_session_op]. rewrite sbind_eq. apply carries_login.
Qed.

(** ** Prekeys *)

(** Prekeys that neither rotate nor run low at this time. *)
Definition stocked (now : Z) (b : CryptoBox) : bool :=
  hasPrekeys b && (0 <=? signedPrekeyAgeMs now b)%Z && (signedPrekeyAgeMs now b <? kSpkMaxAgeMs)%Z
  && (bool_decide (m_prevSpkPriv b = []) || (now - m_prevSpkRetiredMs b <? kSpkGraceMs)%Z)
  && (kPrekeyLowWaterMark <? oneTimePrekeyCount b)%Z.

Lemma stocked_prekeys now b1 b2 : prekeys_of b1 = prekeys_of b2 → stocked now b1 = stocked now b2.
Proof.
  unfold prekeys_of. intros E1. injection E1 as E1 E2 E3 E4 E5 E6 E7 E8 E9.
  unfold stocked, hasPrekeys, signedPrekeyAgeMs, oneTimePrekeyCount. by rewrite E1, E4, E5, E7, E8.
Qed.

Lemma idle_publish now clock ans rnd rnds (c : Client) :
  stocked now (m_crypto c) = true →
  publishPrekeysIfNeeded ans false rnd rnds clock c = (c, []).
Proof.
  intros Hs. unfold stocked in Hs. repeat (apply andb_true_iff in Hs as [Hs ?]).
  unfold publishPrekeysIfNeeded. case_match; [done|]. case_match; [done|].
  assert (restore_pool (ans 0) (ans 1) clock c = c) as -> by (unfold restore_pool; by rewrite Hs).
  rewrite Hs. cbn. assert ((oneTimePrekeyCount (m_crypto c) <=? kPrekeyLowWaterMark)%Z = false) as ->.
  { apply Z.leb_gt. by apply Z.ltb_lt. }
  done.
Qed.

Lemma idle_rotation now rnd clock b :
  stocked now b = true →
  rotateSignedPrekeyIfDue kSpkMaxAgeMs now rnd clock b = (false, b)
  ∧ dropExpiredPreviousPrekey kSpkGraceMs now b = (false, b).
Proof.
  intros Hs. unfold stocked in Hs. repeat (apply andb_true_iff in Hs as [Hs ?]).
  unfold rotateSignedPrekeyIfDue, dropExpiredPreviousPrekey. split.
  - case_match; [done|]. assert ((signedPrekeyAgeMs now b <? 0)%Z = false) as ->.
    { apply Z.ltb_ge. by apply Z.leb_le. }
    by case_match.
  - by repeat case_match.
Qed.

Lemma stocked_idle k a : stocked (c_now k) (box (chat a)) = true → prekeys k a = ((), a, []).
Proof.
  intros Hs. unfold prekeys, onConnectedPrekeys.
  destruct (idle_rotation (c_now k) (c_rotated k) (c_clock k) (m_crypto (client (chat a))) Hs) as [E1 E2].
  rewrite E1, E2. cbn [orb].
  assert (∀ b : bool, (if b then (set_crypto (m_crypto (client (chat a))) (client (chat a)), [] : list Out)
                       else (client (chat a), [])) = (client (chat a), [])) as ->.
  { intros b. by destruct b, (client (chat a)). }
  rewrite (idle_publish (c_now k)) by done. destruct a as [[] ? ? ? ?]. reflexivity.
Qed.

(** Up to the prekeys, a connection leaves the box alone; after them nothing publishes. *)
Lemma stocked_bind {A B} now (m : S A) (k : A → S B) a :
  session_effect carries m → stocked now (box (chat a)) = true →
  (∀ x a', stocked now (box (chat a')) = true → Forall (λ e, publishes e = false) (k x a').2) →
  Forall (λ e, publishes e = false) ((m ≫= k) a).2.
Proof.
  intros Hm Hs Hk. rewrite sbind_eq. destruct (Hm a) as (E1 & _ & E2). apply Forall_app.
  split; [done|]. apply Hk. by rewrite (stocked_prekeys now _ _ E1).
Qed.

Lemma unpublished_handshake : session_effect unpublished beginAuthHandshake.
Proof.
  unfold beginAuthHandshake, completeHello, uploadPublicKey, deriveVerifierLocally. session.
Qed.

Lemma unpublished_logout : session_effect unpublished logout.
Proof. unfold logout. session. Qed.

Lemma stocked_connected k a :
  stocked (c_now k) (box (chat a)) = true →
  Forall (λ e, publishes e = false) (onConnected k a).2.
Proof.
  intros Hs. unfold onConnected, socket_state, describe.
  assert (session_effect carries (core (on_link (set_linkUp true)))) by (intros x; by repeat split).
  do 7 (refine (stocked_bind (c_now k) _ _ _ _ Hs _); [session|]; clear a Hs; intros _ a Hs).
  rewrite sbind_eq, (stocked_idle k a Hs). cbn [fst snd app].
  rewrite sbind_eq. apply Forall_app. split; [apply unpublished_core|apply unpublished_handshake].
Qed.

(** C20: The next user of the client publishes no prekeys while those of the user before
    are fresh.  A logout leaves the signed prekey and the pool in the box; after it,
    whoever logs in or registers holds the prekeys of the user before, bit for bit.  If
    these are [stocked] when the connection comes up, that is, there is a signed prekey
    younger than seven days, no retired one is due for deletion, and the pool is above
    its low-water mark of eight, then the connection sends none to the relay. *)
Theorem next_user_publishes_nothing k url nick pw o c a :
  o = Login k url nick pw ∨ (∃ birthday, o = Register k url nick pw birthday) →
  stocked (c_now c) (box (chat a)) = true →
  prekeys_of (box (chat (run_session loc [Logout; o] a).1.2)) = prekeys_of (box (chat a))
  ∧ Forall (λ e, publishes e = false) (run_session loc [Logout; o; Connected c] a).2.
Proof.
  intros Ho Hs. cbn [run_session run_session_op]. rewrite !sbind_eq. cbn [fst snd mret S_ret].
  assert (session_effect carries (run_session_op loc o)) as Hc.
  { destruct Ho as [->|[birthday ->]]; [apply carries_login|apply carries_register]. }
  destruct (Hc (logout a).1.2) as (E1 & _ & E2). rewrite logout_state in *.
  split; [done|]. rewrite app_nil_r. apply Forall_app. split.
  - apply unpublished_logout.
  - apply Forall_app. split; [done|]. apply stocked_connected.
    by rewrite (stocked_prekeys _ _ _ E1).
Qed.
End Switch.

(** ** Attestations restored before the identity *)
Section Attestations.
Context `{Sodium} `{QtText} `{!QtHexLaws} `{QDataStream} `{QHashOrder} `{QStringOrder} `{QTrim} `{SqlOrder}.
Context `{QCharClass} `{QVariantCasts} `{QDates} `{Tls.QNetwork} `{Oracle} `{QFiles}.
Context (loc : Localization.State).

Definition trusted (a : App) : gset string := m_peerVerified (gate (chat a)).

(** Steps that trust no one new as long as there is no identity. *)
Definition wary : app_relation := λ a _ a',
  m_publicKey (box (chat a)) = [] →
  m_publicKey (box (chat a')) = [] ∧ trusted a' = trusted a.
#[export] Instance wary_effect : AppEffect wary.
Proof.
  split; [done|]. intros a1 e1 a2 e2 a3 E1 E2 Hk. destruct (E1 Hk) as [Hk2 <-]. by apply E2.
Qed.

(** Steps that trust no one new at all. *)
Definition steady : app_relation := λ a _ a', trusted a' = trusted a.
#[export] Instance steady_effect : AppEffect steady.
Proof. split; [done|]. unfold steady. congruence. Qed.

Lemma steady_client (f : Client → Client) : session_effect steady (core (on_client f)).
Proof. by intros a. Qed.
Lemma steady_update f :
  (∀ a, gate (chat (f a)) = gate (chat a)) → session_effect steady (update f).
Proof. intros Hf a. unfold steady, trusted, update. cbn. by rewrite Hf. Qed.
Lemma steady_signal e : session_effect steady (signal e).
Proof. by intros a. Qed.

Lemma wary_update f :
  (∀ a, chat (f a) = chat a) → session_effect wary (update f).
Proof. intros Hf a Hk. unfold trusted, update. cbn. by rewrite Hf. Qed.
Lemma wary_signal e : session_effect wary (signal e).
Proof. by intros a. Qed.
Lemma wary_show text : session_effect wary (show_line text).
Proof. intros a Hk. by split. Qed.

Lemma hexStr_nil : hexStr [] = "".
Proof. pose proof (hexStr_length []) as E1. by destruct (hexStr []). Qed.

Lemma wary_restore k : session_effect wary (restore_verification k).
Proof.
  intros a Hk. unfold restore_verification. rewrite core_eq. split; [done|].
  unfold trusted, gets, on_gate, modify, mbind, M_bind, publicKeyHex, box in *. cbn.
  rewrite Hk. rewrite map_empty_filter_2, dom_empty_L, union_empty_r_L; [done|].
  intros i x _ [Hn _]. by apply Hn, hexStr_nil.
Qed.
End Attestations.

#[export] Hint Resolve steady_signal wary_signal wary_show wary_restore : session.
#[export] Hint Extern 1 (session_effect steady (core (on_client _))) => apply steady_client : session.
#[export] Hint Extern 1 (session_effect steady (fail _ _)) => apply steady_signal : session.
#[export] Hint Extern 1 (session_effect wary (fail _ _)) => apply wary_signal : session.
#[export] Hint Extern 1 (session_effect steady (update _)) => (apply steady_update; by intros ?) : session.
#[export] Hint Extern 1 (session_effect steady (on_net _)) => (apply steady_update; by intros ?) : session.
#[export] Hint Extern 1 (session_effect steady (on_cred _)) => (apply steady_update; by intros ?) : session.
#[export] Hint Extern 1 (session_effect wary (on_net _)) => (apply wary_update; by intros ?) : session.
#[export] Hint Extern 1 (session_effect wary (on_cred _)) => (apply wary_update; by intros ?) : session.
#[export] Hint Extern 1 (session_effect wary (on_settings _)) => (apply wary_update; by intros ?) : session.

Section Restored.
Context `{Sodium} `{QtText} `{!QtHexLaws} `{QDataStream} `{QHashOrder} `{QStringOrder} `{QTrim} `{SqlOrder}.
Context `{QCharClass} `{QVariantCasts} `{QDates} `{Tls.QNetwork} `{Oracle} `{QFiles}.
Context (loc : Localization.State).

Lemma wary_open k reg nick : session_effect wary (open_history loc k reg nick).
Proof.
  unfold open_history. refine (se_bind _ _ _ (se_read _ _) _). intros dir. case_match; [session|].
  refine (se_bind _ _ _ _ _); [|intros ?; session].
  intros a Hk. rewrite core_eq. unfold with_client. by destruct (HistoryStore.open _ _ _ _ _).
Qed.

Lemma wary_begin nick url reg : session_effect wary (begin_account nick url reg).
Proof.
  unfold begin_account. refine (se_bind _ _ _ _ _); [intros a Hk; by split|intros ?; session].
Qed.

(** Attestations kept on disk are not restored by a login.  It compares them with the
    public key before the identity is loaded, when there is none: whatever the database
    holds, after a logout and a login no contact is taken to have confirmed. *)
Theorem login_forgets_attestations k url nick pw a :
  trusted (run_session loc [Logout; Login k url nick pw] a).1.2 = ∅.
Proof.
  cbn [run_session run_session_op]. rewrite !sbind_eq. cbn [fst snd mret S_ret].
  rewrite logout_state. unfold login.
  assert (m_publicKey (box (chat (ended a))) = []) as Hk by done.
  rewrite sbind_eq. cbn [fst snd]. destruct (wary_begin (trimmed nick) url false _ Hk) as [Hk2 E1].
  rewrite sbind_eq. cbn [fst snd].
  destruct (wary_open k false (trimmed nick) _ Hk2) as [_ E2].
  match goal with |- context [mbind ?k ?m ?x] =>
    assert (session_effect steady (m ≫= k)) as Hs; [|rewrite (Hs x), E2, E1; done] end.
  unfold establish, resume, open_socket. session.
Qed.
End Restored.
