(* ===== verification/TalkFacts.v ===== *)
(** * A client in conversation

    One client from writing a text to the frames it sends, and from a frame that comes to
    the row it shows: sending, the session and its bootstrap, the heartbeat and reception
    together. *)

From stdpp Require Import pretty.
From S2P Require Import Prelude Platform Kdf Ratchet RatchetFacts Conversation X3dh.
From S2P Require Import CryptoBox.
From S2P Require Import X3dhFacts CryptoBoxFacts MessageModel UserModel HistoryStore Chat.
From S2P Require Import Messenger.
From S2P Require Import Rekey Sending Verification Inbound Receiving Effects.

Import ChatClient Messenger Rekey Sending Verification Inbound Receiving.

(** ** The key a frame is remembered by *)

Definition colon : Ascii.ascii := Ascii.ascii_of_nat 58.

(** No colon occurs in the text. *)
Fixpoint no_colon (s : string) : bool :=
  match s with
  | EmptyString => true
  | String a s' => negb (Ascii.eqb a colon) && no_colon s'
  end.

Lemma no_colon_app x y : no_colon (x +:+ String colon y) = false.
Proof.
  induction x as [|a x IH]; [done|].
  change (negb (Ascii.eqb a colon) && no_colon (x +:+ String colon y) = false).
  by rewrite IH, andb_false_r.
Qed.

(** The text splits at its last colon. *)
Lemma colon_split x y d1 d2 :
  no_colon d1 = true → no_colon d2 = true →
  x +:+ String colon d1 = y +:+ String colon d2 → x = y ∧ d1 = d2.
Proof.
  revert y. induction x as [|a x IH]; intros [|b y] H1 H2 E1;
    [by injection E1 as ->|..]; injection E1 as E2 E3.
  - change (d1 = y +:+ String colon d2) in E3. by rewrite E3, no_colon_app in H1.
  - change (x +:+ String colon d1 = d2) in E3. by rewrite <- E3, no_colon_app in H2.
  - destruct (IH y H1 H2 E3) as [-> ->]. by rewrite E2.
Qed.

Lemma pretty_N_no_colon x s : no_colon s = true → no_colon (pretty_N_go x s) = true.
Proof.
  revert s. induction x as [x IH] using (well_founded_ind N.lt_wf_0); intros s Hs.
  destruct (decide (x = 0)%N) as [->|Hx]; [by rewrite pretty_N_go_0|].
  rewrite pretty_N_go_step by lia. apply IH; [apply N.div_lt; lia|]. cbn.
  rewrite Hs, andb_true_r. apply negb_true_iff.
  assert (x `mod` 10 < 10)%N as Hd by (apply N.mod_lt; lia).
  generalize dependent (x `mod` 10)%N. intros d Hd. unfold pretty_N_char.
  by repeat case_match.
Qed.

Lemma pretty_no_colon (z : Z) : no_colon (pretty z) = true.
Proof.
  assert (∀ n : N, no_colon (pretty n) = true) as Hn.
  { intros n. unfold pretty, pretty_N. case_decide; [done|]. by apply pretty_N_no_colon. }
  destruct z as [|q|q]; [done|apply (Hn (Npos q))|].
  change (no_colon ("-" +:+ pretty (Npos q)) = true). cbn. apply Hn.
Qed.

Definition key_for `{QtText} (dh : bytes) (n : Z) : string := hexStr dh +:+ ":" +:+ pretty n.

Lemma key_for_inj `{QtTextLaws} dh n dh' n' : key_for dh n = key_for dh' n' → dh = dh' ∧ n = n'.
Proof.
  intros [E1 E2]%colon_split; [|apply pretty_no_colon..].
  apply (f_equal unhexStr) in E1. rewrite !unhexStr_hexStr in E1. split; [done|].
  by apply (inj pretty) in E2.
Qed.

(** ** Quiet steps *)

(** The messages handed to the socket. *)
Definition frames (ev : list Event) : list Msg :=
  omap (λ e, match e with Sent (FMsg m) => Some m | _ => None end) ev.

(** What a conversation depends on of the members of the client. *)
Definition core (cl : Client) :=
  (ChatClient.m_nick cl, m_crypto cl, m_messages cl, m_activePeer cl, m_peerKeys cl, m_outbox cl,
   m_connected cl).

(** A step of at most [k] draws that changes none of it. *)
Record quiet (k : nat) (c : Chat) (ev : list Event) (c' : Chat) : Prop := {
  qt_core : core (client c') = core (client c);
  qt_gate : gate c' = gate c;
  qt_owed : m_pongOwed (pcs c') = m_pongOwed (pcs c);
  qt_seen : m_seenFrames (link c') = m_seenFrames (link c);
  qt_ticks : (ticks c ≤ ticks c' ≤ ticks c + k)%nat;
  qt_frames : frames ev = [];
}.

Definition hush {A} (k : nat) (m : M A) : Prop := ∀ c, quiet k c (m c).2 (m c).1.2.

Lemma frames_app e1 e2 : frames (e1 ++ e2) = frames e1 ++ frames e2.
Proof. apply omap_app. Qed.

Lemma quiet_trans k1 k2 c1 e1 c2 e2 c3 :
  quiet k1 c1 e1 c2 → quiet k2 c2 e2 c3 → quiet (k1 + k2) c1 (e1 ++ e2) c3.
Proof.
  intros [A1 A2 A3 A4 A5 A6] [B1 B2 B3 B4 B5 B6].
  split; [congruence..|lia|by rewrite frames_app, A6, B6].
Qed.

Lemma hush_bind {A B} k1 k2 (m : M A) (f : A → M B) :
  hush k1 m → (∀ x, hush k2 (f x)) → hush (k1 + k2) (m ≫= f).
Proof. intros Hm Hf c. rewrite bind_eq. eapply quiet_trans; [apply Hm|apply Hf]. Qed.

Lemma hush_le {A} k k' (m : M A) : hush k m → (k ≤ k')%nat → hush k' m.
Proof. intros Hm Hk c. destruct (Hm c) as [A1 A2 A3 A4 A5 A6]. split; [done..|lia|done]. Qed.

Lemma hush_ret {A} (x : A) : hush 0 (mret x).
Proof. intros c. split; try done. cbn. lia. Qed.

Lemma hush_gets {A} (f : Chat → A) : hush 0 (gets f).
Proof. intros c. split; try done. cbn. lia. Qed.

Lemma hush_emit e : frames [e] = [] → hush 0 (emit e).
Proof. intros He c. split; try done. cbn. lia. Qed.

Lemma hush_tick : hush 1 tick.
Proof. intros c. split; try done. cbn. lia. Qed.

Lemma hush_client f : (∀ cl, core (f cl) = core cl) → hush 0 (on_client f).
Proof. intros Hf c. split; try done; [apply Hf|cbn; lia]. Qed.

Lemma hush_pcs f : (∀ p, m_pongOwed (f p) = m_pongOwed p) → hush 0 (on_pcs f).
Proof. intros Hf c. split; try done; [apply Hf|cbn; lia]. Qed.

Lemma hush_link f : (∀ l, m_seenFrames (f l) = m_seenFrames l) → hush 0 (on_link f).
Proof. intros Hf c. split; try done; [apply Hf|cbn; lia]. Qed.

Lemma hush_when k b m : hush k m → hush k (when b m).
Proof.
  intros Hm. destruct b; [done|]. eapply hush_le; [apply hush_ret|lia].
Qed.

Lemma hush_here {A} k (f : Chat → M A) : (∀ x, hush k (f x)) → hush k (gets id ≫= f).
Proof. intros Hf c. rewrite here_eq. apply Hf. Qed.

Section Quiet.
Context `{Sodium} `{QtText} `{QDataStream} `{QHashOrder} `{QStringOrder} `{QTrim}.
Context `{Oracle} `{QFiles}.

Lemma hush_now : hush 1 now.
Proof. refine (hush_bind 1 0 _ _ hush_tick _). intros x. apply hush_ret. Qed.

Lemma hush_draw n : hush 1 (draw n).
Proof. refine (hush_bind 1 0 _ _ hush_tick _). intros x. apply hush_ret. Qed.

Lemma hush_ok : hush 1 ok.
Proof. refine (hush_bind 1 0 _ _ hush_tick _). intros x. apply hush_ret. Qed.

Lemma hush_uuid : hush 1 createUuid.
Proof. refine (hush_bind 1 0 _ _ hush_tick _). intros x. apply hush_ret. Qed.

Lemma hush_store {A} (f : bool → HistoryStore.Store → A * HistoryStore.Store) :
  hush 1 (on_store f).
Proof.
  refine (hush_bind 1 0 _ _ hush_ok _). intros o c. unfold with_client.
  destruct (f o (m_history (client c))). split; try done. cbn. lia.
Qed.

Lemma hush_persist p : hush 2 (persist p).
Proof.
  refine (hush_bind 1 1 _ _ hush_ok (λ o, _)). refine (hush_bind 1 0 _ _ hush_now (λ t, _)).
  apply hush_client. intros cl. unfold persistSession. by destruct (HistoryStore.m_ready _).
Qed.

Lemma hush_seal t : hush 1 (seal t).
Proof. refine (hush_bind 1 0 _ _ (hush_draw _) (λ n, _)). apply hush_gets. Qed.

Lemma hush_typing p s : hush 0 (sendTypingState p s).
Proof.
  unfold sendTypingState. destruct (String.eqb p ""); [apply hush_ret|].
  apply hush_here. intros c. destruct (_ && _); [apply hush_ret|].
  refine (hush_bind 0 0 _ _ _ (λ x, _)); [by apply hush_link|].
  destruct (negb _); [apply hush_ret|by apply hush_emit].
Qed.

Lemma hush_peer_typing p s : hush 0 (setPeerTyping p s).
Proof.
  unfold setPeerTyping. destruct (String.eqb p ""); [apply hush_ret|].
  refine (hush_bind 0 0 _ _ _ (λ x, _)); [by apply hush_link|].
  refine (hush_bind 0 0 _ _ _ (λ y, _)); by apply hush_emit.
Qed.

Lemma hush_inbound p : hush 0 (noteInboundFrom p).
Proof.
  unfold noteInboundFrom. destruct (String.eqb p ""); [apply hush_ret|].
  refine (hush_bind 0 0 _ _ _ (λ x, _)); [by apply hush_client|by apply hush_pcs].
Qed.

Lemma hush_opener p : hush 0 (take_opener p).
Proof.
  unfold take_opener. apply hush_here. intros c. destruct (_ !! p); [|apply hush_ret].
  refine (hush_bind 0 0 _ _ _ (λ x, _)); [by apply hush_link|apply hush_ret].
Qed.
End Quiet.

(** ** A client in conversation *)
Section Talking.
Context `{SodiumLaws} `{QtTextLaws} `{QDataStream} `{QHashOrder} `{QStringOrder} `{QTrim}.
Context `{Oracle} `{QFiles} (horizon : nat).

(** The public half of the ratchet key that the [i]-th draw gives. *)
Definition drawn (i : nat) : bytes := scalarmult_base (octets_at i 32).

(** The draws up to the horizon are keys, all of them different. *)
Definition fresh_draws : Prop :=
  (∀ i, i < horizon → length (octets_at i 32) = 32)
  ∧ ∀ i j, i < horizon → j < horizon → drawn i = drawn j → i = j.

(** [me] has the conversation with [p] open, over the session [s]: the key of [p] is
    known and not in question, the link is up, and nothing is queued. *)
Record talking (me p : string) (s : RatchetSession) (c : Chat) : Prop := {
  tk_self : self c = me;
  tk_active : active c = p;
  tk_names : me ≠ p ∧ p ≠ "";
  tk_key : ∃ k, m_peerKeys (client c) !! p = Some k ∧ length (unhexStr k) = 32 ∧
                m_peerIdentity (box c) !! p = Some (unhexStr k);
  tk_open : conversationBlocked p c = false;
  tk_link : connected c = true;
  tk_session : m_sessions (box c) !! p = Some s;
  tk_queue : m_outbox (client c) = [];
  tk_draws : ∀ i, ticks c ≤ i < horizon → drawn i ≠ DHs_pub s;
}.

Definition seen (p : string) (c : Chat) : gset string := default ∅ (m_seenFrames (link c) !! p).

(** [me] has the conversation with [p] open, and nothing has been said yet: each key is
    known, no session exists, and no frame of [p] has come. *)
Record meets (me p : string) (mine theirs : bytes) (c : Chat) : Prop := {
  mt_self : self c = me;
  mt_active : active c = p;
  mt_names : me ≠ p ∧ p ≠ "";
  mt_key : ∃ k, m_peerKeys (client c) !! p = Some k ∧ unhexStr k = theirs;
  mt_theirs : length theirs = 32 ∧ m_peerIdentity (box c) !! p = Some theirs;
  mt_mine : has_keys (box c) ∧ m_publicKey (box c) = mine;
  mt_open : conversationBlocked p c = false;
  mt_link : connected c = true;
  mt_none : m_sessions (box c) !! p = None ∧ m_pendingX3dhHeader (link c) !! p = None;
  mt_queue : m_outbox (client c) = [];
  mt_seen : seen p c = ∅;
  mt_owed : p ∉ m_pongOwed (pcs c);
  mt_draws : ∀ i, ticks c ≤ i < horizon → drawn i ≠ mine;
}.

(** [c] with the session [s], after [d] draws. *)
Definition with_session (d : nat) (p : string) (s : RatchetSession) (c : Chat) : Chat :=
  mkChat (set_crypto (put_session p s (box c)) (client c)) (gate c) (pcs c) (link c)
    (transfers c) (d + ticks c).

Lemma meets_talking d me p mine theirs s c :
  meets me p mine theirs c → (∀ i, d + ticks c ≤ i < horizon → drawn i ≠ DHs_pub s) →
  talking me p s (with_session d p s c).
Proof.
  intros [A1 A2 A3 (k & A4 & A5) [A6 A7] A8 A9 A10 A11 A12 A13 A14 _] Hd.
  split; try done; [|apply lookup_insert_eq]. exists k. by rewrite A5.
Qed.

Lemma talking_session d me p s s' c :
  talking me p s c → DHs_pub s' = DHs_pub s → talking me p s' (with_session d p s' c).
Proof.
  intros [A1 A2 A3 A4 A5 A6 A7 A8 A9] Hp. split; try done; [apply lookup_insert_eq|].
  intros i Hi. rewrite Hp. apply A9. cbn in Hi. lia.
Qed.

(** From [c], with at most [k] draws, to a client in conversation over [s'], that has
    handed [fs] to the socket, shown [rows] more and seen [ks] more. *)
Record went (me p : string) (c : Chat) (ev : list Event) (c' : Chat) (s' : RatchetSession)
    (k : nat) (fs : list Msg) (rows : list MessageModel.Message) (ks : gset string) : Prop := {
  wt_talking : talking me p s' c';
  wt_ticks : (ticks c ≤ ticks c' ≤ ticks c + k)%nat;
  wt_frames : frames ev = fs;
  wt_rows : m_messages (client c') = m_messages (client c) ++ rows;
  wt_seen : seen p c' = ks ∪ seen p c;
  wt_owed : m_pongOwed (pcs c') = m_pongOwed (pcs c);
}.

Definition goes {A} (me p : string) (m : M A) (c : Chat) (x : A) (s' : RatchetSession) (k : nat)
    (fs : list Msg) (rows : list MessageModel.Message) (ks : gset string) : Prop :=
  (m c).1.1 = x ∧ went me p c (m c).2 (m c).1.2 s' k fs rows ks.

Lemma went_trans me p c1 e1 c2 s2 k1 f1 r1 d1 e2 c3 s3 k2 f2 r2 d2 :
  went me p c1 e1 c2 s2 k1 f1 r1 d1 → went me p c2 e2 c3 s3 k2 f2 r2 d2 →
  went me p c1 (e1 ++ e2) c3 s3 (k1 + k2) (f1 ++ f2) (r1 ++ r2) (d2 ∪ d1).
Proof.
  intros [A1 A2 A3 A4 A5 A6] [B1 B2 B3 B4 B5 B6]. split.
  - done.
  - lia.
  - by rewrite frames_app, A3, B3.
  - by rewrite B4, A4, <- app_assoc.
  - by rewrite B5, A5, (assoc_L (∪)).
  - by rewrite B6.
Qed.

Lemma goes_bind {A B} me p (m : M A) (f : A → M B) c x y s1 s2 k1 k2 f1 f2 r1 r2 d1 d2 :
  goes me p m c x s1 k1 f1 r1 d1 →
  (∀ c1, talking me p s1 c1 → (ticks c ≤ ticks c1)%nat → c1 = (m c).1.2 → goes me p (f x) c1 y s2 k2 f2 r2 d2) →
  goes me p (m ≫= f) c y s2 (k1 + k2) (f1 ++ f2) (r1 ++ r2) (d2 ∪ d1).
Proof.
  intros [E1 Hw] Hf. destruct (Hf (m c).1.2) as [E2 Hw2];
    [apply Hw|apply Hw|done|].
  unfold goes. rewrite bind_eq. rewrite E1. cbn [fst snd]. split; [done|].
  by eapply went_trans.
Qed.

Lemma quiet_talking me p s k c ev c' :
  talking me p s c → quiet k c ev c' → went me p c ev c' s k [] [] ∅.
Proof.
  intros [A1 A2 A3 A4 A5 A6 A7 A8 A9] [B1 B2 B3 B4 B5 B6].
  unfold core in B1. injection B1 as C1 C2 C3 C4 C5 C6 C7.
  split; [|lia|done|by rewrite C3, app_nil_r|unfold seen; rewrite B4; by rewrite (left_id_L ∅ (∪))|done].
  unfold self, active, connected, conversationBlocked, box in *.
  split; unfold self, active, connected, conversationBlocked, box;
    rewrite ?C1, ?C2, ?C4, ?C5, ?C6, ?C7, ?B2, ?B3; try done.
  intros i Hi. apply A9. lia.
Qed.

Lemma goes_hush {A} me p s k (m : M A) c :
  hush k m → talking me p s c → goes me p m c (m c).1.1 s k [] [] ∅.
Proof. intros Hm Ht. split; [done|]. by apply quiet_talking. Qed.

(** A quiet step first: only its result is of interest. *)
Lemma goes_quietly {A B} me p (m : M A) (f : A → M B) c y s s2 k k2 fs rows ks :
  hush k m → talking me p s c →
  (∀ x c1, talking me p s c1 → goes me p (f x) c1 y s2 k2 fs rows ks) →
  goes me p (m ≫= f) c y s2 (k + k2) fs rows ks.
Proof.
  intros Hm Ht Hf.
  replace ks with (ks ∪ ∅) by apply (right_id_L ∅ (∪)).
  eapply (goes_bind me p m f c _ y s s2 k k2 [] fs [] rows); [by apply goes_hush|].
  intros c1 Hc1 _ _. by apply Hf.
Qed.

(** And last. *)
Lemma goes_then_quiet {A B} me p (m : M A) (f : A → M B) c x s1 k1 k fs rows ks :
  goes me p m c x s1 k1 fs rows ks → hush k (f x) →
  ∃ y, goes me p (m ≫= f) c y s1 (k1 + k) fs rows ks.
Proof.
  intros Hg Hf. exists (f x (m c).1.2).1.1.
  replace ks with (∅ ∪ ks) by apply (left_id_L ∅ (∪)).
  replace fs with (fs ++ []) by apply app_nil_r. replace rows with (rows ++ []) by apply app_nil_r.
  eapply goes_bind; [exact Hg|]. intros c1 Hc1 _ ->. by apply goes_hush.
Qed.

Lemma goes_le {A} me p (m : M A) c x s k k' fs rows ks :
  goes me p m c x s k fs rows ks → (k ≤ k')%nat → goes me p m c x s k' fs rows ks.
Proof. intros [E1 [A1 A2 A3 A4 A5 A6]] Hk. split; [done|]. split; [done|lia|done..]. Qed.
End Talking.

(** ** Writing *)
Section Writing.
Context `{SodiumLaws} `{QtTextLaws} `{QDataStream} `{QHashOrder} `{QStringOrder} `{QTrim}.
Context `{Oracle} `{QFiles} (horizon : nat).

#[local] Abbreviation talking := (talking horizon).
#[local] Abbreviation goes := (goes horizon).

Definition wire_of (f : RatchetFrame) : WireFrame :=
  mkWire (fromLatin1 (f_cipher f)) (hexStr (f_dh f)) (f_pn f) (f_n f) (hexStr (f_nonce f))
    (hexStr (f_ct f)).

(** The session [s] turns the text into the frame [w] and goes on as [s']. *)
Definition written (s : RatchetSession) (t : string) (s' : RatchetSession) (w : WireFrame) : Prop :=
  ∃ nonce, s' = (encryptStep s (toUtf8 t) nonce).1 ∧ w = wire_of (encryptStep s (toUtf8 t) nonce).2.

(** A message from [me] to [p] that carries it. *)
Definition spoken (me p kind : string) (s : RatchetSession) (t : string) (s' : RatchetSession)
    (m : Msg) : Prop :=
  g_from m = me ∧ g_to m = p ∧ g_kind m = kind ∧ g_edit_of m = "" ∧ written s t s' (g_wire m).

Lemma written_pub s t s' w : written s t s' w → DHs_pub s' = DHs_pub s ∧ CKs s' ≠ [].
Proof.
  intros (nonce & -> & _). unfold encryptStep. pose proof (kdfCk_nonempty (CKs s)) as Hk.
  by destruct (kdfCk (CKs s)).
Qed.

(** The session [s] is there, or is made for the occasion. *)
Lemma encrypt_into me p s t c b1 :
  sessionFor p (octets_at (ticks c) 32) (box c) = Some (s, b1) →
  (∀ s', put_session p s' b1 = put_session p s' (box c)) → CKs s ≠ [] →
  (∀ s', DHs_pub s' = DHs_pub s → talking me p s' (with_session 2 p s' c)) →
  ∃ s' w, written s t s' w ∧ link (encrypt p t c).1.2 = link c ∧
          goes me p (encrypt p t) c (Encrypted w) s' 2 [] [] ∅.
Proof.
  intros Hf Hput Hs Ht. set (nonce := octets_at (S (ticks c)) (nonceLenFor kCipherXchacha)).
  set (s' := (encryptStep s (toUtf8 t) nonce).1).
  set (w := wire_of (encryptStep s (toUtf8 t) nonce).2).
  assert (written s t s' w) as Hw by by exists nonce.
  exists s', w. split; [done|].
  assert (encryptFor p t (octets_at (ticks c) 32) nonce (box c)
          = (Encrypted w, put_session p s' (box c))) as He.
  { unfold encryptFor. rewrite Hf, decide_False, <- Hput by done. unfold s', w.
    by destruct (encryptStep s (toUtf8 t) nonce). }
  unfold TalkFacts.goes. assert (encrypt p t c = (Encrypted w, with_session 2 p s' c, [])) as ->.
  { trans (on_box (encryptFor p t (octets_at (ticks c) 32) nonce)
             (mkChat (client c) (gate c) (pcs c) (link c) (transfers c) (S (S (ticks c))))).
    { unfold encrypt, draw. rewrite !bind_eq. cbn [fst snd]. by destruct (on_box _ _) as [[? ?] ?]. }
    unfold on_box, with_client. cbn [client]. unfold box in He. by rewrite He. }
  destruct (written_pub _ _ _ _ Hw) as [Hp _].
  split; [done|]. split; [done|]. cbn [fst snd].
  split; [by apply Ht|cbn; lia|done|by rewrite app_nil_r|by rewrite (left_id_L ∅ (∪))|done].
Qed.

Lemma encrypt_goes me p s t c :
  talking me p s c → CKs s ≠ [] →
  ∃ s' w, written s t s' w ∧ goes me p (encrypt p t) c (Encrypted w) s' 2 [] [] ∅.
Proof.
  intros Ht Hs. destruct (encrypt_into me p s t c (box c)) as (s' & w & Hw & _ & He); [|done|done| |].
  - unfold sessionFor. by rewrite (tk_session _ _ _ _ _ Ht).
  - intros s' Hp. by apply (talking_session horizon 2 me p s).
  - by exists s', w.
Qed.

Lemma goes_here {A} me p (f : Chat → M A) c x s k fs rows ks :
  goes me p (f c) c x s k fs rows ks → goes me p (gets id ≫= f) c x s k fs rows ks.
Proof. intros Hf. red. by rewrite here_eq. Qed.

Lemma goes_unit me p s k (m : M ()) c :
  hush k m → talking me p s c → goes me p m c () s k [] [] ∅.
Proof. intros Hm Ht. split; [by destruct (m c).1.1|]. by apply quiet_talking. Qed.

Lemma goes_ret {A} me p (x : A) c s : talking me p s c → goes me p (mret x) c x s 0 [] [] ∅.
Proof. intros Ht. by apply (goes_hush horizon me p s 0 (mret x) c (hush_ret x)). Qed.

Lemma goes_now me p c s : talking me p s c → goes me p now c (clock_at (ticks c)) s 1 [] [] ∅.
Proof. intros Ht. by apply (goes_hush horizon me p s 1 now c hush_now). Qed.

Lemma goes_send me p m c s : talking me p s c → goes me p (send (FMsg m)) c () s 0 [m] [] ∅.
Proof.
  intros Ht. split; [done|]. split; [done|cbn; lia|done|by rewrite app_nil_r| |done].
  by rewrite (left_id_L ∅ (∪)).
Qed.

(** In sequence: what the first gives is what the second needs. *)
Lemma goes_seq {A B} me p (m : M A) (f : A → M B) c x y s1 s2 k1 k2 f1 f2 fs r1 r2 rows d1 d2 ks :
  goes me p m c x s1 k1 f1 r1 d1 → f1 ++ f2 = fs → r1 ++ r2 = rows → d2 ∪ d1 = ks →
  (∀ c1, talking me p s1 c1 → (ticks c ≤ ticks c1)%nat → c1 = (m c).1.2 →
     goes me p (f x) c1 y s2 k2 f2 r2 d2) →
  goes me p (m ≫= f) c y s2 (k1 + k2) fs rows ks.
Proof. intros Hm <- <- <- Hf. by eapply goes_bind. Qed.

(** The first of [k1] draws by [Hm], then the rest, of [k2]. *)
#[local] Tactic Notation "next" constr(a) constr(b) uconstr(Hm) :=
  eapply goes_seq with (k1 := a) (k2 := b) (d1 := ∅) (d2 := ∅);
    [refine Hm|reflexivity|reflexivity|set_solver|].

Lemma control_goes me p s kind sentinel ik c :
  talking me p s c → CKs s ≠ [] →
  ∃ s' m, spoken me p kind s sentinel s' m ∧
          goes me p (transmit_control p kind sentinel ik) c true s' 5 [m] [] ∅.
Proof.
  intros Ht Hs. destruct (encrypt_goes me p s sentinel c Ht Hs) as (s' & w & Hw & He).
  set (c1 := (encrypt p sentinel c).1.2).
  exists s', (mkMsg me p kind (ik c1) "" "" None w (clock_at (ticks c1))).
  split; [by split_and!|]. unfold transmit_control.
  next 2 3 He. intros c2 Ht2 _ ->. fold c1. apply goes_here.
  next 1 2 (goes_now me p _ _ Ht2). intros c3 Ht3 _ _.
  rewrite (tk_self _ _ _ _ _ Ht2 : self c1 = me). next 0 2 (goes_send me p _ _ _ Ht3). intros c4 Ht4 _ _.
  refine (goes_quietly horizon me p _ _ _ _ s' s' 2 0 _ _ _ (hush_persist p) Ht4 (λ _ c5 Ht5, _)).
  by apply goes_ret.
Qed.

Lemma hush_mark p : hush 1 (markRekeyPingSent p).
Proof.
  unfold markRekeyPingSent. destruct (String.eqb p ""); [eapply hush_le; [apply hush_ret|lia]|].
  refine (hush_bind 1 0 _ _ hush_now (λ t, _)). apply hush_pcs. intros q. by case_decide.
Qed.

(** Nothing more, or a control message of that kind. *)
Definition maybe (me p kind sentinel : string) (s s' : RatchetSession) (fs : list Msg) : Prop :=
  fs = [] ∧ s' = s ∨ ∃ m, fs = [m] ∧ spoken me p kind s sentinel s' m.

Lemma ping_goes me p s c :
  talking me p s c → CKs s ≠ [] →
  ∃ b s' fs, maybe me p "rekey-ping" kRekeyPingSentinel s s' fs ∧
             goes me p (transmitRekey p false) c b s' 5 fs [] ∅.
Proof.
  intros Ht Hs. unfold transmitRekey.
  destruct (online p c) eqn:Ho.
  - destruct (control_goes me p s "rekey-ping" kRekeyPingSentinel (λ _, "") c Ht Hs)
      as (s' & m & Hm & Hg).
    exists true, s', [m]. split; [right; by exists m|]. apply goes_here.
    rewrite (tk_open _ _ _ _ _ Ht), Ho. exact Hg.
  - exists false, s, []. split; [by left|]. apply goes_here.
    rewrite (tk_open _ _ _ _ _ Ht), Ho. eapply goes_le; [by apply goes_ret|lia].
Qed.

Lemma note_goes me p s c :
  talking me p s c → CKs s ≠ [] →
  ∃ s' fs, maybe me p "rekey-ping" kRekeyPingSentinel s s' fs ∧
           goes me p (noteOutboundTo p) c () s' 6 fs [] ∅.
Proof.
  intros Ht Hs. destruct (tk_names _ _ _ _ _ Ht) as [_ Hp%String.eqb_neq].
  assert (∀ n, hush 0 (set_count p n)) as Hcount by (intros n; by apply hush_client).
  unfold noteOutboundTo. rewrite Hp.
  destruct ((kPcsRekeyAfterMessages <=? sent_since p c + 1)%Z
            && negb (bool_decide (p ∈ m_rekeyOutstanding (pcs c)))
            && connected c && has_session p c) eqn:Hd.
  - set (c1 := (set_count p (sent_since p c + 1) c).1.2).
    pose proof (goes_hush horizon me p s 0 _ c (Hcount (sent_since p c + 1)%Z) Ht) as Hg1.
    destruct (ping_goes me p s c1 ltac:(apply Hg1) Hs) as (b & s' & fs & Hm & Hg).
    exists s', fs. split; [exact Hm|]. apply goes_here. rewrite Hd.
    next 0 6 Hg1. intros c2 Ht2 _ ->. fold c1.
    eapply goes_seq with (k1 := 5) (k2 := 1) (d1 := ∅) (d2 := ∅) (f2 := []) (r2 := []);
      [exact Hg|by rewrite app_nil_r|done|set_solver|].
    intros c3 Ht3 _ _. destruct b; [|eapply goes_le with (k := 0); [|lia]].
    + apply goes_unit; [apply hush_mark|done].
    + by apply goes_unit; [apply hush_pcs|].
  - exists s, []. split; [by left|]. apply goes_here. rewrite Hd.
    eapply goes_le with (k := 0); [|lia].
    next 0 0 (goes_hush horizon me p s 0 _ c (Hcount _) Ht). intros c2 Ht2 _ _.
    by apply goes_ret.
Qed.

(** What a computation does, by what it ends with. *)
Definition wp {A} (me p : string) (m : M A) (c : Chat) (k : nat)
    (Q : A → RatchetSession → list Msg → list MessageModel.Message → gset string → Prop) : Prop :=
  ∃ x s fs rows ks, goes me p m c x s k fs rows ks ∧ Q x s fs rows ks.

(** [c1] comes after [c]; the pongs owed are the same. *)
Definition later (k : nat) (c c1 : Chat) : Prop :=
  (ticks c ≤ ticks c1 ≤ ticks c + k)%nat ∧ m_pongOwed (pcs c1) = m_pongOwed (pcs c).

Lemma wp_bind_later {A B} me p (m : M A) (f : A → M B) c k1 k2 Q :
  wp me p m c k1 (λ x s1 f1 r1 d1, ∀ c1, talking me p s1 c1 → later k1 c c1 →
    wp me p (f x) c1 k2 (λ y s2 f2 r2 d2, Q y s2 (f1 ++ f2) (r1 ++ r2) (d2 ∪ d1))) →
  wp me p (m ≫= f) c (k1 + k2) Q.
Proof.
  intros (x & s1 & f1 & r1 & d1 & Hg & Hf).
  destruct (Hf (m c).1.2) as (y & s2 & f2 & r2 & d2 & Hg2 & HQ); [apply Hg|split; apply Hg|].
  exists y, s2, (f1 ++ f2), (r1 ++ r2), (d2 ∪ d1). split; [|done].
  eapply goes_bind; [exact Hg|]. by intros c1 _ _ ->.
Qed.

Lemma wp_bind {A B} me p (m : M A) (f : A → M B) c k1 k2 Q :
  wp me p m c k1 (λ x s1 f1 r1 d1, ∀ c1, talking me p s1 c1 →
    wp me p (f x) c1 k2 (λ y s2 f2 r2 d2, Q y s2 (f1 ++ f2) (r1 ++ r2) (d2 ∪ d1))) →
  wp me p (m ≫= f) c (k1 + k2) Q.
Proof.
  intros (x & s1 & f1 & r1 & d1 & Hg & Hf). apply wp_bind_later. exists x, s1, f1, r1, d1. auto.
Qed.

Lemma wp_quiet_later {A B} me p s (m : M A) (f : A → M B) c k1 k2 Q :
  hush k1 m → talking me p s c →
  (∀ x c1, talking me p s c1 → later k1 c c1 → wp me p (f x) c1 k2 Q) →
  wp me p (m ≫= f) c (k1 + k2) Q.
Proof.
  intros Hm Ht Hf. pose proof (quiet_talking horizon me p s k1 c (m c).2 _ Ht (Hm c)) as Hw.
  destruct (Hf (m c).1.1 (m c).1.2) as (y & s2 & f2 & r2 & d2 & Hg2 & HQ);
    [apply Hw|split; apply Hw|].
  exists y, s2, f2, r2, d2. split; [|done]. replace d2 with (d2 ∪ ∅) by apply (right_id_L ∅ (∪)).
  eapply (goes_bind horizon me p m f c _ _ _ _ _ _ [] _ []); [by apply goes_hush|]. by intros c1 _ _ ->.
Qed.

Lemma wp_quiet {A B} me p s (m : M A) (f : A → M B) c k1 k2 Q :
  hush k1 m → talking me p s c → (∀ x c1, talking me p s c1 → wp me p (f x) c1 k2 Q) →
  wp me p (m ≫= f) c (k1 + k2) Q.
Proof. intros Hm Ht Hf. eapply wp_quiet_later; eauto. Qed.

(** In sequence, the first known. *)
Lemma wp_bind_at {A B} me p (m : M A) (f : A → M B) c k1 k2 x s1 f1 r1 d1 Q :
  goes me p m c x s1 k1 f1 r1 d1 →
  wp me p (f x) (m c).1.2 k2 (λ y s2 f2 r2 d2, Q y s2 (f1 ++ f2) (r1 ++ r2) (d2 ∪ d1)) →
  wp me p (m ≫= f) c (k1 + k2) Q.
Proof.
  intros Hg (y & s2 & f2 & r2 & d2 & Hg2 & HQ).
  exists y, s2, (f1 ++ f2), (r1 ++ r2), (d2 ∪ d1). split; [|done].
  eapply goes_bind; [exact Hg|]. by intros c1 _ _ ->.
Qed.

(** A quiet step from any state. *)
Lemma wp_hush {A B} me p (m : M A) (f : A → M B) c k1 k2 Q :
  hush k1 m → wp me p (f (m c).1.1) (m c).1.2 k2 Q → wp me p (m ≫= f) c (k1 + k2) Q.
Proof.
  intros Hm (y & s & fs & rows & ks & [E1 [B1 B2 B3 B4 B5 B6]] & HQ).
  destruct (Hm c) as [A1 A2 A3 A4 A5 A6]. unfold core in A1.
  injection A1 as C1 C2 C3 C4 C5 C6 C7.
  exists y, s, fs, rows, ks. split; [|done]. unfold goes. rewrite bind_eq. cbn [fst snd].
  split; [done|]. split; [done|lia|by rewrite frames_app, A6, B3|by rewrite B4, C3| |by rewrite B6, A3].
  rewrite B5. unfold seen. by rewrite A4.
Qed.

Lemma wp_goes {A} me p (m : M A) c x s k fs rows ks
    (Q : A → RatchetSession → list Msg → list MessageModel.Message → gset string → Prop) :
  goes me p m c x s k fs rows ks → Q x s fs rows ks → wp me p m c k Q.
Proof. intros Hg HQ. by exists x, s, fs, rows, ks. Qed.

Lemma wp_le {A} me p (m : M A) c k k' Q : wp me p m c k Q → (k ≤ k')%nat → wp me p m c k' Q.
Proof.
  intros (x & s & fs & rows & ks & Hg & HQ) Hk. exists x, s, fs, rows, ks. split; [|done].
  by eapply goes_le.
Qed.

Lemma wp_here {A} me p (f : Chat → M A) c k Q : wp me p (f c) c k Q → wp me p (gets id ≫= f) c k Q.
Proof.
  intros (x & s & fs & rows & ks & Hg & HQ). exists x, s, fs, rows, ks. split; [|done].
  by apply goes_here.
Qed.

Lemma wp_same {A} me p (m m' : M A) c k Q : m' c = m c → wp me p m c k Q → wp me p m' c k Q.
Proof.
  intros E1 (x & s & fs & rows & ks & Hg & HQ). exists x, s, fs, rows, ks. split; [|done].
  red. by rewrite E1.
Qed.

(** A row of text as it is shown. *)
Definition text_row (who t : string) (ts : Z) (mine : bool) (mid : string) : MessageModel.Message :=
  MessageModel.mkMessage who t ts mine false false "" "" "" 0 "" mid false "" "" false.

Lemma goes_row me p s who t ts mine mid c :
  talking me p s c →
  goes me p (on_messages (λ ms, (MessageModel.addMessage who t ts mine mid ms).1)) c () s 0 []
    [text_row who t ts mine mid] ∅.
Proof.
  intros [A1 A2 A3 A4 A5 A6 A7 A8 A9]. split; [done|].
  split; [by split|cbn; lia|done|done|by rewrite (left_id_L ∅ (∪))|done].
Qed.

(** The message, the row shown, and perhaps a ping; the message opens no session where no
    opener is [pending]. *)
Definition sent_text (me p : string) (s : RatchetSession) (t : string)
    (pending : option X3dhHeader) (s2 : RatchetSession) (fs : list Msg)
    (rows : list MessageModel.Message) : Prop :=
  ∃ m s1 pings, fs = m :: pings ∧ spoken me p "" s t s1 m ∧
    maybe me p "rekey-ping" kRekeyPingSentinel s1 s2 pings ∧
    rows = [text_row me t (g_ts m) true (g_mid m)] ∧ (pending = None → g_opener m = None).

(** What is left of [sendMessage] once the text is encrypted. *)
Definition send_rest (me p t : string) (ts : Z) (w : WireFrame) : M () :=
  mid ← createUuid;
  op ← take_opener p;
  send (FMsg (mkMsg me p "" "" mid "" op w ts)) ;;
  sendTypingState p "idle" ;;
  add_own t mid ts ;;
  sealedPair ← seal t;
  match sealedPair with
  | Some (histNonce, histCt) =>
      on_store (λ o, HistoryStore.addTextRow o p me histNonce histCt ts true mid) ;; mret ()
  | None => mret ()
  end ;;
  persist p ;;
  noteOutboundTo p.

Lemma rest_goes me p s0 s t ts w c :
  talking me p s c → written s0 t s w →
  wp me p (send_rest me p t ts w) c 11 (λ _ s2 fs rows ks,
    sent_text me p s0 t (m_pendingX3dhHeader (link c) !! p) s2 fs rows ∧ ks = ∅).
Proof.
  intros Ht Hw. unfold send_rest.
  apply (wp_hush me p _ _ _ 1 10 _ hush_uuid). set (c1 := (createUuid c).1.2). set (mid := (createUuid c).1.1).
  assert (talking me p s c1) as Ht1 by (eapply quiet_talking; [exact Ht|apply hush_uuid]).
  apply (wp_hush me p _ _ _ 0 10 _ (hush_opener p)). set (op := (take_opener p c1).1.1).
  assert (m_pendingX3dhHeader (link c) !! p = None → op = None) as Hop.
  { intros Hn. unfold op, take_opener. rewrite here_eq. change (link c1) with (link c). by rewrite Hn. }
  set (c2 := (take_opener p c1).1.2).
  assert (talking me p s c2) as Ht2 by (eapply quiet_talking; [exact Ht1|apply hush_opener]).
  apply (wp_bind me p _ _ _ 0 10). eapply wp_goes; [apply goes_send, Ht2|]. intros c5 Ht5.
  apply (wp_quiet me p s _ _ _ 0 10 _ (hush_typing _ _) Ht5). intros _ c6 Ht6.
  apply (wp_bind me p _ _ _ 0 10). unfold add_own. apply wp_here.
  eapply wp_goes; [apply goes_row, Ht6|]. intros c7 Ht7.
  apply (wp_quiet me p s _ _ _ 1 9 _ (hush_seal t) Ht7). intros sealed c8 Ht8.
  apply (wp_quiet me p s _ _ _ 1 8); [|exact Ht8|].
  { destruct sealed as [[n ct]|]; [|eapply hush_le; [apply hush_ret|lia]].
    refine (hush_bind 1 0 _ _ (hush_store _) (λ _, hush_ret _)). }
  intros _ c9 Ht9. apply (wp_quiet me p s _ _ _ 2 6 _ (hush_persist p) Ht9). intros _ c10 Ht10.
  destruct (note_goes me p s c10 Ht10) as (s2 & fs & Hm & Hn); [by eapply written_pub|].
  eapply wp_goes; [exact Hn|]. cbn [app]. split; [|by rewrite !(left_id_L ∅ (∪))].
  exists (mkMsg me p "" "" mid "" op w ts), s, fs.
  rewrite (tk_self _ _ _ _ _ Ht6). by split_and!.
Qed.

Lemma send_goes me p s t c :
  talking me p s c → CKs s ≠ [] →
  wp me p (sendMessage t) c 14 (λ _ s2 fs rows ks, ∃ pending,
    sent_text me p s t pending s2 fs rows ∧ ks = ∅).
Proof.
  intros Ht Hs. destruct (tk_names _ _ _ _ _ Ht) as [_ Hp%String.eqb_neq].
  destruct (tk_key _ _ _ _ _ Ht) as (key & Hk & _).
  unfold sendMessage. apply wp_here. rewrite (tk_active _ _ _ _ _ Ht), Hp.
  unfold has_key. rewrite Hk, (bool_decide_true (is_Some _)) by eauto.
  rewrite (tk_open _ _ _ _ _ Ht). cbn [negb].
  apply (wp_quiet me p s _ _ _ 1 13 _ hush_now Ht). intros ts c1 Ht1.
  rewrite (tk_link _ _ _ _ _ Ht). cbn [negb].
  apply (wp_bind me p _ _ _ 2 11).
  destruct (encrypt_goes me p s t c1 Ht1 Hs) as (s1 & w & Hw & He).
  eapply wp_goes; [exact He|]. intros c2 Ht2. rewrite (tk_self _ _ _ _ _ Ht).
  destruct (rest_goes me p s s1 t ts w c2 Ht2 Hw) as (x & s2 & fs & rows & ks & Hg & Hx & ->).
  eapply wp_goes; [exact Hg|]. eexists. split; [exact Hx|]. by rewrite (left_id_L ∅ (∪)).
Qed.

(** The session an initiator makes for the first text. *)
Definition first_session (theirs : bytes) (i : nat) (b : CryptoBox) : RatchetSession :=
  bootstrap_session (m_privateKey b) (m_publicKey b) theirs (octets_at i 32).

Lemma meets_now me p mine theirs c :
  meets horizon me p mine theirs c → meets horizon me p mine theirs (now c).1.2.
Proof.
  intros [A1 A2 A3 A4 A5 A6 A7 A8 A9 A10 A11 A12 A13]. split; try done.
  intros i Hi. apply A13. change (S (ticks c) ≤ i < horizon) in Hi. lia.
Qed.

Lemma meets_session me p mine theirs rnd c :
  meets horizon me p mine theirs c →
  let s := bootstrap_session (m_privateKey (box c)) mine theirs rnd in
  sessionFor p rnd (box c) = Some (s, put_session p s (box c)).
Proof.
  intros Ht. destruct (mt_none _ _ _ _ _ _ Ht) as [Hn _].
  destruct (mt_theirs _ _ _ _ _ _ Ht) as [_ Hi]. destruct (mt_mine _ _ _ _ _ _ Ht) as [[Hl _] <-].
  unfold sessionFor. rewrite Hn, Hi, decide_False; [done|]. by apply len32_nonempty.
Qed.

Lemma put_again p s s' b : put_session p s' (put_session p s b) = put_session p s' b.
Proof. unfold put_session, set_ratchets. cbn. by rewrite insert_insert_eq. Qed.

(** The first text. *)
Lemma meets_send me p mine theirs t c :
  fresh_draws horizon → S (ticks c) < horizon →
  meets horizon me p mine theirs c → (memcmp mine theirs 32 < 0)%Z →
  wp me p (sendMessage t) c 14 (λ _ s2 fs rows ks,
    sent_text me p (first_session theirs (S (ticks c)) (box c)) t None s2 fs rows ∧ ks = ∅).
Proof.
  intros [Hlen Hinj] Hh Ht Hini. destruct (mt_names _ _ _ _ _ _ Ht) as [_ Hp%String.eqb_neq].
  destruct (mt_key _ _ _ _ _ _ Ht) as (key & Hk & _).
  unfold sendMessage. apply wp_here. rewrite (mt_active _ _ _ _ _ _ Ht), Hp.
  unfold has_key. rewrite Hk, (bool_decide_true (is_Some _)) by eauto.
  rewrite (mt_open _ _ _ _ _ _ Ht). cbn [negb].
  apply (wp_hush me p _ _ _ 1 13 _ hush_now). set (c1 := (now c).1.2).
  rewrite (mt_link _ _ _ _ _ _ Ht), (mt_self _ _ _ _ _ _ Ht). cbn [negb].
  pose proof (meets_now _ _ _ _ _ Ht : meets horizon me p mine theirs c1) as Ht1.
  pose proof (meets_session me p mine theirs (octets_at (ticks c1) 32) c1 Ht1) as Hs.
  set (s0 := bootstrap_session _ _ _ _) in Hs.
  assert (s0 = first_session theirs (S (ticks c)) (box c)) as E0.
  { unfold first_session. by rewrite (proj2 (mt_mine _ _ _ _ _ _ Ht)). }
  assert (DHs_pub s0 = drawn (S (ticks c)) ∧ CKs s0 ≠ []) as [Hpub Hcks].
  { unfold s0. rewrite bootstrap_session_role. rewrite (proj2 (Z.ltb_lt _ _) Hini).
    by apply initiator_session_pub, Hlen. }
  destruct (encrypt_into me p s0 t c1 (put_session p s0 (box c1))) as (s1 & w & Hw & Hlink & He);
    [exact Hs|intros; apply put_again|done| |].
  { intros s' Hs'. apply (meets_talking horizon 2 me p mine theirs); [done|].
    intros i Hi. rewrite Hs', Hpub. change (ticks c1) with (S (ticks c)) in Hi.
    intros E1%Hinj; lia. }
  apply (wp_bind_at me p _ _ c1 2 11 _ _ _ _ _ _ He).
  destruct (rest_goes me p s0 s1 t (now c).1.1 w (encrypt p t c1).1.2) as (x & s2 & fs & rows & ks & Hg & Hx & ->);
    [apply He|done|].
  eapply wp_goes; [exact Hg|]. cbn [app]. rewrite Hlink in Hx. change (link c1) with (link c) in Hx.
  rewrite (proj2 (mt_none _ _ _ _ _ _ Ht)), E0 in Hx. split; [done|by rewrite (left_id_L ∅ (∪))].
Qed.
End Writing.

(** ** Hearing *)
Section Hearing.
Context `{SodiumLaws} `{QtTextLaws} `{QDataStream} `{QHashOrder} `{QStringOrder} `{QTrim}.
Context `{Oracle} `{QFiles} (horizon : nat).

#[local] Abbreviation talking := (talking horizon).
#[local] Abbreviation goes := (goes horizon).
#[local] Abbreviation wp := (wp horizon).

(** A message read leaves the sending half of [r] as it is, or starts one anew under a key
    drawn in between. *)
Definition heard (r r' : RatchetSession) (lo hi : nat) : Prop :=
  DHs_pub r' = DHs_pub r ∧ Ns r' = Ns r ∨ ∃ i, (lo ≤ i < hi)%nat ∧ DHs_pub r' = drawn i.

Lemma written_key s t s' w : written s t s' w → frame_key w = key_for (DHs_pub s) (Ns s).
Proof.
  intros (nonce & _ & ->). unfold encryptStep, frame_key, key_for. by destruct (kdfCk (CKs s)).
Qed.

Lemma decrypt_goes me p n s t s' w r c :
  fresh_draws horizon → S (ticks c) < horizon →
  talking me p r c → written s t s' w →
  linked n s r → CKs s ≠ [] → (n + kMaxSkip < 2 ^ 32)%Z →
  ∃ r', linked (n + 1) s' r' ∧ CKs r' ≠ [] ∧ heard r r' (ticks c) (ticks c + 2) ∧
        goes me p (decrypt p w) c t r' 2 [] [] ∅.
Proof.
  intros [Hlen Hinj] Hh Ht (nonce & -> & ->) Hl Hs Hn.
  set (rnd := octets_at (S (ticks c)) 32).
  pose proof (linked_step n s r (toUtf8 t) nonce rnd Hl Hs Hn (Hlen _ Hh)
    (tk_draws _ _ _ _ _ Ht (S (ticks c)) ltac:(lia))) as Hd.
  destruct (encryptStep s (toUtf8 t) nonce) as [s1 f]. cbn [fst snd].
  destruct Hd as (r' & Hd & Hl' & _ & Hr' & _ & Hp).
  assert (heard r r' (ticks c) (ticks c + 2)) as Hheard.
  { destruct Hp as [Hp|Hp]; [by left|right]. exists (S (ticks c)). split; [lia|done]. }
  exists r'. split; [done|]. split; [done|]. split; [done|].
  assert (decryptFrom p (wire_of f) (octets_at (ticks c) 32) rnd (box c) =
    (Some t, put_session p r' (box c))) as He.
  { unfold decryptFrom, sessionFor. rewrite (tk_session _ _ _ _ _ Ht).
    cbn [wire_of w_cipher w_dh w_pn w_n w_nonce w_ct]. rewrite wire_roundtrip, Hd.
    by rewrite fromUtf8_toUtf8. }
  red. assert (decrypt p (wire_of f) c = (t,
    mkChat (set_crypto (put_session p r' (box c)) (client c))
      (gate c) (pcs c) (link c) (transfers c) (S (S (ticks c))), [])) as ->.
  { unfold decrypt, draw. rewrite !bind_eq. cbn [fst snd tick]. cbn [mret M_ret].
    unfold on_box, with_client. cbn. fold rnd. unfold box in He. by rewrite He. }
  destruct Ht as [A1 A2 A3 A4 A5 A6 A7 A8 A9].
  split; [done|]. cbn [fst snd].
  split; [|cbn; lia|done|by rewrite app_nil_r|by rewrite (left_id_L ∅ (∪))|done].
  split; try done; [apply lookup_insert_eq|]. cbn. intros i Hi.
  destruct Hp as [[-> _]| ->]; [apply A9; lia|]. intros E1%Hinj; [lia|lia|lia].
Qed.

Lemma ensure_goes me p s c :
  talking me p s c → goes me p (ensure_key p (key_of p c)) c () s 0 [] [] ∅.
Proof.
  intros Ht. destruct (tk_key _ _ _ _ _ Ht) as (k & Hk & Hl & Hi).
  assert (ensureSharedKey p (key_of p c) (box c) =
    (false, set_peers (<[p := unhexStr k]> (m_peerIdentity (box c))) (box c))) as He.
  { unfold ensureSharedKey, key_of. rewrite Hk. change (default "" (Some k)) with k.
    by rewrite Hl, Hi, bool_decide_true. }
  red. assert (ensure_key p (key_of p c) c =
    ((), set_client (set_crypto (set_peers (<[p := unhexStr k]> (m_peerIdentity (box c))) (box c))
                       (client c)) c, [])) as ->.
  { unfold ensure_key. rewrite bind_eq. unfold on_box, with_client.
    unfold box in He. rewrite He. done. }
  destruct Ht as [A1 A2 A3 A4 A5 A6 A7 A8 A9].
  split; [done|].
  split; [|cbn; lia|done|by rewrite app_nil_r|by rewrite (left_id_L ∅ (∪))|done].
  split; try done. exists k. cbn. by rewrite lookup_insert_eq.
Qed.

Lemma mark_goes me p s k c :
  talking me p s c → goes me p (mark_seen p k) c () s 0 [] [] {[k]}.
Proof.
  intros [A1 A2 A3 A4 A5 A6 A7 A8 A9]. split; [done|].
  split; [by split|cbn; lia|done|by rewrite app_nil_r| |done].
  unfold seen. cbn. by rewrite lookup_insert_eq.
Qed.

(** No pong is owed. *)
Lemma no_pong_goes me p s c :
  talking me p s c → p ∉ m_pongOwed (pcs c) → goes me p (sendOwedPongIfReady p) c () s 0 [] [] ∅.
Proof.
  intros Ht Hp. unfold sendOwedPongIfReady. apply goes_here.
  rewrite (bool_decide_false (p ∈ _)) by done. rewrite orb_true_r. by apply goes_ret.
Qed.

Lemma no_flush_goes me p s c : talking me p s c → goes me p flush_if_connected c () s 0 [] [] ∅.
Proof.
  intros Ht. unfold flush_if_connected. apply goes_here.
  rewrite (tk_queue _ _ _ _ _ Ht), bool_decide_true by done. rewrite andb_false_r. by apply goes_ret.
Qed.

(** The text of the contact is shown. *)
Lemma text_goes me p s t mid ts c :
  talking me p s c → goes me p (onText p p t mid ts) c () s 4 [] [text_row p t ts false mid] ∅.
Proof.
  intros Ht. unfold onText.
  refine (goes_quietly horizon me p _ _ c _ s s 0 4 _ _ _ (hush_peer_typing _ _) Ht (λ _ c1 Ht1, _)).
  refine (goes_quietly horizon me p _ _ c1 _ s s 1 3 _ _ _ (hush_seal t) Ht1 (λ sealed c2 Ht2, _)).
  refine (goes_quietly horizon me p _ _ c2 _ s s 1 2 _ _ _ _ Ht2 (λ _ c3 Ht3, _)).
  { destruct sealed as [[n ct]|]; [|eapply hush_le; [apply hush_ret|lia]].
    refine (hush_bind 1 0 _ _ (hush_store _) (λ _, hush_ret _)). }
  refine (goes_quietly horizon me p _ _ c3 _ s s 2 0 _ _ _ (hush_persist p) Ht3 (λ _ c4 Ht4, _)).
  apply goes_here. rewrite (tk_active _ _ _ _ _ Ht4), String.eqb_refl. cbn [negb when].
  replace (∅ : gset string) with (∅ ∪ ∅ : gset string) by set_solver.
  apply (goes_bind horizon me p _ _ c4 () () s s 0 0 [] [] [_] [] ∅ ∅); [by apply goes_row|].
  intros c5 Ht5 _ _. by apply goes_ret.
Qed.

Lemma talking_pcs me p s c x : talking me p s c → talking me p s (set_pcs x c).
Proof. intros [A1 A2 A3 A4 A5 A6 A7 A8 A9]. by split. Qed.

Lemma paid_back (p : string) (owed : gset string) : p ∉ owed → ({[p]} ∪ owed) ∖ {[p]} = owed.
Proof.
  intros Hp. apply set_eq. intros q.
  rewrite elem_of_difference, elem_of_union, elem_of_singleton.
  destruct (decide (q = p)) as [->|]; tauto.
Qed.

(** A pong that is owed is sent over the session, and the debt struck off. *)
Lemma owed_pong me p s c :
  talking me p s c → CKs s ≠ [] → p ∈ m_pongOwed (pcs c) →
  ∃ s' m c' ev, spoken me p "rekey-pong" s kRekeyPongSentinel s' m ∧
    went horizon me p c ev c' s' 5 [m] [] ∅ ∧
    sendOwedPongIfReady p c
    = ((), set_pcs (set_owed (m_pongOwed (pcs c') ∖ {[p]}) (pcs c')) c', ev).
Proof.
  intros Ht Hs Ho. destruct (tk_names _ _ _ _ _ Ht) as [_ Hp%String.eqb_neq].
  destruct (control_goes horizon me p s "rekey-pong" kRekeyPongSentinel (λ _, "") c Ht Hs)
    as (s' & m & Hm & E1 & Hw).
  set (t := transmit_control p "rekey-pong" kRekeyPongSentinel (λ _, "") c) in *.
  exists s', m, t.1.2, t.2. split; [done|]. split; [done|].
  unfold sendOwedPongIfReady. rewrite here_eq, Hp, (bool_decide_true (p ∈ _)) by done.
  rewrite (tk_link _ _ _ _ _ Ht). unfold has_session, hasSessionFor.
  rewrite (tk_session _ _ _ _ _ Ht), bool_decide_true by eauto. cbn [orb negb andb].
  rewrite bind_eq. unfold transmitRekey. rewrite here_eq. cbn [negb andb]. fold t. rewrite E1.
  cbn [when]. unfold on_pcs, modify. cbn [fst snd]. by rewrite app_nil_r.
Qed.

(** A ping is answered at once. *)
Lemma pong_goes me p s c :
  talking me p s c → CKs s ≠ [] → p ∉ m_pongOwed (pcs c) →
  ∃ s' m, spoken me p "rekey-pong" s kRekeyPongSentinel s' m ∧
          goes me p (onRekeyPing p) c () s' 7 [m] [] ∅.
Proof.
  intros Ht Hs Ho. set (c1 := (persist p c).1.2).
  destruct (quiet_talking horizon me p s 2 c (persist p c).2 c1 Ht (hush_persist p c))
    as [Ht1 Hk1 Hf1 Hr1 Hs1 Ho1].
  set (c2 := set_pcs (set_owed ({[p]} ∪ m_pongOwed (pcs c1)) (pcs c1)) c1).
  destruct (owed_pong me p s c2) as (s' & m & c3 & ev & Hm & [Ht3 Hk3 Hf3 Hr3 Hs3 Ho3] & E2);
    [by apply talking_pcs|done|by apply elem_of_union_l, elem_of_singleton|].
  exists s', m. split; [done|]. set (c4 := set_pcs _ c3) in E2.
  assert (m_pongOwed (pcs c4) = m_pongOwed (pcs c)) as Ho4.
  { cbn. rewrite Ho3. cbn. rewrite Ho1. by apply paid_back. }
  assert (onRekeyPing p c = ((), c4, (persist p c).2 ++ ev)) as E1.
  { unfold onRekeyPing. rewrite bind_eq. fold c1. rewrite bind_eq.
    assert (on_pcs (λ q, set_owed ({[p]} ∪ m_pongOwed q) q) c1 = ((), c2, [])) as -> by done.
    cbn [fst snd app]. rewrite bind_eq, E2. cbn [fst snd]. rewrite here_eq.
    rewrite (bool_decide_false (p ∈ m_pongOwed (pcs c4))) by (by rewrite Ho4).
    cbn. by rewrite app_nil_r. }
  red. rewrite E1. split; [done|]. cbn [fst snd].
  split; [by apply talking_pcs|cbn in *; lia|by rewrite frames_app, Hf1, Hf3| | |done].
  - change (m_messages (client c3) = m_messages (client c) ++ []). rewrite Hr3, app_nil_r. exact Hr1.
  - change (seen p c3 = ∅ ∪ seen p c). rewrite Hs3. change (seen p c2) with (seen p c1).
    rewrite Hs1. by rewrite !(left_id_L ∅ (∪)).
Qed.

(** What a client does with a message it has read. *)
Definition answers (me p kind t : string) (m : Msg) (r1 r2 : RatchetSession) (fs : list Msg)
    (rows : list MessageModel.Message) : Prop :=
  (kind = "" ∧ fs = [] ∧ r2 = r1 ∧ rows = [text_row p t (g_ts m) false (g_mid m)])
  ∨ (kind = "rekey-ping" ∧ rows = [] ∧
     ∃ pong, fs = [pong] ∧ spoken me p "rekey-pong" r1 kRekeyPongSentinel r2 pong)
  ∨ (kind = "rekey-pong" ∧ fs = [] ∧ r2 = r1 ∧ rows = []).

Definition known_kind (kind : string) : Prop :=
  kind = "" ∨ kind = "rekey-ping" ∨ kind = "rekey-pong".

Lemma deliver_goes me p s t s' kind m r c :
  talking me p r c → CKs r ≠ [] → p ∉ m_pongOwed (pcs c) → known_kind kind →
  spoken p me kind s t s' m →
  wp me p (deliver p m t) c 7 (λ _ r2 fs rows ks,
    answers me p kind t m r r2 fs rows ∧ ks = {[key_for (DHs_pub s) (Ns s)]}).
Proof.
  intros Ht Hr Ho Hk (Hfrom & _ & Hkind & Hedit & Hw). unfold deliver.
  rewrite (written_key _ _ _ _ Hw), Hkind, Hedit, Hfrom.
  apply (wp_bind_later horizon me p _ _ c 0 7). eapply wp_goes; [by apply mark_goes|].
  intros c1 Ht1 [_ Ho1].
  apply (wp_quiet_later horizon me p r _ _ c1 0 7 _ (hush_inbound p) Ht1). intros _ c2 Ht2 [_ Ho2].
  rewrite <- Ho1, <- Ho2 in Ho.
  assert (∀ b, goes me p (when b (sendOwedPongIfReady p)) c2 () r 0 [] [] ∅) as Hpong.
  { intros [|]; [by apply no_pong_goes|by apply goes_ret]. }
  apply (wp_bind_later horizon me p _ _ c2 0 7). eapply wp_goes; [apply Hpong|].
  intros c3 Ht3 [_ Ho3]. rewrite <- Ho3 in Ho.
  apply (wp_bind horizon me p _ _ c3 7 0). destruct Hk as [-> |[-> | ->]]; cbn [String.eqb Ascii.eqb Bool.eqb].
  - eapply wp_le; [eapply wp_goes; [by apply text_goes|]|lia]. intros c4 Ht4.
    eapply wp_goes; [by apply no_flush_goes|]. split; [by left|by rewrite !(left_id_L ∅ (∪))].
  - destruct (pong_goes me p r c3 Ht3 Hr Ho) as (s2 & pong & Hs2 & Hg).
    eapply wp_goes; [exact Hg|]. intros c4 Ht4. eapply wp_goes; [by apply no_flush_goes|].
    split; [right; left; by eauto|by rewrite !(left_id_L ∅ (∪))].
  - eapply wp_le; [eapply wp_goes; [apply goes_unit; [apply hush_persist|done]|]|lia].
    intros c4 Ht4. eapply wp_goes; [by apply no_flush_goes|]. split; [by right; right|by rewrite !(left_id_L ∅ (∪))].
Qed.

(** A message of a contact whose key is here is handed on as it is, where it opens no
    session or there is one. *)
Lemma onMsg_known me p m c :
  self c = me → me ≠ p → has_key p c = true → g_opener m = None ∨ has_session p c = true →
  g_from m = p → known_kind (g_kind m) → onMsg m c = receive_msg p m c.
Proof.
  intros Hme Hmp Hkey Hs Hfrom Hk.
  unfold onMsg. rewrite here_eq, Hme, Hfrom.
  rewrite (proj2 (String.eqb_neq p me)) by done. cbn [negb]. rewrite Hkey.
  assert (String.eqb (g_kind m) "handshake" = false) as -> by by destruct Hk as [-> |[-> | ->]].
  replace (match g_opener m with
           | Some o => if true && negb (has_session p c) then accept_opener p o else mret true
           | None => mret true
           end) with (mret true : M bool)
    by by destruct Hs as [-> | ->]; [|destruct (g_opener m)].
  do 2 (rewrite ret_eq; cbn [negb]). done.
Qed.

Lemma talking_known me p s m c :
  talking me p s c → g_from m = p → known_kind (g_kind m) → onMsg m c = receive_msg p m c.
Proof.
  intros Ht Hfrom Hk. destruct (tk_names _ _ _ _ _ Ht) as [Hmp _].
  destruct (tk_key _ _ _ _ _ Ht) as (key & Hkey & _).
  apply (onMsg_known me); [apply Ht|done| |right|done|done].
  - unfold has_key. rewrite Hkey. by apply bool_decide_eq_true_2.
  - unfold has_session, hasSessionFor. rewrite (tk_session _ _ _ _ _ Ht). by apply bool_decide_eq_true_2.
Qed.

(** The message arrives. *)
Lemma hear_goes me p n s t s' kind m r c :
  fresh_draws horizon → S (ticks c) < horizon →
  talking me p r c → p ∉ m_pongOwed (pcs c) → known_kind kind →
  spoken p me kind s t s' m → t ≠ "" →
  linked n s r → CKs s ≠ [] → (n + kMaxSkip < 2 ^ 32)%Z →
  key_for (DHs_pub s) (Ns s) ∉ seen p c →
  wp me p (run_client_op (Receive (FMsg m))) c 9 (λ _ r2 fs rows ks,
    ∃ r1, linked (n + 1) s' r1 ∧ CKs r1 ≠ [] ∧ heard r r1 (ticks c) (ticks c + 2) ∧
      answers me p kind t m r1 r2 fs rows ∧ ks = {[key_for (DHs_pub s) (Ns s)]}).
Proof.
  intros Hfresh Hh Ht Ho Hk Hm Hne Hl Hs Hn Hseen.
  destruct Hm as (Hfrom & Hto & Hkind & Hedit & Hw) eqn:Em. clear Em.
  apply (wp_same horizon me p (receive_msg p m)).
  { apply (talking_known me p r m c Ht Hfrom). by rewrite Hkind. }
  unfold receive_msg. apply wp_here. unfold already_seen.
  rewrite (written_key _ _ _ _ Hw), (bool_decide_false (_ ∈ _)) by exact Hseen.
  apply (wp_bind_later horizon me p _ _ c 0 9). eapply wp_goes; [by apply ensure_goes|].
  intros c1 Ht1 [Hk1 Ho1]. assert (ticks c1 = ticks c) as Ec by lia.
  destruct (decrypt_goes me p n s t s' (g_wire m) r c1 Hfresh ltac:(lia) Ht1 Hw Hl Hs Hn)
    as (r1 & Hl1 & Hr1 & Hheard & Hg).
  apply (wp_bind_later horizon me p _ _ c1 2 7). eapply wp_goes; [exact Hg|].
  intros c2 Ht2 [_ Ho2]. rewrite (proj2 (String.eqb_neq t "")) by done.
  rewrite Ec in Hheard. rewrite <- Ho1, <- Ho2 in Ho.
  destruct (deliver_goes me p s t s' kind m r1 c2 Ht2 Hr1 Ho Hk) as (x & r2 & fs & rows & ks & Hd & Ha & ->);
    [by split_and!|].
  exists x, r2, fs, rows, {[key_for (DHs_pub s) (Ns s)]}. split; [exact Hd|]. exists r1.
  split_and!; [done..|by rewrite !(right_id_L ∅ (∪))].
Qed.
(** ** The first text is heard *)

(** The session that answers it, whatever is drawn. *)
Definition answering_session (theirs : bytes) (b : CryptoBox) : RatchetSession :=
  responder_session (bootstrapSk (m_privateKey b) theirs) (m_privateKey b) (m_publicKey b).

Lemma answering_eq theirs b rnd :
  (0 ≤ memcmp (m_publicKey b) theirs 32)%Z →
  bootstrap_session (m_privateKey b) (m_publicKey b) theirs rnd = answering_session theirs b.
Proof.
  intros Hm. rewrite bootstrap_session_role. by rewrite (proj2 (Z.ltb_ge _ _) Hm).
Qed.

(** To decrypt makes the session first. *)
Lemma decrypt_first p w s c :
  (∀ rnd, sessionFor p rnd (box c) = Some (s, put_session p s (box c))) →
  decrypt p w c = decrypt p w (with_session 0 p s c).
Proof.
  intros Hs. unfold decrypt, draw. rewrite !bind_eq. cbn [fst snd tick].
  assert (∀ rnd rndR, decryptFrom p w rnd rndR (box c)
                      = decryptFrom p w rnd rndR (put_session p s (box c))) as Hd.
  { intros rnd rndR. unfold decryptFrom. rewrite Hs. unfold sessionFor at 1.
    rewrite put_session_lookup. destruct (decryptStep s _ rndR) as [[pt s']|]; [|done].
    by rewrite put_again. }
  cbn [mret M_ret]. unfold on_box, with_client. cbn. unfold box in Hd. by rewrite Hd.
Qed.

(** The key of the contact is where it was. *)
Definition seed_key (p : string) (theirs : bytes) (c : Chat) : Chat :=
  set_client (set_crypto (set_peers (<[p := theirs]> (m_peerIdentity (box c))) (box c)) (client c)) c.

Lemma ensure_eq p theirs c :
  length theirs = 32 → unhexStr (key_of p c) = theirs → m_peerIdentity (box c) !! p = Some theirs →
  ensure_key p (key_of p c) c = ((), seed_key p theirs c, []).
Proof.
  intros Hl Hk Hi. unfold ensure_key. rewrite bind_eq. unfold on_box, with_client.
  assert (ensureSharedKey p (key_of p c) (box c)
          = (false, set_peers (<[p := theirs]> (m_peerIdentity (box c))) (box c))) as He.
  { unfold ensureSharedKey. by rewrite Hk, Hl, Hi, bool_decide_true. }
  unfold box in He. by rewrite He.
Qed.

(** It is as if the session had been there. *)
Lemma meets_hears me p mine theirs m c :
  meets horizon me p mine theirs c → (0 ≤ memcmp mine theirs 32)%Z →
  g_from m = p → g_opener m = None → known_kind (g_kind m) →
  let s := answering_session theirs (box c) in
  run_client_op (Receive (FMsg m)) c = run_client_op (Receive (FMsg m)) (with_session 0 p s c).
Proof.
  intros Ht Hr Hfrom Hop Hk s. destruct (mt_names _ _ _ _ _ _ Ht) as [Hmp _].
  destruct (mt_key _ _ _ _ _ _ Ht) as (k & Hkey & Hu).
  destruct (mt_theirs _ _ _ _ _ _ Ht) as [Hl Hi].
  destruct (mt_mine _ _ _ _ _ _ Ht) as [[Hpriv _] <-]. destruct (mt_none _ _ _ _ _ _ Ht) as [Hn _].
  assert (has_key p c = true) as Hhas by (unfold has_key; rewrite Hkey; by apply bool_decide_eq_true_2).
  assert (unhexStr (key_of p c) = theirs) as Hu' by (unfold key_of; by rewrite Hkey).
  change (onMsg m c = onMsg m (with_session 0 p s c)).
  rewrite !(onMsg_known me p m) by (auto; apply Ht).
  unfold receive_msg. rewrite !here_eq.
  change (already_seen p (frame_key (g_wire m)) (with_session 0 p s c))
    with (already_seen p (frame_key (g_wire m)) c).
  assert (already_seen p (frame_key (g_wire m)) c = false) as ->.
  { unfold already_seen. pose proof (mt_seen _ _ _ _ _ _ Ht) as Hseen. unfold seen in Hseen.
    rewrite Hseen. by apply bool_decide_eq_false_2, not_elem_of_empty. }
  rewrite !bind_eq, (ensure_eq p theirs c Hl Hu' Hi).
  rewrite (ensure_eq p theirs (with_session 0 p s c) Hl Hu' Hi).
  change (seed_key p theirs (with_session 0 p s c)) with (with_session 0 p s (seed_key p theirs c)).
  cbn [fst snd]. rewrite (decrypt_first p (g_wire m) s (seed_key p theirs c)); [done|].
  intros rnd. unfold sessionFor. cbn [seed_key box client m_crypto set_client set_crypto].
  cbn. rewrite Hn, lookup_insert_eq, decide_False by by apply len32_nonempty.
  f_equal. f_equal; [by apply answering_eq|]. f_equal. by apply answering_eq.
Qed.
End Hearing.
