(* ===== verification/MeetFacts.v ===== *)
(** * From the first text to a whole conversation

    Two clients and a relay that hands every frame on: what the one sends is brought to
    the other, and what that one answers is brought back. *)

From S2P Require Import Prelude Platform Kdf Ratchet RatchetFacts Conversation X3dh.
From S2P Require Import X3dhFacts CryptoBox CryptoBoxFacts MessageModel UserModel.
From S2P Require Import HistoryStore Chat Messenger Rekey Sending Verification Inbound.
From S2P Require Import Receiving Effects TalkFacts.

Import ChatClient Messenger Rekey Sending Verification Inbound Receiving.

(** ** The relay between two clients *)
Section Relay.
Context `{SodiumLaws} `{QtTextLaws} `{QDataStream} `{QHashOrder} `{QStringOrder} `{QTrim}.
Context `{QFiles}.

(** One operation of a client that draws from [O], and the messages it sends. *)
Definition act (O : Oracle) (o : ClientOp) (c : Chat) : Chat * list Msg :=
  let r := run_client_op o c in (r.1.2, frames r.2).

(** Messages arrive one after the other. *)
Fixpoint hear_all (O : Oracle) (ms : list Msg) (c : Chat) : Chat * list Msg :=
  match ms with
  | [] => (c, [])
  | m :: rest =>
      let '(c1, back) := act O (Receive (FMsg m)) c in
      let '(c2, back') := hear_all O rest c1 in (c2, back ++ back')
  end.

(** What [x] has sent is brought to [y], what [y] answers to [x], and so on until nobody
    answers. *)
Fixpoint relay (fuel : nat) (Ox Oy : Oracle) (ms : list Msg) (x y : Chat) : option (Chat * Chat) :=
  match ms, fuel with
  | [], _ => Some (x, y)
  | _, O => None
  | _, S fuel' =>
      let '(y1, back) := hear_all Oy ms y in
      match relay fuel' Oy Ox back y1 x with
      | Some (y2, x1) => Some (x1, y2)
      | None => None
      end
  end.

(** The user of [x] writes [t]. *)
Definition say (Ox Oy : Oracle) (t : string) (x y : Chat) : option (Chat * Chat) :=
  let '(x1, ms) := act Ox (SendMessage t) x in relay 2 Ox Oy ms x1 y.

(** A script: who writes, [true] for the user of [x], and what. *)
Fixpoint talk (Ox Oy : Oracle) (script : list (bool * string)) (x y : Chat) : option (Chat * Chat) :=
  match script with
  | [] => Some (x, y)
  | (true, t) :: rest =>
      match say Ox Oy t x y with Some (x1, y1) => talk Ox Oy rest x1 y1 | None => None end
  | (false, t) :: rest =>
      match say Oy Ox t y x with Some (y1, x1) => talk Ox Oy rest x1 y1 | None => None end
  end.

(** None of the frames that [s], or a key drawn later, can give is in [S]. *)
Definition unheard (O : Oracle) (lo hi : nat) (s : RatchetSession) (S : gset string) : Prop :=
  (∀ n, (Ns s ≤ n)%Z → key_for (DHs_pub s) n ∉ S)
  ∧ ∀ i n, lo ≤ i < hi → key_for (drawn i) n ∉ S.

(** One side: in conversation over [s], which can write, and owing nothing. *)
Record side (O : Oracle) (horizon : nat) (me p : string) (s : RatchetSession) (c : Chat) : Prop := {
  sd_talking : talking horizon me p s c;
  sd_ready : CKs s ≠ [];
  sd_owed : p ∉ m_pongOwed (pcs c);
}.

(** Two clients in one conversation, with nothing in flight. *)
Record between (Ox Oy : Oracle) (horizon : nat) (a b : string) (n : Z) (sx sy : RatchetSession)
    (x y : Chat) : Prop := {
  bt_x : side Ox horizon a b sx x;
  bt_y : side Oy horizon b a sy y;
  bt_linked : linked n sx sy;
  bt_new_x : unheard Ox (ticks x) horizon sx (seen a y);
  bt_new_y : unheard Oy (ticks y) horizon sy (seen b x);
}.

Lemma between_sym Ox Oy horizon a b n sx sy x y :
  between Ox Oy horizon a b n sx sy x y → between Oy Ox horizon b a n sy sx y x.
Proof. intros []. split; [done..|by apply linked_sym|done|done]. Qed.

Lemma written_ns n s t s' w :
  (0 ≤ Ns s ≤ n)%Z → (n + 1 < 2 ^ 32)%Z → written s t s' w → Ns s' = (Ns s + 1)%Z.
Proof. intros Hs Hn (nonce & -> & _). by rewrite encryptStep_eq by lia. Qed.

Lemma unheard_written O lo hi lo' n s t s' w S :
  (0 ≤ Ns s ≤ n)%Z → (n + 1 < 2 ^ 32)%Z → written s t s' w → lo ≤ lo' →
  unheard O lo hi s S → unheard O lo' hi s' S.
Proof.
  intros Hs Hn Hw Hlo [A B]. pose proof (written_ns n s t s' w Hs Hn Hw).
  destruct (written_pub s t s' w Hw) as [Hp _]. split; [|intros; apply B; lia].
  intros k Hk. rewrite Hp. apply A. lia.
Qed.

Lemma unheard_heard O lo hi lo' k r r' S :
  heard r r' lo k → k ≤ hi → lo ≤ lo' → unheard O lo hi r S → unheard O lo' hi r' S.
Proof.
  intros Hh Hk Hlo [A B]. split; [|intros; apply B; lia]. intros n Hn.
  destruct Hh as [[-> E1]|(i & Hi & ->)]; [apply A; lia|apply B; lia].
Qed.

(** The frame that was heard is none of those to come. *)
Lemma unheard_seen O lo hi n s t s' w S :
  (0 ≤ Ns s ≤ n)%Z → (n + 1 < 2 ^ 32)%Z → written s t s' w →
  (∀ i, lo ≤ i < hi → drawn i ≠ DHs_pub s) →
  unheard O lo hi s S → unheard O lo hi s' ({[key_for (DHs_pub s) (Ns s)]} ∪ S).
Proof.
  intros Hs Hn Hw Hd Hu. pose proof (written_ns n s t s' w Hs Hn Hw).
  destruct (written_pub s t s' w Hw) as [Hp _].
  destruct (unheard_written O lo hi lo n s t s' w S Hs Hn Hw (Nat.le_refl _) Hu) as [A B].
  split.
  - intros k Hk [Hin|Hin]%elem_of_union; [|by apply (A k)].
    apply elem_of_singleton, key_for_inj in Hin. lia.
  - intros i k Hi [Hin|Hin]%elem_of_union; [|by apply (B i k)].
    apply elem_of_singleton, key_for_inj in Hin as [Hin _]. by apply (Hd i).
Qed.

(** What an operation leaves, and the messages it sends. *)
Lemma wp_act (O : Oracle) horizon me p o c k Q :
  wp horizon me p (run_client_op o) c k Q →
  ∃ c' s fs rows ks, act O o c = (c', fs) ∧ talking horizon me p s c' ∧
    (ticks c ≤ ticks c' ≤ ticks c + k)%nat ∧ m_pongOwed (pcs c') = m_pongOwed (pcs c) ∧
    m_messages (client c') = m_messages (client c) ++ rows ∧ seen p c' = ks ∪ seen p c ∧
    Q () s fs rows ks.
Proof.
  intros (x & s & fs & rows & ks & [_ [A1 A2 A3 A4 A5 A6]] & HQ). destruct x.
  exists (run_client_op o c).1.2, s, fs, rows, ks. unfold act. rewrite A3. split_and!; done || lia.
Qed.

Lemma answers_ready me p kind t m r1 r2 fs rows :
  answers me p kind t m r1 r2 fs rows → CKs r1 ≠ [] → CKs r2 ≠ [] ∧ DHs_pub r2 = DHs_pub r1.
Proof.
  intros [(_ & _ & -> & _)|[(_ & _ & pong & _ & Hp)|(_ & _ & -> & _)]] Hr; [done| |done].
  destruct Hp as (_ & _ & _ & _ & [Hp Hn]%written_pub). done.
Qed.

(** A message of the sender, over [s], comes to [c]; what the receiver may still send was
    unheard by the sender, who has seen [S]. *)
Lemma hear_one (Ox Oy : Oracle) horizon a b n s t s' kind m r y lo S :
  @fresh_draws _ Oy horizon → ticks y + 9 ≤ horizon → (n + kMaxSkip < 2 ^ 32)%Z → t ≠ "" →
  @talking _ _ Oy horizon b a r y → a ∉ m_pongOwed (pcs y) → known_kind kind →
  spoken a b kind s t s' m → linked n s r → CKs s ≠ [] → (0 ≤ Ns s ≤ n)%Z →
  (∀ i, lo ≤ i < horizon → @drawn _ Ox i ≠ DHs_pub s) →
  unheard Ox lo horizon s (seen a y) → unheard Oy (ticks y) horizon r S →
  ∃ y' r1 r2 fs rows, act Oy (Receive (FMsg m)) y = (y', fs) ∧
    side Oy horizon b a r2 y' ∧ (ticks y ≤ ticks y' ≤ ticks y + 9)%nat ∧
    m_messages (client y') = m_messages (client y) ++ rows ∧
    linked (n + 1) s' r1 ∧ CKs r1 ≠ [] ∧ answers b a kind t m r1 r2 fs rows ∧
    unheard Ox lo horizon s' (seen a y') ∧ unheard Oy (ticks y') horizon r1 S.
Proof.
  intros Hfresh Hh Hn Hne Ht Ho Hk Hm Hl Hs HNs Hd HuX HuY.
  destruct (wp_act Oy horizon b a _ y 9 _
              (hear_goes horizon b a n s t s' kind m r y Hfresh ltac:(lia) Ht Ho Hk Hm Hne Hl Hs
                 Hn ltac:(apply HuX; lia)))
    as (y' & r2 & fs & rows & ks & Ha & Ht' & Htk & Ho' & Hrows & Hseen & r1 & Hl1 & Hr1 & Hh1 & Hans & ->).
  exists y', r1, r2, fs, rows. destruct (answers_ready _ _ _ _ _ _ _ _ _ Hans Hr1) as [Hr2 _].
  split_and!; try done.
  - split; [done|done|by rewrite Ho'].
  - lia.
  - lia.
  - rewrite Hseen. destruct Hm as (_ & _ & _ & _ & Hw). unfold kMaxSkip in Hn.
    by apply (unheard_seen Ox lo horizon n s t s' (g_wire m)); [lia|lia|..].
  - eapply unheard_heard; [exact Hh1|lia|lia|done].
Qed.

Lemma linked_ns n s r : linked n s r → (0 ≤ Ns s ≤ n)%Z.
Proof. by intros [Ht|Ht]; apply Ht. Qed.

Lemma linked_le n n' s r : linked n s r → (n ≤ n')%Z → linked n' s r.
Proof.
  assert (∀ q, counters_le n q → (n ≤ n')%Z → counters_le n' q) as Hc
    by (unfold counters_le; intros q; lia).
  intros [[]|[]] Hn; [left|right]; split; auto.
Qed.

(** The user of [x] has written: the message, and perhaps a ping, have left; the row is
    shown. *)
Definition spoke Ox horizon a b s t pending (x x1 : Chat) (m : Msg) (s1 s2 : RatchetSession)
    (pings : list Msg) : Prop :=
  act Ox (SendMessage t) x = (x1, m :: pings) ∧
  side Ox horizon a b s2 x1 ∧ (ticks x ≤ ticks x1 ≤ ticks x + 14)%nat ∧
  m_messages (client x1) = m_messages (client x) ++ [text_row a t (g_ts m) true (g_mid m)] ∧
  seen b x1 = seen b x ∧ spoken a b "" s t s1 m ∧
  maybe a b "rekey-ping" kRekeyPingSentinel s1 s2 pings ∧
  (pending = @None X3dhHeader → g_opener m = None).

Lemma spoke_sent Ox horizon a b s t pending x :
  b ∉ m_pongOwed (pcs x) →
  @wp _ _ Ox horizon _ a b (sendMessage t) x 14
    (λ _ s2 fs rows ks, sent_text a b s t pending s2 fs rows ∧ ks = ∅) →
  ∃ x1 m s1 s2 pings, spoke Ox horizon a b s t pending x x1 m s1 s2 pings.
Proof.
  intros Ho Hw.
  destruct (wp_act Ox horizon a b (SendMessage t) x 14 _ Hw)
    as (x1 & s2 & fs & rows & ks & Ha & Ht1 & Htk & Ho1 & Hr & Hseen &
        (m & s1 & pings & -> & Hm & Hp & -> & Hop) & ->).
  exists x1, m, s1, s2, pings. unfold spoke.
  rewrite Hseen, (left_id_L ∅ (∪)). split_and!; try done; try lia.
  split; [done| |by rewrite Ho1]. destruct Hm as (_ & _ & _ & _ & [_ Hc1]%written_pub).
  destruct Hp as [[_ ->]|(q & _ & _ & _ & _ & _ & [_ Hc2]%written_pub)]; done.
Qed.

Lemma speak Ox horizon a b s t x :
  side Ox horizon a b s x →
  ∃ pending x1 m s1 s2 pings, spoke Ox horizon a b s t pending x x1 m s1 s2 pings.
Proof.
  intros [Ht Hs Ho].
  destruct (send_goes horizon a b s t x Ht Hs) as (u & s2 & fs & rows & ks & Hg & pending & Hq).
  exists pending. apply spoke_sent; [done|]. by exists u, s2, fs, rows, ks.
Qed.

(** A ping in flight is answered, and the answer read. *)
Lemma ping_round Ox Oy horizon a b n s1 s2 r1 ping x y :
  @fresh_draws _ Ox horizon → @fresh_draws _ Oy horizon →
  ticks x + 9 ≤ horizon → ticks y + 9 ≤ horizon → (n + 1 + kMaxSkip < 2 ^ 32)%Z →
  spoken a b "rekey-ping" s1 kRekeyPingSentinel s2 ping → CKs s1 ≠ [] →
  side Ox horizon a b s2 x → side Oy horizon b a r1 y → linked n s1 r1 →
  unheard Ox (ticks x) horizon s1 (seen a y) → unheard Oy (ticks y) horizon r1 (seen b x) →
  ∃ x' y' s3 r2 pong, act Oy (Receive (FMsg ping)) y = (y', [pong]) ∧
    act Ox (Receive (FMsg pong)) x = (x', []) ∧ between Ox Oy horizon a b (n + 2) s3 r2 x' y' ∧
    ticks x' ≤ ticks x + 9 ∧ ticks y' ≤ ticks y + 9 ∧
    m_messages (client x') = m_messages (client x) ∧ m_messages (client y') = m_messages (client y).
Proof.
  intros HfX HfY HhX HhY Hn Hping Hs1 HX HY Hl HuX HuY. pose proof (linked_ns _ _ _ Hl) as HNs.
  destruct (written_pub s1 kRekeyPingSentinel s2 (g_wire ping)) as [Hpub _]; [by apply Hping|].
  destruct (hear_one Ox Oy horizon a b n s1 kRekeyPingSentinel s2 "rekey-ping" ping r1 y (ticks x)
              (seen b x) HfY HhY ltac:(lia) ltac:(done) (sd_talking _ _ _ _ _ _ HY)
              (sd_owed _ _ _ _ _ _ HY) ltac:(by right; left) Hping Hl Hs1 HNs)
    as (y' & q1 & r2 & fs & rows & Hy & HY' & Hty & Hry & Hl1 & Hq1 & Hans & HuX1 & HuY1);
    [by rewrite <- Hpub; apply HX|done..|].
  destruct Hans as [(? & _)|[(_ & -> & pong & -> & Hpong)|(? & _)]]; [done| |done].
  pose proof (linked_sym _ _ _ Hl1) as Hl2. pose proof (linked_ns _ _ _ Hl2) as HNq.
  destruct (written_pub q1 kRekeyPongSentinel r2 (g_wire pong)) as [Hpub2 _]; [by apply Hpong|].
  destruct (hear_one Oy Ox horizon b a (n + 1) q1 kRekeyPongSentinel r2 "rekey-pong" pong s2 x (ticks y')
              (seen a y') HfX HhX ltac:(lia) ltac:(done) (sd_talking _ _ _ _ _ _ HX)
              (sd_owed _ _ _ _ _ _ HX) ltac:(by right; right) Hpong Hl2 Hq1 HNq)
    as (x' & s3 & s3' & fs & rows & Hx & HX' & Htx & Hrx & Hl3 & _ & Hans & HuY2 & HuX2);
    [by rewrite <- Hpub2; apply HY'|done..|].
  destruct Hans as [(? & _)|[(? & _)|(_ & -> & -> & ->)]]; [done..|].
  exists x', y', s3, r2, pong. rewrite !app_nil_r in *. split_and!; try done; try lia.
  split; [done..| |done|done].
  replace (n + 2)%Z with (n + 1 + 1)%Z by lia. by apply linked_sym.
Qed.

(** What was written is brought to the other side, with the ping and its answer. *)
Lemma delivered Ox Oy horizon a b n s t pending x x1 m s1 s2 pings r y :
  @fresh_draws _ Ox horizon → @fresh_draws _ Oy horizon →
  ticks x + 32 ≤ horizon → ticks y + 32 ≤ horizon → (n + 3 + kMaxSkip < 2 ^ 32)%Z → t ≠ "" →
  spoke Ox horizon a b s t pending x x1 m s1 s2 pings → CKs s ≠ [] →
  @talking _ _ Oy horizon b a r y → a ∉ m_pongOwed (pcs y) → linked n s r →
  unheard Ox (ticks x) horizon s (seen a y) → unheard Oy (ticks y) horizon r (seen b x) →
  ∃ x' y' sx' sy' ts mid, relay 2 Ox Oy (m :: pings) x1 y = Some (x', y') ∧
    between Ox Oy horizon a b (n + 3) sx' sy' x' y' ∧
    ticks x' ≤ ticks x + 32 ∧ ticks y' ≤ ticks y + 32 ∧
    m_messages (client x') = m_messages (client x) ++ [text_row a t ts true mid] ∧
    m_messages (client y') = m_messages (client y) ++ [text_row a t ts false mid].
Proof.
  intros HfX HfY HhX HhY Hn Hne (_ & HX1 & Htx & Hrx & Hsx & Hm & Hp & _) Hs Hy0 Ho Hl HuX HuY.
  pose proof (linked_ns _ _ _ Hl) as HNs. assert (written s t s1 (g_wire m)) as Hw by apply Hm.
  destruct (written_pub _ _ _ _ Hw) as [Hpub Hs1].
  assert (DHs_pub s2 = DHs_pub s) as Hpub2.
  { rewrite <- Hpub. by destruct Hp as [[_ ->]|(q & _ & _ & _ & _ & _ & [? _]%written_pub)]. }
  assert (unheard Ox (ticks x1) horizon s (seen a y)) as HuX0.
  { destruct HuX as [A B]. split; [done|]. intros i k Hi. apply B. lia. }
  destruct (hear_one Ox Oy horizon a b n s t s1 "" m r y (ticks x1) (seen b x1)
              HfY ltac:(lia) ltac:(lia) Hne Hy0 Ho ltac:(by left) Hm Hl Hs HNs)
    as (y1 & r1 & r1' & fs & rows & Hy & HY1 & Hty & Hry & Hl1 & _ & Hans & HuX1 & HuY1);
    [by rewrite <- Hpub2; apply HX1|done|by rewrite Hsx|].
  destruct Hans as [(_ & -> & -> & ->)|[(? & _)|(? & _)]]; [|done..].
  destruct Hp as [[-> ->]|(ping & -> & Hping)].
  - exists x1, y1, s1, r1, (g_ts m), (g_mid m). cbn [relay hear_all]. rewrite Hy. cbn [app relay].
    split_and!; try done; try lia. split; try done. apply (linked_le (n + 1)); [done|lia].
  - destruct (ping_round Ox Oy horizon a b (n + 1) s1 s2 r1 ping x1 y1)
      as (x' & y' & s3 & r2 & pong & Hy2 & Hx2 & Hb & Htx2 & Hty2 & Hrx2 & Hry2); try done; try lia.
    exists x', y', s3, r2, (g_ts m), (g_mid m). cbn [relay hear_all]. rewrite Hy, Hy2.
    cbn [app relay hear_all]. rewrite Hx2. cbn [app relay].
    rewrite Hrx2, Hry2. split_and!; try done; try lia. by replace (n + 3)%Z with (n + 1 + 2)%Z by lia.
Qed.

(** What a text does, whoever writes it. *)
Definition exchanged Ox Oy horizon a b n t x y : Prop :=
  ∃ x' y' sx' sy' ts mid, say Ox Oy t x y = Some (x', y') ∧
    between Ox Oy horizon a b (n + 3) sx' sy' x' y' ∧
    ticks x' ≤ ticks x + 32 ∧ ticks y' ≤ ticks y + 32 ∧
    m_messages (client x') = m_messages (client x) ++ [text_row a t ts true mid] ∧
    m_messages (client y') = m_messages (client y) ++ [text_row a t ts false mid].

(** One message of the script. *)
Lemma said Ox Oy horizon a b n sx sy x y t :
  @fresh_draws _ Ox horizon → @fresh_draws _ Oy horizon →
  ticks x + 32 ≤ horizon → ticks y + 32 ≤ horizon → (n + 3 + kMaxSkip < 2 ^ 32)%Z → t ≠ "" →
  between Ox Oy horizon a b n sx sy x y → exchanged Ox Oy horizon a b n t x y.
Proof.
  intros HfX HfY HhX HhY Hn Hne [HX [HY _ Ho] Hl HuX HuY].
  destruct (speak Ox horizon a b sx t x HX) as (pending & x1 & m & s1 & s2 & pings & Hsp).
  pose proof (delivered Ox Oy horizon a b n sx t pending x x1 m s1 s2 pings sy y HfX HfY HhX HhY
                Hn Hne Hsp ltac:(apply HX) HY Ho Hl HuX HuY) as Hd.
  unfold exchanged, say. destruct Hsp as [-> _]. exact Hd.
Qed.

(** The first message of all. *)
Lemma first_said Ox Oy horizon a b ka kb x y t :
  @fresh_draws _ Ox horizon → @fresh_draws _ Oy horizon →
  ticks x + 32 ≤ horizon → ticks y + 32 ≤ horizon → t ≠ "" →
  @meets _ _ Ox horizon a b ka kb x → @meets _ _ Oy horizon b a kb ka y → (memcmp ka kb 32 < 0)%Z →
  exchanged Ox Oy horizon a b 0 t x y.
Proof.
  intros HfX HfY HhX HhY Hne HX HY Hm. destruct (mt_mine _ _ _ _ _ _ HX) as [HkX EkX].
  destruct (mt_mine _ _ _ _ _ _ HY) as [HkY EkY].
  set (s := @first_session _ Ox kb (S (ticks x)) (box x)). set (r := answering_session ka (box y)).
  assert (ka ≠ kb) as Hab.
  { intros Heq. pose proof (has_keys_pub_length _ HkX) as Hlen. rewrite EkX in Hlen.
    apply (memcmp_eq ka kb 32) in Heq; [lia|done|by rewrite <- Heq]. }
  assert (linked 0 s r) as Hl.
  { pose proof (bootstrap_linked (box x) (box y) (@octets_at Ox (S (ticks x)) 32) (zeros 32) HkX HkY) as Hl.
    rewrite EkX, EkY in Hl. unfold s, r, first_session. rewrite EkX.
    rewrite <- (answering_eq ka (box y) (zeros 32)), EkY; [apply Hl; [done|apply (proj1 HfX); lia|done]|].
    rewrite EkY, memcmp_antisym. lia. }
  assert (DHs_pub s = @drawn _ Ox (S (ticks x)) ∧ CKs s ≠ []) as [Hps Hcs].
  { unfold s, first_session. rewrite EkX, bootstrap_session_role, (proj2 (Z.ltb_lt _ _) Hm).
    apply initiator_session_pub, (proj1 HfX). lia. }
  destruct (spoke_sent Ox horizon a b s t None x (mt_owed _ _ _ _ _ _ HX)
              (meets_send horizon a b ka kb t x HfX ltac:(lia) HX Hm))
    as (x1 & m & s1 & s2 & pings & Hsp).
  assert (@talking _ _ Oy horizon b a r (with_session 0 a r y)) as HYt.
  { apply (meets_talking horizon 0 b a kb ka); [done|]. intros i Hi. cbn [r answering_session].
    change (DHs_pub r) with (m_publicKey (box y)). rewrite EkY. by apply HY. }
  assert (relay 2 Ox Oy (m :: pings) x1 y = relay 2 Ox Oy (m :: pings) x1 (with_session 0 a r y)) as Hr.
  { assert (act Oy (Receive (FMsg m)) y = act Oy (Receive (FMsg m)) (with_session 0 a r y)) as Ha.
    { unfold act. destruct Hsp as (_ & _ & _ & _ & _ & (Hf & _ & Hk & _) & _ & Ho).
      rewrite (meets_hears horizon b a kb ka m y HY); [done| |done|by apply Ho|by left].
      rewrite memcmp_antisym. lia. }
    cbn [relay hear_all]. by rewrite Ha. }
  pose proof (delivered Ox Oy horizon a b 0 s t None x x1 m s1 s2 pings r (with_session 0 a r y)
                HfX HfY HhX HhY ltac:(unfold kMaxSkip; lia) Hne Hsp Hcs HYt
                (mt_owed _ _ _ _ _ _ HY) Hl) as Hd.
  unfold exchanged, say. rewrite (proj1 Hsp), Hr. apply Hd.
  - change (seen a (with_session 0 a r y)) with (seen a y). rewrite (mt_seen _ _ _ _ _ _ HY).
    by split; intros; apply not_elem_of_empty.
  - rewrite (mt_seen _ _ _ _ _ _ HX). by split; intros; apply not_elem_of_empty.
Qed.

(** ** A whole conversation *)

(** What was said: by whom, the words, the time and the id of the message. *)
Definition Line : Type := (string * string) * (Z * string).

Definition words (a b : string) (script : list (bool * string)) : list (string * string) :=
  map (λ l, (if l.1 : bool then a else b, l.2)) script.

(** The rows that [me] is shown for it. *)
Definition shown (me : string) (log : list Line) : list MessageModel.Message :=
  map (λ l : Line, text_row l.1.1 l.1.2 l.2.1 (String.eqb l.1.1 me) l.2.2) log.

(** Both screens show more of the conversation. *)
Definition shows_more (a b : string) (script : list (bool * string)) (x y x' y' : Chat) : Prop :=
  ∃ log, map fst log = words a b script ∧
    m_messages (client x') = m_messages (client x) ++ shown a log ∧
    m_messages (client y') = m_messages (client y) ++ shown b log.

Lemma shows_line a b first t ts mid script x y x1 y1 x' y' :
  a ≠ b → let who := if first : bool then a else b in
  m_messages (client x1) = m_messages (client x) ++ [text_row who t ts first mid] →
  m_messages (client y1) = m_messages (client y) ++ [text_row who t ts (negb first) mid] →
  shows_more a b script x1 y1 x' y' → shows_more a b ((first, t) :: script) x y x' y'.
Proof.
  intros Hab who Hx1 Hy1 (log & Hlog & Hx & Hy). exists ((who, t, (ts, mid)) :: log).
  split; [cbn; by rewrite Hlog|].
  rewrite Hx, Hy, Hx1, Hy1, <- !app_assoc. unfold who.
  destruct first; cbn; by rewrite ?String.eqb_refl, ?(proj2 (String.eqb_neq a b)),
    ?(proj2 (String.eqb_neq b a)).
Qed.

Lemma conversation_goes_on Ox Oy horizon a b (script : list (bool * string)) n sx sy x y :
  @fresh_draws _ Ox horizon → @fresh_draws _ Oy horizon →
  Forall (λ l, l.2 ≠ "") script →
  ticks x + 32 * length script ≤ horizon → ticks y + 32 * length script ≤ horizon →
  (n + 3 * Z.of_nat (length script) + kMaxSkip < 2 ^ 32)%Z →
  between Ox Oy horizon a b n sx sy x y →
  ∃ x' y', talk Ox Oy script x y = Some (x', y') ∧ shows_more a b script x y x' y'.
Proof.
  intros HfX HfY. revert n sx sy x y.
  induction script as [|[first t] script IH]; intros n sx sy x y Ht HhX HhY Hn Hb.
  { exists x, y. split; [done|]. exists []. by rewrite !app_nil_r. }
  apply Forall_cons in Ht as [Hne Ht]. cbn [length snd] in *.
  assert (a ≠ b) as Hab by apply Hb.
  destruct first.
  - destruct (said Ox Oy horizon a b n sx sy x y t)
      as (x1 & y1 & sx1 & sy1 & ts & mid & Hs & Hb1 & Htx & Hty & Hrx & Hry); try done; try lia.
    destruct (IH (n + 3)%Z sx1 sy1 x1 y1) as (x' & y' & Hrun & Hmore); try done; try lia.
    exists x', y'. cbn [talk]. rewrite Hs. split; [done|]. by eapply (shows_line a b true).
  - destruct (said Oy Ox horizon b a n sy sx y x t)
      as (y1 & x1 & sy1 & sx1 & ts & mid & Hs & Hb1 & Hty & Htx & Hry & Hrx);
      [done|done|lia|lia|lia|done|by apply between_sym|].
    destruct (IH (n + 3)%Z sx1 sy1 x1 y1) as (x' & y' & Hrun & Hmore);
      [done|lia|lia|lia|by apply between_sym|].
    exists x', y'. cbn [talk]. rewrite Hs. split; [done|]. by eapply (shows_line a b false).
Qed.

(** C1: Two users who have each other's keys and have never spoken converse: whatever they
    write, the one whose client opens sessions first, in whatever order after that, each
    screen shows every line of both, once and in the order written, with the same author,
    words, time and id. *)
Theorem conversation_shown Ox Oy horizon a b ka kb t (script : list (bool * string)) x y :
  @fresh_draws _ Ox horizon → @fresh_draws _ Oy horizon →
  Forall (λ l, l.2 ≠ "") ((true, t) :: script) →
  ticks x + 32 * (1 + length script) ≤ horizon → ticks y + 32 * (1 + length script) ≤ horizon →
  (3 * (1 + Z.of_nat (length script)) + kMaxSkip < 2 ^ 32)%Z →
  @meets _ _ Ox horizon a b ka kb x → @meets _ _ Oy horizon b a kb ka y → (memcmp ka kb 32 < 0)%Z →
  ∃ x' y' log, talk Ox Oy ((true, t) :: script) x y = Some (x', y') ∧
    map fst log = words a b ((true, t) :: script) ∧
    m_messages (client x') = m_messages (client x) ++ shown a log ∧
    m_messages (client y') = m_messages (client y) ++ shown b log.
Proof.
  intros HfX HfY Hs HhX HhY Hn HX HY Hm. apply Forall_cons in Hs as [Hne Hs].
  destruct (first_said Ox Oy horizon a b ka kb x y t)
    as (x1 & y1 & sx1 & sy1 & ts & mid & Hsay & Hb & Htx & Hty & Hrx & Hry); try done; try lia.
  destruct (conversation_goes_on Ox Oy horizon a b script 3 sx1 sy1 x1 y1)
    as (x' & y' & Hrun & Hmore); try done; try lia.
  assert (a ≠ b) as Hab by apply HX.
  destruct (shows_line a b true t ts mid script x y x1 y1 x' y' Hab Hrx Hry Hmore) as (log & Hlog).
  exists x', y', log. cbn [talk]. by rewrite Hsay.
Qed.
End Relay.
