(* ===== verification/Samples.v ===== *)
(** * Sample data for the concrete runs

    What the files of witnesses share: the tactic that evaluates a closed goal, one
    stored session, and concrete settings, dates and data protection. *)

From S2P Require Import Prelude Platform Settings AppLock Recovery.
From S2P Require Import Kdf Ratchet RatchetFacts Conversation X3dh.
From S2P Require Import X3dhFacts Toy CryptoBox CryptoBoxFacts Persist PersistFacts.

(** Evaluate a closed goal; a decidable one through its decision procedure. *)
Ltac run :=
  first
    [ by vm_compute
    | by (apply (bool_decide_unpack _); vm_compute; exact I)
    | done
    | by (vm_compute; split_and!)
    | by (vm_compute; repeat split; intros; discriminate) ].

#[export] Instance fresh_script_dec used evs : Decision (fresh_script used evs).
Proof. revert used. induction evs as [|e evs IH]; intros used; cbn; apply _. Defined.

(** The initiator's side of a conversation that has not begun. *)
Definition talk_s : RatchetSession :=
  initiator_session (toy_key 80) (toy_base (toy_key 81)) (toy_key 82).

Lemma talk_s_storable : session_storable talk_s.
Proof.
  split; [by repeat constructor; vm_compute|by repeat constructor; vm_compute|].
  apply map_Forall_empty.
Qed.

(** ** Settings, dates and data protection *)
#[export] Instance toy_casts : QVariantCasts := {
  cast_bool v := match v with VInt n => negb (n =? 0)%Z | _ => false end;
  cast_int v := match v with VBool b => if b then 1%Z else 0%Z | _ => 0%Z end;
  cast_text v := match v with VBytes b => fromUtf8 b | _ => "" end;
  cast_bytes v := match v with VText t => toUtf8 t | _ => [] end;
}.

(** A wrapped secret is the secret behind one octet. *)
#[export] Instance toy_dpapi : AppLock.Dpapi := {
  AppLock.crypt32_ok := true;
  AppLock.CryptProtectData p := Some (Byte.x5a :: p);
  AppLock.CryptUnprotectData w := Some (tail w);
}.

#[export] Instance toy_dpapi_laws : AppLock.DpapiLaws.
Proof. split. by intros p w [= <-]. Qed.

Definition toy_number (s : string) : Z :=
  fold_left (λ a c, (a * 10 + Z.of_N (Ascii.N_of_ascii c) - 48)%Z)
    (String.list_ascii_of_string s) 0%Z.

Fixpoint toy_digits (n : nat) (z : Z) : string :=
  match n with
  | O => ""
  | S m => toy_digits m (z / 10) +:+ String (Ascii.ascii_of_N (Z.to_N (48 + z mod 10))) ""
  end.

(** The ISO format only. *)
#[export] Instance toy_dates : QDates := {
  date_from f t :=
    if String.eqb f "yyyy-MM-dd" && (String.length t =? 10)%nat
    then Some (toy_number (String.substring 0 4 t), toy_number (String.substring 5 2 t),
               toy_number (String.substring 8 2 t))
    else None;
  iso_text d := toy_digits 4 d.1.1 +:+ "-" +:+ toy_digits 2 d.1.2 +:+ "-" +:+ toy_digits 2 d.2;
}.
