(* ===== verification/WitnessesCrypto.v ===== *)
(** * Concrete runs: cryptography

    For each property with hypotheses, one run of it: the platform is the one of
    [Toy.v], the keys are [toy_key n], and every hypothesis is discharged there by
    evaluation. *)

From Stdlib Require Import Strings.Ascii.
From S2P Require Import Prelude VectorsCheck Platform Kdf Ratchet RatchetFacts.
From S2P Require Import Conversation Reorder.
From S2P Require Import X3dh X3dhFacts Toy CryptoBox CryptoBoxFacts PrekeyFacts.
From S2P Require Import OpenerFacts Samples.

(** ** Boxes of two friends *)
Definition a_box : CryptoBox := generateIdentity (toy_key 1) newBox.
Definition b_box : CryptoBox :=
  default newBox
    (generatePrekeys 2 (toy_key 9) (λ i, toy_key (20 + Z.of_nat i)) 1000
       (generateIdentity (toy_key 3) newBox)).

Lemma a_box_identity : identity_ok a_box.
Proof. split; by_run. Qed.

Lemma b_box_identity : identity_ok b_box.
Proof. split; by_run. Qed.

Lemma b_box_prekeys : prekeys_ok b_box.
Proof. split; by_run. Qed.

(** What they write: who, what, the nonce, and the ratchet key the reader draws. *)
Definition talk : list Event :=
  [ mkEvent false "are you there?" (toy_key 40) (toy_key 50);
    mkEvent true "hello" (toy_key 41) (toy_key 51);
    mkEvent true "how are you" (toy_key 42) (toy_key 52);
    mkEvent false "fine" (toy_key 43) (toy_key 53);
    mkEvent true "good" (toy_key 44) (toy_key 54) ].

Lemma x3dh_conversation_witness :
  ∃ ikA ekA a' b',
    beginX3dhSession "bob" (m_edPublicKey b_box) (m_spkPub b_box) (m_spkSig b_box)
      (opk_public (toy_key 21)) 1 (toy_key 30) (toy_key 31) a_box = Some (ikA, ekA, 1%Z, a') ∧
    acceptX3dhSession "alice" ikA ekA 1 (m_spkPub b_box) b_box = (true, b') ∧
    m_opkPriv b' = (if decide (toy_key 21 = []) then m_opkPriv b_box
                    else delete 1%Z (m_opkPriv b_box)) ∧
    converse "alice" "bob" talk a' b' = expected true false talk.
Proof.
  apply (x3dh_conversation "alice" "bob" a_box b_box (toy_key 21) 1).
  - apply a_box_identity.
  - apply b_box_identity.
  - apply b_box_prekeys.
  - right. run.
  - run.
  - run.
  - run.
  - run.
Defined.

(** A replacement set of prekeys, and a rotation. *)
Lemma generatePrekeys_replaces_pool_witness :
  ∃ b', generatePrekeys 3 (toy_key 60) (λ i, toy_key (70 + Z.of_nat i)) 2000 b_box = Some b' ∧
    identity_ok b' ∧ prekeys_ok b' ∧
    X3DH.verify (m_edPublicKey b') (m_spkPub b') (m_spkSig b') = true ∧
    (∀ id, (2 ≤ id < 2 + 3)%Z → ∃ k, offered b' k id ∧ k ≠ []) ∧
    ∀ id peer ikA ekA spkUsed, (0 ≤ id < 2)%Z →
      acceptX3dhSession peer ikA ekA id spkUsed b' = (false, b').
Proof.
  apply (generatePrekeys_replaces_pool 3 (toy_key 60) (λ i, toy_key (70 + Z.of_nat i)) 2000 b_box);
    [apply b_box_identity|run..].
Defined.

Definition rotated_box : CryptoBox := (rotateSignedPrekeyIfDue 500 2000 (toy_key 61) 2000 b_box).2.

Lemma rotation_keeps_openers_witness :
  (acceptX3dhSession "alice" (m_edPublicKey a_box) (toy_base (toy_key 30)) 1 (m_spkPub b_box)
     rotated_box).1 = true ∧
  (dropExpiredPreviousPrekey 10 5000 rotated_box).1 = true ∧
  acceptX3dhSession "alice" (m_edPublicKey a_box) (toy_base (toy_key 30)) 1 (m_spkPub b_box)
    (dropExpiredPreviousPrekey 10 5000 rotated_box).2
  = (false, (dropExpiredPreviousPrekey 10 5000 rotated_box).2).
Proof.
  destruct (rotation_keeps_openers 500 2000 (toy_key 61) 2000 b_box rotated_box "alice"
    (m_edPublicKey a_box) (toy_base (toy_key 30)) 1 10 5000
    (dropExpiredPreviousPrekey 10 5000 rotated_box).2) as (Hacc & _ & Hdrop);
    [apply b_box_identity|apply b_box_prekeys|run..|].
  split; [by rewrite Hacc; vm_compute|]. split; [by_run|].
  apply Hdrop. by_run.
Defined.

Definition opened_box : CryptoBox :=
  (acceptX3dhSession "alice" (m_edPublicKey a_box) (toy_base (toy_key 30)) 1 [] b_box).2.

Lemma opk_single_use_witness :
  acceptX3dhSession "mallory" (m_edPublicKey a_box) (toy_base (toy_key 30)) 1 [] opened_box
  = (false, opened_box).
Proof.
  apply (opk_single_use "alice" (m_edPublicKey a_box) (toy_base (toy_key 30)) 1 [] b_box); run.
Defined.

Lemma x3dh_agreement_witness :
  ∃ r, X3DH.initiatorWithEphemeral (toy_key 1)
         (honest_bundle (toy_key 3) (toy_key 9) (toy_key 21) 1) (toy_key 30) = Some r ∧
       X3DH.responder (toy_key 3) (toy_key 9) (toy_key 21) (X3DH.r_ik r) (X3DH.r_ek r)
       = Some (X3DH.r_sk r) ∧
       length (X3DH.r_sk r) = 32 ∧
       X3DH.r_ad r = X3DH.identityPublic (toy_key 1) ++ X3DH.identityPublic (toy_key 3) ∧
       (toy_key 21 = [] → X3DH.r_opkId r = (-1)%Z) ∧ (toy_key 21 ≠ [] → X3DH.r_opkId r = 1%Z).
Proof. apply x3dh_agreement; first [by right | run]. Defined.

Lemma initiator_sound_witness :
  let b := honest_bundle (toy_key 3) (toy_key 9) [] (-1) in
  X3DH.verify (X3DH.ik b) (X3DH.spk b) (X3DH.spkSig b) = true.
Proof.
  intros b.
  destruct (X3DH.initiatorWithEphemeral (toy_key 1) b (toy_key 30)) as [r|] eqn:E;
    [|by vm_compute in E].
  apply (initiator_sound (toy_key 1) b (toy_key 30) r E).
Defined.

(** ** Legacy bootstrap *)
Definition old_box (priv : bytes) (peer : string) (peerPriv : bytes) : CryptoBox :=
  set_peers {[peer := toy_base peerPriv]} (set_keys priv (toy_base priv) newBox).

Lemma legacy_conversation_witness :
  ∃ s1 s2 b1' b2',
    sessionFor "bob" (toy_key 34) (old_box (toy_key 32) "bob" (toy_key 33)) = Some (s1, b1') ∧
    sessionFor "alice" (toy_key 35) (old_box (toy_key 33) "alice" (toy_key 32))
      = Some (s2, b2') ∧
    converse "alice" "bob" talk b1' b2'
    = expected (amInitiatorFor "bob" (old_box (toy_key 32) "bob" (toy_key 33)))
        (amInitiatorFor "alice" (old_box (toy_key 33) "alice" (toy_key 32))) talk.
Proof.
  apply legacy_conversation; [|run..]. unfold know_each_other. split_and!; [split..| |]; run.
Defined.

(** The same talk, with frames that do not parse under the name of either and of a third. *)
Definition alice_old : CryptoBox := old_box (toy_key 32) "bob" (toy_key 33).
Definition bob_old : CryptoBox := old_box (toy_key 33) "alice" (toy_key 32).
Definition junk : WireFrame := mkWire "" "" 0 0 "" "".
Definition noisy_talk : list Step :=
  Noise false "alice" junk [] (toy_key 36) :: Noise true "carol" junk (toy_key 37) [] ::
  ((λ e, Talk e) <$> talk) ++ [Noise true "bob" junk [] (toy_key 38)].
Definition opened_by (r : option (RatchetSession * CryptoBox)) : CryptoBox :=
  default newBox (snd <$> r).

Lemma noise_does_no_harm_witness :
  (noisy "alice" "bob" noisy_talk (opened_by (sessionFor "bob" (toy_key 34) alice_old))
     (opened_by (sessionFor "alice" (toy_key 35) bob_old))).1
  = expected (amInitiatorFor "bob" alice_old) (amInitiatorFor "alice" bob_old) (talk_of noisy_talk).
Proof.
  destruct (noise_does_no_harm "alice" "bob" noisy_talk alice_old bob_old (toy_key 34) (toy_key 35))
    as (s1 & s2 & b1 & b2 & E1 & E2 & Hn);
    [unfold know_each_other; split_and!; [split..| |]; run|run..|].
  rewrite E1, E2. apply Hn. replace b1 with (opened_by (sessionFor "bob" (toy_key 34) alice_old))
    by (by rewrite E1). replace b2 with (opened_by (sessionFor "alice" (toy_key 35) bob_old))
    by (by rewrite E2). by_run.
Defined.

(** ** One session *)
Definition alice_s : RatchetSession :=
  initiator_session (toy_key 80) (toy_base (toy_key 81)) (toy_key 82).
Definition bob_s : RatchetSession :=
  responder_session (toy_key 80) (toy_key 81) (toy_base (toy_key 81)).

(** The first two frames of [alice_s], read in the wrong order. *)
Definition frame1 : RatchetFrame := (encryptStep alice_s (lit "one") (toy_key 83)).2.
Definition frame2 : RatchetFrame :=
  (encryptStep (encryptStep alice_s (lit "one") (toy_key 83)).1 (lit "two") (toy_key 84)).2.
Definition bob_after : RatchetSession :=
  default (bob_s) (snd <$> decryptStep bob_s frame2 (toy_key 85)).

Lemma bob_s_wf : wf_session bob_s.
Proof.
  split; [..|apply map_Forall_empty]; try (left; by_run); by_run.
Qed.

Lemma decryptStep_wf_witness : wf_session bob_after ∧ bool_decide (skipped bob_after = ∅) = false.
Proof.
  split; [|by_run].
  apply (decryptStep_wf bob_s frame2 (toy_key 85) (lit "two"));
    [apply wf_session_keys, bob_s_wf|run..|apply bob_s_wf|run].
Defined.

Lemma decryptStep_store_bounded_witness :
  (Z.of_nat (size (skipped bob_after)) ≤ kMaxSkippedTotal)%Z.
Proof.
  apply (decryptStep_store_bounded bob_s frame2 (toy_key 85) (lit "two")); run.
Defined.

Lemma ratchet_keeps_two_generations_witness :
  take 32 (skipKey (f_dh frame2) 0) = f_dh frame2
  ∨ DHr_pub bob_s ≠ [] ∧ take 32 (skipKey (f_dh frame2) 0) = DHr_pub bob_s.
Proof.
  apply (ratchet_keeps_two_generations bob_s frame2 (toy_key 85) (lit "two") bob_after
           (skipKey (f_dh frame2) 0) (default [] (skipped bob_after !! skipKey (f_dh frame2) 0)));
    [apply bob_s_wf|run|run|by left|run..].
Defined.

Lemma skipTo_dos_bound_witness :
  skipTo bob_after (Nr bob_after + 5000) = None ∨
  ∃ s', skipTo bob_after (Nr bob_after + 5000) = Some s' ∧ (Nr s' ≤ Nr bob_after + kMaxSkip)%Z.
Proof.
  pose proof (skipTo_dos_bound bob_after (Nr bob_after + 5000)) as T.
  destruct (skipTo bob_after (Nr bob_after + 5000)) as [s'|]; [|by left].
  right. exists s'. split; [done|]. apply T; run.
Defined.

(** Five messages, delivered in another order, one of them lost. *)
Definition ring_msgs : list (bytes * bytes) :=
  (λ n, (lit "m", toy_key (100 + n))) <$> [0; 1; 2; 3; 4]%Z.

Definition synced (R : RatchetSession) : RatchetSession :=
  mkSession [] [] (DHs_pub alice_s) [] [] (CKs alice_s) 0 (Ns alice_s) 0 true ∅.

Lemma any_order_delivery_witness :
  receive_all (omap (λ i, send_all ring_msgs alice_s !! i) [3; 0; 4; 1]) (synced bob_s)
  = (λ i, fst <$> ring_msgs !! i) <$> [3; 0; 4; 1].
Proof.
  apply any_order_delivery; [split; run|run..].
Defined.

(** ** Key derivation and text *)
Lemma hkdf_rfc5869_witness :
  hkdf None (lit "ikm") (lit "info") 70
  = rfc_okm (hmac_sha256 (default (zeros 32) None) (lit "ikm")) (lit "info") 3 70.
Proof. apply (hkdf_rfc5869 None (lit "ikm") (lit "info") 70 3); lia. Defined.

Lemma roles_opposite_witness :
  amInitiatorFor "bob" (old_box (toy_key 32) "bob" (toy_key 33))
  = negb (amInitiatorFor "alice" (old_box (toy_key 33) "alice" (toy_key 32))).
Proof.
  apply roles_opposite; [|run]. unfold know_each_other. split_and!; [split..| |]; run.
Defined.

(** ** The conformance check: the vector file of the repository, and one of our own *)
Module Vectors.
Import X3DH VectorsCheck.

(** Text in which a quotation mark is written as a caret. *)
Fixpoint quoted (s : string) : string :=
  match s with
  | EmptyString => ""
  | String c s' =>
      String (if Ascii.eqb c (ascii_of_nat 94) then ascii_of_nat 34 else c) (quoted s')
  end.

(** tests/x3dh_vectors.json. *)
Definition shipped : string := quoted
"{
  ^description^: ^X3DH conformance vectors for the ChatE2EE C++ port. A port is correct when it reproduces every `sk` byte for byte from the given private keys.^,
  ^constants^: {
    ^F^: ^ffffffffffffffffffffffffffffffffffffffffffffffffffffffffffffffff^,
    ^kdf_salt^: ^0000000000000000000000000000000000000000000000000000000000000000^,
    ^kdf_info^: ^tamk-chat-x3dh-v1^,
    ^kdf^: ^HKDF-SHA256, length 32, over F || DH1 || DH2 || DH3 [|| DH4]^,
    ^dh_order^: [
      ^DH(IK_A, SPK_B)^,
      ^DH(EK_A, IK_B)^,
      ^DH(EK_A, SPK_B)^,
      ^DH(EK_A, OPK_B) if OPK offered^
    ]
  },
  ^identity_seeds^: {
    ^ik_a^: ^a0a0a0a0a0a0a0a0a0a0a0a0a0a0a0a0a0a0a0a0a0a0a0a0a0a0a0a0a0a0a0a0^,
    ^ik_b^: ^b0b0b0b0b0b0b0b0b0b0b0b0b0b0b0b0b0b0b0b0b0b0b0b0b0b0b0b0b0b0b0b0^
  },
  ^derived_x25519_priv^: {
    ^ik_a^: ^a8236e09349e57f5834da359ba862f4396057ae9497dc024bd1e726127b5424a^,
    ^ik_b^: ^40cd448997eecce8f96502dc99d8a71536880032cc74f906ba6919ef0747cc4c^
  },
  ^derived_x25519_pub^: {
    ^ik_a^: ^30dd3d5bd17f04b7d32f524055fc49611f5027c6d4788bcc96110125ad608474^,
    ^ik_b^: ^e76c9deb04699062f797dba170461f423ab308ba33dafcb6bec1e3a6bc7b720b^
  },
  ^private_keys^: {
    ^spk_b^: ^c0c0c0c0c0c0c0c0c0c0c0c0c0c0c0c0c0c0c0c0c0c0c0c0c0c0c0c0c0c0c0c0^,
    ^opk_b^: ^d0d0d0d0d0d0d0d0d0d0d0d0d0d0d0d0d0d0d0d0d0d0d0d0d0d0d0d0d0d0d0d0^,
    ^ek_a^: ^e0e0e0e0e0e0e0e0e0e0e0e0e0e0e0e0e0e0e0e0e0e0e0e0e0e0e0e0e0e0e0e0^
  },
  ^public_keys^: {
    ^ik_a^: ^b533d8ad9fcfbdde0b481c1b334ddc3c53412fd614564e7e5afd020368d382c3^,
    ^ik_b^: ^705fbac01f5519899f437bc42e40255ae9ab54bff00de3433af7d687d9e71ad5^,
    ^spk_b^: ^1c78fc71ef01855f670c555c82226397f0e73b0aaf443a491d4110dc22f28236^,
    ^opk_b^: ^b25dc5485163369e179437bb72fe4bd4a142482682c302d66a3a2d4865c3fd0b^,
    ^ek_a^: ^ff5d87907f1394b3a131985b894f513de72778ce27b8c10b32f93982a87cda47^
  },
  ^cases^: [
    {
      ^name^: ^with_one_time_prekey^,
      ^opk^: true,
      ^sk^: ^c44a44d864953ad7b8ee1454ed0e85cfea567d201f8e910e0fbbbcb3f85d8ec7^
    },
    {
      ^name^: ^without_one_time_prekey^,
      ^opk^: false,
      ^sk^: ^1e1ffefc9ab47ff0ddcee3e95564032ec1bdb9352c735d1a2eebab02c147986b^
    }
  ],
  ^associated_data^: {
    ^definition^: ^Encode(IK_A) || Encode(IK_B), raw 32-byte publics^,
    ^value^: ^b533d8ad9fcfbdde0b481c1b334ddc3c53412fd614564e7e5afd020368d382c3705fbac01f5519899f437bc42e40255ae9ab54bff00de3433af7d687d9e71ad5^
  },
  ^signature^: {
    ^scheme^: ^RFC 8032 Ed25519, detached. Byte-identical to libsodium crypto_sign_detached and to cryptography's Ed25519PrivateKey.sign for the same seed and message. Ed25519 signing IS deterministic, so unlike the previous XEdDSA scheme this signature is a reproducible OUTPUT, not merely something to verify.^,
    ^signer_seed^: ^b0b0b0b0b0b0b0b0b0b0b0b0b0b0b0b0b0b0b0b0b0b0b0b0b0b0b0b0b0b0b0b0^,
    ^signer_public_key^: ^705fbac01f5519899f437bc42e40255ae9ab54bff00de3433af7d687d9e71ad5^,
    ^message^: ^1c78fc71ef01855f670c555c82226397f0e73b0aaf443a491d4110dc22f28236^,
    ^valid_signature^: ^d04a8b07b06965e5b1b3b1396fbe17fbddb44b21e7630cbb158fba89078ef76b9d43f275e4a4312a8b19420ec3616e43321af1448166236e8b4db89750841508^,
    ^corrupted_signature_must_reject^: ^d14a8b07b06965e5b1b3b1396fbe17fbddb44b21e7630cbb158fba89078ef76b9d43f275e4a4312a8b19420ec3616e43321af1448166236e8b4db89750841508^
  }
}"%string.

(** The tool reads from it the keys and secrets that stand there. *)
Lemma shipped_fields :
  (λ kv, field shipped kv.1 kv.2) <$>
    [("identity_seeds", "ik_b"); ("public_keys", "ik_a"); ("public_keys", "ek_a");
     ("private_keys", "ek_a"); ("derived_x25519_priv", "ik_b"); ("derived_x25519_pub", "ik_a");
     ("signature", "corrupted_signature_must_reject")]%string
  = ["b0b0b0b0b0b0b0b0b0b0b0b0b0b0b0b0b0b0b0b0b0b0b0b0b0b0b0b0b0b0b0b0";
     "b533d8ad9fcfbdde0b481c1b334ddc3c53412fd614564e7e5afd020368d382c3";
     "ff5d87907f1394b3a131985b894f513de72778ce27b8c10b32f93982a87cda47";
     "e0e0e0e0e0e0e0e0e0e0e0e0e0e0e0e0e0e0e0e0e0e0e0e0e0e0e0e0e0e0e0e0";
     "40cd448997eecce8f96502dc99d8a71536880032cc74f906ba6919ef0747cc4c";
     "30dd3d5bd17f04b7d32f524055fc49611f5027c6d4788bcc96110125ad608474";
     "d14a8b07b06965e5b1b3b1396fbe17fbddb44b21e7630cbb158fba89078ef76b9d43f275e4a4312a8b19420ec3616e43321af1448166236e8b4db89750841508"]%string.
Proof. by_run. Qed.

Lemma shipped_cases :
  (λ ik, caseField shipped ik.1 ik.2) <$>
    [(0, "name"); (0, "opk"); (0, "sk"); (1, "name"); (1, "opk"); (1, "sk"); (2, "name")]%string
  = ["with_one_time_prekey";
     "true";
     "c44a44d864953ad7b8ee1454ed0e85cfea567d201f8e910e0fbbbcb3f85d8ec7";
     "without_one_time_prekey";
     "false";
     "1e1ffefc9ab47ff0ddcee3e95564032ec1bdb9352c735d1a2eebab02c147986b";
     EmptyString]%string.
Proof. by_run. Qed.

(** ** A file for the toy platform *)
Definition entry (key value : string) : string := mark key +:+ ": " +:+ mark value +:+ ", ".
Definition object (name : string) (entries : list (string * string)) : string :=
  mark name +:+ ": {" +:+ String.concat EmptyString ((λ kv, entry kv.1 kv.2) <$> entries) +:+ "}, ".

Definition seedA : bytes := toy_key 160.
Definition seedB : bytes := toy_key 176.
Definition spk_secret : bytes := toy_key 192.
Definition opk_secret : bytes := toy_key 208.
Definition ek_secret : bytes := toy_key 224.

Definition secret_with (o : bytes) : bytes :=
  match initiatorWithEphemeral seedA (honest_bundle seedB spk_secret o 7) ek_secret with
  | Some r => r_sk r
  | None => []
  end.

Definition toy_case (name opk : string) (o : bytes) : string :=
  "{" +:+ entry "name" name +:+ mark "opk" +:+ ": " +:+ opk +:+ ", "
  +:+ entry "sk" (toHex (secret_with o)) +:+ "}".

Definition toy_file : string :=
  "{" +:+ object "identity_seeds" [("ik_a", toHex seedA); ("ik_b", toHex seedB)]
  +:+ object "derived_x25519_priv"
        [("ik_a", toHex (identityToX25519Private seedA));
         ("ik_b", toHex (identityToX25519Private seedB))]
  +:+ object "derived_x25519_pub"
        [("ik_a", toHex (toy_base (identityToX25519Private seedA)));
         ("ik_b", toHex (toy_base (identityToX25519Private seedB)))]
  +:+ object "private_keys"
        [("spk_b", toHex spk_secret); ("opk_b", toHex opk_secret); ("ek_a", toHex ek_secret)]
  +:+ object "public_keys"
        [("ik_a", toHex (identityPublic seedA)); ("ik_b", toHex (identityPublic seedB));
         ("spk_b", toHex (toy_base spk_secret)); ("opk_b", toHex (toy_base opk_secret));
         ("ek_a", toHex (toy_base ek_secret))]
  +:+ mark "cases" +:+ ": [" +:+ toy_case "with" "true" opk_secret +:+ ", "
  +:+ toy_case "without" "false" [] +:+ "], "
  +:+ object "associated_data" [("value", toHex (identityPublic seedA ++ identityPublic seedB))]
  +:+ object "signature"
        [("valid_signature", toHex (sign seedB (toy_base spk_secret)));
         ("corrupted_signature_must_reject", toHex (zeros 64))] +:+ "}".

Lemma toy_file_honest : honest toy_file seedA seedB spk_secret opk_secret ek_secret.
Proof.
  split; [by_run..| |].
  - intros [|[|i]] Hi; [by_run..|lia].
  - intros [|[|i]] Hi; [eexists; split; by_run..|lia].
Qed.

Example toy_file_passes : main (Some toy_file) = 0%Z.
Proof.
  apply (honest_file_passes toy_file seedA seedB spk_secret opk_secret ek_secret toy_file_honest);
    by_run.
Qed.

(** The values of the real curve are not those of the toy one. *)
Example shipped_on_toys : main (Some shipped) = 1%Z.
Proof. by_run. Qed.
End Vectors.
