(* ===== verification/WitnessesClient.v ===== *)
(** * Concrete runs: files, stores, models and the client

    The same platform and keys as in [WitnessesCrypto.v]. *)

From S2P Require Import Prelude Platform Kdf Ratchet RatchetFacts Conversation X3dh.
From S2P Require Import X3dhFacts Toy CryptoBox CryptoBoxFacts PrekeyFacts OpenerFacts.
From S2P Require Import Persist PersistFacts FileCrypto ListModel LogBuffer MessageModel.
From S2P Require Import UserModel HistoryStore HistoryFacts Accounts AccountsFacts Chat.
From S2P Require Import ChatFacts ChatSessions ChatOutbox Samples.

Import Accounts.

Definition me_box : CryptoBox :=
  default newBox
    (generatePrekeys 2 (toy_key 9) (λ i, toy_key (20 + Z.of_nat i)) 1000
       (generateIdentity (toy_key 3) newBox)).

(** ** Identity files *)
Lemma me_box_loaded : identity_loaded me_box.
Proof. apply loaded_seed; by_run. Qed.

Lemma plain_identity_roundtrip_witness :
  ∃ b', loadIdentity "id" (saveIdentity "id" (Some 100) ∅ me_box).2 newBox = (true, b') ∧
        same_identity b' me_box ∧ identity_loaded b'.
Proof.
  apply (plain_identity_roundtrip "id" (Some 100) ∅); [apply me_box_loaded|by_run].
Defined.

Lemma prekeys_roundtrip_witness :
  ∃ b', restorePrekeys (serialisePrekeys me_box) 3000 newBox = Some b' ∧
        m_opkPriv b' = m_opkPriv me_box ∧ m_spkPriv b' = toy_key 9.
Proof.
  eexists. split; [apply prekeys_roundtrip|split; by_run].
  split; cycle 5; [by left|by_run| |by_run..].
  apply (bool_decide_unpack _). by_run.
Defined.

(** A conversation with "bob", and the same box after bob's key changed. *)
Definition with_bob (k : bytes) : CryptoBox :=
  put_session "bob" talk_s (set_peers {["bob" := k]} me_box).

Lemma stale_session_refused_witness :
  importSession "bob" (exportSession "bob" (with_bob (toy_key 33))) (with_bob (toy_key 34)) = None.
Proof.
  apply (stale_session_refused "bob" (with_bob (toy_key 33)) (with_bob (toy_key 34)) talk_s).
  - by_run.
  - apply talk_s_storable.
  - by_run.
  - by_run.
  - right. left. by_run.
  - apply (bool_decide_unpack _). by_run.
Defined.

Lemma stream_roundtrip_witness :
  ∃ fs' cts fr',
    initPush (toy_key 5) (toy_key 6) (newFile ss_zero) = (true, fs') ∧
    push_all [lit "part one"; lit "part two"; []] fs' = Some cts ∧
    initPull (toy_key 5) (m_header fs') (newFile ss_zero) = (true, fr') ∧ length cts = 3 ∧
    ∀ k, k ≤ length cts →
      ∃ fr'', pull_all (take k cts) fr'
              = (Some (take k [lit "part one"; lit "part two"; []]), fr'') ∧
              m_sawFinal fr'' = bool_decide (k = length cts).
Proof. apply (stream_roundtrip eq); by_run. Defined.

(** ** Accounts *)
Definition att0 (_ : string) : Attempt :=
  mkAttempt (replicate 16 Byte.x07) (replicate 24 Byte.x08) (Some 200).
Definition att1 (_ : string) : Attempt :=
  mkAttempt (replicate 16 Byte.x09) (replicate 24 Byte.x08) (Some 200).

Lemma att0_ok d : attempt_ok (att0 d).
Proof. split_and!; [done..|]. right. exists 200. split; [done|lia]. Qed.

Lemma att1_ok d : attempt_ok (att1 d).
Proof. split_and!; [done..|]. right. exists 200. split; [done|lia]. Qed.

Definition registered : Outcome * Files * CryptoBox :=
  establishIdentity ["/data"] "ann" "pw" true (toy_key 1) att0 true ∅ newBox.

Lemma register_then_login_witness :
  ∃ b', establishIdentity ["/data"] "ann" "pw" false [] att0 true registered.1.2 newBox
        = (Established, registered.1.2, b') ∧
        same_identity b' registered.2 ∧ m_identityVersion b' = 2%Z.
Proof.
  apply (register_then_login ["/data"] "ann" "pw" (toy_key 1) att0 true ∅ newBox);
    [apply att0_ok|done|by_run].
Defined.

Lemma refused_login_changes_nothing_witness :
  (establishIdentity ["/data"] "ann" "guess" false [] att0 true registered.1.2 me_box).1.2
  = registered.1.2.
Proof.
  destruct (refused_login_changes_nothing ["/data"] "ann" "guess" [] att0 true registered.1.2
    me_box WrongPassword registered.1.2 me_box) as [E _]; by_run.
Defined.

Definition old_disk : Files := {["/data/ann.key" := toy_key 2]}.
Definition migrated : Outcome * Files * CryptoBox :=
  establishIdentity ["/data"] "ann" "pw" false [] att0 true old_disk newBox.

Lemma old_account : legacy_account "/data" ["/data"] "ann" (toy_key 2) old_disk.
Proof.
  split; [by left|by_run|done| |].
  - by intros d' ->%list_elem_of_singleton.
  - intros d' ->%list_elem_of_singleton. by_run.
Qed.

Lemma migrated_account_locked_out_witness :
  (∃ b2, loadIdentityEncrypted "/data/ann.ekey" "pw" migrated.1.2 newBox = (true, b2) ∧
         m_privateKey b2 = toy_key 2) ∧
  ∀ pw' rnd' att' rm' b',
    establishIdentity ["/data"] "ann" pw' false rnd' att' rm' migrated.1.2 b'
    = (NoAccountHere, migrated.1.2, b').
Proof.
  apply (migrated_account_locked_out "/data" ["/data"] "ann" (toy_key 2) old_disk "pw" [] att0
           newBox migrated.1.2 migrated.2); [apply old_account|apply att0_ok|by_run..].
Defined.

Lemma registration_overwrites_migrated_witness :
  ∃ fs2 b2 b3,
    establishIdentity ["/data"] "ann" "other" true (toy_key 4) att1 true migrated.1.2 newBox
    = (Established, fs2, b2) ∧
    fs2 !! "/data/ann.key" = None ∧ fs2 !! "/data/ann.ekey" ≠ migrated.1.2 !! "/data/ann.ekey" ∧
    loadIdentityEncrypted "/data/ann.ekey" "other" fs2 newBox = (true, b3) ∧
    m_identitySeed b3 = toy_key 4.
Proof.
  apply (registration_overwrites_migrated "/data" [] "ann" (toy_key 2) old_disk "pw" [] att0
           newBox migrated.1.2 migrated.2 "other" (toy_key 4) att1 true newBox
           (toy_hmac (kWrapCtx ++ toUtf8 "other") (replicate 16 Byte.x09)) 200);
    [apply old_account|apply att0_ok|by_run|by_run|apply att1_ok|done|done|done].
Defined.

(** The first directory has room for 20 octets. *)
Definition att_full (d : string) : Attempt :=
  if decide (d = "/full"%string)
  then mkAttempt (replicate 16 Byte.x07) (replicate 24 Byte.x08) (Some 20) else att0 d.

Lemma short_write_shadows_account_witness :
  let run := establishIdentity ["/full"; "/data"] "ann" "pw" true (toy_key 1) att_full true ∅
               newBox in
  (∃ b2, loadIdentityEncrypted "/data/ann.ekey" "pw" run.1.2 newBox = (true, b2) ∧
         same_identity b2 run.2) ∧
  establishIdentity ["/full"; "/data"] "ann" "pw" false [] att0 true run.1.2 newBox
  = (WrongPassword, run.1.2, newBox).
Proof.
  intros run.
  apply (short_write_shadows_account "/full" "/data" [] "ann" "pw" (toy_key 1) att_full true ∅
           newBox run.1.2 run.2 20
           (toy_hmac (kWrapCtx ++ toUtf8 "pw") (replicate 16 Byte.x07)));
    try by_run.
  - lia.
  - apply att0_ok.
Defined.

(** ** The list models *)
#[local] Existing Instances MessageModel.message_model MessageModel.roles_eq_dec.
#[local] Existing Instances UserModel.user_model UserModel.roles_eq_dec.
#[local] Existing Instances LogBuffer.log_model LogBuffer.role_eq_dec.

Definition friends : UserModel.State :=
  (UserModel.setOnlineUsers ["bob"; "carl"]
     (UserModel.setSelfName "ann" UserModel.newState).1).1.

Lemma friends_wf : UserModel.wf friends.
Proof.
  split; [|run]. assert (UserModel.m_users friends = ["ann"; "bob"; "carl"]) as -> by run.
  by repeat constructor; vm_compute.
Qed.

Lemma presence_merges_witness :
  let s' := (UserModel.setOnlineUsers ["dora"; "bob"] friends).1 in
  (∀ n, UserModel.isOnline n s' = bool_decide (n ∈ ["dora"; "bob"])) ∧
  (∀ n, n ∈ UserModel.m_users friends ∨ n ∈ ["dora"; "bob"] → n ∈ UserModel.m_users s') ∧
  UserModel.m_unread s' = UserModel.m_unread friends ∧
  UserModel.m_self s' = UserModel.m_self friends.
Proof. apply (UserModel.presence_merges ["dora"; "bob"] friends friends_wf). Defined.

Lemma users_invariant_witness :
  let s := UserModel.run_ops
    [UserModel.SetSelfName "ann"; UserModel.IncrementUnread "zed";
     UserModel.SetOnlineUsers ["bob"; "Carl"]] UserModel.newState in
  UserModel.wf s ∧
  (∀ n, n ∈ UserModel.m_users s →
     n ∈ UserModel.m_users (UserModel.run_op (UserModel.EnsureUser "dora") s).1) ∧
  (¬ UserModel.renames_self (UserModel.EnsureUser "dora") s →
   coherent s (UserModel.run_op (UserModel.EnsureUser "dora") s).2
     (UserModel.run_op (UserModel.EnsureUser "dora") s).1).
Proof. apply UserModel.users_invariant. Defined.

Definition two_messages : MessageModel.State :=
  MessageModel.run_ops
    [MessageModel.AddMessage "ann" "hi" 1 true "m1"; MessageModel.AddMessage "bob" "ho" 2 false "m2";
     MessageModel.EditText "m2" "hey"] [].

Lemma view_follows_model_witness :
  coherent two_messages
    (MessageModel.run_op (MessageModel.Delete "m1") two_messages).2
    (MessageModel.run_op (MessageModel.Delete "m1") two_messages).1.
Proof.
  apply MessageModel.view_follows_model. intros (id & i & m & [= <-] & Hi & Hm & _ & He).
  assert (i = 0) as -> by (vm_compute in Hi; congruence).
  vm_compute in Hm. injection Hm as <-. by vm_compute in He.
Defined.

Lemma delete_edited_stale_view_witness :
  let '(s', t) := MessageModel.run_op (MessageModel.Delete "m2") two_messages in
  MessageModel.data s' 1 MessageModel.IsEditedRole = MessageModel.VBool false ∧
  ∃ f, replay t (read_all two_messages) !! 1 = Some f ∧
       f MessageModel.IsEditedRole = MessageModel.VBool true ∧
       f MessageModel.IsDeletedRole = MessageModel.VBool true.
Proof.
  apply (MessageModel.delete_edited_stale_view "m2" two_messages 1
           (MessageModel.mkMessage "bob" "hey" 2 false false false "" "" "" 0 "" "m2" false "" "" true)); by_run.
Defined.

Lemma rows_stable_witness :
  MessageModel.evolves two_messages
    (MessageModel.run_ops [MessageModel.Delete "m1"; MessageModel.AddSystem "left" 3] two_messages).
Proof.
  apply MessageModel.rows_stable. by intros [[=]|[[=]|[]%not_elem_of_nil]%elem_of_cons]%elem_of_cons.
Defined.

Definition log3 : LogBuffer.State :=
  (LogBuffer.append true "b" "warn" (LogBuffer.append true "a" "info" LogBuffer.newState).1).1.

Lemma appended_reachable h s line level :
  LogBuffer.reachable h s →
  LogBuffer.reachable (h ++ [(line, level)]) (LogBuffer.append true line level s).1.
Proof.
  intros Hr. eapply LogBuffer.reach_step; [done|].
  apply LogBuffer.step_gui, surjective_pairing.
Qed.

Lemma buffer_is_last_records_witness :
  LogBuffer.represents [("a", "info"); ("b", "warn")] log3 ∧
  length (LogBuffer.m_lines log3) ≤ LogBuffer.kMaxLines.
Proof.
  destruct (LogBuffer.buffer_is_last_records [("a", "info"); ("b", "warn")] log3) as (R & L & _).
  - apply (appended_reachable [("a", "info")]), (appended_reachable []), LogBuffer.reach_new.
  - by split.
Defined.
