(* ===== verification/WitnessesStore.v ===== *)
(** * Concrete runs: the database, restarts and the queue of outgoing messages

    The same platform and keys as in [WitnessesCrypto.v]. *)

From S2P Require Import Prelude Platform Kdf Ratchet RatchetFacts Conversation X3dh.
From S2P Require Import X3dhFacts Toy CryptoBox CryptoBoxFacts PrekeyFacts OpenerFacts.
From S2P Require Import Persist PersistFacts ListModel MessageModel UserModel.
From S2P Require Import HistoryStore HistoryFacts Localization Chat ChatFacts.
From S2P Require Import ChatSessions ChatOutbox Samples.

Import HistoryStore ChatClient.

(** A new file for "ann", and the file of a build that kept fewer columns. *)
Definition store0 : Store := (open "/data" "ann" true (λ _, true) (newStore ∅)).2.

Lemma fully_open s :
  m_ready s = true → (∃ p, m_db s = Some p ∧ is_Some (disk s !! p)) →
  bool_decide (Forall (λ t, has_cols t (full_cols t) (the_db s) = true) tables) = true →
  working s.
Proof.
  intros H1 H2 H3%bool_decide_eq_true. split; [done..|].
  by intros t; rewrite Forall_forall in H3; apply H3.
Qed.

Lemma store0_working : working store0.
Proof. apply fully_open; [run| |run]. eexists. split; run. Qed.

Definition old_db : Db :=
  set_schema {["history" := history_cols; "outbox" := ["id"; "kind"; "peer"; "body"; "srcpath"; "ts"]]}
    empty_db.

Definition old_disk : Store := newStore {["/data/history_ann.db" := old_db]}.

Lemma old_disk_older : older (default empty_db (disk old_disk !! dbPath "/data" "ann")).
Proof.
  assert (default empty_db (disk old_disk !! dbPath "/data" "ann") = old_db) as -> by run.
  intros t Ht have Hh.
  assert (forallb (λ t, match schema old_db !! t with
                        | Some have => bool_decide (Forall (λ c, c ∈ have) (oldest_cols t))
                        | None => true end) tables = true) as Hall by run.
  rewrite forallb_forall in Hall. specialize (Hall t (proj1 (list_elem_of_In _ _) Ht)).
  rewrite Hh in Hall. by apply bool_decide_eq_true in Hall.
Qed.

Lemma open_upgrades_witness :
  let '(ok, s') := open "/data" "ann" true (λ _, true) old_disk in
  ok = true ∧ working s' ∧
  same_data (default empty_db (disk old_disk !! dbPath "/data" "ann")) (the_db s').
Proof. exact (open_upgrades "/data" "ann" (λ _, true) old_disk (λ _, eq_refl) old_disk_older). Defined.

Lemma nicknames_collide_witness :
  "a.b"%string ≠ "a_b"%string ∧ dbPath "/data" "a.b" = dbPath "/data" "a_b".
Proof. exact (nicknames_collide "/data" "a" "b" (Ascii.ascii_of_nat 46) eq_refl ltac:(done) ltac:(done)). Defined.

(** ** Rows *)
Definition store1 : Store := (addTextRow true "bob" "ann" "6e" "63" 10 true "m1" store0).2.

Lemma store1_working : working store1.
Proof. apply fully_open; [run| |run]. eexists. split; run. Qed.

Lemma notes_never_flood_witness :
  calm (history (the_db (run_row_ops
    [AddSystem true "bob" "is offline" 10; AddSystem true "bob" "is offline" 12;
     AddText true "bob" "ann" "6e" "63" 13 true "m1"; AddSystem true "bob" "is offline" 14] store0))).
Proof. apply notes_never_flood; [apply store0_working|run]. Defined.

Lemma storm_collapses_witness :
  history (the_db (storm "bob" "retrying" [1; 2; 3]%Z store0)) = history (the_db store0) ∨
  ∃ t, t ∈ [1; 2; 3]%Z ∧
    history (the_db (storm "bob" "retrying" [1; 2; 3]%Z store0))
    = history (the_db store0) ++ [system_row "bob" "retrying" t].
Proof. exact (storm_collapses "bob" "retrying" [1; 2; 3]%Z store0 store0_working). Defined.

Lemma stored_text_is_replayed_witness :
  let '(ok, s') := addTextRow true "bob" "ann" "6e" "64" 20 true "m2" store1 in
  ok = true ∧ working s' ∧
  rowsForPeer true "bob" 500 s' =
    rowsForPeer true "bob" 500 store1 ++
    (if decide ("bob"%string = "bob"%string) then
       [mkStored "bob" "ann" 20 true false "6e" "64" false "" "" "" 0 "" "" "m2" false false]
     else []).
Proof.
  refine (stored_text_is_replayed "bob" "ann" "6e" "64" 20 true "m2" store1 "bob" 500
           store1_working _). run.
Defined.

Lemma newest_rows_not_replayed_witness :
  let '(ok, s') := addTextRow true "bob" "ann" "6e" "64" 20 true "m2" store1 in
  ok = true ∧ rowsForPeer true "bob" 1 s' = rowsForPeer true "bob" 1 store1.
Proof.
  refine (newest_rows_not_replayed "bob" "ann" "6e" "64" 20 true "m2" store1 1 store1_working _).
  run.
Defined.

Lemma deleted_row_not_editable_witness :
  let '(ok, s1) := markDeleted true "m1" store1 in
  ok = true ∧
  history (the_db s1)
    = ((λ r, if has_id "m1" r then set_deleted r else r) <$> history (the_db store1)) ∧
  let '(ok2, s2) := updateTextRow true "m1" "6e" "65" s1 in
  ok2 = false ∧ the_db s2 = the_db s1.
Proof. exact (deleted_row_not_editable "m1" "6e" "65" store1 store1_working ltac:(done)). Defined.

Lemma outbox_fifo_witness :
  let s0 := foldl (λ s o, run_out_op o s) store0
              [QueueText true "bob" "n:c" 1 "" ""; QueueFile true "bob" "/tmp/x" 2 "id"] in
  let '(id, s1) := enqueueOutboxText true "bob" "n:d" 3 "" "m9" s0 in
  (id ∉ o_id <$> loadOutbox true s0) ∧
  loadOutbox true s1 = loadOutbox true s0 ++
    [mkOut id OText "bob" "n:d" "" "" (Some "m9") 3] ∧
  let '(ok, s2) := deleteOutboxRow true id s1 in
  ok = true ∧ loadOutbox true s2 = loadOutbox true s0.
Proof.
  refine (outbox_fifo _ store0 "bob" "n:d" 3 "" "m9" store0_working _). split; run.
Defined.

Lemma verification_independent_witness :
  let v := loadVerifiedPeerIdentities true in
  let a := loadPeerAttestations true in
  let s1 := (recordVerifiedPeerIdentity true "bob" "ab" 1 store0).2 in
  let s2 := (recordPeerAttestedMyIdentity true "bob" "ab" 1 store0).2 in
  let s3 := (clearVerification true "bob" store0).2 in
  (v s1 = <["bob" := "ab"]> (v store0) ∧ a s1 = a store0) ∧
  (v s2 = v store0 ∧ a s2 = <["bob" := "ab"]> (a store0)) ∧
  (v s3 = delete "bob" (v store0) ∧ a s3 = delete "bob" (a store0)).
Proof.
  exact (verification_independent "bob" "ab" 1 store0 store0_working ltac:(done) ltac:(done)).
Defined.

Lemma one_reaction_per_side_witness :
  let '(ok, s1) := setReaction true "bob" "m1" "bob" "up" store0 in
  ok = true ∧
  (mkReaction "m1" "bob" "up" ∈ reactionsForPeer true "bob" s1 ↔
   if decide (r_mid (mkReaction "m1" "bob" "up") = "m1" ∧ r_who (mkReaction "m1" "bob" "up") = "bob")
   then "up"%string ≠ "" ∧ r_kind (mkReaction "m1" "bob" "up") = "up"
   else mkReaction "m1" "bob" "up" ∈ reactionsForPeer true "bob" store0).
Proof.
  exact (one_reaction_per_side "bob" "m1" "bob" "up" store0 (mkReaction "m1" "bob" "up")
           store0_working ltac:(done) ltac:(done)).
Defined.

(** ** The client across a restart *)
Definition ann_box : CryptoBox :=
  set_peers {["bob" := toy_base (toy_key 33)]} (set_keys (toy_key 32) (toy_base (toy_key 32)) newBox).

Definition bob_box : CryptoBox :=
  put_session "ann" (responder_session (toy_key 80) (toy_key 81) (toy_base (toy_key 81))) newBox.

Definition client (box : CryptoBox) (s : Store) : Client :=
  mkClient "ann" box s [] UserModel.newState "" ∅ [] ∅ true.

Definition ann_client : Client := client (put_session "bob" talk_s ann_box) store0.

Definition talk : list Event :=
  [ mkEvent true "back again" (toy_key 41) (toy_key 51);
    mkEvent false "welcome" (toy_key 42) (toy_key 52) ].

Lemma conversation_survives_restart_witness :
  let '(ok, st) := open "/data" "ann" true (λ _, true)
                     (close (m_history (persistSession true "bob" 100 ann_client))) in
  let c2 := restoreAllSessions true (λ _ _, true) (set_store st (client ann_box store0)) in
  ok = true ∧ m_sessions (m_crypto c2) !! "bob" = Some talk_s ∧
  default 0%Z (m_sentSinceRatchet c2 !! "bob")
  = default 0%Z (m_sentSinceRatchet ann_client !! "bob") ∧
  converse "ann" "bob" talk (m_crypto c2) bob_box
  = expected (ready talk_s)
      (ready (responder_session (toy_key 80) (toy_key 81) (toy_base (toy_key 81)))) talk.
Proof.
  refine (conversation_survives_restart "/data" "ann" (λ _, true) 100 "ann" "bob" ann_client
    (client ann_box store0) talk_s (toy_base (toy_key 33)) bob_box
    (responder_session (toy_key 80) (toy_key 81) (toy_base (toy_key 81))) 0
    [DHs_pub talk_s; toy_base (toy_key 81)] talk _ _ _ _ _ _ _ _ _ _ _ _ _ _ _ _ _).
  - apply store0_working.
  - done.
  - run.
  - run.
  - apply talk_s_storable.
  - run.
  - run.
  - run.
  - run.
  - run.
  - run.
  - run.
  - exact (start_linked (toy_key 80) (toy_key 81) (toy_key 82) eq_refl eq_refl).
  - run.
  - run.
  - run.
  - run.
Defined.

Definition stored_client : Client := persistSession true "bob" 100 ann_client.

Lemma stored_client_working : working (m_history stored_client).
Proof. apply fully_open; [run| |run]. eexists. split; run. Qed.

(** A stored session restored, and kept in the table. *)
Lemma restore_resumes_or_clears_witness :
  let c := set_crypto ann_box stored_client in
  let c' := restoreAllSessions true (λ _ _, true) c in
  (∀ p row, stored p c' = Some row →
     stored p c = Some row ∧ is_Some (m_sessions (m_crypto c') !! p) ∧
     m_sessions (m_crypto c') !! p = imported p (s_blob row) (seeded p row (m_crypto c))) ∧
  (∀ p row, stored p c = Some row → imported p (s_blob row) (seeded p row (m_crypto c)) = None →
     stored p c' = None ∧ m_sessions (m_crypto c') !! p = m_sessions (m_crypto c) !! p).
Proof. exact (restore_resumes_or_clears (set_crypto ann_box stored_client) stored_client_working). Defined.

Definition drafts : list Draft :=
  [ mkDraft "m1" (toy_key 90) "bob" "first" 1; mkDraft "m2" (toy_key 91) "bob" "second" 2 ].

Lemma queued_texts_survive_restart_witness :
  let c1 := queue_all drafts ann_client in
  let '(ok, st) := open "/data" "ann" true (λ _, true) (close (m_history c1)) in
  let c2 := restoreOutbox true (λ _, true) (set_store st (client ann_box store0)) in
  ok = true ∧ p_plaintext <$> m_outbox c1 = d_text <$> drafts ∧
  p_mid <$> m_outbox c1 = d_mid <$> drafts ∧
  m_outbox c2 = forget_mid <$> m_outbox c1 ∧ queue_table c2 = queue_table c1.
Proof.
  refine (queued_texts_survive_restart "/data" "ann" (λ _, true) drafts ann_client
            (client ann_box store0) _ _ _ _ _ _ _ _); [|run|run|..].
  - split; [apply store0_working|split; run|run|run|].
    assert (m_outbox ann_client = []) as -> by run.
    assert (queue_table ann_client = []) as -> by run. constructor.
  - by repeat constructor.
  - run.
  - done.
  - run.
  - run.
Defined.

Definition queued_client : Client := set_queue [] (queue_all drafts ann_client).

Lemma queued_client_working : working (m_history queued_client).
Proof. apply fully_open; [run| |run]. eexists. split; run. Qed.

Lemma restored_queue_mirrors_disk_witness :
  let c' := restoreOutbox true (λ _, true) queued_client in
  m_outbox c' = m_outbox queued_client ++ omap (restore_item (m_crypto queued_client)) (queue_table queued_client) ∧
  queue_table c' = filter (λ r, is_Some (restore_item (m_crypto queued_client) r)) (queue_table queued_client) ∧
  ∀ po, po ∈ omap (restore_item (m_crypto queued_client)) (queue_table queued_client) → p_kind po = PFile →
    ∃ r, r ∈ queue_table c' ∧ o_kind r = OFile ∧ p_dbId po = o_id r ∧ p_srcPath po = o_srcPath r ∧
         o_identity r = publicKeyHex (m_crypto queued_client) ∧ o_identity r ≠ ""%string.
Proof.
  refine (restored_queue_mirrors_disk queued_client queued_client_working _ _).
  - split; run.
  - run.
Defined.

(** A text with an id, deleted for me, then the conversation reopened. *)
Definition sealed : string * string :=
  default ("", "")%string (localSeal "secret" (toy_key 95) ann_box).
Definition chatty : Client :=
  set_crypto ann_box
    (client ann_box (addTextRow true "bob" "ann" sealed.1 sealed.2 20 true "m7" store0).2).

Definition sealed_row : HistoryRow := text_row "bob" "ann" sealed.1 sealed.2 20 true "m7".

Lemma chatty_working : working (m_history chatty).
Proof. apply fully_open; [run| |run]. eexists. split; run. Qed.

Definition english : Localization.State := Localization.newState ∅ ∅ ∅ ∅.

Lemma deleted_message_reappears_witness :
  let c1 := deleteForMe true "m7" chatty in
  let c2 := loadConversation english true true (λ _, 0%Z) "bob" c1 in
  (∃ r, rowsForPeer true "bob" kRowLimit (m_history c1) !! 0 = Some r ∧ sr_deleted r = true) ∧
  ∃ m, m_messages c2 !! 0 = Some m ∧ MessageModel.text m = "secret"%string ∧
       MessageModel.deleted m = false ∧ MessageModel.rowMid m = "m7"%string.
Proof.
  assert (E : default ""%string (localOpen (h_nonce sealed_row) (h_ct sealed_row)
              (m_crypto chatty)) = "secret"%string) by run.
  pose proof (deleted_message_reappears english true (λ _, 0%Z) "bob" "m7" chatty 0 sealed_row
    chatty_working) as T. rewrite E in T.
  apply T; run.
Defined.
