(* ===== verification/WitnessesLock.v ===== *)
(** * Concrete runs: the lock, recovery and the login vault *)

From S2P Require Import Prelude Platform Settings AppLock AppLockFacts Lock LockFacts.
From S2P Require Import Recovery.
From S2P Require Import RecoveryFacts Kdf Ratchet X3dh X3dhFacts Toy CryptoBox Persist.
From S2P Require Import Accounts AccountsFacts Samples.

(** ** Windows Hello *)

(** An operation that is still running at the first three polls. *)
Definition slow_op (result : Z) : AppLock.AsyncOp :=
  AppLock.mkOp true (λ i, AppLock.Status (if (i <? 3)%nat then 0%Z else 1%Z)) (Some result).

Definition says_yes : AppLock.HelloEnv :=
  AppLock.mkHello true true true true (Some (slow_op 0%Z)) true None.
Definition dismissed : AppLock.HelloEnv :=
  AppLock.mkHello true true true true (Some (slow_op 5%Z)) true None.

Lemma await_terminates_witness :
  let '(r, polls, waited) :=
    AppLock.await_loop (AppLock.await_fuel 2000) 2000 (AppLock.op_poll (slow_op 0%Z)) 0 0 in
  r ≠ AppLock.OutOfFuel ∧ (Z.of_nat polls ≤ 2000 / 25 + 2)%Z ∧ (waited < 2000 + 25)%Z ∧
  ((0 ≤ AppLock.awaitEnumResult (slow_op 0%Z) 2000)%Z →
   r = AppLock.Completed ∧
   AppLock.op_result (slow_op 0%Z) = Some (AppLock.awaitEnumResult (slow_op 0%Z) 2000)).
Proof. apply (await_terminates (slow_op 0%Z) 2000). lia. Defined.

(** ** The lock *)
Definition salt16 : bytes := replicate 16 Byte.x07.

Definition session : Lock.State := Lock.sessionStarts (Lock.newState false ∅).
Definition with_lock : Lock.State := (Lock.setLockEnabled false false true "1234" salt16 session).1.
Definition covered : Lock.State := (Lock.lockNow with_lock).1.

Lemma pin_opens_lock_witness :
  Lock.m_locked covered = true ∧ Lock.hasPin covered = true ∧
  Lock.verifyPin "0000" covered = (false, covered, []).
Proof.
  pose proof (pin_opens_lock false "1234" salt16 session
    (toy_hmac (kVerifyCtx ++ toUtf8 "1234") salt16) "0000"
    (toy_hmac (kVerifyCtx ++ toUtf8 "0000") salt16)) as Hp.
  destruct Hp as (H1 & H2 & H3); [done..|]. split; [exact H1|]. split; [exact H2|].
  rewrite decide_False in H3 by (by_run). exact H3.
Defined.

Definition until_covered : list LockOp :=
  [SessionStarts; SetLockEnabled false true "1234" salt16; LockNow].

Lemma unlock_needs_credential_witness :
  opened_by false until_covered covered (VerifyPin "1234").
Proof.
  apply (unlock_needs_credential false ∅ until_covered (VerifyPin "1234")); by_run.
Defined.

Lemma cleared_pin_locks_out_witness :
  let s1 := (Lock.clearPin with_lock).1 in
  let s2 := (Lock.lockNow s1).1 in
  Lock.m_locked s1 = false ∧ Lock.hasPin s1 = false ∧ Lock.m_locked s2 = true ∧
  ∀ pin, Lock.verifyPin pin s2 = (false, s2, []).
Proof. apply (cleared_pin_locks_out with_lock); by_run. Defined.

(** ** Recovery *)
Import Recovery.

Definition today : Z * Z * Z := (2025, 6, 1)%Z.

(** "ann" has logged in with the opt-in, and recorded her birthday. *)
Definition device : Settings.Settings :=
  recordBirthday today "1990-05-17" "ann" salt16
    (AppLock.enrollLogin true "ann" "pw" ∅).
Definition at_rest : State := mkState device "ann" false "" "" false.
Definition idle : World := mkWorld at_rest [].

Definition guess (now : Z) (bday : string) : RecoveryOp := Recover now today "" "ann" bday.


Definition seven_guesses : list RecoveryOp :=
  (λ i, guess (1000 + i) "1991-01-01") <$> [0; 1; 2; 3; 4; 5; 6]%Z.

Lemma recovery_rate_limit_witness :
  count (is_wrong "ann") (run_recovery true seven_guesses idle).2 ≤ 5.
Proof.
  apply (recovery_rate_limit true seven_guesses idle "ann" 1000).
  - by repeat constructor.
  - by_run.
  - intros m Hm.
    assert (Forall (λ e, is_match e = false) (run_recovery true seven_guesses idle).2) as Hf
      by (apply (bool_decide_unpack _); vm_compute; exact I).
    rewrite Forall_forall in Hf. by specialize (Hf _ Hm).
Defined.

Definition ann_disk : Files :=
  (Accounts.establishIdentity ["/data"] "ann" "pw" true (toy_key 1)
     (λ _, Accounts.mkAttempt (replicate 16 Byte.x07) (replicate 24 Byte.x08) (Some 200)) true ∅
     newBox).1.2.

Lemma refused_registration_sets_birthday_witness :
  ∃ s1, registerLocally today "wss://relay" "ann" "other" "2001-02-03" salt16 ["/data"]
          (toy_key 4) (λ _, Accounts.mkAttempt [] [] None) true ann_disk newBox at_rest
        = (Accounts.AccountExistsLocally, ann_disk, newBox, s1) ∧
        checkBirthday (trimmed "ann") "2001-02-03" (settings s1) = true.
Proof.
  apply (refused_registration_sets_birthday today "wss://relay" "ann" "other" "2001-02-03" salt16
    ["/data"] (toy_key 4) (λ _, Accounts.mkAttempt [] [] None) true ann_disk newBox at_rest
    "2001-02-03" (toy_hmac (kVerifyCtx ++ toUtf8 "2001-02-03") salt16)); by_run.
Defined.

Lemma enrolled_login_roundtrip_witness :
  (run_recovery true
     [RequestEnroll "secret"; EnrollConfirmed; BiometricLogin "wss://relay" "ann";
      AnswerPrompt 0 says_yes] (mkWorld (mkState ∅ "ann" false "" "" false) [])).2
  = [BiometricLoginChanged; LoginWith "wss://relay" "ann" "secret"].
Proof.
  pose proof (enrolled_login_roundtrip "secret" "wss://relay" says_yes
    (mkWorld (mkState ∅ "ann" false "" "" false) [])) as Hr.
  destruct (run_recovery true _ _) as [w' ev]. apply Hr; by_run.
Defined.

(** "ann" and "bob" are enrolled on one device; ann's recovery is dismissed. *)
Definition two_users : State :=
  mkState (AppLock.enrollLogin true "bob" "bobs password" device) "bob" false "" "" false.
Definition abandoned : World :=
  let '(p, s, _) := recoverPassword true 1000 today "" "ann" "1990-05-17" two_users in
  mkWorld s (option_list p).

Lemma abandoned_recovery_reveals_witness :
  (run_recovery true
     [AnswerPrompt 0 dismissed; BiometricLogin "wss://relay" "bob"; AnswerPrompt 0 says_yes]
     abandoned).2 = [PasswordRevealed "bobs password"].
Proof.
  pose proof (abandoned_recovery_reveals 1000 today "" "ann" "1990-05-17" two_users
    (AppLock.mkPrompt "ann" (AppLock.dpapiWrap (toUtf8 "pw"))) "wss://relay" "bob"
    "bobs password" dismissed says_yes abandoned [BirthdayMatched "ann"]) as Hr.
  destruct (run_recovery true _ _) as [w' ev]. apply Hr; by_run.
Defined.
