(* ===== verification/WitnessesMessenger.v ===== *)
(** * Concrete runs: the messaging core *)

From S2P Require Import Prelude Platform Kdf Ratchet X3dh CryptoBox Toy Persist.
From S2P Require Import MessageModel.
From S2P Require Import UserModel HistoryStore FileCrypto Chat Messenger Rekey Sending.
From S2P Require Import Verification Receiving Effects GateFacts GateSteps GateSafety.
From S2P Require Import VerifyFacts FlushFacts HeartbeatFacts ForgeryFacts ReplayFacts.
From S2P Require Import SeenFacts TypingFacts.
From S2P Require Import Samples.

Import ChatClient Messenger Rekey Sending Verification Receiving.

(** ** A world *)
#[export] Instance toy_oracle : Oracle := {
  clock_at i := (1000 + Z.of_nat i)%Z;
  octets_at i n := replicate n (byte_of_Z (Z.of_nat i));
  answer_at i := true;
  uuid_at i := "id" +:+ String (Ascii.ascii_of_nat (65 + i)) "";
  date_at i := "1 January 2026";
  file_at i path := None;
}.

#[export] Instance toy_files : QFiles := { baseName p := p; mimeOf p := "text/plain";
  appDataLocation := "data" }.

(** ** Two clients *)
Definition ann_key : bytes := toy_key 32.
Definition bob_key : bytes := toy_key 33.

Definition box_of (mine : bytes) (peer : string) (theirs : bytes) : CryptoBox :=
  set_peers {[peer := toy_base theirs]} (set_keys mine (toy_base mine) newBox).

Definition client_of (nick peer : string) (mine theirs : bytes) : Client :=
  mkClient nick (box_of mine peer theirs) (HistoryStore.newStore ∅) [] UserModel.newState peer
    {[peer := hexStr (toy_base theirs)]} [] ∅ true.

Definition quiet_gate : Gate := mkGate ∅ ∅ ∅ ∅ ∅ ∅ ∅.
Definition quiet_pcs : Pcs := mkPcs ∅ ∅ ∅ ∅ ∅ 0 false false.
Definition quiet_link : Link := mkLink true false ∅ ∅ ∅ ∅ false ∅ "" "" ∅ ∅.

Definition quiet_transfers : Transfers := mkTransfers ∅ ∅ ∅.

Definition chat_of (g : Gate) (cl : Client) : Chat := mkChat cl g quiet_pcs quiet_link quiet_transfers 0.

Definition ann : Chat := chat_of quiet_gate (client_of "ann" "bob" ann_key bob_key).
Definition bob : Chat := chat_of quiet_gate (client_of "bob" "ann" bob_key ann_key).

Lemma quiet_stash g cl : stash_ok (chat_of g cl).
Proof. apply map_Forall_empty. Qed.

(** The first thing [ann] sends. *)
Definition hello_event : Event :=
  default PeerKeysChanged ((run_client_op (SendMessage "hello") ann).2 !! 0).
Definition hello : Msg :=
  match hello_event with
  | Sent (FMsg m) => m
  | _ => mkMsg "" "" "" "" "" "" None (mkWire "" "" 0 0 "" "") 0
  end.

(** ** The gate *)
Lemma gate_never_crossed_witness :
  gated_event hello_event = Some "bob"%string ∧
  conversationBlocked "bob" (run_client_op (SendMessage "hello") ann).1.2 = false.
Proof.
  assert (gated_event hello_event = Some "bob"%string) as Hg by by_run.
  split; [exact Hg|].
  apply (gate_never_crossed (SendMessage "hello") ann hello_event "bob" (quiet_stash _ _));
    [|exact Hg].
  apply (list_elem_of_lookup_2 _ 0). by_run.
Defined.

(** [bob] has confirmed [ann] and waits for her attestation. *)
Definition waiting : Chat :=
  chat_of (mkGate ∅ ∅ {["ann"]} {["ann"]} ∅ ∅ ∅) (client_of "bob" "ann" bob_key ann_key).

Definition ann_ack : Frame :=
  FVerifyAck "ann" "bob" (hexStr (toy_base ann_key)) (hexStr (toy_base bob_key)) 7.


(** Each has flagged the other. *)
Definition flagged_gate (peer : string) : Gate := mkGate {[peer]} ∅ {[peer]} ∅ ∅ ∅ ∅.
Definition ann_asks : Chat := chat_of (flagged_gate "bob") (client_of "ann" "bob" ann_key bob_key).
Definition bob_asks : Chat := chat_of (flagged_gate "ann") (client_of "bob" "ann" bob_key ann_key).

Lemma verification_opens_witness :
  ∃ t, let ack := FVerifyAck "ann" "bob" (publicKeyHex (box ann_asks))
                    (publicKeyHex (box bob_asks)) t in
  Sent ack ∈ (run_client_op (Confirm "bob") ann_asks).2 ∧
  conversationBlocked "ann"
    ((run_client_op (Confirm "ann") ≫= λ _, run_client_op (Receive ack)) bob_asks).1.2 = false ∧
  conversationBlocked "ann"
    ((run_client_op (Receive ack) ≫= λ _, run_client_op (Confirm "ann")) bob_asks).1.2 = false.
Proof.
  apply (verification_opens "ann" "bob" ann_asks bob_asks); [|by_run].
  split; [by split_and!|split_and!; by_run|by_run].
Defined.

(** ** The queue *)
Definition queued : PendingOut := mkPending (-1) PText "bob" "later" "" "" "m7" 3.
Definition with_queue : Chat :=
  chat_of quiet_gate (set_queue [queued] (client_of "ann" "bob" ann_key bob_key)).


(** ** The heartbeat *)
Definition away : Chat :=
  mkChat (client_of "ann" "bob" ann_key bob_key) quiet_gate
    (mkPcs {["bob"]} {["bob" := 500%Z]} ∅ ∅ ∅ 0 true false) quiet_link quiet_transfers 0.


(** ** Keys *)
Definition mallory_key : bytes := toy_base (toy_key 66).
Definition forged : Msg :=
  mkMsg "bob" "ann" "handshake" (hexStr mallory_key) "" "" None (g_wire hello) 9.

Lemma key_substitution_unnoticed_witness :
  let '(_, c1, ev) := run_client_op (Receive (FMsg forged)) ann in
  ev = [Sent (FGetKey "bob"); PeerKeysChanged] ∧
  key_of "bob" c1 = hexStr mallory_key ∧ conversationBlocked "bob" c1 = false ∧
  fst <$> sessionFor "bob" (toy_key 5) (box c1) =
    Some (bootstrap_session (m_privateKey (box ann)) (m_publicKey (box ann)) mallory_key (toy_key 5)) ∧
  conversationBlocked "bob"
    (run_client_op (Receive (FKey "bob" (hexStr mallory_key) "x25519")) c1).1.2 = false.
Proof.
  apply (key_substitution_unnoticed "bob" mallory_key forged ann (toy_key 5)); [|by split_and!].
  split.
  - done.
  - by_run.
  - split; by_run.
  - exists (toy_base bob_key). split; by_run.
  - done.
  - apply quiet_stash.
  - done.
  - by_run.
Defined.

(** A frame of [bob] came before his key. *)
Definition stashed_link : Link :=
  mkLink true false ∅ {["bob" := [FMsg hello]]} ∅ ∅ false ∅ "" "" ∅ ∅.
Definition keyless_ann : Chat :=
  mkChat (set_peerKeys ∅ (client_of "ann" "bob" ann_key bob_key)) quiet_gate quiet_pcs stashed_link quiet_transfers 0.

Lemma replay_settles_witness :
  onTextMessageReceived (FKey "bob" (hexStr (toy_base bob_key)) "") keyless_ann =
    handleServerFrame 5 (FKey "bob" (hexStr (toy_base bob_key)) "") keyless_ann ∧
  stash_ok (onTextMessageReceived (FKey "bob" (hexStr (toy_base bob_key)) "") keyless_ann).1.2.
Proof.
  apply (replay_settles 4). unfold stash_ok. cbn [link keyless_ann stashed_link m_pendingFrames].
  apply map_Forall_insert_2; [|apply map_Forall_empty]. by repeat constructor.
Defined.

Lemma frame_read_once_witness :
  let c' := (for_each (Receive (FMsg hello) :: [SendMessage "hello yourself"; KickTimer])
               run_client_op bob).1.2 in
  run_client_op (Receive (FMsg hello)) c' = ((), c', []).
Proof.
  apply (frame_read_once "ann" hello bob); [apply quiet_stash| |by_run].
  split; [split; by_run|split; by_run|by_run].
Defined.

(** ** Typing *)
Lemma second_contact_not_told_witness :
  said (notifyTyping false) ann = [Sent (FTyping "ann" "bob" "typing")] ∧
  said (notifyTyping false) (turn_to "cat" (afterwards (notifyTyping false) ann)) = [].
Proof.
  destruct (second_contact_not_told "bob" "cat" ann ltac:(done) ltac:(done) eq_refl eq_refl
              ltac:(done) ltac:(done)) as (E1 & E2 & _).
  split; [exact E1|exact E2].
Defined.
