(* ===== verification/WitnessesSession.v ===== *)
(** * Concrete runs: files received, connections, logins *)

From S2P Require Import Prelude Platform Kdf Ratchet X3dh CryptoBox Toy Persist.
From S2P Require Import MessageModel UserModel HistoryStore Localization Accounts.
From S2P Require Import Settings.
From S2P Require Import FileCrypto Chat Recovery Messenger Rekey Sending Verification.
From S2P Require Import Receiving Tls Session Effects TransferFacts SessionFacts.
From S2P Require Import HandshakeFacts SwitchFacts Samples WitnessesMessenger.

Import ChatClient Messenger Rekey Sending Verification Receiving Session.

(** ** A network *)
#[export] Instance toy_network : Tls.QNetwork := {
  Tls.url_scheme u := "wss";
  Tls.url_host u := u;
  Tls.host_address h := if String.eqb h "192.168.1.7" then Some (Tls.IPv4 0xC0A80107) else None;
  Tls.isLoopback a := false;
  Tls.isLinkLocal a := false;
}.

#[export] Instance toy_certificates : Tls.QCertificates := { Tls.from_pem b := [] }.

Definition lab_root : Tls.Certificate := Tls.mkCert ["lab"] ["lab"] "aa".

Lemma lab_anchor_is_local_witness :
  lab_root ∈ Tls.caCertificates (Tls.sslConfigurationFor [] [lab_root] "192.168.1.7") ↔
  lab_root ∈ ([] : list Tls.Certificate)
  ∨ lab_root ∈ [lab_root] ∧ Tls.on_local_network (trimmed (Tls.url_host "192.168.1.7")).
Proof.
  eapply (Tls.lab_anchor_is_local [] [lab_root] "192.168.1.7"); [|reflexivity].
  intros v [= <-]. by split.
Defined.

(** ** A file from [ann] to [bob] *)
Definition file_key : bytes := toy_key 70.
Definition file_id : string := "0123456789abcdef0123456789abcdef0123".
Definition file_data : bytes := toy_key 71.
Definition file_stream : FileCrypto := (initPush file_key (toy_key 72) (newFile ss_zero)).2.
Definition file_wire : WireFrame :=
  match (encrypt "bob" (hexStr file_key) ann).1.1 with
  | Encrypted w => w
  | _ => mkWire "" "" 0 0 "" ""
  end.

Lemma ann_sends : sending ann "bob" file_id file_data file_key file_stream file_wire.
Proof.
  split.
  - exists (toy_key 72). by_run.
  - by_run.
  - by_run.
  - by_run.
Qed.

Lemma bob_waits : awaiting bob (self ann) file_key file_wire.
Proof. split; [by_run..|done]. Qed.

Lemma file_arrives_intact_witness :
  let i := announcement ann "bob" "notes" file_id file_data file_stream file_wire in
  let out := deliver_all (file_frames
               (announce_file "bob" "notes" file_id file_data file_key file_stream ann).2) bob in
  received i file_data out.2 (transfers out.1.2).
Proof.
  apply (file_arrives_intact (eq (A := bytes)) ann "bob" "notes" file_id file_data file_key
    file_stream file_wire bob ann_sends bob_waits).
Defined.

(** Only the announcement and the end come. *)
Lemma cut_file_accepted_witness :
  let frames := file_frames
    (announce_file "bob" "notes" file_id file_data file_key file_stream ann).2 in
  let out := deliver_all (take 1 frames ++ [FFileEnd file_id]) bob in
  ∃ got, got `prefix_of` file_data ∧ length got < length file_data ∧
    received (announcement ann "bob" "notes" file_id file_data file_stream file_wire) got
      out.2 (transfers out.1.2) ∧ untroubled out.2.
Proof.
  apply (cut_file_accepted (eq (A := bytes)) ann "bob" "notes" file_id file_data file_key
    file_stream file_wire bob 0 ann_sends bob_waits).
  by apply Nat.ltb_lt; vm_compute.
Defined.

Definition with_file : Chat :=
  set_transfers (mkTransfers ∅ {[file_id := "data/temp"]} {["data/temp" := file_data]}) bob.

Lemma save_is_complete_witness :
  on_disk "notes.txt" (saveReceivedFile file_id "notes.txt" "" with_file).1.2 = Some file_data.
Proof. apply (save_is_complete file_id "notes.txt" "" "data/temp"); by_run. Defined.

(** ** Logging in and out *)
Definition plain_texts : Localization.State := Localization.newState ∅ ∅ ∅ ∅.

Definition up (pw : string) : App :=
  mkApp ann (mkNet "wss://relay" false 1000 None true "") (mkCredentials false pw "" "" "")
    (mkGuard true false false "") (mkDevice ∅ ∅ "").

(** The same device, with a conversation flagged and a queue. *)
Definition up_flagged : App :=
  mkApp (mkChat (set_queue [queued] (client ann)) (flagged_gate "bob") quiet_pcs quiet_link
           quiet_transfers 0)
    (net (up "")) (mkCredentials false "secret" "" "" "") (mkGuard true true false "")
    (device (up "")).

Lemma logout_forgets_witness :
  run_session plain_texts [SaltTimer] (logout (up "other")).1.2
  = run_session plain_texts [SaltTimer] (logout up_flagged).1.2.
Proof. apply (logout_forgets plain_texts (up "other") up_flagged). reflexivity. Defined.

Lemma ended_session_stays_ended_witness :
  Forall (λ e, reaches_out e = false)
    (run_session plain_texts
       [Disconnected 4002; ReconnectTimer; SaltTimer; AuthSalt (Some "ab"); Disconnected 1006]
       (up "secret")).2.
Proof.
  apply (ended_session_stays_ended plain_texts (up "secret") (Disconnected 4002)).
  - right. by exists 4002%Z.
  - by repeat constructor.
Defined.

(** ** Connections *)
Definition no_answer : nat → bool := λ _, true.
Definition plain_connection : Connection :=
  mkConnection (Tls.mkNegotiated Tls.Tls1_3 None None "") no_answer no_answer no_answer
    [] [] [] (λ _, []) (λ _, []) 5000 5000.

Lemma backoff_schedule_witness :
  m_reconnectTimer (net (run_session plain_texts
    (Connected plain_connection :: ([1006; 1006; 1006]%Z ≫= retry) ++ [Disconnected 1006])
    (up "secret")).1.2) = Some 8000%Z.
Proof.
  etransitivity; [apply (backoff_schedule plain_texts plain_connection [1006; 1006; 1006]%Z 1006)|];
    [done|by repeat constructor|by_run].
Defined.

Definition saved_salt : string := hexStr (take 16 (toy_key 3)).
Definition up_salted : App :=
  mkApp ann (net (up "")) (cred (up "secret")) (guard (up ""))
    (mkDevice {[saltKey "ann" := VText saved_salt]} ∅ "").

Lemma same_verifier_everywhere_witness :
  hl_pw <$> hellos (onAuthSalt None up_salted).2
  = hl_pw <$> hellos (onAuthSalt (Some saved_salt) (up "secret")).2.
Proof.
  destruct (same_verifier_everywhere up_salted (up "secret") "secret" saved_salt) as (E1 & E2 & E3);
    [by_run..|]. etransitivity; [exact E1|symmetry; exact E3].
Defined.

Lemma late_salt_second_hello_witness :
  length (hellos (run_session plain_texts [SaltTimer; AuthSalt (Some saved_salt)] (up "secret")).2) = 2.
Proof.
  destruct (late_salt_second_hello plain_texts (up "secret") (Some saved_salt)) as [E1 _];
    [by_run..|exact E1].
Defined.

Lemma birthday_refusal_reconnects_witness :
  SocketOpened "wss://relay" ∈
    (run_session plain_texts [Disconnected 4003; ReconnectTimer] (up "secret")).2.
Proof.
  destruct (birthday_refusal_reconnects plain_texts (up "secret") []) as [E1 _];
    [done|done|by constructor|exact E1].
Defined.

(** ** The next user *)
Definition plain_login : Circumstances :=
  mkCircumstances ["base"] ["keys"] true no_answer true true (toy_key 40)
    (λ _, Accounts.mkAttempt [] [] None) true true (λ _, no_answer) true (λ _, true) [] [] (2026, 1, 1)%Z.

(** [ann] with a young signed prekey and a pool of nine. *)
Definition stock : gmap Z bytes :=
  list_to_map ((λ n, (Z.of_nat n, toy_key (90 + Z.of_nat n))) <$> seq 0 9).
Definition ann_box : CryptoBox :=
  set_pool stock 9%Z (set_spk (toy_key 8) (toy_base (toy_key 8)) [] 4000%Z (box ann)).
Definition stocked_up : App :=
  set_chat (mkChat (set_crypto ann_box (client ann)) (gate ann) (pcs ann) (link ann)
              (transfers ann) 0) (up "secret").

Lemma next_user_publishes_nothing_witness :
  prekeys_of (box (chat (run_session plain_texts
    [Logout; Register plain_login "wss://relay" "eve" "pw" ""] stocked_up).1.2))
  = prekeys_of ann_box.
Proof.
  destruct (next_user_publishes_nothing plain_texts plain_login "wss://relay" "eve" "pw"
    (Register plain_login "wss://relay" "eve" "pw" "") plain_connection stocked_up) as [E1 _];
    [right; by exists ""|by_run|exact E1].
Defined.

Lemma login_forgets_attestations_witness :
  trusted (run_session plain_texts
    [Logout; Login plain_login "wss://relay" "ann" "secret"] (up "secret")).1.2 = ∅.
Proof.
  apply (login_forgets_attestations plain_texts plain_login "wss://relay" "ann" "secret" (up "secret")).
Defined.
