(* ===== verification/WitnessesShell.v ===== *)
(** * Concrete runs: the log handler, the vault of Android, the tray icon, the texts *)

From S2P Require Import Prelude Platform X3dh Toy Localization LogHandler Texts Bridge.

(** ** The log handler *)

(** A record logged before the log screen exists, which is then created. *)
Definition early_log : LogHandler.State :=
  LogHandler.mkState
    (LogHandler.create (LogHandler.print ("hello", "debug") (LogHandler.shared LogHandler.start)))
    [(("hello", "debug"), LogHandler.Looking)].

Lemma records_conserved_witness :
  LogHandler.reachable early_log ∧
  [("hello", "debug")] ≡ₚ LogHandler.accounted (LogHandler.shared early_log)
                            ++ LogHandler.all_held (LogHandler.calls early_log).
Proof.
  assert (LogHandler.reachable early_log) as Hr.
  { eapply rtc_l; [apply (LogHandler.step_call ("hello", "debug"))|].
    eapply rtc_l; [eapply (LogHandler.step_handler 0 ("hello", "debug")); reflexivity|].
    eapply rtc_l; [apply LogHandler.step_create|]. apply rtc_refl. }
  split; [exact Hr|exact (proj1 (LogHandler.records_conserved early_log Hr))].
Defined.

(** ** The texts *)
Lemma every_text_translated_witness :
  Localization.m_en (Texts.built ∅) !! "online" = Some "online" ∧
  Localization.tIn Localization.Finnish "online" (Texts.built ∅) ≠ "".
Proof.
  assert (Localization.m_en (Texts.built ∅) !! "online" = Some "online") as Hv by by vm_compute.
  split; [exact Hv|].
  exact (proj1 (proj2 (Texts.every_text_translated ∅ Localization.Finnish "online" "online" Hv))).
Defined.

(** ** The vault of Android *)

(** A key is one octet; sealing puts it in front. *)
#[export] Instance toy_keystore : Keystore := {
  Key := Byte.byte;
  generateKey n := byte_of_Z (Z.of_nat n);
  doSeal k iv p := Some (k :: p);
  doOpen k iv c := match c with
                   | b :: p => if decide (b = k) then Some p else None
                   | [] => None
                   end;
}.

#[export] Instance toy_keystore_laws : KeystoreLaws.
Proof. split. intros k iv p ct [= <-]. cbn. by rewrite decide_True. Qed.

#[export] Instance toy_java : JavaText := {
  java_getBytes := toUtf8;
  java_newString := fromUtf8;
  GetStringUTFChars := toUtf8;
}.

Definition phone : AndroidLock.Device := AndroidLock.mkDevice 34 true true false.

Definition fresh_phone : AndroidLock.State :=
  AndroidLock.mkState true "" None None None None 0 false [] [].

Definition ann_enrolled : AndroidLock.State :=
  AndroidLock.authorise 0 (AndroidLock.enrollLogin phone true "ann" "secret" [] fresh_phone).

Lemma android_vault_roundtrip_witness :
  AndroidLock.posted
    (AndroidLock.authorise 0 (AndroidLock.loginWithBiometric phone true "ann" ann_enrolled))
  = [AndroidLock.onBiometricLoginUnlocked "ann" "secret"].
Proof.
  refine (proj2 (proj2 (AndroidLock.android_vault_roundtrip phone "ann" "secret" []
            (byte_of_Z 0 :: toUtf8 "secret") fresh_phone _ _ _)));
    [by split|reflexivity|reflexivity].
Defined.

Lemma cancelled_enrolment_breaks_vault_witness :
  AndroidLock.hasLoginEnrolled phone "ann" ann_enrolled = true ∧
  let s1 := AndroidLock.dismiss 0 (AndroidLock.enrollLogin phone true "bob" "other" [] ann_enrolled) in
  AndroidLock.hasLoginEnrolled phone "ann" s1 = true ∧
  AndroidLock.posted (AndroidLock.authorise 0 (AndroidLock.loginWithBiometric phone true "ann" s1)) = [].
Proof.
  assert (AndroidLock.hasLoginEnrolled phone "ann" ann_enrolled = true) as He by reflexivity.
  split; [exact He|].
  destruct (AndroidLock.cancelled_enrolment_breaks_vault phone "ann" "bob" "other" [] []
              (byte_of_Z 0 :: toUtf8 "secret") ann_enrolled ltac:(by split) He
              eq_refl eq_refl eq_refl) as (E1 & _ & E2 & _).
  split; [exact E1|exact E2].
Defined.
