(* ===== verification/WitnessesTalk.v ===== *)
(** * Concrete runs: two clients in conversation *)

From S2P Require Import Prelude Platform Ratchet CryptoBox CryptoBoxFacts Toy Chat.
From S2P Require Import Messenger.
From S2P Require Import TalkFacts MeetFacts Samples WitnessesMessenger.

Import ChatClient Messenger.

(** A world whose draws are told apart by the octet they repeat, from [k] on. *)
Definition world (k : Z) : Oracle := {|
  clock_at i := (1000 * k + Z.of_nat i)%Z;
  octets_at i n := replicate n (byte_of_Z (k + Z.of_nat i));
  answer_at i := true;
  uuid_at i := "id" +:+ String (Ascii.ascii_of_nat (65 + i)) "";
  date_at i := "1 January 2026";
  file_at i path := None;
|}.

Lemma world_drawn k i :
  (0 ≤ k ≤ 156)%Z → i < 100 →
  length (@octets_at (world k) i 32) = 32
  ∧ byte_val (nth 1 (@drawn _ (world k) i) Byte.x00) = (k + Z.of_nat i)%Z.
Proof.
  intros Hk Hi. split; [done|]. unfold drawn. cbn. rewrite byte_val_of_Z, Z.mod_small; lia.
Qed.

Lemma world_fresh k : (0 ≤ k ≤ 156)%Z → @fresh_draws _ (world k) 100.
Proof.
  intros Hk. split; [intros i Hi; by apply world_drawn|].
  intros i j Hi Hj E1%(f_equal (λ b, byte_val (nth 1 b Byte.x00))).
  rewrite (proj2 (world_drawn k i Hk Hi)), (proj2 (world_drawn k j Hk Hj)) in E1. lia.
Qed.

(** Two clients that hold each other's keys and have never spoken. *)
Lemma client_meets nick peer mine theirs k :
  nick ≠ peer → peer ≠ "" → length mine = 32 → length theirs = 32 →
  (byte_val (nth 1 (toy_base mine) Byte.x00) < 40 ≤ k)%Z → (k ≤ 156)%Z →
  @meets _ _ (world k) 100 nick peer (toy_base mine) (toy_base theirs)
    (chat_of quiet_gate (client_of nick peer mine theirs)).
Proof.
  intros Hn Hp Hm Ht Hb Hk. split; try done.
  - exists (hexStr (toy_base theirs)). split; [apply lookup_insert_eq|apply unhexStr_hexStr].
  - split; [by rewrite toy_base_length|apply lookup_insert_eq].
  - intros i [_ Hi] E1%(f_equal (λ b, byte_val (nth 1 b Byte.x00))).
    rewrite (proj2 (world_drawn k i ltac:(lia) Hi)) in E1. lia.
Qed.

(** A question, an answer, and a last word. *)
Lemma conversation_shown_witness :
  ∃ x' y' log,
    talk (world 40) (world 140)
      [(true, "how are you?"); (false, "fine"); (true, "good")]%string ann bob = Some (x', y') ∧
    map fst log = [("ann", "how are you?"); ("bob", "fine"); ("ann", "good")]%string ∧
    m_messages (client x') = m_messages (client ann) ++ shown "ann" log ∧
    m_messages (client y') = m_messages (client bob) ++ shown "bob" log.
Proof.
  apply (conversation_shown (world 40) (world 140) 100 "ann" "bob" (toy_base ann_key)
           (toy_base bob_key) "how are you?" [(false, "fine"); (true, "good")]%string ann bob).
  - by apply world_fresh.
  - by apply world_fresh.
  - by repeat constructor.
  - by apply Nat.leb_le; by_run.
  - by apply Nat.leb_le; by_run.
  - by_run.
  - by apply client_meets; try by_run.
  - by apply client_meets; try by_run.
  - by_run.
Defined.
